(* ===== verification/_CoqProject ===== *)
-Q . S2P
Prelude.v
Binary.v
GoNet.v
DataTypes.v
Wire.v
Message.v
BaseMessages.v
SessionMessages.v
S13.v
Commands.v
Framing.v
PortPool.v
DraAvp.v
DraNode.v
DraTheorems.v
DraLife.v
ConnPool.v
DraPool.v
Server.v
ServerTheorems.v
ClientConn.v
ClientTheorems.v
ClientRuns.v
ClientLife.v
ClientPool.v
ClientSetup.v
Client.v
ConnManager.v
AddrPool.v
AddrClient.v
Gateway.v
ServerConn.v
Handshake.v
ServerConnHandshake.v
GoText.v
ProtoParser.v
ProtoTheorems.v
ProtoText.v
ProtoReads.v
Generator.v
GeneratorTheorems.v
GeneratedCode.v
GeneratedTheorems.v
GeneratedS13.v
AppConfig.v
GatewayMain.v
IdentityCheck.v
ClientExamples.v
PoolExamples.v
ManagerExamples.v
AddrExamples.v
ServerExamples.v
ServerConnExamples.v
ProtoExamples.v
ConfigExamples.v
RequestExamples.v
GeneratorExamples.v
