(* ===== verification/Prelude.v ===== *)
(** * Verification of diam-gw, a Diameter gateway in Go

    ** The program

    diam-gw speaks the Diameter base protocol (RFC 6733) between logic
    applications, gateways and routing agents (DRAs).  Its parts, as modelled
    here:

    - the codec: AVP data types ([models_base/]), the generated messages of
      the base protocol ([commands/base/diameter.pb.go]), the cutting of a TCP
      stream into messages ([pkg/connection/message.go], [dra/peer.go],
      [server/connection.go]);
    - the routing agent ([dra/]): a registry of peers, a table of pending
      requests, and the rewriting of messages on their way through;
    - the client ([client/]): one connection with its handshake, watchdog and
      reconnection, pools of connections to one agent, pools of agents with
      priorities, pools with one connection per address, and the source ports
      they dial from ([pkg/portpool]);
    - the server ([server/]): an accept loop, a serving loop per connection,
      handlers and middlewares, counters;
    - the gateways ([gateway/], [client/gateway.go]) on top of both;
    - the code generator ([codegen/], [cmd/diameter-codegen]), which reads
      proto files and prints the messages of the codec.

    They meet in these places: every part reads and writes messages through
    the codec; a client connection takes its source ports from the port pool
    (the class [PortSource] of ClientConn, implemented in ClientPool); a
    connection pool sends on connections (the class [ConnOps] of ConnPool,
    implemented in ClientPool), and a pool of agents holds connection pools;
    client and server meet over a stream of bytes (Handshake); every generated
    message implements the classes [WireMessage] and [WireCommand] of Message.

    ** The files

    - Prelude, Binary, GoNet: bytes, machine integers, outcomes of Go code,
      record update, sums over maps and tactics; big-endian integers and
      reads that check their bounds; the functions of Go's [net] and [fmt] that
      the code calls.
    - DataTypes ([models_base]), Wire (headers, AVPs, the loop of the
      generated [Unmarshal] methods, the two other header parsers), Message
      (what every message shares), BaseMessages (CER, CEA, DWR, DWA, DPR, DPA
      and the groups they contain, one Module per Go struct), SessionMessages
      (Re-Auth, Session-Termination, Abort-Session, Accounting), S13
      (ME-Identity-Check), Commands (what holds of all of them), Framing.
    - PortPool ([pkg/portpool]).
    - DraAvp ([dra/avp.go]), DraNode ([dra/node.go], [peer.go], [route.go],
      [start.go]), DraTheorems; DraLife starts and stops the node, and has its
      log ([StartNode], [Stop], [log]).
    - ConnPool ([client/connection_pool.go]), DraPool ([client/dra_pool.go]).
    - ClientConn ([client/connection.go], [state.go], [config.go]), its
      properties in ClientTheorems (source ports), ClientRuns (failures,
      watchdog, waiters, [Close]) and ClientLife (an abstract specification of
      the life cycle and the refinement); ClientPool puts the port pool, the
      connections and the pools together, ClientSetup builds them from their
      configurations; Client ([client/client.go]) is the client with a
      request-response interface on such a pool.
    - ConnManager ([pkg/connmanager]): one connection per agent and interface,
      all of them on one port pool.
    - AddrPool ([client/address_pool.go]), AddrClient
      ([client/address_client.go]), Gateway ([gateway/gateway.go] and
      [client/gateway.go]).
    - Server ([server/server.go], [middleware.go],
      [pkg/connection/connection.go]), ServerTheorems, Handshake.
    - ServerConn ([server/connection.go]): the buffered connection with a
      reader, a writer and a processor; ServerConnHandshake carries a CER
      through it.
    - GoText (Go's [strings], [strconv] and [bufio] on text), ProtoParser
      ([codegen/parser.go] and its use in [cmd/diameter-codegen]),
      ProtoTheorems (its invariant, references), ProtoText (proto files as
      data) and ProtoReads (the parser reads them).
    - Generator ([codegen/generator.go]): the text that [Generate] and
      [GenerateConstants] print from a parser; GeneratorTheorems on the text;
      GeneratedCode, the meaning of the printed methods for any definition, and
      GeneratedTheorems on it; GeneratedS13 links it with the module S13, which
      translates such code from the repository.
    - AppConfig ([internal/config], [pkg/config/env]), GatewayMain
      ([cmd/gateway/main.go]): from a loaded configuration to a running
      gateway, through Gateway, AddrPool and ClientSetup; IdentityCheck is the
      handler of requests that [main] registers, on AddrClient.
    - ClientExamples, PoolExamples, ManagerExamples, AddrExamples,
      ServerExamples, ServerConnExamples, ProtoExamples, ConfigExamples,
      RequestExamples, GeneratorExamples: concrete runs at which the properties
      hold, and runs that show a defect.

    A Go function keeps its name.  Functions without shared state are Rocq
    functions; those that can fail return an [outcome], in which a panic is a
    value; a component with goroutines is a record of its shared state and a
    function [step] (or a relation, where the environment decides more than a
    result) that lets one goroutine go from one point where it can wait, or be
    overtaken, to the next.  What the environment decides (the result of a
    dial, a read or a write, the clock, random numbers, the order of [range]
    over a map, the case a [select] takes) is an argument of the step, so that
    a theorem about all runs covers all of its choices.

    An index or a slice expression of the decoders, of the header readers, of
    the loop over AVPs and of the routing agent's walk over them is a read that
    panics out of range (Binary); that no panic occurs follows from the guards
    of the code.  A slice expression that Go allows beyond the length, up to the
    capacity, counts as out of range: no guard relies on spare capacity.

    Some steps are coarser than the Go code, which could be overtaken inside
    them: what the routing agent does with one framed message, the send on a
    peer's connection included (DraNode.step); a tick of the watchdog from
    [registerPending] to the send, and the closing and rescheduling after a
    failure (ClientConn.tick, handleFailure); the additions to the counters for
    one message of the server (Server.serve).  Interleavings inside such a step
    are not covered.

    ** What is proved

    - Codec: values, AVPs and the sixteen messages are read back as they were
      written; decoding never reads out of range nor panics otherwise, and its loop
      ends on every input; the three header parsers agree; the readers cut a stream exactly into the
      messages that were written to it.
    - Source ports: no port is handed out twice or before its quarantine
      ends; a connection only uses ports it holds, and no two connections of
      a manager ever use one port.
    - Routing agent: the registry holds exactly the admitted connections;
      what becomes of every request (which error, or which peer), byte for
      byte; answers go back to the sender of their request, at most once;
      what a [Stop] closes and what it leaves open.
    - Client: a run of a connection refines the life-cycle specification; one
      reconnect loop at a time; bounded backoff; waiters get answers with
      their own identifier; round-robin, priorities and construction of the
      pools; one establishment per address, calls that return after a
      bounded number of steps and are never stuck, whether or not their contexts
      end; responses that match their requests.  The request-response client: which
      configurations give one, its counters account for every call and for
      every message of each interface and command, and each received message is
      handed to one call, in the order of arrival.
    - Server: counters that agree at all levels, a bounded number of
      connections, every message starting its handler, recovery from panics;
      the handshake of client and server carried through both.  The buffered
      connection handles what it reads in order, matches answers to the calls
      of [SendRequest], opens on a CER, and never returns from [Close] once a
      goroutine of its own waits for it.
    - Proto files: a text that writes a list of declarations is parsed to what
      they mean; from any text the parser builds well-formed values; the
      resolution of references does not depend on the order of a map, and the
      files of a directory share one set of definitions.
    - Generator: its text does not depend on the order of a map; the
      identifiers that the methods name are declared, with the codes of their
      definitions;
      every message made from a definition is read back as it was written, and
      S13's request is what the generator makes of [proto/s13.proto].
    - Gateways: session counters that follow the table of sessions;
      applications that do not affect one another; which validated
      configurations give a running gateway, and that each setting of its parts
      is the configured one; what becomes of an agent's request, and that its answer
      carries its identifier.

    ** Bounds and fuel

    Recursion on a byte stream (the AVP loop [scan], [readLoop], [scan_ports])
    takes fuel; the callers give the length of the input plus one, and
    [scan_terminates] and the theorems on the readers show that this is
    enough: no result depends on fuel running out.  The methods of GeneratedCode
    take the depth of nested groups as fuel; the well-formedness of a message
    ([message_wf]) says that its groups are no deeper.  Machine integers are [Z]
    with the conversions of this file written where Go converts or wraps.
    Durations and times are nanoseconds in [Z]; [float64] backoff factors are
    the Standard Library's [spec_float].

    ** Not modelled

    Logging, metrics for export ([pkg/metrics]), TLS, deadlines of sockets
    (their effect, a failed read or write, is an argument), and [String()]
    methods.  The messages of [commands/cx], [s6a] and [sh] and the groups that
    only they contain have no modules of their own; they are printed by the
    generator, and GeneratedTheorems holds of what it prints for any
    definition.  Of the generator, what it prints as tests and benchmarks,
    [format.Source] and the writing of files are left out; proto files are taken
    to be ASCII text.  Memory is unbounded: the capacity of a channel is no argument of its creation.
    What viper makes of files and variables is an argument of [Load];
    [pkg/config], simulators ([simulator/]) and service registration
    ([pkg/governance]) are I/O around the parts modelled here. *)

From Stdlib Require Import ZArith Lia.
From Stdlib Require Strings.Byte.
From stdpp Require Export base gmap list strings sorting.

#[global] Open Scope Z_scope.

(** ** Bytes

    A Go [byte] is a [Byte.byte]; a Go [string] or [\[\]byte] is a list of them. *)

Abbreviation byte := Byte.byte.
Abbreviation bytes := (list Byte.byte).

(** The value 0..255 of a byte, and Go's conversion [byte(v)], which keeps
    the low eight bits. *)
Definition byteZ (b : byte) : Z := Z.of_N (Byte.to_N b).
Definition Zbyte (v : Z) : byte :=
  match Byte.of_N (Z.to_N (v mod 256)) with Some b => b | None => Byte.x00 end.

Lemma byteZ_bound (b : byte) : 0 <= byteZ b < 256.
Proof. unfold byteZ. pose proof (Byte.to_N_bounded b). lia. Qed.

Lemma Zbyte_byteZ (b : byte) : Zbyte (byteZ b) = b.
Proof. by destruct b. Qed.

Lemma byteZ_Zbyte (v : Z) : byteZ (Zbyte v) = v mod 256.
Proof.
  unfold Zbyte, byteZ.
  pose proof (Z.mod_pos_bound v 256 ltac:(lia)) as Hv.
  destruct (Byte.of_N _) as [b|] eqn:E.
  - apply Byte.to_of_N in E. rewrite E. lia.
  - apply Byte.of_N_None_iff in E. lia.
Qed.

Lemma byteZ_inj (a b : byte) : byteZ a = byteZ b -> a = b.
Proof. intros H. by rewrite <- (Zbyte_byteZ a), H, Zbyte_byteZ. Qed.

#[export] Instance byte_eq_dec : EqDecision byte := Byte.byte_eq_dec.

#[export] Program Instance byte_countable : Countable byte :=
  {| encode b := encode (Byte.to_N b);
     decode p := n ← decode p; Byte.of_N n |}.
Next Obligation. by intros []. Qed.

(** A Go string literal. *)
Definition gostr (s : String.string) : bytes := String.list_byte_of_string s.

Lemma gostr_inj s1 s2 : gostr s1 = gostr s2 -> s1 = s2.
Proof.
  unfold gostr. intros He. rewrite <- (String.string_of_list_byte_of_string s1), He.
  apply String.string_of_list_byte_of_string.
Qed.

(** ** Machine integers *)

(** A value of Go's [uint8], [uint16], [uint32], [uint64], [int32], [int64]
    and [int] (64-bit) types. *)
Definition u8 (v : Z) : Prop := 0 <= v < 2 ^ 8.
Definition u16 (v : Z) : Prop := 0 <= v < 2 ^ 16.
Definition u24 (v : Z) : Prop := 0 <= v < 2 ^ 24.
Definition u32 (v : Z) : Prop := 0 <= v < 2 ^ 32.
Definition u64 (v : Z) : Prop := 0 <= v < 2 ^ 64.
Definition i32 (v : Z) : Prop := - 2 ^ 31 <= v < 2 ^ 31.
Definition i64 (v : Z) : Prop := - 2 ^ 63 <= v < 2 ^ 63.

(** The conversions to those types: wrap-around. *)
Definition to_u32 (v : Z) : Z := v mod 2 ^ 32.
Definition to_u64 (v : Z) : Z := v mod 2 ^ 64.
Definition to_i32 (v : Z) : Z := (v + 2 ^ 31) mod 2 ^ 32 - 2 ^ 31.
Definition to_i64 (v : Z) : Z := (v + 2 ^ 63) mod 2 ^ 64 - 2 ^ 63.

Lemma to_u32_u32 v : u32 (to_u32 v).
Proof. apply Z.mod_pos_bound. lia. Qed.
Lemma to_u64_u64 v : u64 (to_u64 v).
Proof. apply Z.mod_pos_bound. lia. Qed.
Lemma to_u32_id v : u32 v -> to_u32 v = v.
Proof. apply Z.mod_small. Qed.
Lemma to_u64_id v : u64 v -> to_u64 v = v.
Proof. apply Z.mod_small. Qed.
Lemma to_i32_id v : i32 v -> to_i32 v = v.
Proof. unfold i32, to_i32. intros. rewrite Z.mod_small; lia. Qed.
Lemma to_i64_id v : i64 v -> to_i64 v = v.
Proof. unfold i64, to_i64. intros. rewrite Z.mod_small; lia. Qed.

(** Signed and unsigned conversions of one width undo each other. *)
Lemma to_i32_u32 v : i32 v -> to_i32 (to_u32 v) = v.
Proof.
  intros Hv. rewrite <- (to_i32_id v Hv) at 2. unfold to_i32, to_u32.
  by rewrite Zplus_mod_idemp_l.
Qed.
Lemma to_i64_u64 v : i64 v -> to_i64 (to_u64 v) = v.
Proof.
  intros Hv. rewrite <- (to_i64_id v Hv) at 2. unfold to_i64, to_u64.
  by rewrite Zplus_mod_idemp_l.
Qed.

(** ** Outcomes of Go code

    A Go function that returns [(T, error)] yields [Ok] or [Err]; one that
    panics (an index out of range, a failed type assertion, a nil
    dereference, a send on a closed channel) yields [Panic]. *)
Inductive outcome (E A : Type) : Type :=
| Ok (a : A)
| Err (e : E)
| Panic.
Arguments Ok {E A} a.
Arguments Err {E A} e.
Arguments Panic {E A}.

Definition obind {E A B : Type} (f : A -> outcome E B) (m : outcome E A) : outcome E B :=
  match m with Ok a => f a | Err e => Err e | Panic => Panic end.

Definition omap_err {E F A : Type} (f : E -> F) (m : outcome E A) : outcome F A :=
  match m with Ok a => Ok a | Err e => Err (f e) | Panic => Panic end.

Declare Scope outcome_scope.
Delimit Scope outcome_scope with outcome.
Notation "'try' x <- m ;; k" := (obind (fun x => k) m)
  (at level 100, x pattern, m at next level, right associativity) : outcome_scope.

Lemma obind_Ok {E A B} (f : A -> outcome E B) m b :
  obind f m = Ok b -> exists a, m = Ok a /\ f a = Ok b.
Proof. destruct m; cbn; intros; simplify_eq; eauto. Qed.

(** ** Record update

    [r <| f := v |>] is the record [r] with its field [f] replaced by [v], and
    [r <| f ::= g |>] the one with [g] applied to it: the assignments
    [r.f = v] of the code.  The setter of a projection is synthesised when it
    is used. *)
Class Setter {R E : Type} (proj : R -> E) := set_field : (E -> E) -> R -> R.

Ltac expand_record R :=
  let e := constr:(ltac:(
      let r := fresh "r" in
      intros r; unshelve eexists; [econstructor; destruct r|destruct r; reflexivity])
    : forall r : R, { r' : R | r' = r }) in
  lazymatch e with
  | fun r => exist _ (@?w r) _ => w
  end.

Ltac head_of t :=
  lazymatch t with
  | ?f _ => head_of f
  | _ => t
  end.

Ltac solve_setter R E proj :=
  let w := expand_record R in
  let h := head_of proj in
  let g := fresh "g" in
  let r := fresh "r" in
  intros g r;
  let whole := eval cbv beta in (w r) in
  let part := eval cbv beta delta [h] in (proj r) in
  lazymatch whole with
  | context C [part] => let new := context C [g part] in exact new
  end.

#[export] Hint Extern 1 (@Setter ?R ?E ?proj) => unfold Setter; solve_setter R E proj : typeclass_instances.

Notation "r <| proj := v |>" := (set_field (proj := proj) (fun _ => v) r)
  (at level 1, left associativity, proj constr at next level, v constr at level 99,
   format "r  <|  proj  :=  v  |>").
Notation "r <| proj ::= g |>" := (set_field (proj := proj) g r)
  (at level 1, left associativity, proj constr at next level, g constr at level 99,
   format "r  <|  proj  ::=  g  |>").

#[global] Arguments set_field : simpl never.

(** Computes the projections of updated records, without unfolding the
    projections of the others. *)
Ltac rsimpl :=
  repeat match goal with
  | |- context [?p (@set_field ?R ?E ?q ?s ?g ?r)] =>
      first [ constr_eq p q; let v := eval cbv beta in (g (p r)) in
              change (p (@set_field R E q s g r)) with v
            | change (p (@set_field R E q s g r)) with (p r) ]
  end.
Ltac rsimpl_in H :=
  repeat match type of H with
  | context [?p (@set_field ?R ?E ?q ?s ?g ?r)] =>
      first [ constr_eq p q; let v := eval cbv beta in (g (p r)) in
              change (p (@set_field R E q s g r)) with v in H
            | change (p (@set_field R E q s g r)) with (p r) in H ]
  end.
Ltac rsimpl_all :=
  rsimpl; repeat match goal with H : context [set_field _ _] |- _ => progress rsimpl_in H end.

(** ** Tactics *)

(** Case analysis on the first [match]/[if] scrutinee of the goal or of a
    hypothesis, keeping its equation. *)
Ltac case_match_goal :=
  match goal with
  | |- context [match ?x with _ => _ end] => let E := fresh "E" in destruct x eqn:E
  end.
Ltac case_match_in H :=
  match type of H with
  | context [match ?x with _ => _ end] => let E := fresh "E" in destruct x eqn:E
  end.

(** Turns the boolean tests of the code found in hypotheses into
    propositions. *)
Create Rewrite HintDb bool_prop.
#[export] Hint Rewrite Bool.andb_true_iff Bool.andb_false_iff Bool.orb_true_iff
  Bool.orb_false_iff Bool.negb_true_iff Bool.negb_false_iff Z.eqb_eq Z.eqb_neq
  Z.ltb_lt Z.ltb_ge Z.leb_le Z.leb_gt Nat.eqb_eq Nat.eqb_neq bool_decide_eq_true
  bool_decide_eq_false : bool_prop.
Ltac b2p := autorewrite with bool_prop in *.

(** Evaluates the closed bounds of slice expressions. *)
Ltac eval_to_nat :=
  repeat match goal with
  | |- context [Z.to_nat ?e] =>
      let v := eval vm_compute in (Z.to_nat e) in
      lazymatch v with
      | O => idtac
      | S _ => idtac
      end;
      progress change (Z.to_nat e) with v
  end.

(** ** Lists *)

Create Rewrite HintDb lists.
#[export] Hint Rewrite @length_app @length_take @length_drop @length_replicate
  @length_cons @length_nil @length_fmap : lists.

Lemma take_length_app {A} (l k : list A) n : n = length l -> take n (l ++ k) = l.
Proof. intros ->. by rewrite take_app_length. Qed.
Lemma drop_length_app {A} (l k : list A) n : n = length l -> drop n (l ++ k) = k.
Proof. intros ->. by rewrite drop_app_length. Qed.

(** The length of a Go slice or string, an [int]. *)
Definition len {A} (l : list A) : Z := Z.of_nat (length l).

Lemma len_nonneg {A} (l : list A) : 0 <= len l.
Proof. unfold len. lia. Qed.
Lemma len_app {A} (l k : list A) : len (l ++ k) = len l + len k.
Proof. unfold len. rewrite length_app. lia. Qed.
Lemma len_cons {A} (a : A) l : len (a :: l) = 1 + len l.
Proof. unfold len. cbn [length]. lia. Qed.
Lemma len_nil {A} : len (@nil A) = 0.
Proof. done. Qed.
Lemma len_replicate {A} n (a : A) : len (replicate n a) = Z.of_nat n.
Proof. unfold len. by rewrite length_replicate. Qed.
#[export] Hint Rewrite @len_app @len_cons @len_nil @len_replicate : lists.

(** A slice expression [s\[i:j\]] whose bounds are known to be in range. *)
Definition slice {A} (l : list A) (i j : Z) : list A :=
  take (Z.to_nat (j - i)) (drop (Z.to_nat i) l).

Lemma len_slice {A} (l : list A) i j :
  0 <= i <= j -> j <= len l -> len (slice l i j) = j - i.
Proof. unfold len, slice. intros. rewrite length_take, length_drop. lia. Qed.

(** [s\[i:j\]] of a concatenation, read at its seams. *)
Lemma slice_app_mid {A} (l m r : list A) i j :
  i = len l -> j = len l + len m -> slice (l ++ m ++ r) i j = m.
Proof.
  intros -> ->. unfold slice, len.
  rewrite drop_length_app by lia. apply take_length_app. lia.
Qed.
Lemma slice_app_0 {A} (m r : list A) j : j = len m -> slice (m ++ r) 0 j = m.
Proof. intros ->. apply (slice_app_mid []); done. Qed.
Lemma drop_Z_app {A} (l r : list A) n : n = len l -> drop (Z.to_nat n) (l ++ r) = r.
Proof. intros ->. apply drop_length_app. unfold len. lia. Qed.

(** ** Sums over maps *)

Section Sums.
Context {V : Type} (f : V -> Z).

Definition total (m : gmap Z V) : Z := map_fold (fun _ v acc => f v + acc) 0 m.

Lemma total_empty : total ∅ = 0.
Proof. apply map_fold_empty. Qed.

Lemma total_insert k v m : m !! k = None -> total (<[k := v]> m) = f v + total m.
Proof. intros H. unfold total. rewrite map_fold_insert_L; [done| |done]. intros; lia. Qed.

Lemma total_delete k v m : m !! k = Some v -> total m = f v + total (delete k m).
Proof.
  intros H. rewrite <- (insert_delete_id m k v H) at 1.
  by rewrite total_insert by apply lookup_delete_eq.
Qed.

Lemma total_alter k v g m :
  m !! k = Some v -> total (alter g k m) = total m - f v + f (g v).
Proof.
  intros H. rewrite (total_delete k (g v)) by (by rewrite lookup_alter_eq, H).
  rewrite (total_delete k v m H), delete_alter_eq. lia.
Qed.
End Sums.

Lemma total_plus {V} (f g : V -> Z) (m : gmap Z V) : total (fun v => f v + g v) m = total f m + total g m.
Proof.
  induction m as [|k v m Hk IH] using map_ind; [by rewrite !total_empty|]. rewrite !total_insert by done. lia.
Qed.

Lemma total_ext_map {V} (f g : V -> Z) (m : gmap Z V) : map_Forall (fun _ v => f v = g v) m -> total f m = total g m.
Proof.
  induction m as [|k v m Hk IH] using map_ind; [by rewrite !total_empty|]. intros [H1 H2]%map_Forall_insert; [|done].
  rewrite !total_insert by done. by rewrite H1, IH.
Qed.

Lemma total_nonneg {V} (f : V -> Z) (m : gmap Z V) : (forall v, 0 <= f v) -> 0 <= total f m.
Proof.
  intros Hf. induction m as [|k v m Hk IH] using map_ind; [by rewrite total_empty|].
  rewrite total_insert by done. specialize (Hf v). lia.
Qed.
