(* ===== verification/Binary.v ===== *)
(** * Big-endian integers: Go's [encoding/binary.BigEndian]

    [be_put n v] is what [PutUint16/32/64] writes for [n = 2, 4, 8] (and the
    three-byte fields of the Diameter header for [n = 3]); [be_get] reads a
    whole byte slice as one unsigned integer, which is what [Uint16/32/64]
    does on a slice of that length.  The two are inverse up to wrap-around. *)

From S2P Require Import Prelude.

Fixpoint be_put (n : nat) (v : Z) : bytes :=
  match n with
  | O => []
  | S n => Zbyte (Z.shiftr v (8 * Z.of_nat n)) :: be_put n v
  end.

Fixpoint be_get_acc (acc : Z) (l : bytes) : Z :=
  match l with
  | [] => acc
  | b :: l => be_get_acc (acc * 256 + byteZ b) l
  end.

Definition be_get (l : bytes) : Z := be_get_acc 0 l.

(** ** Reading a slice

    What Go checks when it runs: an index or a slice expression out of range
    panics.  A slice expression may reach past the length up to the capacity;
    here it panics past the length, so that a theorem that excludes the panic
    holds of a slice of any capacity. *)

(** [b\[i\]]. *)
Definition index {E} (b : bytes) (i : nat) : outcome E Z :=
  match b !! i with Some x => Ok (byteZ x) | None => Panic end.

(** [b\[i:j\]] and [b\[i:\]]. *)
Definition slice_expr {E} (b : bytes) (i j : Z) : outcome E bytes :=
  if (0 <=? i) && (i <=? j) && (j <=? len b) then Ok (slice b i j) else Panic.
Definition slice_from {E} (b : bytes) (i : Z) : outcome E bytes :=
  if (0 <=? i) && (i <=? len b) then Ok (drop (Z.to_nat i) b) else Panic.

(** [binary.BigEndian.Uint16(b)], [Uint32(b)] and [Uint64(b)]: panic on fewer
    than two, four and eight bytes. *)
Definition Uint16 {E} (b : bytes) : outcome E Z :=
  if Z.leb 2 (len b) then Ok (be_get (take 2 b)) else Panic.
Definition Uint32 {E} (b : bytes) : outcome E Z :=
  if Z.leb 4 (len b) then Ok (be_get (take 4 b)) else Panic.
Definition Uint64 {E} (b : bytes) : outcome E Z :=
  if Z.leb 8 (len b) then Ok (be_get (take 8 b)) else Panic.

(** [Uint32(b\[i:i+4\])], and [Uint32(\[\]byte{0, b\[i\], b\[i+1\], b\[i+2\]})]. *)
Definition Uint32_at {E} (b : bytes) (i : Z) : outcome E Z :=
  (try s <- slice_expr b i (i + 4) ;; Uint32 s)%outcome.
Definition Uint24_at {E} (b : bytes) (i : nat) : outcome E Z :=
  (try x <- index b i ;; try y <- index b (i + 1) ;; try z <- index b (i + 2) ;;
   Uint32 [Byte.x00; Zbyte x; Zbyte y; Zbyte z])%outcome.

(** ** Laws *)

Lemma be_put_length n v : length (be_put n v) = n.
Proof. induction n; cbn; congruence. Qed.

Lemma be_put_len n v : len (be_put n v) = Z.of_nat n.
Proof. unfold len. by rewrite be_put_length. Qed.

Lemma be_get_acc_spec l acc :
  be_get_acc acc l = acc * 256 ^ len l + be_get_acc 0 l.
Proof.
  revert acc. induction l as [|b l IH]; intros acc; cbn [be_get_acc].
  - change (len []) with 0. lia.
  - rewrite IH, (IH (0 * 256 + byteZ b)), len_cons.
    rewrite Z.pow_add_r by (pose proof (len_nonneg l); lia). ring.
Qed.

Lemma be_get_cons b l : be_get (b :: l) = byteZ b * 256 ^ len l + be_get l.
Proof. unfold be_get. cbn [be_get_acc]. rewrite be_get_acc_spec. lia. Qed.

Lemma be_get_bound l : 0 <= be_get l < 256 ^ len l.
Proof.
  induction l as [|b l IH]; [by cbn|].
  rewrite be_get_cons, len_cons, Z.pow_add_r by (pose proof (len_nonneg l); lia).
  pose proof (byteZ_bound b). nia.
Qed.

Lemma be_get_put n v : be_get (be_put n v) = v mod 256 ^ Z.of_nat n.
Proof.
  induction n as [|n IH]; [cbn; by rewrite Z.mod_1_r|].
  cbn [be_put]. rewrite be_get_cons, IH, be_put_len, byteZ_Zbyte.
  rewrite Z.shiftr_div_pow2 by lia.
  replace (2 ^ (8 * Z.of_nat n)) with (256 ^ Z.of_nat n)
    by (by rewrite Z.pow_mul_r by lia).
  rewrite Nat2Z.inj_succ, Z.pow_succ_r by lia.
  rewrite (Z.mul_comm 256), Z.rem_mul_r by lia. lia.
Qed.

(** Only the low [n] bytes of a value are written. *)
Lemma be_put_high n k u w :
  (n <= k)%nat -> be_put n (u * 256 ^ Z.of_nat k + w) = be_put n w.
Proof.
  revert k. induction n as [|n IH]; intros k Hk; [done|]. cbn [be_put].
  f_equal; [|apply IH; lia]. apply byteZ_inj. rewrite !byteZ_Zbyte.
  rewrite !Z.shiftr_div_pow2 by lia.
  replace (2 ^ (8 * Z.of_nat n)) with (256 ^ Z.of_nat n)
    by (by rewrite Z.pow_mul_r by lia).
  replace (Z.of_nat k) with (1 + Z.of_nat (k - S n) + Z.of_nat n) by lia.
  rewrite !Z.pow_add_r, Z.mul_assoc, Z.div_add_l, Z.pow_1_r by lia.
  replace (u * (256 * 256 ^ Z.of_nat (k - S n)))
    with (u * 256 ^ Z.of_nat (k - S n) * 256) by ring.
  by rewrite Z.add_comm, Z_mod_plus_full.
Qed.

Lemma be_put_get l : be_put (length l) (be_get l) = l.
Proof.
  induction l as [|b l IH]; [done|]. cbn [length be_put]. f_equal.
  - apply byteZ_inj. rewrite byteZ_Zbyte, Z.shiftr_div_pow2 by lia.
    replace (2 ^ (8 * Z.of_nat (length l))) with (256 ^ len l)
      by (unfold len; by rewrite Z.pow_mul_r by lia).
    rewrite be_get_cons. pose proof (be_get_bound l). pose proof (byteZ_bound b).
    rewrite Z.div_add_l by lia.
    rewrite (Z.div_small (be_get l)) by lia. rewrite Z.mod_small; lia.
  - transitivity (be_put (length l) (be_get l)); [|exact IH].
    rewrite be_get_cons. by apply be_put_high.
Qed.

(** Reading back a field of known width. *)
Lemma be_get_put_id n v : 0 <= v < 256 ^ Z.of_nat n -> be_get (be_put n v) = v.
Proof. intros. rewrite be_get_put. by apply Z.mod_small. Qed.

Lemma be_put_get_n n l : length l = n -> be_put n (be_get l) = l.
Proof. intros <-. apply be_put_get. Qed.

Lemma be_get_put4 v : u32 v -> be_get (be_put 4 v) = v.
Proof. intros. by apply be_get_put_id. Qed.
Lemma be_get_put3 v : u24 v -> be_get (be_put 3 v) = v.
Proof. intros. by apply be_get_put_id. Qed.
Lemma be_get_put8 v : u64 v -> be_get (be_put 8 v) = v.
Proof. intros. by apply be_get_put_id. Qed.

Lemma be_get_u32 l : length l = 4%nat -> u32 (be_get l).
Proof. intros H. pose proof (be_get_bound l) as B. unfold len in B. by rewrite H in B. Qed.
Lemma be_get_u24 l : length l = 3%nat -> u24 (be_get l).
Proof. intros H. pose proof (be_get_bound l) as B. unfold len in B. by rewrite H in B. Qed.
Lemma be_get_u64 l : length l = 8%nat -> u64 (be_get l).
Proof. intros H. pose proof (be_get_bound l) as B. unfold len in B. by rewrite H in B. Qed.

(** [PutUint32] of a value wider than the field it is read back from keeps
    the low bytes: the three-byte length fields are written this way. *)
Lemma be_put_4_tail v : tail (be_put 4 v) = be_put 3 v.
Proof. done. Qed.

Lemma be_put_mod n v : be_put n (v mod 256 ^ Z.of_nat n) = be_put n v.
Proof.
  rewrite <- be_get_put. rewrite <- (be_put_length n v) at 1. apply be_put_get.
Qed.

#[export] Hint Rewrite be_put_len be_put_length : lists.

(** Keep the two opaque to [simpl] and [cbn]: proofs use the laws. *)
#[global] Arguments be_put : simpl never.
#[global] Arguments be_get : simpl never.

(** ** In range *)

(** A byte of a slice known to be long enough. *)
Definition at_ (b : bytes) (i : nat) : Z := byteZ (nth i b Byte.x00).

Lemma index_ok {E} b i : (i < length b)%nat -> index (E := E) b i = Ok (at_ b i).
Proof.
  intros H. unfold index, at_. apply lookup_lt_is_Some in H as [x Hx]. rewrite Hx.
  f_equal. f_equal. symmetry. apply nth_lookup_Some. exact Hx.
Qed.

Lemma slice_expr_ok {E} b i j : 0 <= i <= j -> j <= len b -> slice_expr (E := E) b i j = Ok (slice b i j).
Proof. intros H1 H2. unfold slice_expr. by rewrite !(proj2 (Z.leb_le _ _)) by lia. Qed.

Lemma slice_from_ok {E} b i : 0 <= i <= len b -> slice_from (E := E) b i = Ok (drop (Z.to_nat i) b).
Proof. intros H. unfold slice_from. by rewrite !(proj2 (Z.leb_le _ _)) by lia. Qed.

Lemma Uint32_ok {E} b : len b = 4 -> Uint32 (E := E) b = Ok (be_get b).
Proof. intros H. unfold Uint32, len in *. rewrite H. cbn. by rewrite take_ge by lia. Qed.

Lemma Uint64_ok {E} b : len b = 8 -> Uint64 (E := E) b = Ok (be_get b).
Proof. intros H. unfold Uint64, len in *. rewrite H. cbn. by rewrite take_ge by lia. Qed.

Lemma Uint16_ok {E} b : len b = 2 -> Uint16 (E := E) b = Ok (be_get b).
Proof. intros H. unfold Uint16, len in *. rewrite H. cbn. by rewrite take_ge by lia. Qed.

Lemma Uint32_at_ok {E} b i : 0 <= i -> i + 4 <= len b -> Uint32_at (E := E) b i = Ok (be_get (slice b i (i + 4))).
Proof.
  intros H1 H2. unfold Uint32_at. rewrite slice_expr_ok by lia. cbn [obind].
  apply Uint32_ok. rewrite len_slice by lia. lia.
Qed.

Lemma Uint24_at_ok {E} b i :
  Z.of_nat i + 3 <= len b ->
  Uint24_at (E := E) b i = Ok (be_get (Byte.x00 :: slice b (Z.of_nat i) (Z.of_nat i + 3))).
Proof.
  intros H. unfold len in H. unfold Uint24_at. rewrite !index_ok by lia. cbn [obind].
  rewrite Uint32_ok by done. unfold at_. rewrite !Zbyte_byteZ. do 3 f_equal. unfold slice.
  rewrite Nat2Z.id. replace (Z.to_nat (Z.of_nat i + 3 - Z.of_nat i)) with 3%nat by lia.
  rewrite <- (take_drop i b) at 1 2 3. assert (length (take i b) = i) as Hl by (rewrite length_take; lia).
  rewrite !app_nth2 by lia. rewrite Hl.
  replace (i - i)%nat with 0%nat by lia. replace (i + 1 - i)%nat with 1%nat by lia. replace (i + 2 - i)%nat with 2%nat by lia.
  assert (3 <= length (drop i b))%nat as Hd by (rewrite length_drop; lia).
  by destruct (drop i b) as [|x [|y [|z d]]]; cbn in Hd; try lia.
Qed.
