(* ===== verification/GoNet.v ===== *)
(** * [net.ParseIP]

    The function of Go's standard library that the server and the client's
    configuration use, as [net/netip] implements it. *)

From S2P Require Import Prelude Binary.

Definition is_digit (c : Z) : bool := (48 <=? c) && (c <=? 57).
Definition is_dot (c : Z) : bool := c =? 46.
Definition is_colon (c : Z) : bool := c =? 58.

(** [parseIPv4Fields]: one pass over the characters with the octets read so
    far, the value and the number of digits of the current one. *)
Fixpoint parseIPv4Fields (s : list Z) (fields : list Z) (val digLen : Z) : option (list Z) :=
  match s with
  | [] => if (len fields <? 3) || (digLen =? 0) then None else Some (fields ++ [val])
  | c :: s =>
      if is_digit c then
        if (digLen =? 1) && (val =? 0) then None
        else
          let val := val * 10 + (c - 48) in
          if 255 <? val then None else parseIPv4Fields s fields val (digLen + 1)
      else if is_dot c then
        if (digLen =? 0) || (len fields =? 3) then None
        else parseIPv4Fields s (fields ++ [val]) 0 0
      else None
  end.

Definition hex_digit (c : Z) : option Z :=
  if is_digit c then Some (c - 48)
  else if (97 <=? c) && (c <=? 102) then Some (c - 97 + 10)
  else if (65 <=? c) && (c <=? 70) then Some (c - 65 + 10)
  else None.

(** The hexadecimal digits at the head of [s]: their value, how many there
    are, and the rest; [None] when there are more than four. *)
Fixpoint hex_group (s : list Z) (acc off : Z) : option (Z * Z * list Z) :=
  match s with
  | c :: s' =>
      match hex_digit c with
      | Some d => if 3 <? off then None else hex_group s' (acc * 16 + d) (off + 1)
      | None => Some (acc, off, s)
      end
  | [] => Some (acc, off, [])
  end.

(** The loop of [parseIPv6] over at most eight groups: the bytes read, the
    position of the ellipsis, and what was not read. *)
Fixpoint ipv6_groups (fuel : nat) (s : list Z) (ip : list Z) (ellipsis : option Z)
  : option (list Z * option Z * list Z) :=
  match fuel with
  | O => Some (ip, ellipsis, s)
  | S fuel =>
      match hex_group s 0 0 with
      | None => None
      | Some (acc, off, rest) =>
          if off =? 0 then None
          else if bool_decide (head rest = Some 46) then
            if bool_decide (ellipsis = None) && negb (len ip =? 12) then None
            else if 16 <? len ip + 4 then None
            else match parseIPv4Fields s [] 0 0 with
                 | Some fields => Some (ip ++ fields, ellipsis, [])
                 | None => None
                 end
          else
            let ip := ip ++ [acc / 256; acc mod 256] in
            match rest with
            | [] => Some (ip, ellipsis, [])
            | c :: rest =>
                if negb (is_colon c) then None
                else match rest with
                     | [] => None
                     | c :: rest' =>
                         if is_colon c then
                           if bool_decide (ellipsis <> None) then None
                           else match rest' with
                                | [] => Some (ip, Some (len ip), [])
                                | _ => ipv6_groups fuel rest' ip (Some (len ip))
                                end
                         else ipv6_groups fuel rest ip ellipsis
                     end
            end
      end
  end.

(** An address with a zone is not one for [ParseIP]. *)
Definition parseIPv6 (s : list Z) : option (list Z) :=
  if existsb (Z.eqb 37) s then None
  else
    let '(start, s) :=
      match s with
      | 58 :: 58 :: s => (Some 0, s)
      | _ => (None, s)
      end in
    if bool_decide (start = Some 0) && (len s =? 0) then Some (replicate 16 0)
    else match ipv6_groups 8 s [] start with
         | Some (ip, ellipsis, []) =>
             if len ip <? 16 then
               match ellipsis with
               | None => None
               | Some e =>
                   Some (take (Z.to_nat e) ip ++ replicate (16 - length ip) 0 ++ drop (Z.to_nat e) ip)
               end
             else if bool_decide (ellipsis <> None) then None else Some ip
         | _ => None
         end.

(** The first of ['.'], [':'] and ['%'] tells the family. *)
Fixpoint ip_family (s : list Z) : option Z :=
  match s with
  | [] => None
  | c :: s => if is_dot c || is_colon c || (c =? 37) then Some c else ip_family s
  end.

(** [net.ParseIP]: the sixteen bytes of the address, or [nil]. *)
Definition ParseIP (str : bytes) : bytes :=
  let s := map byteZ str in
  match ip_family s with
  | Some 46 =>
      match parseIPv4Fields s [] 0 0 with
      | Some fields => replicate 10 Byte.x00 ++ [Byte.xff; Byte.xff] ++ map Zbyte fields
      | None => []
      end
  | Some 58 => match parseIPv6 s with Some ip => map Zbyte ip | None => [] end
  | _ => []
  end.

(** A dotted address followed by a port is no address. *)
Lemma parseIPv4Fields_colon s fields val digLen :
  58 ∈ s -> parseIPv4Fields s fields val digLen = None.
Proof.
  revert fields val digLen. induction s as [|c s IH]; [by intros ??? ?%elem_of_nil|].
  intros fields val digLen [<-|Hs]%elem_of_cons; [done|]. cbn [parseIPv4Fields].
  repeat case_match; auto.
Qed.

Lemma ParseIP_dotted_port str :
  ip_family (map byteZ str) = Some 46 -> 58 ∈ map byteZ str -> ParseIP str = [].
Proof. intros H1 H2. unfold ParseIP. by rewrite H1, parseIPv4Fields_colon. Qed.

Example ParseIP_v4 : ParseIP (gostr "10.0.0.1") =
  replicate 10 Byte.x00 ++ map Zbyte [255; 255; 10; 0; 0; 1].
Proof. vm_compute. reflexivity. Qed.
Example ParseIP_v6 : ParseIP (gostr "fe80::1:2") =
  map Zbyte [254; 128; 0; 0; 0; 0; 0; 0; 0; 0; 0; 0; 0; 1; 0; 2].
Proof. vm_compute. reflexivity. Qed.
Example ParseIP_port :
  ParseIP (gostr "0.0.0.0:3868") = [] /\ ParseIP (gostr ":3868") = [] /\
  ParseIP (gostr "[::1]:3868") = [].
Proof. vm_compute. done. Qed.

(** * [net.SplitHostPort] *)

(** The position of the first and of the last [c] in [s]. *)
Fixpoint index_byte (c : Z) (s : list Z) (i : Z) : option Z :=
  match s with
  | [] => None
  | x :: s => if x =? c then Some i else index_byte c s (i + 1)
  end.
Fixpoint last_index_byte (c : Z) (s : list Z) (i : Z) : option Z :=
  match s with
  | [] => None
  | x :: s =>
      match last_index_byte c s (i + 1) with
      | Some j => Some j
      | None => if x =? c then Some i else None
      end
  end.

(** The host and the port, or the error. *)
Definition SplitHostPort (hostport : bytes) : option (bytes * bytes) :=
  let s := map byteZ hostport in
  match last_index_byte 58 s 0 with
  | None => None
  | Some i =>
      let parts :=
        if bool_decide (head s = Some 91) then
          match index_byte 93 s 0 with
          | None => None
          | Some e => if e + 1 =? i then Some (slice hostport 1 e, 1, e + 1) else None
          end
        else
          match index_byte 58 (slice s 0 i) 0 with
          | Some _ => None
          | None => Some (slice hostport 0 i, 0, 0)
          end in
      match parts with
      | None => None
      | Some (host, j, k) =>
          match index_byte 91 (drop (Z.to_nat j) s) 0, index_byte 93 (drop (Z.to_nat k) s) 0 with
          | None, None => Some (host, drop (Z.to_nat (i + 1)) hostport)
          | _, _ => None
          end
      end
  end.

(** [fmt.Sscanf(s, "%d", &v)]: the sign and the digits at the head of [s],
    after spaces; [None] leaves [v] as it was. *)
Fixpoint digits (s : list Z) (acc : Z) (n : Z) : Z * Z :=
  match s with
  | c :: s => if is_digit c then digits s (acc * 10 + (c - 48)) (n + 1) else (acc, n)
  | [] => (acc, n)
  end.
Fixpoint skip_spaces (s : list Z) : list Z :=
  match s with
  | c :: s' => if c =? 32 then skip_spaces s' else s
  | [] => []
  end.
Definition scan_int (str : bytes) : option Z :=
  let s := skip_spaces (map byteZ str) in
  let '(neg, s) :=
    match s with
    | 45 :: s => (true, s)
    | 43 :: s => (false, s)
    | _ => (false, s)
    end in
  let '(v, n) := digits s 0 0 in
  let v := if neg : bool then - v else v in
  if (n =? 0) || (v <? - 2 ^ 63) || (2 ^ 63 <=? v) then None else Some v.

Example SplitHostPort_examples :
  SplitHostPort (gostr "10.0.0.1:3868") = Some (gostr "10.0.0.1", gostr "3868") /\
  SplitHostPort (gostr "[::1]:3868") = Some (gostr "::1", gostr "3868") /\
  SplitHostPort (gostr "::1:3868") = None /\ SplitHostPort (gostr "dra") = None /\
  SplitHostPort (gostr "dra:") = Some (gostr "dra", []).
Proof. vm_compute. done. Qed.
