(* ===== verification/DataTypes.v ===== *)
(** * The AVP data types ([src/models_base])

    [Value] is a Go interface value of [models_base.Type]: the constructor is
    the dynamic type, the argument its contents.  Strings and byte slices are
    lists of bytes, integers are [Z], a float is its IEEE-754 bit pattern
    ([math.Float32bits] and [math.Float32frombits] are inverse casts), a
    [Time] is the Unix second count that the codec reads and writes.  Each Go
    type has its four methods; the methods of the interface dispatch on the
    constructor.  [String()] (formatting for logs) is not modelled. *)

From S2P Require Import Prelude Binary.

(** ** Type identifiers ([datatype.go]) *)

Abbreviation TypeID := Z (only parsing).
Definition UnknownType : TypeID := 0.
Definition AddressType : TypeID := 1.
Definition DiameterIdentityType : TypeID := 2.
Definition DiameterURIType : TypeID := 3.
Definition EnumeratedType : TypeID := 4.
Definition Float32Type : TypeID := 5.
Definition Float64Type : TypeID := 6.
Definition GroupedType : TypeID := 7.
Definition IPFilterRuleType : TypeID := 8.
Definition IPv4Type : TypeID := 9.
Definition Integer32Type : TypeID := 10.
Definition Integer64Type : TypeID := 11.
Definition OctetStringType : TypeID := 12.
Definition QoSFilterRuleType : TypeID := 13.
Definition TimeType : TypeID := 14.
Definition UTF8StringType : TypeID := 15.
Definition Unsigned32Type : TypeID := 16.
Definition Unsigned64Type : TypeID := 17.
Definition IPv6Type : TypeID := 18.

(** [Available]: the type names a proto file may use. *)
Definition Available : gmap bytes TypeID := list_to_map [
  (gostr "Address", AddressType);
  (gostr "DiameterIdentity", DiameterIdentityType);
  (gostr "DiameterURI", DiameterURIType);
  (gostr "Enumerated", EnumeratedType);
  (gostr "Float32", Float32Type);
  (gostr "Float64", Float64Type);
  (gostr "Grouped", GroupedType);
  (gostr "IPFilterRule", IPFilterRuleType);
  (gostr "IPv4", IPv4Type);
  (gostr "IPv6", IPv6Type);
  (gostr "Integer32", Integer32Type);
  (gostr "Integer64", Integer64Type);
  (gostr "OctetString", OctetStringType);
  (gostr "QoSFilterRule", QoSFilterRuleType);
  (gostr "Time", TimeType);
  (gostr "UTF8String", UTF8StringType);
  (gostr "Unsigned32", Unsigned32Type);
  (gostr "Unsigned64", Unsigned64Type)].

(** ** Values *)

Inductive Value : Type :=
| VUnknown (s : bytes)
| VAddress (addr : bytes)
| VDiameterIdentity (s : bytes)
| VDiameterURI (s : bytes)
| VEnumerated (n : Z)
| VFloat32 (bits : Z)
| VFloat64 (bits : Z)
| VGrouped (g : bytes)
| VIPFilterRule (s : bytes)
| VIPv4 (ip : bytes)
| VIPv6 (ip : bytes)
| VInteger32 (n : Z)
| VInteger64 (n : Z)
| VOctetString (s : bytes)
| VQoSFilterRule (s : bytes)
| VTime (unix : Z)
| VTimePtr (unix : Z) (* a [*Time], which also has the methods of [Time] *)
| VUTF8String (s : bytes)
| VUnsigned32 (n : Z)
| VUnsigned64 (n : Z).

#[export] Instance Value_eq_dec : EqDecision Value.
Proof. solve_decision. Defined.

(** ** [pad.go] *)

(** [n + ((4 - n) & 3)] on Go's 64-bit [int]. *)
Definition pad4 (n : Z) : Z := to_i64 (n + Z.land (to_i64 (4 - n)) 3).

(** The padding of a variable-length type: [pad4(l) - l]. *)
Definition pad_of (s : bytes) : Z := let l := len s in to_i64 (pad4 l - l).

(** ** Go's [net.IP] (standard library) *)

Definition v4InV6Prefix : bytes := replicate 10 Byte.x00 ++ [Byte.xff; Byte.xff].

(** [IP.To4] and [IP.To16]: [None] is the nil slice. *)
Definition To4 (ip : bytes) : option bytes :=
  if len ip =? 4 then Some ip
  else if (len ip =? 16) && bool_decide (take 12 ip = v4InV6Prefix)
  then Some (drop 12 ip) else None.
Definition To16 (ip : bytes) : option bytes :=
  if len ip =? 4 then Some (v4InV6Prefix ++ ip)
  else if len ip =? 16 then Some ip else None.

(** ** Byte-string types *)

Inductive decode_error : Type :=
| ErrUnknownDataType (t : TypeID)
| ErrAddressTooShort (n : Z)
| ErrAddressType
| ErrIPv4Length
| ErrIPv6Length.

Abbreviation decoded := (outcome decode_error Value).

Definition DecodeUnknown (b : bytes) : decoded := Ok (VUnknown b).
Definition Unknown_Serialize (u : bytes) : bytes := u.
Definition Unknown_Len (u : bytes) : Z := len u.
Definition Unknown_Padding (u : bytes) : Z := pad_of u.
Definition Unknown_Type : TypeID := UnknownType.

Definition DecodeOctetString (b : bytes) : decoded := Ok (VOctetString b).
Definition OctetString_Serialize (s : bytes) : bytes := s.
Definition OctetString_Len (s : bytes) : Z := len s.
Definition OctetString_Padding (s : bytes) : Z := pad_of s.
Definition OctetString_Type : TypeID := OctetStringType.

Definition DecodeUTF8String (b : bytes) : decoded := Ok (VUTF8String b).
Definition UTF8String_Serialize (s : bytes) : bytes := OctetString_Serialize s.
Definition UTF8String_Len (s : bytes) : Z := len s.
Definition UTF8String_Padding (s : bytes) : Z := pad_of s.
Definition UTF8String_Type : TypeID := UTF8StringType.

Definition DecodeDiameterIdentity (b : bytes) : decoded := Ok (VDiameterIdentity b).
Definition DiameterIdentity_Serialize (s : bytes) : bytes := s.
Definition DiameterIdentity_Len (s : bytes) : Z := len s.
Definition DiameterIdentity_Padding (s : bytes) : Z := pad_of s.
Definition DiameterIdentity_Type : TypeID := DiameterIdentityType.

Definition DecodeDiameterURI (b : bytes) : decoded := Ok (VDiameterURI b).
Definition DiameterURI_Serialize (s : bytes) : bytes := OctetString_Serialize s.
Definition DiameterURI_Len (s : bytes) : Z := len s.
Definition DiameterURI_Padding (s : bytes) : Z := pad_of s.
Definition DiameterURI_Type : TypeID := DiameterURIType.

Definition DecodeIPFilterRule (b : bytes) : decoded := Ok (VIPFilterRule b).
Definition IPFilterRule_Serialize (s : bytes) : bytes := OctetString_Serialize s.
Definition IPFilterRule_Len (s : bytes) : Z := len s.
Definition IPFilterRule_Padding (s : bytes) : Z := pad_of s.
Definition IPFilterRule_Type : TypeID := IPFilterRuleType.

Definition DecodeQoSFilterRule (b : bytes) : decoded := Ok (VQoSFilterRule b).
Definition QoSFilterRule_Serialize (s : bytes) : bytes := OctetString_Serialize s.
Definition QoSFilterRule_Len (s : bytes) : Z := len s.
Definition QoSFilterRule_Padding (s : bytes) : Z := pad_of s.
Definition QoSFilterRule_Type : TypeID := QoSFilterRuleType.

Definition DecodeGrouped (b : bytes) : decoded := Ok (VGrouped b).
Definition Grouped_Serialize (g : bytes) : bytes := g.
Definition Grouped_Len (g : bytes) : Z := len g.
Definition Grouped_Padding (g : bytes) : Z := 0.
Definition Grouped_Type : TypeID := GroupedType.

(** ** Integers and floats *)

Definition DecodeInteger32 (b : bytes) : decoded :=
  if negb (len b =? 4) then Ok (VInteger32 0)
  else (try n <- Uint32 b ;; Ok (VInteger32 (to_i32 n)))%outcome.
Definition Integer32_Serialize (n : Z) : bytes := be_put 4 (to_u32 n).
Definition Integer32_Len (n : Z) : Z := 4.
Definition Integer32_Padding (n : Z) : Z := 0.
Definition Integer32_Type : TypeID := Integer32Type.

Definition DecodeInteger64 (b : bytes) : decoded :=
  if negb (len b =? 8) then Ok (VInteger64 0)
  else (try n <- Uint64 b ;; Ok (VInteger64 (to_i64 n)))%outcome.
Definition Integer64_Serialize (n : Z) : bytes := be_put 8 (to_u64 n).
Definition Integer64_Len (n : Z) : Z := 8.
Definition Integer64_Padding (n : Z) : Z := 0.
Definition Integer64_Type : TypeID := Integer64Type.

Definition DecodeUnsigned32 (b : bytes) : decoded :=
  if negb (len b =? 4) then Ok (VUnsigned32 0)
  else (try n <- Uint32 b ;; Ok (VUnsigned32 n))%outcome.
Definition Unsigned32_Serialize (n : Z) : bytes := be_put 4 n.
Definition Unsigned32_Len (n : Z) : Z := 4.
Definition Unsigned32_Padding (n : Z) : Z := 0.
Definition Unsigned32_Type : TypeID := Unsigned32Type.

Definition DecodeUnsigned64 (b : bytes) : decoded :=
  if negb (len b =? 8) then Ok (VUnsigned64 0)
  else (try n <- Uint64 b ;; Ok (VUnsigned64 n))%outcome.
Definition Unsigned64_Serialize (n : Z) : bytes := be_put 8 n.
Definition Unsigned64_Len (n : Z) : Z := 8.
Definition Unsigned64_Padding (n : Z) : Z := 0.
Definition Unsigned64_Type : TypeID := Unsigned64Type.

(** [v.(Integer32)]: the type assertion panics on any other dynamic type. *)
Definition DecodeEnumerated (b : bytes) : decoded :=
  match DecodeInteger32 b with
  | Ok (VInteger32 n) => Ok (VEnumerated n)
  | Ok _ | Panic => Panic
  | Err e => Err e
  end.
Definition Enumerated_Serialize (n : Z) : bytes := Integer32_Serialize n.
Definition Enumerated_Len (n : Z) : Z := 4.
Definition Enumerated_Padding (n : Z) : Z := 0.
Definition Enumerated_Type : TypeID := EnumeratedType.

Definition DecodeFloat32 (b : bytes) : decoded :=
  if negb (len b =? 4) then Ok (VFloat32 0)
  else (try n <- Uint32 b ;; Ok (VFloat32 n))%outcome.
Definition Float32_Serialize (bits : Z) : bytes := be_put 4 bits.
Definition Float32_Len (bits : Z) : Z := 4.
Definition Float32_Padding (bits : Z) : Z := 0.
Definition Float32_Type : TypeID := Float32Type.

Definition DecodeFloat64 (b : bytes) : decoded :=
  if negb (len b =? 8) then Ok (VFloat64 0)
  else (try n <- Uint64 b ;; Ok (VFloat64 n))%outcome.
Definition Float64_Serialize (bits : Z) : bytes := be_put 8 bits.
Definition Float64_Len (bits : Z) : Z := 8.
Definition Float64_Padding (bits : Z) : Z := 0.
Definition Float64_Type : TypeID := Float64Type.

(** ** Time ([time.go]) *)

Definition rfc868offset : Z := 2208988800.
Definition rfc2030offset : Z := 2085978496.

(** [time.Time{}], January 1 of year 1, as a Unix time. *)
Definition zero_time : Z := -62135596800.

(** A slice of the wrong length yields [&Time{}]: a pointer, not a [Time]. *)
Definition DecodeTime (b : bytes) : decoded :=
  if negb (len b =? 4) then Ok (VTimePtr zero_time)
  else
    (try ts <- Uint32 b ;;
     try b0 <- index b 0 ;;
     if Z.shiftr b0 7 =? 0
     then Ok (VTime (to_i64 (ts + rfc2030offset)))
     else Ok (VTime (to_i64 (ts - rfc868offset))))%outcome.
Definition Time_Serialize (t : Z) : bytes := be_put 4 (to_u32 (to_u32 t + rfc868offset)).
Definition Time_Len (t : Z) : Z := 4.
Definition Time_Padding (t : Z) : Z := 0.
Definition Time_Type : TypeID := TimeType.

(** ** IP addresses ([ipv4.go], [ipv6.go], [address.go]) *)

Definition DecodeIPv4 (b : bytes) : decoded :=
  if negb (len b =? 4) then Ok (VIPv4 (replicate 4 Byte.x00)) else Ok (VIPv4 b).
Definition IPv4_Serialize (ip : bytes) : bytes :=
  match To4 ip with Some ip4 => ip4 | None => ip end.
Definition IPv4_Len (ip : bytes) : Z := 4.
Definition IPv4_Padding (ip : bytes) : Z := 0.
Definition IPv4_Type : TypeID := IPv4Type.

Definition DecodeIPv6 (b : bytes) : decoded :=
  if negb (len b =? 16) then Ok (VIPv6 (replicate 16 Byte.x00)) else Ok (VIPv6 b).
Definition IPv6_Serialize (ip : bytes) : bytes :=
  match To16 ip with Some ip6 => ip6 | None => ip end.
Definition IPv6_Len (ip : bytes) : Z := 16.
Definition IPv6_Padding (ip : bytes) : Z := 0.
Definition IPv6_Type : TypeID := IPv6Type.

(** An [Address] holds the bare address of families 1 (IPv4) and 2 (IPv6)
    and the family together with the address of any other. *)
Definition DecodeAddress (b : bytes) : decoded :=
  if len b <? 3 then Err (ErrAddressTooShort (len b))
  else
    (try s <- slice_expr b 0 2 ;;
     try family <- Uint16 s ;;
     if (family =? 0) || (family =? 65535) then Err ErrAddressType
     else if family =? 1 then
       try addr <- slice_from b 2 ;;
       if negb (len addr =? 4) then Err ErrIPv4Length else Ok (VAddress addr)
     else if family =? 2 then
       try addr <- slice_from b 2 ;;
       if negb (len addr =? 16) then Err ErrIPv6Length else Ok (VAddress addr)
     else Ok (VAddress b))%outcome.

Definition Address_Serialize (addr : bytes) : bytes :=
  match To4 addr with
  | Some ip4 => [Byte.x00; Byte.x01] ++ ip4
  | None =>
      match To16 addr with
      | Some _ => [Byte.x00; Byte.x02] ++ take 16 addr
      | None => addr
      end
  end.

Definition Address_Len (addr : bytes) : Z :=
  match To4 addr with
  | Some ip4 => len ip4 + 2
  | None => match To16 addr with Some ip6 => len ip6 + 2 | None => len addr end
  end.

Definition Address_Padding (addr : bytes) : Z :=
  let l := match To4 addr with
           | Some ip4 => len ip4 + 2
           | None => match To16 addr with Some ip6 => len ip6 + 2 | None => len addr end
           end in
  to_i64 (pad4 l - l).
Definition Address_Type : TypeID := AddressType.

(** ** The [Type] interface and the decoder table *)

Definition Serialize (v : Value) : bytes :=
  match v with
  | VUnknown s => Unknown_Serialize s
  | VAddress a => Address_Serialize a
  | VDiameterIdentity s => DiameterIdentity_Serialize s
  | VDiameterURI s => DiameterURI_Serialize s
  | VEnumerated n => Enumerated_Serialize n
  | VFloat32 n => Float32_Serialize n
  | VFloat64 n => Float64_Serialize n
  | VGrouped g => Grouped_Serialize g
  | VIPFilterRule s => IPFilterRule_Serialize s
  | VIPv4 ip => IPv4_Serialize ip
  | VIPv6 ip => IPv6_Serialize ip
  | VInteger32 n => Integer32_Serialize n
  | VInteger64 n => Integer64_Serialize n
  | VOctetString s => OctetString_Serialize s
  | VQoSFilterRule s => QoSFilterRule_Serialize s
  | VTime t | VTimePtr t => Time_Serialize t
  | VUTF8String s => UTF8String_Serialize s
  | VUnsigned32 n => Unsigned32_Serialize n
  | VUnsigned64 n => Unsigned64_Serialize n
  end.

Definition Len (v : Value) : Z :=
  match v with
  | VUnknown s => Unknown_Len s
  | VAddress a => Address_Len a
  | VDiameterIdentity s => DiameterIdentity_Len s
  | VDiameterURI s => DiameterURI_Len s
  | VEnumerated n => Enumerated_Len n
  | VFloat32 n => Float32_Len n
  | VFloat64 n => Float64_Len n
  | VGrouped g => Grouped_Len g
  | VIPFilterRule s => IPFilterRule_Len s
  | VIPv4 ip => IPv4_Len ip
  | VIPv6 ip => IPv6_Len ip
  | VInteger32 n => Integer32_Len n
  | VInteger64 n => Integer64_Len n
  | VOctetString s => OctetString_Len s
  | VQoSFilterRule s => QoSFilterRule_Len s
  | VTime t | VTimePtr t => Time_Len t
  | VUTF8String s => UTF8String_Len s
  | VUnsigned32 n => Unsigned32_Len n
  | VUnsigned64 n => Unsigned64_Len n
  end.

Definition Padding (v : Value) : Z :=
  match v with
  | VUnknown s => Unknown_Padding s
  | VAddress a => Address_Padding a
  | VDiameterIdentity s => DiameterIdentity_Padding s
  | VDiameterURI s => DiameterURI_Padding s
  | VEnumerated n => Enumerated_Padding n
  | VFloat32 n => Float32_Padding n
  | VFloat64 n => Float64_Padding n
  | VGrouped g => Grouped_Padding g
  | VIPFilterRule s => IPFilterRule_Padding s
  | VIPv4 ip => IPv4_Padding ip
  | VIPv6 ip => IPv6_Padding ip
  | VInteger32 n => Integer32_Padding n
  | VInteger64 n => Integer64_Padding n
  | VOctetString s => OctetString_Padding s
  | VQoSFilterRule s => QoSFilterRule_Padding s
  | VTime t | VTimePtr t => Time_Padding t
  | VUTF8String s => UTF8String_Padding s
  | VUnsigned32 n => Unsigned32_Padding n
  | VUnsigned64 n => Unsigned64_Padding n
  end.

Definition TypeOf (v : Value) : TypeID :=
  match v with
  | VUnknown _ => Unknown_Type
  | VAddress _ => Address_Type
  | VDiameterIdentity _ => DiameterIdentity_Type
  | VDiameterURI _ => DiameterURI_Type
  | VEnumerated _ => Enumerated_Type
  | VFloat32 _ => Float32_Type
  | VFloat64 _ => Float64_Type
  | VGrouped _ => Grouped_Type
  | VIPFilterRule _ => IPFilterRule_Type
  | VIPv4 _ => IPv4_Type
  | VIPv6 _ => IPv6_Type
  | VInteger32 _ => Integer32_Type
  | VInteger64 _ => Integer64_Type
  | VOctetString _ => OctetString_Type
  | VQoSFilterRule _ => QoSFilterRule_Type
  | VTime _ | VTimePtr _ => Time_Type
  | VUTF8String _ => UTF8String_Type
  | VUnsigned32 _ => Unsigned32_Type
  | VUnsigned64 _ => Unsigned64_Type
  end.

(** The [Decoder] map: it has no entry for QoSFilterRule nor IPv6. *)
Definition Decoder : gmap TypeID (bytes -> decoded) := list_to_map [
  (UnknownType, DecodeUnknown);
  (AddressType, DecodeAddress);
  (DiameterIdentityType, DecodeDiameterIdentity);
  (DiameterURIType, DecodeDiameterURI);
  (EnumeratedType, DecodeEnumerated);
  (Float32Type, DecodeFloat32);
  (Float64Type, DecodeFloat64);
  (GroupedType, DecodeGrouped);
  (IPFilterRuleType, DecodeIPFilterRule);
  (IPv4Type, DecodeIPv4);
  (Integer32Type, DecodeInteger32);
  (Integer64Type, DecodeInteger64);
  (OctetStringType, DecodeOctetString);
  (TimeType, DecodeTime);
  (UTF8StringType, DecodeUTF8String);
  (Unsigned32Type, DecodeUnsigned32);
  (Unsigned64Type, DecodeUnsigned64)].

Definition Decode (t : TypeID) (b : bytes) : decoded :=
  match Decoder !! t with
  | None => Err (ErrUnknownDataType t)
  | Some f => f b
  end.

(** ** Lemmas *)

(** *** The decoders, without the checks of Go's accesses *)

Lemma DecodeInteger32_eq b :
  DecodeInteger32 b = if negb (len b =? 4) then Ok (VInteger32 0) else Ok (VInteger32 (to_i32 (be_get b))).
Proof. unfold DecodeInteger32. destruct (Z.eqb_spec (len b) 4); [by rewrite Uint32_ok|done]. Qed.
Lemma DecodeInteger64_eq b :
  DecodeInteger64 b = if negb (len b =? 8) then Ok (VInteger64 0) else Ok (VInteger64 (to_i64 (be_get b))).
Proof. unfold DecodeInteger64. destruct (Z.eqb_spec (len b) 8); [by rewrite Uint64_ok|done]. Qed.
Lemma DecodeUnsigned32_eq b :
  DecodeUnsigned32 b = if negb (len b =? 4) then Ok (VUnsigned32 0) else Ok (VUnsigned32 (be_get b)).
Proof. unfold DecodeUnsigned32. destruct (Z.eqb_spec (len b) 4); [by rewrite Uint32_ok|done]. Qed.
Lemma DecodeUnsigned64_eq b :
  DecodeUnsigned64 b = if negb (len b =? 8) then Ok (VUnsigned64 0) else Ok (VUnsigned64 (be_get b)).
Proof. unfold DecodeUnsigned64. destruct (Z.eqb_spec (len b) 8); [by rewrite Uint64_ok|done]. Qed.
Lemma DecodeFloat32_eq b :
  DecodeFloat32 b = if negb (len b =? 4) then Ok (VFloat32 0) else Ok (VFloat32 (be_get b)).
Proof. unfold DecodeFloat32. destruct (Z.eqb_spec (len b) 4); [by rewrite Uint32_ok|done]. Qed.
Lemma DecodeFloat64_eq b :
  DecodeFloat64 b = if negb (len b =? 8) then Ok (VFloat64 0) else Ok (VFloat64 (be_get b)).
Proof. unfold DecodeFloat64. destruct (Z.eqb_spec (len b) 8); [by rewrite Uint64_ok|done]. Qed.

Lemma DecodeTime_eq b :
  DecodeTime b =
    if negb (len b =? 4) then Ok (VTimePtr zero_time)
    else if Z.shiftr (byteZ (default Byte.x00 (head b))) 7 =? 0
    then Ok (VTime (to_i64 (be_get b + rfc2030offset)))
    else Ok (VTime (to_i64 (be_get b - rfc868offset))).
Proof.
  unfold DecodeTime. destruct (Z.eqb_spec (len b) 4) as [H|]; [|done]. cbn [negb].
  rewrite Uint32_ok by done. cbn [obind]. rewrite index_ok by (unfold len in H; lia). by destruct b.
Qed.

Lemma DecodeAddress_eq b :
  DecodeAddress b =
    if len b <? 3 then Err (ErrAddressTooShort (len b))
    else
      let family := be_get (take 2 b) in
      if (family =? 0) || (family =? 65535) then Err ErrAddressType
      else if family =? 1 then
        if negb (len (drop 2 b) =? 4) then Err ErrIPv4Length else Ok (VAddress (drop 2 b))
      else if family =? 2 then
        if negb (len (drop 2 b) =? 16) then Err ErrIPv6Length else Ok (VAddress (drop 2 b))
      else Ok (VAddress b).
Proof.
  unfold DecodeAddress. destruct (Z.ltb_spec (len b) 3) as [|H]; [done|].
  rewrite slice_expr_ok by lia. cbn [obind]. change (slice b 0 2) with (take 2 b).
  rewrite Uint16_ok by (unfold len in *; rewrite length_take; lia). cbn [obind].
  rewrite slice_from_ok by lia. done.
Qed.

Lemma To4_cases ip :
  (To4 ip = Some ip /\ len ip = 4) \/
  (exists ip4, To4 ip = Some ip4 /\ len ip = 16 /\ ip = v4InV6Prefix ++ ip4 /\ len ip4 = 4) \/
  (To4 ip = None /\ len ip <> 4).
Proof.
  unfold To4. destruct (Z.eqb_spec (len ip) 4) as [H4|H4]; [by left|right].
  destruct (Z.eqb_spec (len ip) 16) as [H16|H16]; cbn [andb]; [|by right].
  case_bool_decide as Hp; [left|by right]. exists (drop 12 ip).
  split; [done|]. split; [done|]. rewrite <- Hp, take_drop. split; [done|].
  unfold len in *. rewrite length_drop. lia.
Qed.

Lemma To16_len ip ip6 : To16 ip = Some ip6 -> len ip6 = 16.
Proof.
  unfold To16. destruct (Z.eqb_spec (len ip) 4); intros; simplify_eq.
  - rewrite len_app. change (len v4InV6Prefix) with 12. lia.
  - destruct (Z.eqb_spec (len ip) 16); simplify_eq. done.
Qed.

Lemma land_3_mod n : Z.land n 3 = n mod 4.
Proof. change 3 with (Z.ones 2). by rewrite Z.land_ones by lia. Qed.

(** [pad4] rounds a length up to the next multiple of four. *)
Lemma pad4_spec n :
  0 <= n < 2 ^ 62 -> n <= pad4 n < n + 4 /\ pad4 n mod 4 = 0.
Proof.
  intros Hn. unfold pad4. rewrite (to_i64_id (4 - n)) by (unfold i64; lia).
  rewrite land_3_mod. pose proof (Z.mod_pos_bound (4 - n) 4 ltac:(lia)).
  rewrite to_i64_id by (unfold i64; lia). split; [lia|].
  rewrite Zplus_mod_idemp_r. by replace (n + (4 - n)) with 4 by lia.
Qed.

Lemma pad4_minus_spec n :
  0 <= n < 2 ^ 62 ->
  0 <= to_i64 (pad4 n - n) < 4 /\ (n + to_i64 (pad4 n - n)) mod 4 = 0.
Proof.
  intros Hn. destruct (pad4_spec n Hn) as [Hb Hm].
  rewrite to_i64_id by (unfold i64; lia). split; [lia|].
  by replace (n + (pad4 n - n)) with (pad4 n) by lia.
Qed.

(** The values of the Go types: integers of the declared width, IP slices of
    the declared length, an address that is in the form [DecodeAddress]
    builds (a bare IPv4 address, a bare IPv6 address that is not an IPv4 one
    in disguise, or another family with its number in front and a total
    length that is not that of an IP address), and a time in the 136-year
    window around 1968 that RFC 6733 can express. *)
Definition canonical_address (a : bytes) : Prop :=
  len a = 4 \/
  (len a = 16 /\ take 12 a <> v4InV6Prefix) \/
  (3 <= len a /\ len a <> 4 /\ len a <> 16 /\
   be_get (take 2 a) ∉ [0; 1; 2; 65535]).

Definition time_window (t : Z) : Prop :=
  2 ^ 31 - rfc868offset <= t < 2 ^ 31 + rfc2030offset.

Definition wf_value (v : Value) : Prop :=
  match v with
  | VAddress a => canonical_address a
  | VEnumerated n | VInteger32 n => i32 n
  | VInteger64 n => i64 n
  | VUnsigned32 n | VFloat32 n => u32 n
  | VUnsigned64 n | VFloat64 n => u64 n
  | VIPv4 ip => len ip = 4
  | VIPv6 ip => len ip = 16
  | VTime t => time_window t
  | VTimePtr _ => False
  | _ => True
  end.

(** A value whose type has an entry in [Decoder]. *)
Definition decodable (v : Value) : Prop :=
  match v with VQoSFilterRule _ | VIPv6 _ => False | _ => True end.

Lemma DecodeInteger32_Serialize n : i32 n -> DecodeInteger32 (Integer32_Serialize n) = Ok (VInteger32 n).
Proof.
  intros Hn. unfold Integer32_Serialize. rewrite DecodeInteger32_eq. rewrite be_put_len. cbn.
  rewrite be_get_put4 by apply to_u32_u32. by rewrite to_i32_u32.
Qed.
Lemma DecodeInteger64_Serialize n : i64 n -> DecodeInteger64 (Integer64_Serialize n) = Ok (VInteger64 n).
Proof.
  intros Hn. unfold Integer64_Serialize. rewrite DecodeInteger64_eq. rewrite be_put_len. cbn.
  rewrite be_get_put8 by apply to_u64_u64. by rewrite to_i64_u64.
Qed.
Lemma DecodeUnsigned32_Serialize n : u32 n -> DecodeUnsigned32 (Unsigned32_Serialize n) = Ok (VUnsigned32 n).
Proof.
  intros Hn. unfold Unsigned32_Serialize. rewrite DecodeUnsigned32_eq. rewrite be_put_len. cbn.
  by rewrite be_get_put4.
Qed.
Lemma DecodeUnsigned64_Serialize n : u64 n -> DecodeUnsigned64 (Unsigned64_Serialize n) = Ok (VUnsigned64 n).
Proof.
  intros Hn. unfold Unsigned64_Serialize. rewrite DecodeUnsigned64_eq. rewrite be_put_len. cbn.
  by rewrite be_get_put8.
Qed.
Lemma DecodeEnumerated_Serialize n : i32 n -> DecodeEnumerated (Enumerated_Serialize n) = Ok (VEnumerated n).
Proof.
  intros Hn. unfold DecodeEnumerated, Enumerated_Serialize.
  by rewrite DecodeInteger32_Serialize.
Qed.

Lemma take_12_v4 ip4 : take 12 (v4InV6Prefix ++ ip4) = v4InV6Prefix.
Proof. done. Qed.

Lemma DecodeAddress_Serialize a :
  canonical_address a -> DecodeAddress (Address_Serialize a) = Ok (VAddress a).
Proof.
  unfold Address_Serialize. intros Hc.
  destruct (To4_cases a) as [[-> H]|[(ip4 & -> & H & -> & H4)|[-> H]]].
  - rewrite DecodeAddress_eq. rewrite len_app. change (len [_; _]) with 2.
    rewrite (proj2 (Z.ltb_ge _ _)) by lia. cbn -[len]. rewrite drop_0. by rewrite H.
  - exfalso. destruct Hc as [Hc|[[_ Hc]|(_ & _ & Hc & _)]]; [lia|by apply Hc|lia].
  - destruct Hc as [Hc|[[Hc _]|(H3 & Hn4 & Hn16 & Hf)]]; [lia| |].
    + unfold To16. rewrite (proj2 (Z.eqb_neq _ _) H), Hc. cbn [Z.eqb Pos.eqb].
      replace (take 16 a) with a by (symmetry; apply take_ge; unfold len in Hc; lia).
      rewrite DecodeAddress_eq. rewrite len_app, Hc. change (len [_; _]) with 2.
      cbn -[len]. rewrite drop_0. by rewrite Hc.
    + unfold To16. rewrite (proj2 (Z.eqb_neq _ _) Hn4), (proj2 (Z.eqb_neq _ _) Hn16).
      rewrite DecodeAddress_eq. cbv zeta. rewrite (proj2 (Z.ltb_ge _ _)) by lia.
      assert (forall z, z ∈ [0; 1; 2; 65535] -> (be_get (take 2 a) =? z) = false) as Hz.
      { intros z Hz. apply Z.eqb_neq. intros Heq. apply Hf. by rewrite Heq. }
      rewrite !Hz by set_solver. done.
Qed.

Lemma head_be_put4 w : head (be_put 4 w) = Some (Zbyte (Z.shiftr w 24)).
Proof. done. Qed.

(** The top bit of the first byte tells the two RFC 6733 epochs apart. *)
Lemma be_put4_top_bit w :
  u32 w -> Z.shiftr (byteZ (default Byte.x00 (head (be_put 4 w)))) 7 = w / 2 ^ 31.
Proof.
  intros Hw. rewrite head_be_put4. cbn [from_option id]. rewrite byteZ_Zbyte.
  rewrite !Z.shiftr_div_pow2 by lia. unfold u32 in Hw.
  rewrite (Z.mod_small (w / 2 ^ 24)) by (split; [apply Z.div_pos|apply Z.div_lt_upper_bound]; lia).
  by rewrite Z.div_div by lia.
Qed.

Lemma DecodeTime_Serialize t : time_window t -> DecodeTime (Time_Serialize t) = Ok (VTime t).
Proof.
  rewrite DecodeTime_eq. unfold time_window, Time_Serialize, rfc868offset, rfc2030offset.
  intros Ht. rewrite be_put_len. cbn [Z.of_nat Pos.of_succ_nat Pos.succ Z.eqb Pos.eqb negb].
  rewrite be_put4_top_bit by apply to_u32_u32.
  rewrite be_get_put4 by apply to_u32_u32.
  set (w := to_u32 (to_u32 t + 2208988800)).
  assert (w = (t + 2208988800) mod 2 ^ 32) as Hw
    by (unfold w, to_u32; by rewrite Zplus_mod_idemp_l).
  destruct (decide (t + 2208988800 < 2 ^ 32)) as [Hlt|Hge].
  - rewrite Z.mod_small in Hw by lia.
    assert (w / 2 ^ 31 = 1) as -> by (rewrite Hw; symmetry; apply Z.div_unique with (t + 2208988800 - 2 ^ 31); lia).
    cbn [Z.eqb]. rewrite to_i64_id by (unfold i64; lia). do 2 f_equal. lia.
  - assert (w = t + 2208988800 - 2 ^ 32) as Hw'
      by (rewrite Hw; symmetry; apply Z.mod_unique with 1; lia).
    assert (w / 2 ^ 31 = 0) as -> by (apply Z.div_small; lia).
    cbn [Z.eqb]. rewrite to_i64_id by (unfold i64; lia). do 2 f_equal. lia.
Qed.

Create Rewrite HintDb codec.
#[export] Hint Rewrite DecodeInteger32_Serialize DecodeInteger64_Serialize
  DecodeUnsigned32_Serialize DecodeUnsigned64_Serialize DecodeEnumerated_Serialize
  DecodeAddress_Serialize DecodeTime_Serialize using done : codec.

Lemma Decode_TypeOf_Serialize v :
  wf_value v -> decodable v -> Decode (TypeOf v) (Serialize v) = Ok v.
Proof.
  destruct v as [s|a|s|s|n|n|n|g|s|ip|ip|n|n|s|s|t|t|s|n|n]; intros Hwf Hd; try done.
  - by apply DecodeAddress_Serialize.
  - by apply DecodeEnumerated_Serialize.
  - change (DecodeFloat32 (Float32_Serialize n) = Ok (VFloat32 n)).
    unfold Float32_Serialize. rewrite DecodeFloat32_eq. rewrite be_put_len. cbn -[be_get].
    by rewrite be_get_put4.
  - change (DecodeFloat64 (Float64_Serialize n) = Ok (VFloat64 n)).
    unfold Float64_Serialize. rewrite DecodeFloat64_eq. rewrite be_put_len. cbn -[be_get].
    by rewrite be_get_put8.
  - change (DecodeIPv4 (IPv4_Serialize ip) = Ok (VIPv4 ip)). cbn in Hwf.
    unfold IPv4_Serialize, To4, DecodeIPv4. rewrite Hwf. cbn -[len]. by rewrite Hwf.
  - by apply DecodeInteger32_Serialize.
  - by apply DecodeInteger64_Serialize.
  - by apply DecodeTime_Serialize.
  - by apply DecodeUnsigned32_Serialize.
  - by apply DecodeUnsigned64_Serialize.
Qed.

(** Lengths of serialised values.  An [IPv4] or [IPv6] of another length
    than its type's is sent as it is, so [Len] needs the type's length. *)
Definition len_ok (v : Value) : Prop :=
  match v with
  | VIPv4 ip => len ip = 4 \/ To4 ip <> None
  | VIPv6 ip => To16 ip <> None
  | _ => len (Serialize v) < 2 ^ 62
  end.

Lemma Address_Len_Serialize a : len (Address_Serialize a) = Address_Len a.
Proof.
  unfold Address_Serialize, Address_Len.
  destruct (To4_cases a) as [[-> H]|[(ip4 & -> & _)|[-> H]]];
    [rewrite len_app; change (len [_; _]) with 2; lia..|].
  unfold To16. rewrite (proj2 (Z.eqb_neq _ _) H).
  destruct (Z.eqb_spec (len a) 16) as [H'|H']; [|done].
  rewrite len_app, take_ge by (unfold len in H'; lia).
  change (len [_; _]) with 2. lia.
Qed.

Lemma pad_of_spec s :
  len s < 2 ^ 62 -> 0 <= pad_of s < 4 /\ (len s + pad_of s) mod 4 = 0.
Proof. intros. apply pad4_minus_spec. pose proof (len_nonneg s). lia. Qed.

Lemma len_Serialize v : len_ok v -> len (Serialize v) = Len v.
Proof.
  destruct v; cbn; intros Hl; try done; try apply be_put_len.
  - apply Address_Len_Serialize.
  - unfold IPv4_Serialize, IPv4_Len.
    destruct (To4_cases ip) as [[-> H]|[(ip4 & -> & _ & _ & H)|[E H]]]; [done..|].
    rewrite E in Hl. by destruct Hl.
  - unfold IPv6_Serialize, IPv6_Len.
    destruct (To16 ip) eqn:E; [|done]. by apply To16_len in E.
Qed.

(** The families that [DecodeAddress] keeps as they are. *)
Definition other_family (b : bytes) : Prop := be_get (take 2 b) ∉ [0; 1; 2; 65535].

Lemma DecodeAddress_inv b v :
  DecodeAddress b = Ok v ->
  3 <= len b /\
  ((be_get (take 2 b) = 1 /\ len b = 6 /\ v = VAddress (drop 2 b)) \/
   (be_get (take 2 b) = 2 /\ len b = 18 /\ v = VAddress (drop 2 b)) \/
   (other_family b /\ v = VAddress b)).
Proof.
  rewrite DecodeAddress_eq. unfold other_family. cbv zeta. set (f := be_get (take 2 b)).
  assert (forall n, 3 <= len b -> len (drop 2 b) = n -> len b = n + 2) as Hd.
  { unfold len. intros. rewrite length_drop in *. lia. }
  destruct (Z.ltb_spec (len b) 3); [done|].
  destruct (Z.eqb_spec f 0); [done|]. destruct (Z.eqb_spec f 65535); [done|]. cbn [orb].
  destruct (Z.eqb_spec f 1) as [H1|H1].
  { destruct (Z.eqb_spec (len (drop 2 b)) 4) as [E|E]; [|done]. cbn. intros; simplify_eq.
    apply Hd in E; [|done]. eauto. }
  destruct (Z.eqb_spec f 2) as [H2|H2].
  { destruct (Z.eqb_spec (len (drop 2 b)) 16) as [E|E]; [|done]. cbn. intros; simplify_eq.
    apply Hd in E; [|done]. eauto 6. }
  intros; simplify_eq. split; [done|]. right; right. split; [|done].
  rewrite !elem_of_cons, elem_of_nil. naive_solver.
Qed.

Lemma family_split b f :
  3 <= len b -> be_get (take 2 b) = f -> be_put 2 f ++ drop 2 b = b.
Proof.
  intros H <-. rewrite be_put_get_n; [apply take_drop|].
  unfold len in H. rewrite length_take. lia.
Qed.

(** ** Theorems *)

(** C1: a well-formed value of any type in the decoder table is decoded from
    its own serialisation. *)
Theorem Decode_Serialize v :
  wf_value v -> decodable v -> Decode (TypeOf v) (Serialize v) = Ok v.
Proof. apply Decode_TypeOf_Serialize. Qed.

Lemma Decode_Serialize_witness :
  wf_value (VTime 1700000000) /\
  Decode TimeType (Time_Serialize 1700000000) = Ok (VTime 1700000000).
Proof.
  split; [by vm_compute|]. apply (Decode_Serialize (VTime 1700000000)); by vm_compute.
Defined.

(** [Len] is the number of bytes [Serialize] writes, and [Padding] is the
    number of zero bytes, at most three, that complete them to a multiple of
    four (a [Grouped] value, made of padded AVPs, has none of its own). *)
Theorem Serialize_Len_Padding v :
  len_ok v ->
  len (Serialize v) = Len v /\ 0 <= Padding v < 4 /\
  ((forall g, v <> VGrouped g) -> (Len v + Padding v) mod 4 = 0).
Proof.
  intros Hl. pose proof (len_Serialize v Hl) as Hlen. split; [done|].
  destruct v as [s|a|s|s|n|n|n|g|s|ip|ip|n|n|s|s|t|t|s|n|n]; cbn in *;
    unfold Enumerated_Padding, Float32_Padding, Float64_Padding, IPv4_Padding, IPv6_Padding, Integer32_Padding, Integer64_Padding, Time_Padding, Unsigned32_Padding, Unsigned64_Padding;
    try (split; [lia|done]);
    try (pose proof (pad_of_spec s Hl) as [? ?]; by split).
  - unfold Address_Padding. fold (Address_Len a). rewrite Hlen in Hl.
    pose proof (len_nonneg (Address_Serialize a)).
    destruct (pad4_minus_spec (Address_Len a)) as [? ?]; [lia|by split].
  - split; [done|]. intros H. by edestruct H.
Qed.

Lemma Serialize_Len_Padding_witness :
  len_ok (VOctetString (gostr "abcde")) /\ Padding (VOctetString (gostr "abcde")) = 3 /\
  0 <= Padding (VOctetString (gostr "abcde")) < 4.
Proof.
  split; [by vm_compute|]. split; [by vm_compute|].
  apply (Serialize_Len_Padding (VOctetString (gostr "abcde"))). by vm_compute.
Defined.

(** [Decode] never panics, and fails exactly for a type that has no
    decoder and for a malformed Address. *)
Theorem Decode_fails_iff t b :
  Decode t b <> Panic /\
  ((exists e, Decode t b = Err e) <->
   Decoder !! t = None \/
   (t = AddressType /\ ~ exists v, DecodeAddress b = Ok v)).
Proof.
  assert (DecodeAddress b <> Panic) as Hap.
  { rewrite DecodeAddress_eq. cbv zeta. by repeat case_match_goal. }
  unfold Decode. destruct (Decoder !! t) as [f|] eqn:E;
    [|split; [done|split; [by left|intros _; by eexists]]].
  apply elem_of_list_to_map_2 in E. rewrite !elem_of_cons, elem_of_nil in E.
  assert (t <> AddressType -> exists v, f b = Ok v) as Hok.
  { intros Ht. destruct_or? E; simplify_eq; try done; try (by eexists);
      cbn; unfold DecodeIPv4, DecodeEnumerated; rewrite ?DecodeFloat32_eq, ?DecodeFloat64_eq, ?DecodeInteger32_eq, ?DecodeInteger64_eq, ?DecodeTime_eq, ?DecodeUnsigned32_eq, ?DecodeUnsigned64_eq;
      repeat case_match; simplify_eq; eauto. }
  assert (t = AddressType -> f = DecodeAddress) as Ha.
  { intros ->. by destruct_or? E; simplify_eq. }
  destruct (decide (t = AddressType)) as [->|Ht].
  - rewrite Ha by done. split; [done|]. split.
    + intros [e He]. right. split; [done|]. intros [v Hv]. congruence.
    + intros [?|[_ Hn]]; [done|]. destruct (DecodeAddress b) eqn:Eb; [|by eexists|done].
      destruct Hn. by eexists.
  - destruct (Hok Ht) as [v ->]. split; [done|]. split; [by intros []|].
    intros [?|[? _]]; done.
Qed.

(** An Address that was decoded is sent again as the same bytes, except
    in two cases: an IPv4-mapped IPv6 address is sent as an IPv4 one, and an
    address of another family whose four or sixteen raw bytes look like an
    IP address is sent as one. *)
Theorem DecodeAddress_reencode b a :
  DecodeAddress b = Ok (VAddress a) ->
  (Address_Serialize a = b <->
   ~ (be_get (take 2 b) = 2 /\ take 12 (drop 2 b) = v4InV6Prefix) /\
   ~ (other_family b /\ (len b = 4 \/ len b = 16))).
Proof.
  intros H. apply DecodeAddress_inv in H as (H3 & [(Hf & Hb & H)|[(Hf & Hb & H)|(Hf & H)]]);
    simplify_eq.
  - assert (len (drop 2 b) = 4) as Hd by (unfold len in *; rewrite length_drop; lia).
    unfold Address_Serialize, To4. rewrite Hd. cbn [Z.eqb Pos.eqb].
    split; [|intros _; apply (family_split b 1); done]. intros _. unfold other_family.
    rewrite Hf. split; [lia|set_solver].
  - assert (len (drop 2 b) = 16) as Hd by (unfold len in *; rewrite length_drop; lia).
    unfold Address_Serialize, To4, To16, other_family. rewrite Hd, Hf.
    cbn [Z.eqb Pos.eqb andb]. case_bool_decide as Hp.
    + split; [|naive_solver]. intros He. exfalso. apply (f_equal len) in He.
      rewrite len_app in He. unfold len in *. rewrite !length_drop in *.
      cbn [length] in He. lia.
    + rewrite take_ge by (unfold len in Hd; lia).
      split; [|intros _; apply (family_split b 2); done]. intros _.
      split; [naive_solver|set_solver].
  - unfold Address_Serialize. split.
    + intros He. split; [intros [He2 _]; unfold other_family in Hf; set_solver|].
      intros [_ Hl]. apply (f_equal len) in He.
      destruct (To4_cases b) as [[E ?]|[(ip4 & E & ? & ? & ?)|[E ?]]]; rewrite E in He.
      * rewrite len_app in He. change (len [_; _]) with 2 in He. lia.
      * rewrite len_app in He. change (len [_; _]) with 2 in He. lia.
      * destruct Hl as [Hl|Hl]; [done|]. unfold To16 in He. rewrite Hl in He.
        cbn [Z.eqb Pos.eqb] in He. rewrite take_ge in He by (unfold len in Hl; lia).
        rewrite len_app in He. change (len [_; _]) with 2 in He. lia.
    + intros [_ Hn]. assert (len b <> 4 /\ len b <> 16) as [H4 H16] by naive_solver.
      unfold To4, To16. by rewrite (proj2 (Z.eqb_neq _ _) H4), (proj2 (Z.eqb_neq _ _) H16).
Qed.

(** Family 8 (E.164), two digits: received as four bytes, sent as an IPv4
    address of six. *)
Lemma DecodeAddress_reencode_witness :
  let b := [Byte.x00; Byte.x08; Byte.x31; Byte.x32] in
  DecodeAddress b = Ok (VAddress b) /\ Address_Serialize b <> b.
Proof.
  intros b. assert (DecodeAddress b = Ok (VAddress b)) as Hd by (by vm_compute).
  split; [done|]. intros He. apply (DecodeAddress_reencode b b Hd) in He as [_ Hn].
  apply Hn. split; [|by left]. unfold other_family.
  change (be_get (take 2 b)) with 8. set_solver.
Defined.
