(* ===== verification/Wire.v ===== *)
(** * The wire format shared by all generated messages

    [commands/base/diameter.pb.go], lines 14-28 and 12936-13161: the 20-byte
    header, the writers of one AVP, and the loop that every generated
    [Unmarshal] runs over the AVPs, here [scan], with the [switch] on the AVP
    code as its argument.  [pkg/connection/message.go] ([ParseMessageHeader])
    and [pkg/connection/command.go] ([ParseCommand]) read the same header a
    second and a third time. *)

From S2P Require Import Prelude Binary DataTypes.

(** ** The header *)

Record CommandFlags := {
  Request : bool;
  Proxiable : bool;
  Error : bool;
  Retransmitted : bool }.

Record DiameterHeader := {
  Version : Z;
  Length : Z;
  Flags : CommandFlags;
  CommandCode : Z;
  ApplicationID : Z;
  HopByHopID : Z;
  EndToEndID : Z }.

#[export] Instance CommandFlags_eq_dec : EqDecision CommandFlags.
Proof. solve_decision. Defined.
#[export] Instance DiameterHeader_eq_dec : EqDecision DiameterHeader.
Proof. solve_decision. Defined.

(** [if c { flags |= mask }] and [flags & mask != 0]. *)
Definition or_bit (c : bool) (mask flags : Z) : Z := if c then Z.lor flags mask else flags.
Definition has_bit (flags mask : Z) : bool := negb (Z.land flags mask =? 0).

(** [PutUint32] writes four bytes and the first is overwritten: three bytes
    of the number are left. *)
Definition marshalHeader (h : DiameterHeader) : bytes :=
  let flags := or_bit (Retransmitted (Flags h)) 16
              (or_bit (Error (Flags h)) 32
              (or_bit (Proxiable (Flags h)) 64
              (or_bit (Request (Flags h)) 128 0))) in
  (Zbyte (Version h) :: tail (be_put 4 (Length h))) ++
  (Zbyte flags :: tail (be_put 4 (CommandCode h))) ++
  be_put 4 (ApplicationID h) ++ be_put 4 (HopByHopID h) ++ be_put 4 (EndToEndID h).

Inductive parse_error : Type :=
| ErrHeaderTooShort
| ErrAVPExceedsData
| ErrAVPTooShortForVendor
| ErrAVPDataLength
| ErrUnsupportedVersion (v : Z)
| ErrInvalidLength (n : Z)
| ErrFuel. (* the model's loop ran out of fuel: never with the fuel given *)

Definition unmarshalHeader (data : bytes) : outcome parse_error DiameterHeader :=
  if len data <? 20 then Err ErrHeaderTooShort
  else
    (try version <- index data 0 ;;
     try length <- Uint24_at data 1 ;;
     try flags <- index data 4 ;;
     try commandCode <- Uint24_at data 5 ;;
     try applicationID <- Uint32_at data 8 ;;
     try hopByHopID <- Uint32_at data 12 ;;
     try endToEndID <- Uint32_at data 16 ;;
     Ok {| Version := version; Length := length;
           Flags := {| Request := has_bit flags 128; Proxiable := has_bit flags 64;
                       Error := has_bit flags 32; Retransmitted := has_bit flags 16 |};
           CommandCode := commandCode; ApplicationID := applicationID;
           HopByHopID := hopByHopID; EndToEndID := endToEndID |})%outcome.

(** [unmarshalHeader(data\[:20\])], in the [Unmarshal] methods. *)
Definition read_header (data : bytes) : outcome parse_error DiameterHeader :=
  (try h <- slice_expr data 0 20 ;; unmarshalHeader h)%outcome.

(** ** AVPs *)

Definition pad_zeros (n : Z) : bytes := replicate (Z.to_nat ((4 - n mod 4) mod 4)) Byte.x00.

Definition marshalAVP (code : Z) (data : Value) (mandatory protected : bool) : bytes :=
  let serialized := Serialize data in
  let headerSize := 8 in
  let totalLen := headerSize + len serialized in
  let flags := or_bit protected 32 (or_bit mandatory 64 0) in
  let buf := (be_put 4 code ++ Zbyte flags :: tail (be_put 4 (to_u32 totalLen))) ++ serialized in
  buf ++ pad_zeros (len buf).

Definition marshalAVPWithVendor (code : Z) (data : Value) (mandatory protected : bool)
    (vendorID : Z) : bytes :=
  let serialized := Serialize data in
  let hasVendor := negb (vendorID =? 0) in
  let headerSize := if hasVendor then 12 else 8 in
  let totalLen := headerSize + len serialized in
  let flags := or_bit protected 32 (or_bit mandatory 64 (or_bit hasVendor 128 0)) in
  let buf := (be_put 4 code ++ Zbyte flags :: tail (be_put 4 (to_u32 totalLen))) ++
             (if hasVendor then be_put 4 vendorID else []) ++ serialized in
  buf ++ pad_zeros (len buf).

(** One iteration of an [Unmarshal] loop up to its [switch], on data that is
    not empty: it leaves the loop, returns an error, panics, or has an AVP's
    code, vendor (0 without the V bit), value and padded length.  The copies of the
    loop in groups and messages whose AVPs have no vendor discard the vendor. *)
Inductive avp_head : Type :=
| AvpStop
| AvpNext (code vendorID : Z) (value : bytes) (paddedLength : Z).

Definition padded (n : Z) : Z := if negb (n mod 4 =? 0) then n + (4 - n mod 4) else n.

Definition next_avp (avpData : bytes) : outcome parse_error avp_head :=
  if len avpData <? 8 then Ok AvpStop
  else
    (try avpCode <- Uint32_at avpData 0 ;;
     try avpFlags <- index avpData 4 ;;
     try avpLength <- Uint24_at avpData 5 ;;
     if len avpData <? avpLength then Err ErrAVPExceedsData
     else
       try (vendorID, headerSize) <-
         (if has_bit avpFlags 128 then
            if len avpData <? 12 then Err ErrAVPTooShortForVendor
            else try vendorID <- Uint32_at avpData 8 ;; Ok (vendorID, 12)
          else Ok (0, 8)) ;;
       let avpDataLen := avpLength - headerSize in
       if avpDataLen <? 0 then Err ErrAVPDataLength
       else
         try avpValue <- slice_expr avpData headerSize (headerSize + avpDataLen) ;;
         Ok (AvpNext avpCode vendorID avpValue (padded avpLength)))%outcome.

(** The loop.  The message under construction is kept when an error stops the
    scan, as the receiver's fields are in Go. *)
Section Scan.
Context {M : Type} (field : Z -> Z -> bytes -> M -> outcome parse_error M).

Fixpoint scan_fuel (fuel : nat) (avpData : bytes) (m : M) : M * outcome parse_error unit :=
  match fuel with
  | O => (m, Err ErrFuel)
  | S fuel =>
      if negb (0 <? len avpData) then (m, Ok tt)
      else
        match next_avp avpData with
        | Panic => (m, Panic)
        | Err e => (m, Err e)
        | Ok AvpStop => (m, Ok tt)
        | Ok (AvpNext code vendorID value paddedLength) =>
            match field code vendorID value m with
            | Panic => (m, Panic)
            | Err e => (m, Err e)
            | Ok m =>
                if len avpData <? paddedLength then (m, Ok tt)
                else
                  match slice_from avpData paddedLength with
                  | Ok avpData => scan_fuel fuel avpData m
                  | Err e => (m, Err e)
                  | Panic => (m, Panic)
                  end
            end
        end
  end.

Definition scan (avpData : bytes) (m : M) : M * outcome parse_error unit :=
  scan_fuel (S (length avpData)) avpData m.

(** [avpData := data\[i:\]], and the loop. *)
Definition scan_from (data : bytes) (i : Z) (m : M) : M * outcome parse_error unit :=
  match slice_from data i with
  | Ok avpData => scan avpData m
  | Err e => (m, Err e)
  | Panic => (m, Panic)
  end.

(** What the loop does to the message for a list of AVPs. *)
Fixpoint fold_fields (l : list (Z * Z * bytes)) (m : M) : M * outcome parse_error unit :=
  match l with
  | [] => (m, Ok tt)
  | (code, vendorID, value) :: l =>
      match field code vendorID value m with
      | Panic => (m, Panic)
      | Err e => (m, Err e)
      | Ok m => fold_fields l m
      end
  end.
End Scan.

(** [val.(models_base.X)] after [models_base.DecodeX]: a decoding error keeps
    the field, a value of another dynamic type panics. *)
Definition assign {A M : Type} (d : decoded) (as_T : Value -> option A) (set : A -> M) (m : M)
  : outcome parse_error M :=
  match d with
  | Ok v => match as_T v with Some a => Ok (set a) | None => Panic end
  | Err _ => Ok m
  | Panic => Panic
  end.

Definition as_DiameterIdentity v := match v with VDiameterIdentity s => Some s | _ => None end.
Definition as_Address v := match v with VAddress s => Some s | _ => None end.
Definition as_Unsigned32 v := match v with VUnsigned32 n => Some n | _ => None end.
Definition as_UTF8String v := match v with VUTF8String s => Some s | _ => None end.
Definition as_Enumerated v := match v with VEnumerated n => Some n | _ => None end.
Definition as_OctetString v := match v with VOctetString s => Some s | _ => None end.
Definition as_DiameterURI v := match v with VDiameterURI s => Some s | _ => None end.
Definition as_Unsigned64 v := match v with VUnsigned64 n => Some n | _ => None end.
Definition as_Time v := match v with VTime t => Some t | _ => None end.

(** ** The two other header readers *)

Record MessageInfo := {
  mi_Version : Z;
  mi_Length : Z;
  mi_CommandCode : Z;
  mi_ApplicationID : Z;
  mi_HopByHopID : Z;
  mi_EndToEndID : Z;
  mi_Flags : CommandFlags;
  IsRequest : bool;
  IsProxiable : bool;
  IsError : bool;
  IsRetrans : bool }.

Definition ParseMessageHeader (data : bytes) : outcome parse_error MessageInfo :=
  if len data <? 20 then Err ErrHeaderTooShort
  else
    (try version <- index data 0 ;;
     try length <- Uint24_at data 1 ;;
     try flags <- index data 4 ;;
     let isRequest := has_bit flags 128 in
     let isProxiable := has_bit flags 64 in
     let isError := has_bit flags 32 in
     let isRetrans := has_bit flags 16 in
     try commandCode <- Uint24_at data 5 ;;
     try applicationID <- Uint32_at data 8 ;;
     try hopByHopID <- Uint32_at data 12 ;;
     try endToEndID <- Uint32_at data 16 ;;
     let info :=
      {| mi_Version := version; mi_Length := length; mi_CommandCode := commandCode;
         mi_ApplicationID := applicationID; mi_HopByHopID := hopByHopID; mi_EndToEndID := endToEndID;
         mi_Flags := {| Request := isRequest; Proxiable := isProxiable;
                        Error := isError; Retransmitted := isRetrans |};
         IsRequest := isRequest; IsProxiable := isProxiable;
         IsError := isError; IsRetrans := isRetrans |} in
     if negb (mi_Version info =? 1) then Err (ErrUnsupportedVersion (mi_Version info))
     else if mi_Length info <? 20 then Err (ErrInvalidLength (mi_Length info))
     else Ok info)%outcome.

Definition IsBaseProtocol (m : MessageInfo) : bool := mi_ApplicationID m =? 0.

Record Command := { Interface : Z; Code : Z; cmd_Request : bool }.

#[export] Instance Command_eq_dec : EqDecision Command.
Proof. solve_decision. Defined.
#[export] Program Instance Command_countable : Countable Command :=
  inj_countable' (fun c => (Interface c, Code c, cmd_Request c))
    (fun p => {| Interface := p.1.1; Code := p.1.2; cmd_Request := p.2 |}) _.
Next Obligation. by intros []. Qed.

Definition ParseCommand (header : bytes) : outcome parse_error Command :=
  if len header <? 20 then Err ErrHeaderTooShort
  else
    (try flags <- index header 4 ;;
     try commandCode <- Uint24_at header 5 ;;
     try applicationID <- Uint32_at header 8 ;;
     Ok {| Interface := applicationID; Code := commandCode; cmd_Request := has_bit flags 128 |})%outcome.

(** ** Lemmas: no access is out of range *)

(** A read at a constant place of a slice that is long enough. *)
Ltac in_range :=
  repeat
    (match goal with
     | |- obind _ (Uint32_at ?b ?i) = _ => rewrite (Uint32_at_ok b i) by lia
     | |- obind _ (Uint24_at ?b ?i) = _ => rewrite (Uint24_at_ok b i) by lia
     | |- obind _ (index ?b ?i) = _ => rewrite (index_ok b i) by (unfold len in *; lia)
     end; cbn [obind]).

Lemma unmarshalHeader_eq data :
  unmarshalHeader data =
    if len data <? 20 then Err ErrHeaderTooShort
    else
      let flags := at_ data 4 in
      Ok {| Version := at_ data 0;
            Length := be_get (Byte.x00 :: slice data 1 4);
            Flags := {| Request := has_bit flags 128; Proxiable := has_bit flags 64;
                        Error := has_bit flags 32; Retransmitted := has_bit flags 16 |};
            CommandCode := be_get (Byte.x00 :: slice data 5 8);
            ApplicationID := be_get (slice data 8 12);
            HopByHopID := be_get (slice data 12 16);
            EndToEndID := be_get (slice data 16 20) |}.
Proof. unfold unmarshalHeader. destruct (Z.ltb_spec (len data) 20); [done|]. in_range. reflexivity. Qed.

Lemma ParseMessageHeader_eq data :
  ParseMessageHeader data =
    if len data <? 20 then Err ErrHeaderTooShort
    else
      let flags := at_ data 4 in
      let info :=
        {| mi_Version := at_ data 0;
           mi_Length := be_get (Byte.x00 :: slice data 1 4);
           mi_CommandCode := be_get (Byte.x00 :: slice data 5 8);
           mi_ApplicationID := be_get (slice data 8 12);
           mi_HopByHopID := be_get (slice data 12 16);
           mi_EndToEndID := be_get (slice data 16 20);
           mi_Flags := {| Request := has_bit flags 128; Proxiable := has_bit flags 64;
                          Error := has_bit flags 32; Retransmitted := has_bit flags 16 |};
           IsRequest := has_bit flags 128; IsProxiable := has_bit flags 64;
           IsError := has_bit flags 32; IsRetrans := has_bit flags 16 |} in
      if negb (mi_Version info =? 1) then Err (ErrUnsupportedVersion (mi_Version info))
      else if mi_Length info <? 20 then Err (ErrInvalidLength (mi_Length info))
      else Ok info.
Proof. unfold ParseMessageHeader. destruct (Z.ltb_spec (len data) 20); [done|]. in_range. reflexivity. Qed.

Lemma ParseCommand_eq header :
  ParseCommand header =
    if len header <? 20 then Err ErrHeaderTooShort
    else Ok {| Interface := be_get (slice header 8 12);
               Code := be_get (Byte.x00 :: slice header 5 8);
               cmd_Request := has_bit (at_ header 4) 128 |}.
Proof. unfold ParseCommand. destruct (Z.ltb_spec (len header) 20); [done|]. in_range. reflexivity. Qed.

Lemma next_avp_eq avpData :
  next_avp avpData =
    if len avpData <? 8 then Ok AvpStop
    else
      let avpFlags := at_ avpData 4 in
      let avpLength := be_get (Byte.x00 :: slice avpData 5 8) in
      if len avpData <? avpLength then Err ErrAVPExceedsData
      else if has_bit avpFlags 128 && (len avpData <? 12) then Err ErrAVPTooShortForVendor
      else
        let headerSize := if has_bit avpFlags 128 then 12 else 8 in
        let vendorID := if has_bit avpFlags 128 then be_get (slice avpData 8 12) else 0 in
        let avpDataLen := avpLength - headerSize in
        if avpDataLen <? 0 then Err ErrAVPDataLength
        else Ok (AvpNext (be_get (slice avpData 0 4)) vendorID
                   (slice avpData headerSize (headerSize + avpDataLen)) (padded avpLength)).
Proof.
  unfold next_avp. destruct (Z.ltb_spec (len avpData) 8); [done|]. in_range. cbv zeta.
  change (Z.of_nat 5 + 3) with 8. change (Z.of_nat 5) with 5. change (0 + 4) with 4.
  set (n := be_get (Byte.x00 :: slice avpData 5 8)). destruct (Z.ltb_spec (len avpData) n); [done|].
  destruct (has_bit (at_ avpData 4) 128); cbn [andb].
  - destruct (Z.ltb_spec (len avpData) 12); [done|]. rewrite Uint32_at_ok by lia. cbn [obind].
    destruct (Z.ltb_spec (n - 12) 0); [done|]. by rewrite slice_expr_ok by lia.
  - cbn [obind]. destruct (Z.ltb_spec (n - 8) 0); [done|]. by rewrite slice_expr_ok by lia.
Qed.

Lemma next_avp_no_panic avpData : next_avp avpData <> Panic.
Proof. rewrite next_avp_eq. cbv zeta. by repeat case_match. Qed.

Lemma read_header_eq data : 20 <= len data -> read_header data = unmarshalHeader (take 20 data).
Proof. intros H. unfold read_header. by rewrite slice_expr_ok by lia. Qed.

Lemma scan_from_eq {M} (field : Z -> Z -> bytes -> M -> outcome parse_error M) data m :
  20 <= len data -> scan_from field data 20 m = scan field (drop 20 data) m.
Proof. intros H. unfold scan_from. by rewrite slice_from_ok by lia. Qed.

(** ** Lemmas: the header *)

Lemma list_4 {A} (l : list A) : length l = 4%nat -> exists a b c d, l = [a; b; c; d].
Proof. destruct l as [|a [|b [|c [|d [|? ?]]]]]; try done. by eauto. Qed.

Lemma list_3 {A} (l : list A) : length l = 3%nat -> exists a b c, l = [a; b; c].
Proof. destruct l as [|a [|b [|c [|? ?]]]]; try done. by eauto. Qed.

Lemma be_get_0 l : be_get (Byte.x00 :: l) = be_get l.
Proof. by rewrite be_get_cons. Qed.

Definition wf_header (h : DiameterHeader) : Prop :=
  u8 (Version h) /\ u24 (Length h) /\ u24 (CommandCode h) /\
  u32 (ApplicationID h) /\ u32 (HopByHopID h) /\ u32 (EndToEndID h).

Definition flags_byte (f : CommandFlags) : Z :=
  or_bit (Retransmitted f) 16 (or_bit (Error f) 32
    (or_bit (Proxiable f) 64 (or_bit (Request f) 128 0))).

Lemma flags_byte_read f :
  {| Request := has_bit (byteZ (Zbyte (flags_byte f))) 128;
     Proxiable := has_bit (byteZ (Zbyte (flags_byte f))) 64;
     Error := has_bit (byteZ (Zbyte (flags_byte f))) 32;
     Retransmitted := has_bit (byteZ (Zbyte (flags_byte f))) 16 |} = f.
Proof. by destruct f as [[] [] [] []]; vm_compute. Qed.

Lemma len_marshalHeader h : len (marshalHeader h) = 20.
Proof. done. Qed.

(** The three-byte and four-byte fields of a header, as lists of bytes. *)
Lemma marshalHeader_shape h :
  marshalHeader h =
    Zbyte (Version h) :: be_put 3 (Length h) ++
    Zbyte (flags_byte (Flags h)) :: be_put 3 (CommandCode h) ++
    be_put 4 (ApplicationID h) ++ be_put 4 (HopByHopID h) ++ be_put 4 (EndToEndID h).
Proof. done. Qed.

Ltac byte_list n v :=
  let E := fresh "E" in
  first
    [ destruct (list_4 (be_put n v) (be_put_length n v)) as (? & ? & ? & ? & E)
    | destruct (list_3 (be_put n v) (be_put_length n v)) as (? & ? & ? & E) ];
  rewrite E in *.

Lemma unmarshal_marshalHeader h rest :
  wf_header h -> unmarshalHeader (marshalHeader h ++ rest) = Ok h.
Proof.
  destruct h as [v l f c a hh ee]. intros (Hv & Hl & Hc & Ha & Hh & He).
  cbn [Version Length CommandCode ApplicationID HopByHopID EndToEndID] in *.
  rewrite marshalHeader_shape.
  cbn [Version Length Flags CommandCode ApplicationID HopByHopID EndToEndID].
  pose proof (be_get_put3 l Hl) as El. pose proof (be_get_put3 c Hc) as Ec.
  pose proof (be_get_put4 a Ha) as Ea. pose proof (be_get_put4 hh Hh) as Eh.
  pose proof (be_get_put4 ee He) as Ee.
  byte_list 3%nat l. byte_list 3%nat c. byte_list 4%nat a. byte_list 4%nat hh. byte_list 4%nat ee.
  rewrite unmarshalHeader_eq. rewrite (proj2 (Z.ltb_ge _ _))
    by (unfold len; cbn [length app]; lia).
  unfold slice, at_.
  eval_to_nat. cbn [drop take app nth].
  rewrite !be_get_0, take_0, El, Ec, Ea, Eh, Ee, byteZ_Zbyte, Z.mod_small by done.
  by rewrite flags_byte_read.
Qed.


(** The other direction: a header whose reserved flag bits are zero is
    written again as it was read. *)
Lemma flags_byte_write b :
  Z.land (byteZ b) 15 = 0 ->
  Zbyte (flags_byte {| Request := has_bit (byteZ b) 128; Proxiable := has_bit (byteZ b) 64;
    Error := has_bit (byteZ b) 32; Retransmitted := has_bit (byteZ b) 16 |}) = b.
Proof. destruct b; vm_compute; congruence. Qed.

Lemma list_at_least {A} n (l : list A) :
  (S n <= length l)%nat -> exists a k, l = a :: k /\ (n <= length k)%nat.
Proof. destruct l; cbn; [lia|]. intros. eexists _, _. split; [done|lia]. Qed.

(** Names the first bytes of a list known to be long enough. *)
Ltac peel l :=
  repeat match goal with
  | H : (S _ <= length l)%nat |- _ =>
      let k := fresh "k" in let b := fresh "b" in
      destruct (list_at_least _ _ H) as (b & k & -> & ?); clear H; peel k
  end.

Lemma marshal_unmarshalHeader d h :
  Z.land (at_ d 4) 15 = 0 -> unmarshalHeader d = Ok h -> marshalHeader h = take 20 d.
Proof.
  rewrite unmarshalHeader_eq. destruct (Z.ltb_spec (len d) 20) as [|Hl]; [done|].
  intros Hf. intros [= <-]. rewrite marshalHeader_shape.
  cbn [Version Length Flags CommandCode ApplicationID HopByHopID EndToEndID].
  assert (20 <= length d)%nat as Hn by (unfold len in Hl; lia). clear Hl.
  peel d. unfold slice, at_ in *. eval_to_nat. cbn [drop take app nth] in *.
  rewrite !be_get_0, !be_put_get_n by done. rewrite Zbyte_byteZ.
  by rewrite flags_byte_write.
Qed.

(** ** Lemmas: one AVP *)

Record avp := {
  avp_code : Z;
  avp_data : Value;
  avp_M : bool;
  avp_P : bool;
  avp_vendor : Z }.

Definition marshal (a : avp) : bytes :=
  marshalAVPWithVendor (avp_code a) (avp_data a) (avp_M a) (avp_P a) (avp_vendor a).

(** What the [switch] of an [Unmarshal] is to see of it. *)
Definition avp_seen (a : avp) : Z * Z * bytes :=
  (avp_code a, avp_vendor a, Serialize (avp_data a)).

(** An AVP that fits its header's fields. *)
Definition wf_avp (a : avp) : Prop :=
  u32 (avp_code a) /\ u32 (avp_vendor a) /\ 12 + len (Serialize (avp_data a)) < 2 ^ 24.

(** The writer without a vendor is the general one with vendor 0. *)
Lemma marshalAVP_vendor_0 code data M P :
  marshalAVP code data M P = marshalAVPWithVendor code data M P 0.
Proof. reflexivity. Qed.

Lemma padded_spec n : 0 <= n -> n <= padded n < n + 4 /\ padded n mod 4 = 0.
Proof.
  intros Hn. unfold padded. pose proof (Z.mod_pos_bound n 4 ltac:(lia)).
  destruct (Z.eqb_spec (n mod 4) 0); cbn [negb]; [lia|]. split; [lia|].
  rewrite (Z.div_mod n 4) at 1 by lia.
  replace (4 * (n / 4) + n mod 4 + (4 - n mod 4)) with ((n / 4 + 1) * 4) by lia.
  apply Z_mod_mult.
Qed.

Lemma len_pad_zeros n : 0 <= n -> n + len (pad_zeros n) = padded n.
Proof.
  intros Hn. unfold pad_zeros, padded. rewrite len_replicate.
  pose proof (Z.mod_pos_bound n 4 ltac:(lia)).
  destruct (Z.eqb_spec (n mod 4) 0) as [E|E]; cbn [negb].
  - rewrite E. change ((4 - 0) mod 4) with 0. lia.
  - rewrite (Z.mod_small (4 - n mod 4)) by lia. lia.
Qed.

(** The header size that an AVP's flags announce. *)
Definition header_size (flags : Z) : Z := if has_bit flags 128 then 12 else 8.

(** Any AVP with a consistent header is read back, whatever follows it. *)
Lemma next_avp_raw code flags n vend value rest :
  u32 code -> u8 flags -> len vend = header_size flags - 8 ->
  n = header_size flags + len value -> u24 n ->
  next_avp ((be_put 4 code ++ Zbyte flags :: be_put 3 n) ++ vend ++ value ++ rest) =
    Ok (AvpNext code (be_get vend) value (padded n)).
Proof.
  intros Hc Hf Hv Hn Hn24. pose proof (len_nonneg value). pose proof (len_nonneg rest).
  assert (header_size flags = 8 \/ header_size flags = 12) as Hhs
    by (unfold header_size; case_match; lia).
  set (hd := be_put 4 code ++ Zbyte flags :: be_put 3 n).
  assert (len hd = 8) as HH by done.
  rewrite next_avp_eq. cbv zeta. rewrite (proj2 (Z.ltb_ge _ 8)) by (rewrite len_app; pose proof
    (len_nonneg (vend ++ value ++ rest)); lia).
  assert (slice (hd ++ vend ++ value ++ rest) 0 4 = be_put 4 code) as ->.
  { unfold hd. rewrite <- app_assoc. by apply slice_app_0. }
  assert (at_ (hd ++ vend ++ value ++ rest) 4 = flags) as ->.
  { unfold hd. byte_list 4%nat code. unfold at_. cbn [app nth].
    rewrite byteZ_Zbyte. by apply Z.mod_small. }
  assert (slice (hd ++ vend ++ value ++ rest) 5 8 = be_put 3 n) as ->.
  { unfold hd. rewrite (cons_middle (Zbyte flags)), (app_assoc (be_put 4 code)), <- (app_assoc _ (be_put 3 n)).
    by apply slice_app_mid. }
  rewrite be_get_put4, be_get_0, be_get_put3 by done. cbv zeta.
  rewrite (proj2 (Z.ltb_ge _ n)) by (rewrite !len_app; lia).
  fold (header_size flags).
  assert (has_bit flags 128 && (len (hd ++ vend ++ value ++ rest) <? 12) = false) as ->.
  { destruct (has_bit flags 128) eqn:E; [|done]. unfold header_size in *. rewrite E in *.
    cbn [andb]. apply Z.ltb_ge. rewrite !len_app. lia. }
  assert ((if has_bit flags 128 then be_get (slice (hd ++ vend ++ value ++ rest) 8 12) else 0)
          = be_get vend) as ->.
  { unfold header_size in Hv. destruct (has_bit flags 128).
    - by rewrite slice_app_mid by lia.
    - destruct vend; [done|]. rewrite len_cons in Hv. pose proof (len_nonneg vend). lia. }
  rewrite (proj2 (Z.ltb_ge _ 0)) by lia. do 2 f_equal.
  rewrite (app_assoc hd). apply slice_app_mid; rewrite ?len_app; lia.
Qed.

Definition avp_flags (a : avp) : Z :=
  or_bit (avp_P a) 32 (or_bit (avp_M a) 64 (or_bit (negb (avp_vendor a =? 0)) 128 0)).

Lemma avp_flags_u8 a : u8 (avp_flags a).
Proof. unfold avp_flags, u8. by destruct (avp_P a), (avp_M a), (negb _). Qed.

Lemma avp_flags_vendor a : has_bit (avp_flags a) 128 = negb (avp_vendor a =? 0).
Proof. unfold avp_flags. by destruct (avp_P a), (avp_M a), (negb _). Qed.

Definition avp_total (a : avp) : Z := header_size (avp_flags a) + len (Serialize (avp_data a)).

Definition vendor_bytes (a : avp) : bytes :=
  if negb (avp_vendor a =? 0) then be_put 4 (avp_vendor a) else [].

Lemma len_vendor_bytes a : len (vendor_bytes a) = header_size (avp_flags a) - 8.
Proof. unfold vendor_bytes, header_size. rewrite avp_flags_vendor. by destruct (negb _). Qed.

Lemma be_get_vendor_bytes a : u32 (avp_vendor a) -> be_get (vendor_bytes a) = avp_vendor a.
Proof.
  intros Hv. unfold vendor_bytes. destruct (Z.eqb_spec (avp_vendor a) 0) as [E|E]; cbn.
  - by rewrite E.
  - by apply be_get_put4.
Qed.

Lemma avp_total_u24 a : wf_avp a -> u24 (avp_total a) /\ 8 <= avp_total a.
Proof.
  intros (_ & _ & H). unfold avp_total, header_size, u24.
  pose proof (len_nonneg (Serialize (avp_data a))). case_match; lia.
Qed.

Lemma marshal_shape a :
  wf_avp a ->
  marshal a =
    (be_put 4 (avp_code a) ++ Zbyte (avp_flags a) :: be_put 3 (avp_total a)) ++
    vendor_bytes a ++ Serialize (avp_data a) ++ pad_zeros (avp_total a).
Proof.
  intros Hw. destruct (avp_total_u24 a Hw) as [Hb _].
  unfold marshal, marshalAVPWithVendor. rewrite be_put_4_tail.
  fold (avp_flags a) (vendor_bytes a).
  assert ((if negb (avp_vendor a =? 0) then 12 else 8) + len (Serialize (avp_data a)) =
          avp_total a) as -> by (unfold avp_total, header_size; by rewrite avp_flags_vendor).
  rewrite to_u32_id by (unfold u24, u32 in *; lia).
  rewrite <- !app_assoc. do 4 f_equal. rewrite !len_app, len_vendor_bytes. unfold avp_total.
  change (len (be_put 4 _)) with 4. change (len (_ :: be_put 3 _)) with 4. f_equal. lia.
Qed.

Lemma len_marshal a : wf_avp a -> len (marshal a) = padded (avp_total a).
Proof.
  intros Hw. rewrite marshal_shape by done. destruct (avp_total_u24 a Hw) as [? ?].
  rewrite <- len_pad_zeros by lia. rewrite !len_app, len_vendor_bytes. unfold avp_total.
  change (len (be_put 4 _)) with 4. change (len (_ :: be_put 3 _)) with 4. lia.
Qed.

Lemma next_avp_marshal a rest :
  wf_avp a ->
  next_avp (marshal a ++ rest) =
    Ok (AvpNext (avp_code a) (avp_vendor a) (Serialize (avp_data a)) (len (marshal a))).
Proof.
  intros Hw. destruct (avp_total_u24 a Hw) as [? ?].
  rewrite len_marshal, marshal_shape by done. rewrite <- !app_assoc.
  rewrite (app_assoc (be_put 4 _)), <- (be_get_vendor_bytes a) by apply Hw.
  apply next_avp_raw; try done.
  - apply Hw.
  - apply avp_flags_u8.
  - apply len_vendor_bytes.
Qed.

(** ** Lemmas: the loop *)

Lemma next_avp_progress d code w v p :
  next_avp d = Ok (AvpNext code w v p) -> 8 <= p /\ 8 <= len d /\ len v + 8 <= len d.
Proof.
  rewrite next_avp_eq. cbv zeta. set (n := be_get (Byte.x00 :: slice d 5 8)).
  destruct (Z.ltb_spec (len d) 8); [done|]. destruct (Z.ltb_spec (len d) n); [done|].
  destruct (_ && _); [done|]. fold (header_size (at_ d 4)).
  assert (8 <= header_size (at_ d 4)) by (unfold header_size; case_match; lia).
  destruct (Z.ltb_spec (n - header_size (at_ d 4)) 0) as [|Hn]; [done|].
  intros [= _ _ <- <-]. pose proof (padded_spec n ltac:(lia)) as [? _].
  split; [lia|]. split; [done|]. rewrite len_slice by lia. lia.
Qed.

Section ScanLemmas.
Context {M : Type} (field : Z -> Z -> bytes -> M -> outcome parse_error M).

Lemma scan_fuel_enough n k d m :
  (length d < n)%nat -> (n <= k)%nat -> scan_fuel field k d m = scan_fuel field n d m.
Proof.
  revert k d m. induction n as [|n IH]; intros k d m Hd Hk; [lia|].
  destruct k as [|k]; [lia|]. cbn [scan_fuel].
  destruct (negb _); [done|]. destruct (next_avp d) as [[|code w v p]|e|] eqn:E; [done| |done..].
  destruct (field code w v m) as [m'| |]; [|done..].
  destruct (Z.ltb_spec (len d) p) as [|Hp]; [done|].
  apply next_avp_progress in E as (? & ? & _). rewrite slice_from_ok by lia.
  apply IH; [|lia]. unfold len in *. rewrite length_drop. lia.
Qed.

(** Equation of the loop, without fuel. *)
Lemma scan_unfold d m :
  scan field d m =
    if negb (0 <? len d) then (m, Ok tt)
    else match next_avp d with
         | Panic => (m, Panic)
         | Err e => (m, Err e)
         | Ok AvpStop => (m, Ok tt)
         | Ok (AvpNext code w value p) =>
             match field code w value m with
             | Panic => (m, Panic)
             | Err e => (m, Err e)
             | Ok m => if len d <? p then (m, Ok tt)
                       else scan field (drop (Z.to_nat p) d) m
             end
         end.
Proof.
  unfold scan at 1. cbn [scan_fuel].
  destruct (negb _); [done|]. destruct (next_avp d) as [[|code w v p]|e|] eqn:E; [done| |done..].
  destruct (field code w v m) as [m'| |]; [|done..].
  destruct (Z.ltb_spec (len d) p) as [|Hp]; [done|].
  apply next_avp_progress in E as (? & ? & _). rewrite slice_from_ok by lia. unfold scan.
  apply scan_fuel_enough; unfold len in *; rewrite length_drop; lia.
Qed.

Lemma scan_nil m : scan field [] m = (m, Ok tt).
Proof. done. Qed.

Lemma scan_cons a rest m :
  wf_avp a ->
  scan field (marshal a ++ rest) m =
    match field (avp_code a) (avp_vendor a) (Serialize (avp_data a)) m with
    | Panic => (m, Panic)
    | Err e => (m, Err e)
    | Ok m => scan field rest m
    end.
Proof.
  intros Hw. rewrite scan_unfold, next_avp_marshal by done.
  destruct (avp_total_u24 a Hw) as [_ Ht].
  pose proof (padded_spec (avp_total a) ltac:(lia)) as [? _].
  pose proof (len_marshal a Hw). pose proof (len_nonneg rest).
  rewrite len_app, (proj2 (Z.ltb_lt 0 _)) by lia. cbn [negb].
  rewrite (proj2 (Z.ltb_ge _ _)) by lia. by rewrite drop_Z_app by done.
Qed.

(** The loop over the concatenation of AVPs folds the [switch] over them. *)
Lemma scan_marshal l m :
  Forall wf_avp l ->
  scan field (concat (map marshal l)) m =
    fold_fields field (map avp_seen l) m.
Proof.
  intros Hl. revert m. induction Hl as [|a l Ha Hl IH]; intros m; [done|].
  cbn [concat map]. rewrite scan_cons by done. cbn [map fold_fields avp_seen].
  destruct (field _ _ _ m) as [m'| |]; [|done..]. apply IH.
Qed.

Lemma fold_fields_app l k m :
  fold_fields field (l ++ k) m =
    match fold_fields field l m with
    | (m, Ok _) => fold_fields field k m
    | r => r
    end.
Proof.
  revert m. induction l as [|[[c w] v] l IH]; intros m; [done|].
  cbn [app fold_fields]. destruct (field c w v m); [apply IH|done..].
Qed.

(** The loop never runs out of fuel: only the [switch] can report [ErrFuel]. *)
Lemma scan_no_fuel d m :
  (forall c w v m, field c w v m <> Err ErrFuel) -> (scan field d m).2 <> Err ErrFuel.
Proof.
  intros Hf. remember (length d) as n eqn:Hn. revert d m Hn.
  induction (lt_wf n) as [n _ IH]; intros d m ->.
  rewrite scan_unfold. destruct (negb _); [done|].
  destruct (next_avp d) as [[|c w v p]|e|] eqn:E; [done| | |done].
  2:{ cbn. intros [= ->]. rewrite next_avp_eq in E. cbv zeta in E. repeat case_match; simplify_eq. }
  - pose proof (Hf c w v m) as Hcv. destruct (field c w v m) as [m'| |]; [|intros [= ->]; by destruct Hcv|done].
    destruct (Z.ltb_spec (len d) p); [done|].
    apply next_avp_progress in E as (? & ? & _).
    eapply IH; [|done]. unfold len in *. rewrite length_drop. lia.
Qed.
End ScanLemmas.

(** The scan preserves what every case of the [switch] preserves. *)
Lemma scan_invariant {M} (field : Z -> Z -> bytes -> M -> outcome parse_error M) (P : M -> Prop) :
  (forall c w v m m', P m -> field c w v m = Ok m' -> P m') ->
  forall d m, P m -> P (scan field d m).1.
Proof.
  intros Hf d. remember (length d) as n eqn:Hn. revert d Hn.
  induction (lt_wf n) as [n _ IH]; intros d -> m Hm.
  rewrite scan_unfold. destruct (negb _); [done|].
  destruct (next_avp d) as [[|c w v p]|e|] eqn:E; [done| |done..].
  destruct (field c w v m) as [m'| |] eqn:Em; [|done..].
  destruct (Z.ltb_spec (len d) p); [cbn; eauto|].
  apply next_avp_progress in E as (? & ? & _).
  eapply IH; [|done|eauto]. unfold len in *. rewrite length_drop. lia.
Qed.

Lemma scan_no_panic {M} (field : Z -> Z -> bytes -> M -> outcome parse_error M) :
  (forall c w v m, field c w v m <> Panic) -> forall d m, (scan field d m).2 <> Panic.
Proof.
  intros Hf d. remember (length d) as n eqn:Hn. revert d Hn.
  induction (lt_wf n) as [n _ IH]; intros d -> m.
  rewrite scan_unfold. destruct (negb _); [done|].
  destruct (next_avp d) as [[|c w v p]|e|] eqn:E; [done| |done|by destruct (next_avp_no_panic d)].
  pose proof (Hf c w v m) as Hcv. destruct (field c w v m) as [m'| |]; [|done|by destruct Hcv].
  destruct (Z.ltb_spec (len d) p); [done|].
  apply next_avp_progress in E as (? & ? & _).
  eapply IH; [|done]. unfold len in *. rewrite length_drop. lia.
Qed.

(** ** Lemmas: the [Unmarshal] of a message *)

Section Unmarshal.
Context {M : Type} (field : Z -> Z -> bytes -> M -> outcome parse_error M).
Context (data : bytes) (m : M) (with_header : DiameterHeader -> M).

(** What all of them do. *)
Definition unmarshal_message : M * outcome parse_error unit :=
  if len data <? 20 then (m, Err ErrHeaderTooShort)
  else match read_header data with
       | Ok header => scan_from field data 20 (with_header header)
       | Err e => (m, Err e)
       | Panic => (m, Panic)
       end.

(** Its slice expressions are in range. *)
Lemma unmarshal_in_range :
  unmarshal_message =
    if len data <? 20 then (m, Err ErrHeaderTooShort)
    else match unmarshalHeader (take 20 data) with
         | Ok header => scan field (drop 20 data) (with_header header)
         | Err e => (m, Err e)
         | Panic => (m, Panic)
         end.
Proof.
  unfold unmarshal_message. destruct (Z.ltb_spec (len data) 20); [done|]. rewrite read_header_eq by done.
  destruct (unmarshalHeader _); [by apply scan_from_eq|done..].
Qed.

Lemma unmarshal_ends :
  (forall c w v m, field c w v m <> Err ErrFuel) -> unmarshal_message.2 <> Err ErrFuel.
Proof.
  intros H. rewrite unmarshal_in_range, unmarshalHeader_eq. cbv zeta. destruct (len data <? 20); [done|].
  destruct (_ <? 20); [done|]. by apply scan_no_fuel.
Qed.

Lemma unmarshal_total :
  (forall c w v m, exists m', field c w v m = Ok m') ->
  unmarshal_message.2 <> Panic /\ unmarshal_message.2 <> Err ErrFuel.
Proof.
  intros H. assert (forall c w v m, field c w v m <> Panic /\ field c w v m <> Err ErrFuel) as Hf
    by (intros c w v m'; by destruct (H c w v m') as [m2 ->]).
  split; [|apply unmarshal_ends; intros; apply Hf].
  rewrite unmarshal_in_range, unmarshalHeader_eq. cbv zeta. destruct (len data <? 20); [done|].
  destruct (_ <? 20); [done|]. apply scan_no_panic. intros; apply Hf.
Qed.
End Unmarshal.

(** The three readers of a header agree.  [ParseCommand] and
    [unmarshalHeader] accept the same data and extract the same command;
    [ParseMessageHeader] accepts of these exactly the ones with version 1 and
    a length of at least 20, with the same fields. *)
Lemma readers_agree d :
  (forall h, unmarshalHeader d = Ok h ->
    ParseCommand d = Ok {| Interface := ApplicationID h; Code := CommandCode h;
                           cmd_Request := Request (Flags h) |} /\
    ((Version h = 1 /\ 20 <= Length h) <-> exists info, ParseMessageHeader d = Ok info)) /\
  (forall info, ParseMessageHeader d = Ok info ->
    unmarshalHeader d =
      Ok {| Version := mi_Version info; Length := mi_Length info; Flags := mi_Flags info;
            CommandCode := mi_CommandCode info; ApplicationID := mi_ApplicationID info;
            HopByHopID := mi_HopByHopID info; EndToEndID := mi_EndToEndID info |} /\
    (IsRequest info, IsProxiable info, IsError info, IsRetrans info) =
      (Request (mi_Flags info), Proxiable (mi_Flags info), Error (mi_Flags info),
       Retransmitted (mi_Flags info))).
Proof.
  rewrite unmarshalHeader_eq, ParseCommand_eq, ParseMessageHeader_eq.
  destruct (len d <? 20); [done|]. cbv zeta. split.
  - intros h [= <-]. cbn -[be_get]. split; [done|].
    destruct (Z.eqb_spec (at_ d 0) 1) as [E|E]; cbn -[be_get].
    + destruct (Z.ltb_spec (be_get (Byte.x00 :: slice d 1 4)) 20).
      * split; [lia|]. by intros [? ?].
      * split; [by eexists|done].
    + split; [by intros []|by intros []].
  - intros info. cbn -[be_get]. destruct (Z.eqb_spec (at_ d 0) 1) as [E|E]; [|done].
    cbn -[be_get]. destruct (Z.ltb_spec (be_get (Byte.x00 :: slice d 1 4)) 20); [done|].
    by intros [= <-].
Qed.

(** ** Theorems *)

(** A header whose fields fit their widths is read back from the twenty
    bytes written for it, whatever follows them. *)
Theorem header_roundtrip h rest :
  wf_header h -> unmarshalHeader (marshalHeader h ++ rest) = Ok h.
Proof. apply unmarshal_marshalHeader. Qed.

Lemma header_roundtrip_witness :
  let h := {| Version := 1; Length := 76; CommandCode := 280; ApplicationID := 0;
              Flags := {| Request := true; Proxiable := false; Error := false;
                          Retransmitted := true |};
              HopByHopID := 2 ^ 32 - 1; EndToEndID := 7 |} in
  wf_header h /\ unmarshalHeader (marshalHeader h ++ []) = Ok h.
Proof.
  intros h. assert (wf_header h) as Hw by (by vm_compute).
  split; [done|]. apply header_roundtrip. done.
Defined.

(** The three readers of a header agree.  [ParseCommand] and
    [unmarshalHeader] accept the same data and extract the same command;
    [ParseMessageHeader] accepts of these exactly the ones with version 1 and
    a length of at least 20, with the same fields. *)
Theorem header_readers_agree d :
  (forall h, unmarshalHeader d = Ok h ->
    ParseCommand d = Ok {| Interface := ApplicationID h; Code := CommandCode h;
                           cmd_Request := Request (Flags h) |} /\
    ((Version h = 1 /\ 20 <= Length h) <-> exists info, ParseMessageHeader d = Ok info)) /\
  (forall info, ParseMessageHeader d = Ok info ->
    unmarshalHeader d =
      Ok {| Version := mi_Version info; Length := mi_Length info; Flags := mi_Flags info;
            CommandCode := mi_CommandCode info; ApplicationID := mi_ApplicationID info;
            HopByHopID := mi_HopByHopID info; EndToEndID := mi_EndToEndID info |} /\
    (IsRequest info, IsProxiable info, IsError info, IsRetrans info) =
      (Request (mi_Flags info), Proxiable (mi_Flags info), Error (mi_Flags info),
       Retransmitted (mi_Flags info))).
Proof. apply readers_agree. Qed.

(** The loop of every generated [Unmarshal], run on the concatenation of
    AVPs that fit their length fields, hands their codes, vendors and
    serialised values to the [switch] in order, once each, padding skipped,
    and reads all the data. *)
Theorem scan_concat {M} (field : Z -> Z -> bytes -> M -> outcome parse_error M) l m :
  Forall wf_avp l ->
  scan field (concat (map marshal l)) m =
    fold_fields field (map avp_seen l) m.
Proof. apply scan_marshal. Qed.

(** Recording handler: the AVPs seen, latest first. *)
Definition record_field (c w : Z) (v : bytes) (m : list (Z * Z * bytes))
  : outcome parse_error (list (Z * Z * bytes)) := Ok ((c, w, v) :: m).

Lemma scan_concat_witness :
  let a := {| avp_code := 264; avp_data := VDiameterIdentity (gostr "mme01"); avp_M := true;
              avp_P := false; avp_vendor := 0 |} in
  let b := {| avp_code := 1406; avp_data := VUnsigned32 3; avp_M := true;
              avp_P := false; avp_vendor := 10415 |} in
  (scan record_field (marshal a ++ marshal b) []).1 =
    [(1406, 10415, be_put 4 3); (264, 0, gostr "mme01")].
Proof.
  intros a b. rewrite <- (app_nil_r (marshal b)).
  change (marshal a ++ marshal b ++ []) with (concat (map marshal [a; b])).
  rewrite (scan_concat record_field [a; b] []); [by vm_compute|].
  repeat constructor; by vm_compute.
Defined.

(** C4: the loop always ends: with any [switch], on any data, the fuel given
    (one more than the number of bytes) is enough, more gives the same
    result, and the model's own error never shows. *)
Theorem scan_terminates {M} (field : Z -> Z -> bytes -> M -> outcome parse_error M) d m k :
  (forall c w v m, field c w v m <> Err ErrFuel) ->
  (length d < k)%nat ->
  scan_fuel field k d m = scan field d m /\ (scan field d m).2 <> Err ErrFuel.
Proof.
  intros Hf Hk. split; [|by apply scan_no_fuel].
  apply scan_fuel_enough; lia.
Qed.

Lemma scan_terminates_witness :
  let d := replicate 30 Byte.xff in
  (length d < 40)%nat /\ (scan record_field d []).2 <> Err ErrFuel.
Proof.
  intros d. split; [by vm_compute; lia|].
  by apply (scan_terminates record_field d [] 40); [done|vm_compute; lia].
Defined.
