(* ===== verification/Message.v ===== *)
(** * What every generated message and group shares

    The pieces that the generated [Marshal], [Validate] and [Unmarshal]
    methods are built of, and two interfaces: [WireMessage], for any struct
    with AVPs (group or message), and [WireCommand], for a message with a
    header.  Their laws are proved once per struct, in BaseMessages; the round
    trip through bytes is proved here, once, against the interfaces. *)

From S2P Require Import Prelude Binary DataTypes Wire.

(** ** Pieces of the generated methods *)

(** [if p != nil { buf.Write(...) }] and [for _, v := range l { buf.Write(...) }]. *)
Definition write_opt {A} (o : option A) (w : A -> bytes) : bytes :=
  match o with Some v => w v | None => [] end.
Definition write_all {A} (l : list A) (w : A -> bytes) : bytes := concat (map w l).

Definition is_nil {A} (o : option A) : bool := match o with Some _ => false | None => true end.

(** The header that [NewX()] fills in. *)
Definition new_header (code app : Z) (request proxiable : bool) : DiameterHeader :=
  {| Version := 1; Length := 0;
     Flags := {| Request := request; Proxiable := proxiable; Error := false;
                 Retransmitted := false |};
     CommandCode := code; ApplicationID := app; HopByHopID := 0; EndToEndID := 0 |}.

Inductive marshal_error : Type :=
| ErrRequiredEmpty (field : bytes)
| ErrRequiredNil (field : bytes).

(** [grouped := &X{}; if err := grouped.Unmarshal(avpValue); err == nil { ... }]. *)
Definition assign_group {G M : Type} (r : G * outcome parse_error unit) (set : G -> M) (m : M)
  : outcome parse_error M :=
  match r with
  | (grouped, Ok _) => Ok (set grouped)
  | (_, Err _) => Ok m
  | (_, Panic) => Panic
  end.

(** ** The AVPs of a struct *)

Definition av (code : Z) (data : Value) (M P : bool) (vendor : Z) : avp :=
  {| avp_code := code; avp_data := data; avp_M := M; avp_P := P; avp_vendor := vendor |}.

Definition opt_avp {A} (f : A -> avp) (o : option A) : list avp :=
  match o with Some v => [f v] | None => [] end.

Lemma concat_opt_avp {A} (f : A -> avp) o :
  concat (map marshal (opt_avp f o)) = write_opt o (fun v => marshal (f v)).
Proof. destruct o; [apply app_nil_r|done]. Qed.
Lemma concat_map_avp {A} (f : A -> avp) l :
  concat (map marshal (map f l)) = write_all l (fun v => marshal (f v)).
Proof. unfold write_all. by rewrite map_map. Qed.
Lemma concat_flat_map_avp {A} (f : A -> list avp) l :
  concat (map marshal (flat_map f l)) = write_all l (fun v => concat (map marshal (f v))).
Proof.
  unfold write_all. induction l as [|a l IH]; [done|]. cbn [flat_map map concat].
  by rewrite map_app, concat_app, IH.
Qed.
Lemma write_all_opt {A} (f : A -> avp) l :
  write_all l (fun v => concat (map marshal (opt_avp f v))) =
  write_all l (fun p => write_opt p (fun v => marshal (f v))).
Proof. unfold write_all. f_equal. apply map_ext. intros. apply concat_opt_avp. Qed.
Lemma concat_one_avp a : concat (map marshal [a]) = marshal a.
Proof. apply app_nil_r. Qed.

Create Rewrite HintDb avps.
#[export] Hint Rewrite @map_app @concat_app @concat_opt_avp @concat_map_avp
  @concat_flat_map_avp @write_all_opt concat_one_avp : avps.

Ltac solve_body := intros; autorewrite with avps; reflexivity.

(** ** Well-formed fields *)

(** Contents that an AVP has room for, and that the data type can express. *)
Definition room : Z := 2 ^ 24 - 12.
Definition fits (s : bytes) : Prop := len s < room.
Definition fits_address (a : bytes) : Prop := canonical_address a /\ len a < room - 2.
Definition fits_group {G : Type} (wf : G -> Prop) (Marshal : G -> bytes) (g : G) : Prop :=
  wf g /\ len (Marshal g) < room.
Definition some_and {A : Type} (P : A -> Prop) (o : option A) : Prop :=
  match o with Some a => P a | None => False end.

Lemma wf_av code data M P vendor :
  u32 code -> u32 vendor -> len (Serialize data) < room -> wf_avp (av code data M P vendor).
Proof. intros. split; [done|]. split; [done|]. cbn. unfold room in *. lia. Qed.

Lemma len_address a : fits_address a -> len (Serialize (VAddress a)) < room.
Proof.
  intros [_ H]. cbn [Serialize]. rewrite Address_Len_Serialize. unfold Address_Len.
  destruct (To4_cases a) as [[-> E]|[(ip4 & -> & E & _ & E4)|[-> E]]]; [lia..|].
  unfold To16. rewrite (proj2 (Z.eqb_neq _ _) E). destruct (Z.eqb_spec (len a) 16); lia.
Qed.
Lemma len_u32 n : len (Serialize (VUnsigned32 n)) < room.
Proof. done. Qed.
Lemma len_u64 n : len (Serialize (VUnsigned64 n)) < room.
Proof. done. Qed.
Lemma len_enum n : len (Serialize (VEnumerated n)) < room.
Proof. done. Qed.
Lemma len_time t : len (Serialize (VTime t)) < room.
Proof. done. Qed.
Lemma len_group {G} (wf : G -> Prop) Marshal (g : G) :
  fits_group wf Marshal g -> len (Serialize (VGrouped (Marshal g))) < room.
Proof. by intros [_ H]. Qed.

Lemma Forall_opt_avp {A} (f : A -> avp) (P : A -> Prop) o :
  (forall v, P v -> wf_avp (f v)) -> from_option P True o -> Forall wf_avp (opt_avp f o).
Proof. destruct o; cbn; eauto. Qed.
Lemma Forall_map_avp {A} (f : A -> avp) (P : A -> Prop) l :
  (forall v, P v -> wf_avp (f v)) -> Forall P l -> Forall wf_avp (map f l).
Proof. intros Hf. induction 1; cbn; eauto. Qed.
Lemma Forall_flat_map_avp {A} (f : A -> avp) (P : A -> Prop) l :
  (forall v, P v -> wf_avp (f v)) -> Forall (some_and P) l ->
  Forall wf_avp (flat_map (opt_avp f) l).
Proof. intros Hf. induction 1 as [|[v|] l Hv Hl IH]; cbn; [done| |done]. eauto. Qed.

Create HintDb avp_wf.
#[export] Hint Resolve len_address len_u32 len_u64 len_enum len_time len_group : avp_wf.
#[export] Hint Extern 1 (len (Serialize _) < room) => assumption : avp_wf.

Ltac solve_wf_av :=
  intros; apply wf_av; [by vm_compute|by vm_compute|eauto with avp_wf].
Ltac solve_avps_wf :=
  let H := fresh in intros H; destruct_and? H;
  repeat apply Forall_app_2;
  first
    [ done
    | apply Forall_singleton; solve_wf_av
    | eapply Forall_opt_avp; [|eassumption]; solve_wf_av
    | eapply Forall_map_avp; [|eassumption]; solve_wf_av
    | eapply Forall_flat_map_avp; [|eassumption]; solve_wf_av ].

(** ** Reading back: one case of a [switch] *)

Section Assign.
Context {A M : Type}.

Lemma assign_DiameterIdentity s (set : bytes -> M) m :
  assign (DecodeDiameterIdentity (Serialize (VDiameterIdentity s))) as_DiameterIdentity set m
    = Ok (set s).
Proof. done. Qed.
Lemma assign_UTF8String s (set : bytes -> M) m :
  assign (DecodeUTF8String (Serialize (VUTF8String s))) as_UTF8String set m = Ok (set s).
Proof. done. Qed.
Lemma assign_OctetString s (set : bytes -> M) m :
  assign (DecodeOctetString (Serialize (VOctetString s))) as_OctetString set m = Ok (set s).
Proof. done. Qed.
Lemma assign_DiameterURI s (set : bytes -> M) m :
  assign (DecodeDiameterURI (Serialize (VDiameterURI s))) as_DiameterURI set m = Ok (set s).
Proof. done. Qed.
Lemma assign_Unsigned64 n (set : Z -> M) m :
  u64 n ->
  assign (DecodeUnsigned64 (Serialize (VUnsigned64 n))) as_Unsigned64 set m = Ok (set n).
Proof. intros. cbn [Serialize]. by rewrite DecodeUnsigned64_Serialize. Qed.
Lemma assign_Unsigned32 n (set : Z -> M) m :
  u32 n ->
  assign (DecodeUnsigned32 (Serialize (VUnsigned32 n))) as_Unsigned32 set m = Ok (set n).
Proof. intros. cbn [Serialize]. by rewrite DecodeUnsigned32_Serialize. Qed.
Lemma assign_Enumerated n (set : Z -> M) m :
  i32 n ->
  assign (DecodeEnumerated (Serialize (VEnumerated n))) as_Enumerated set m = Ok (set n).
Proof. intros. cbn [Serialize]. by rewrite DecodeEnumerated_Serialize. Qed.
Lemma assign_Time n (set : Z -> M) m :
  time_window n -> assign (DecodeTime (Serialize (VTime n))) as_Time set m = Ok (set n).
Proof. intros. cbn [Serialize]. by rewrite DecodeTime_Serialize. Qed.
Lemma assign_Address a (set : bytes -> M) m :
  fits_address a -> assign (DecodeAddress (Serialize (VAddress a))) as_Address set m = Ok (set a).
Proof. intros [? _]. cbn [Serialize]. by rewrite DecodeAddress_Serialize. Qed.
Lemma assign_group_ok {G} (r : G * outcome parse_error unit) g (set : G -> M) m :
  r = (g, Ok tt) -> assign_group r set m = Ok (set g).
Proof. by intros ->. Qed.
End Assign.

(** [groups] holds the round trips of the groups. *)
Create HintDb groups.

(** Runs a [switch] on a constant code. *)
Ltac eval_tests :=
  repeat match goal with
  | |- context [?a =? ?b] =>
      let v := eval vm_compute in (a =? b) in
      change (a =? b) with v; cbv beta iota delta [negb]
  end.
Ltac eval_switch :=
  unfold av; cbn [avp_code avp_vendor avp_data];
  match goal with |- ?f ?c ?w ?v ?m = _ => unfold f end;
  eval_tests.
Ltac solve_switch :=
  intros; eval_switch; cbv beta;
  lazymatch goal with
  | |- assign_group _ _ _ = _ =>
      erewrite assign_group_ok; [reflexivity|solve [eauto with groups]]
  | |- _ =>
      first [ rewrite assign_DiameterIdentity | rewrite assign_UTF8String
            | rewrite assign_OctetString | rewrite assign_DiameterURI
            | rewrite assign_Unsigned64 by assumption | rewrite assign_Unsigned32 by assumption
            | rewrite assign_Enumerated by assumption | rewrite assign_Time by assumption
            | rewrite assign_Address by assumption ]; reflexivity
  end.

(** ** Reading back: the AVPs of one field *)

Section Fold.
Context {M : Type} (field : Z -> Z -> bytes -> M -> outcome parse_error M).

Definition reads (a : avp) (m m' : M) : Prop :=
  field (avp_code a) (avp_vendor a) (Serialize (avp_data a)) m = Ok m'.

Lemma fold_req a rest m m' :
  reads a m m' ->
  fold_fields field (map avp_seen ([a] ++ rest)) m =
    fold_fields field (map avp_seen rest) m'.
Proof. unfold reads. intros H. cbn [app map avp_seen fold_fields]. by rewrite H. Qed.

Lemma fold_opt {A} (upd : option A -> M -> M) (P : A -> Prop) f o rest m :
  from_option P True o ->
  (forall v, P v -> reads (f v) m (upd (Some v) m)) ->
  upd None m = m ->
  fold_fields field (map avp_seen (opt_avp f o ++ rest)) m =
    fold_fields field (map avp_seen rest) (upd o m).
Proof.
  destruct o as [v|]; intros Ho Hf Hn; [|by rewrite Hn].
  apply fold_req. by apply Hf.
Qed.

(** A repeated field is appended to, AVP by AVP. *)
Section Repeated.
Context {A : Type} (get : M -> list A) (upd : list A -> M -> M).
Context (get_upd : forall l m, get (upd l m) = l).
Context (upd_upd : forall l k m, upd l (upd k m) = upd l m).
Context (upd_get : forall m, upd (get m) m = m).

Lemma fold_each {B} (P : B -> Prop) (g : B -> list avp) (val : B -> A) l rest m :
  Forall P l ->
  (forall v m, P v -> exists a, g v = [a] /\ reads a m (upd (get m ++ [val v]) m)) ->
  fold_fields field (map avp_seen (flat_map g l ++ rest)) m =
    fold_fields field (map avp_seen rest) (upd (get m ++ map val l) m).
Proof.
  intros Hl Hf. revert m. induction Hl as [|v l Hv Hl IH]; intros m.
  { cbn [flat_map app map]. by rewrite app_nil_r, upd_get. }
  destruct (Hf v m Hv) as (a & Ea & Ha).
  cbn [flat_map]. rewrite Ea, <- !app_assoc, (fold_req _ _ _ _ Ha), IH.
  by rewrite get_upd, upd_upd, <- app_assoc.
Qed.

Lemma fold_rep (P : A -> Prop) f l rest m :
  Forall P l ->
  (forall v m, P v -> reads (f v) m (upd (get m ++ [v]) m)) ->
  fold_fields field (map avp_seen (map f l ++ rest)) m =
    fold_fields field (map avp_seen rest) (upd (get m ++ l) m).
Proof.
  intros Hl Hf. rewrite <- (map_id l) at 2.
  replace (map f l) with (flat_map (fun v => [f v]) l)
    by (clear; induction l; cbn; congruence).
  eapply (fold_each P (fun v => [f v]) id); [done|]. intros v m' Hv. eauto.
Qed.
End Repeated.

(** A repeated group is a list of pointers, nil in none of a well-formed
    message. *)
Lemma fold_rep_opt {A} (get : M -> list (option A)) (upd : list (option A) -> M -> M)
    (P : A -> Prop) f l rest m :
  (forall l m, get (upd l m) = l) ->
  (forall l k m, upd l (upd k m) = upd l m) ->
  (forall m, upd (get m) m = m) ->
  Forall (some_and P) l ->
  (forall v m, P v -> reads (f v) m (upd (get m ++ [Some v]) m)) ->
  fold_fields field (map avp_seen (flat_map (opt_avp f) l ++ rest)) m =
    fold_fields field (map avp_seen rest) (upd (get m ++ l) m).
Proof.
  intros H1 H2 H3 Hl Hf. rewrite <- (map_id l) at 2.
  eapply (fold_each get upd H1 H2 H3 (some_and P)); [done|].
  intros [v|] m' Hv; [|done]. exists (f v). split; [done|]. by apply Hf.
Qed.
End Fold.

Ltac solve_field :=
  lazymatch goal with
  | |- from_option _ _ _ => eassumption
  | |- Forall _ _ => eassumption
  | |- reads _ _ _ _ => unfold reads; solve_switch
  | |- forall v, _ -> reads _ _ _ _ => unfold reads; solve_switch
  | |- forall v m, _ -> reads _ _ _ _ => unfold reads; solve_switch
  | |- _ => first [reflexivity | let m := fresh in intros m; destruct m; reflexivity]
  end.

(** ** The interfaces *)

(** [wire_avps m] are the AVPs that [Marshal] writes for [m], [wire_field] is
    the [switch] that reads them, [wire_start m] the value that [Unmarshal]
    starts from (the header of a message is read before its AVPs).  The law
    [wire_fold]: the [switch] folded over the AVPs of a well-formed value
    gives the value. *)
Class WireMessage (M : Type) := {
  wire_start : M -> M;
  wire_wf : M -> Prop;
  wire_avps : M -> list avp;
  wire_field : Z -> Z -> bytes -> M -> outcome parse_error M;
  wire_wf_avps m : wire_wf m -> Forall wf_avp (wire_avps m);
  wire_fold m :
    wire_wf m ->
    fold_fields wire_field (map avp_seen (wire_avps m)) (wire_start m) = (m, Ok tt) }.

(** The law lifted to bytes, for every instance. *)
Lemma wire_roundtrip {M} `{WireMessage M} m :
  wire_wf m ->
  scan wire_field (concat (map marshal (wire_avps m))) (wire_start m) = (m, Ok tt).
Proof.
  intros Hw. rewrite scan_marshal by (by apply wire_wf_avps). by apply wire_fold.
Qed.

(** A message is a struct with a header.  [Marshal] and [Unmarshal] are the
    same code in every message around its AVPs: the fields [cmd_marshal_eq]
    and [cmd_unmarshal_eq] say so. *)
Definition zero_header : DiameterHeader :=
  {| Version := 0; Length := 0;
     Flags := {| Request := false; Proxiable := false; Error := false; Retransmitted := false |};
     CommandCode := 0; ApplicationID := 0; HopByHopID := 0; EndToEndID := 0 |}.

Class WireCommand (M : Type) `{WireMessage M} := {
  cmd_header : M -> DiameterHeader;
  cmd_with_header : DiameterHeader -> M -> M;
  cmd_zero : M;
  cmd_validate : M -> option marshal_error;
  cmd_body : M -> bytes;
  cmd_marshal : M -> M * outcome marshal_error bytes;
  cmd_unmarshal : bytes -> M -> M * outcome parse_error unit;
  cmd_header_with h m : cmd_header (cmd_with_header h m) = h;
  cmd_start_eq m : wire_start m = cmd_with_header (cmd_header m) cmd_zero;
  cmd_wf_with h m : wire_wf (cmd_with_header h m) <-> wire_wf m;
  cmd_body_with h m : cmd_body (cmd_with_header h m) = cmd_body m;
  cmd_body_eq m : cmd_body m = concat (map marshal (wire_avps m));
  cmd_marshal_eq m :
    cmd_marshal m =
      match cmd_validate m with
      | Some e => (m, Err e)
      | None =>
          let m := cmd_with_header
            (cmd_header m) <| Length := to_u32 (20 + len (cmd_body m)) |> m in
          (m, Ok (marshalHeader (cmd_header m) ++ cmd_body m))
      end;
  cmd_unmarshal_eq data m :
    cmd_unmarshal data m =
      if len data <? 20 then (m, Err ErrHeaderTooShort)
      else match read_header data with
           | Ok header => scan_from wire_field data 20 (cmd_with_header header m)
           | Err e => (m, Err e)
           | Panic => (m, Panic)
           end }.

(** What a message with these methods has to satisfy: a message that is valid
    and well-formed, and fits the length field, is sent as as many bytes as
    its length field then says, a multiple of four, and is read back from
    them as it was sent. *)
Definition roundtrip_spec {M : Type} (wf : M -> Prop) (Header : M -> DiameterHeader)
    (body : M -> bytes) (Validate : M -> option marshal_error)
    (Marshal : M -> M * outcome marshal_error bytes)
    (Unmarshal : bytes -> M -> M * outcome parse_error unit) (zero : M) : Prop :=
  forall m,
    wf m -> wf_header (Header m) -> Validate m = None -> 20 + len (body m) < 2 ^ 24 ->
    exists m' data,
      Marshal m = (m', Ok data) /\
      Header m' = (Header m) <| Length := len data |> /\
      len data = 20 + len (body m) /\ len data mod 4 = 0 /\
      Unmarshal data zero = (m', Ok tt).

Lemma len_concat_marshal l : Forall wf_avp l -> len (concat (map marshal l)) mod 4 = 0.
Proof.
  induction 1 as [|a l Ha Hl IH]; [done|]. cbn [map concat].
  rewrite len_app, len_marshal by done. destruct (avp_total_u24 a Ha) as [? ?].
  rewrite Z.add_mod, IH, (proj2 (padded_spec (avp_total a) ltac:(lia))) by lia. done.
Qed.

Lemma command_roundtrip {M} `{WireCommand M} :
  roundtrip_spec wire_wf cmd_header cmd_body cmd_validate cmd_marshal cmd_unmarshal cmd_zero.
Proof.
  intros m Hw Hh Hv Hlen. rewrite cmd_marshal_eq, Hv. cbv zeta.
  pose proof (len_nonneg (cmd_body m)).
  rewrite to_u32_id by (unfold u32; lia). rewrite cmd_header_with.
  set (n := 20 + len (cmd_body m)) in *.
  set (h := (cmd_header m) <| Length := n |>). set (m' := cmd_with_header h m).
  assert (wf_header h) as Hwh.
  { destruct Hh as (? & _ & ?). unfold h. split; [done|].
    rsimpl. split; [unfold u24; lia|]. done. }
  assert (cmd_body m' = cmd_body m) as Hb by apply cmd_body_with.
  assert (wire_wf m') as Hw' by (by apply cmd_wf_with).
  assert (len (marshalHeader h ++ cmd_body m') = n) as Hn
    by (rewrite len_app, Hb, len_marshalHeader; done).
  eexists m', _. split; [done|]. rewrite Hn. split; [by apply cmd_header_with|].
  split; [done|]. split.
  { unfold n. rewrite cmd_body_eq, Z.add_mod, len_concat_marshal by
      (lia || by apply wire_wf_avps). done. }
  rewrite cmd_unmarshal_eq. fold (unmarshal_message wire_field (marshalHeader h ++ cmd_body m') cmd_zero (fun h => cmd_with_header h cmd_zero)).
  rewrite unmarshal_in_range, (proj2 (Z.ltb_ge _ 20)) by lia.
  rewrite (take_length_app _ _ 20), (drop_length_app _ _ 20) by done.
  rewrite <- (app_nil_r (marshalHeader h)), unmarshal_marshalHeader by done.
  assert (cmd_with_header h cmd_zero = wire_start m') as ->
    by (rewrite cmd_start_eq; unfold m'; by rewrite cmd_header_with).
  rewrite cmd_body_eq. by apply wire_roundtrip.
Qed.

(** The two promises about a message, read off its instance. *)
Definition reads_back (M : Type) `{WireCommand M} : Prop :=
  roundtrip_spec (M := M) wire_wf cmd_header cmd_body cmd_validate cmd_marshal cmd_unmarshal cmd_zero.

(** A [switch] that panics on an AVP makes the loop panic on it, whatever was
    read before and whatever follows. *)
Lemma scan_panics {M} (field : Z -> Z -> bytes -> M -> outcome parse_error M) a rest m :
  wf_avp a -> field (avp_code a) (avp_vendor a) (Serialize (avp_data a)) m = Panic ->
  (scan field (marshal a ++ rest) m).2 = Panic.
Proof. intros Ha E. by rewrite scan_cons, E. Qed.

(** ** No field panics *)

Section NoPanic.
Context {A M : Type}.

Lemma assign_DiameterIdentity_total b (set : bytes -> M) m :
  assign (DecodeDiameterIdentity b) as_DiameterIdentity set m = Ok (set b).
Proof. done. Qed.
Lemma assign_UTF8String_total b (set : bytes -> M) m :
  assign (DecodeUTF8String b) as_UTF8String set m = Ok (set b).
Proof. done. Qed.
Lemma assign_OctetString_total b (set : bytes -> M) m :
  assign (DecodeOctetString b) as_OctetString set m = Ok (set b).
Proof. done. Qed.
Lemma assign_DiameterURI_total b (set : bytes -> M) m :
  assign (DecodeDiameterURI b) as_DiameterURI set m = Ok (set b).
Proof. done. Qed.
Lemma assign_Unsigned32_total b (set : Z -> M) m :
  exists n, assign (DecodeUnsigned32 b) as_Unsigned32 set m = Ok (set n).
Proof. rewrite DecodeUnsigned32_eq. case_match; eexists; reflexivity. Qed.
Lemma assign_Enumerated_total b (set : Z -> M) m :
  exists n, assign (DecodeEnumerated b) as_Enumerated set m = Ok (set n).
Proof.
  unfold DecodeEnumerated. rewrite DecodeInteger32_eq. destruct (negb _); eexists; reflexivity.
Qed.
Lemma assign_Address_total b (set : bytes -> M) m :
  exists m', assign (DecodeAddress b) as_Address set m = Ok m'.
Proof.
  destruct (DecodeAddress b) as [v|e|] eqn:E; [|by eexists|].
  - apply DecodeAddress_inv in E as (_ & [(_ & _ & ->)|[(_ & _ & ->)|(_ & ->)]]);
      by eexists.
  - exfalso. revert E. rewrite DecodeAddress_eq. cbv zeta. by repeat case_match.
Qed.
Lemma assign_Unsigned64_total b (set : Z -> M) m :
  exists n, assign (DecodeUnsigned64 b) as_Unsigned64 set m = Ok (set n).
Proof. rewrite DecodeUnsigned64_eq. case_match; eexists; reflexivity. Qed.
Lemma assign_Time_total b (set : Z -> M) m :
  len b = 4 -> exists n, assign (DecodeTime b) as_Time set m = Ok (set n).
Proof. rewrite DecodeTime_eq. intros ->. cbn. case_match; eexists; reflexivity. Qed.
Lemma assign_Time_panics b (set : Z -> M) m :
  len b <> 4 -> assign (DecodeTime b) as_Time set m = Panic.
Proof. rewrite DecodeTime_eq. intros H. by rewrite (proj2 (Z.eqb_neq _ _) H). Qed.
Lemma assign_group_total {G} (r : G * outcome parse_error unit) (set : G -> M) m :
  r.2 <> Panic -> exists m', assign_group r set m = Ok m'.
Proof. destruct r as [g [[]|e|]]; intros; [by eexists..|done]. Qed.
End NoPanic.

Create HintDb no_panic.

(** [field c w v m] is always [Ok], given what the context says of [c]. *)
Ltac solve_total :=
  intros;
  repeat match goal with
  | |- context [if ?c =? ?k then _ else _] => destruct (Z.eqb_spec c k)
  | |- context [if ?c then _ else _] => destruct c
  end;
  first
    [ by eexists
    | rewrite assign_DiameterIdentity_total; by eexists
    | rewrite assign_UTF8String_total; by eexists
    | rewrite assign_OctetString_total; by eexists
    | rewrite assign_DiameterURI_total; by eexists
    | match goal with |- exists _, assign (DecodeUnsigned32 ?b) _ ?set ?m = _ =>
        destruct (assign_Unsigned32_total b set m) as [? ->]; by eexists end
    | match goal with |- exists _, assign (DecodeEnumerated ?b) _ ?set ?m = _ =>
        destruct (assign_Enumerated_total b set m) as [? ->]; by eexists end
    | match goal with |- exists _, assign (DecodeUnsigned64 ?b) _ ?set ?m = _ =>
        destruct (assign_Unsigned64_total b set m) as [? ->]; by eexists end
    | match goal with |- exists _, assign (DecodeTime ?b) _ ?set ?m = _ =>
        destruct (assign_Time_total b set m) as [? ->]; [by auto|by eexists] end
    | apply assign_Address_total
    | apply assign_group_total; eauto with no_panic ].

(** A loop whose [switch] always succeeds ends without a panic, within its
    fuel; with well-formed AVP headers it succeeds. *)
Lemma scan_total {M} (field : Z -> Z -> bytes -> M -> outcome parse_error M) d m :
  (forall c w v m, exists m', field c w v m = Ok m') ->
  (scan field d m).2 <> Panic /\ (scan field d m).2 <> Err ErrFuel.
Proof.
  intros H. split; [apply scan_no_panic|apply scan_no_fuel];
    intros c w v m'; destruct (H c w v m') as [? ->]; done.
Qed.
