(* ===== verification/BaseMessages.v ===== *)
(** * The base protocol messages ([commands/base/diameter.pb.go])

    One Module per Go struct: the six messages that peers exchange to open,
    watch and close a connection (CER/CEA, DWR/DWA, DPR/DPA), the two groups
    they contain, and the group CSGSubscriptionData, which has a [Time].  In
    each: the struct as the record [t], [New], [Validate], [Marshal] (its AVP
    writes are [body], its tail patches the header in), [field] (the [switch]
    of [Unmarshal]), [Unmarshal] and [Len]; then the instances of the
    interfaces of Message.  [String()] is not modelled. *)

From S2P Require Import Prelude Binary DataTypes Wire Message.

(** ** AVP codes ([constants.go]) *)

Definition AVPCodeVENDORID : Z := 266.
Definition AVPCodeAUTHAPPLICATIONID : Z := 258.
Definition AVPCodeACCTAPPLICATIONID : Z := 259.
Definition AVPCodeCSGID : Z := 1437.
Definition AVPCodeEXPIRATIONDATE : Z := 1439.
Definition AVPCodeSERVICESELECTION : Z := 493.
Definition AVPCodeVISITEDPLMNID : Z := 1407.
Definition AVPCodeORIGINHOST : Z := 264.
Definition AVPCodeORIGINREALM : Z := 296.
Definition AVPCodeHOSTIPADDRESS : Z := 257.
Definition AVPCodePRODUCTNAME : Z := 269.
Definition AVPCodeORIGINSTATEID : Z := 278.
Definition AVPCodeSUPPORTEDVENDORID : Z := 265.
Definition AVPCodeINBANDSECURITYID : Z := 299.
Definition AVPCodeVENDORSPECIFICAPPLICATIONID : Z := 260.
Definition AVPCodeFIRMWAREREVISION : Z := 267.
Definition AVPCodeRESULTCODE : Z := 268.
Definition AVPCodeERRORMESSAGE : Z := 281.
Definition AVPCodeFAILEDAVP : Z := 279.
Definition AVPCodeDISCONNECTCAUSE : Z := 273.

(** ** Structs *)

Module VendorSpecificApplicationId.

Record t := mk {
  VendorId : option Z;
  AuthApplicationId : option Z;
  AcctApplicationId : option Z }.

Definition zero : t := mk None None None.

Definition Marshal (g : t) : bytes :=
  write_opt (VendorId g) (fun x =>
    marshalAVP AVPCodeVENDORID (VUnsigned32 x) true false) ++
  write_opt (AuthApplicationId g) (fun x =>
    marshalAVP AVPCodeAUTHAPPLICATIONID (VUnsigned32 x) true false) ++
  write_opt (AcctApplicationId g) (fun x =>
    marshalAVP AVPCodeACCTAPPLICATIONID (VUnsigned32 x) true false).

Definition field (avpCode vendorID : Z) (avpValue : bytes) (g : t) : outcome parse_error t :=
  if avpCode =? AVPCodeVENDORID then
    assign (DecodeUnsigned32 avpValue) as_Unsigned32
      (fun x => g <| VendorId := Some x |>) g
  else
  if avpCode =? AVPCodeAUTHAPPLICATIONID then
    assign (DecodeUnsigned32 avpValue) as_Unsigned32
      (fun x => g <| AuthApplicationId := Some x |>) g
  else
  if avpCode =? AVPCodeACCTAPPLICATIONID then
    assign (DecodeUnsigned32 avpValue) as_Unsigned32
      (fun x => g <| AcctApplicationId := Some x |>) g
  else
  Ok g.

Definition Unmarshal (data : bytes) (g : t) : t * outcome parse_error unit :=
  scan field data g.

Definition avps (g : t) : list avp :=
  opt_avp (fun x => av AVPCodeVENDORID (VUnsigned32 x) true false 0) (VendorId g) ++
  opt_avp (fun x => av AVPCodeAUTHAPPLICATIONID (VUnsigned32 x) true false 0) (AuthApplicationId g) ++
  opt_avp (fun x => av AVPCodeACCTAPPLICATIONID (VUnsigned32 x) true false 0) (AcctApplicationId g).

Definition wf (g : t) : Prop :=
  from_option u32 True (VendorId g) /\
  from_option u32 True (AuthApplicationId g) /\
  from_option u32 True (AcctApplicationId g).

Lemma VSAI_Marshal_avps g : Marshal g = concat (map marshal (avps g)).
Proof. unfold avps. solve_body. Qed.

Lemma VSAI_avps_wf g : wf g -> Forall wf_avp (avps g).
Proof. unfold wf, avps. solve_avps_wf. Qed.

(** Computes the fields of explicit records. *)
Ltac fields := cbv beta iota delta [set_field zero VendorId AuthApplicationId AcctApplicationId].

Lemma VSAI_fold_avps g :
  wf g -> fold_fields field (map avp_seen (avps g)) zero = (g, Ok tt).
Proof.
  destruct g. unfold wf; fields. intros H. destruct_and? H.
  rewrite <- (app_nil_r (avps _)). unfold avps. rewrite <- ?app_assoc. fields.
  erewrite (fold_opt field (fun x m => m <| VendorId := x |>)) by solve_field. fields.
  erewrite (fold_opt field (fun x m => m <| AuthApplicationId := x |>)) by solve_field. fields.
  erewrite (fold_opt field (fun x m => m <| AcctApplicationId := x |>)) by solve_field. fields.
  by subst.
Qed.

#[global] Instance wire : WireMessage t := {|
  wire_start g := zero; wire_wf := wf; wire_avps := avps; wire_field := field;
  wire_wf_avps := VSAI_avps_wf; wire_fold := VSAI_fold_avps |}.

(** A group is read back from its own bytes. *)
Lemma VSAI_Unmarshal_Marshal g :
  fits_group wf Marshal g -> Unmarshal (Serialize (VGrouped (Marshal g))) zero = (g, Ok tt).
Proof.
  intros [Hw _]. cbn [Serialize]. unfold Grouped_Serialize. rewrite VSAI_Marshal_avps. exact (@wire_roundtrip t wire g Hw).
Qed.
#[global] Hint Resolve VSAI_Unmarshal_Marshal : groups.

Lemma VSAI_field_total c w v g : exists m', field c w v g = Ok m'.
Proof. unfold field. solve_total. Qed.

Lemma VSAI_Unmarshal_no_panic data g : (Unmarshal data g).2 <> Panic.
Proof. apply (scan_total field), VSAI_field_total. Qed.
#[global] Hint Resolve VSAI_Unmarshal_no_panic : no_panic.

End VendorSpecificApplicationId.

Module FailedAVP.

Record t := mk {
  Avp : list bytes }.

Definition zero : t := mk [].

Definition Marshal (g : t) : bytes :=
  [].

Definition field (avpCode vendorID : Z) (avpValue : bytes) (g : t) : outcome parse_error t :=
  Ok g.

Definition Unmarshal (data : bytes) (g : t) : t * outcome parse_error unit :=
  scan field data g.

Definition avps (g : t) : list avp :=
  [].

Definition wf (g : t) : Prop :=
  Avp g = [].

Lemma FailedAVP_Marshal_avps g : Marshal g = concat (map marshal (avps g)).
Proof. unfold avps. solve_body. Qed.

Lemma FailedAVP_avps_wf g : wf g -> Forall wf_avp (avps g).
Proof. unfold wf, avps. solve_avps_wf. Qed.

(** Computes the fields of explicit records. *)
Ltac fields := cbv beta iota delta [set_field zero Avp].

Lemma FailedAVP_fold_avps g :
  wf g -> fold_fields field (map avp_seen (avps g)) zero = (g, Ok tt).
Proof.
  destruct g. unfold wf; fields. intros H. destruct_and? H.
  rewrite <- (app_nil_r (avps _)). unfold avps. rewrite <- ?app_assoc. fields.
  by subst.
Qed.

#[global] Instance wire : WireMessage t := {|
  wire_start g := zero; wire_wf := wf; wire_avps := avps; wire_field := field;
  wire_wf_avps := FailedAVP_avps_wf; wire_fold := FailedAVP_fold_avps |}.

(** A group is read back from its own bytes. *)
Lemma FailedAVP_Unmarshal_Marshal g :
  fits_group wf Marshal g -> Unmarshal (Serialize (VGrouped (Marshal g))) zero = (g, Ok tt).
Proof.
  intros [Hw _]. cbn [Serialize]. unfold Grouped_Serialize. rewrite FailedAVP_Marshal_avps. exact (@wire_roundtrip t wire g Hw).
Qed.
#[global] Hint Resolve FailedAVP_Unmarshal_Marshal : groups.

Lemma FailedAVP_field_total c w v g : exists m', field c w v g = Ok m'.
Proof. unfold field. solve_total. Qed.

Lemma FailedAVP_Unmarshal_no_panic data g : (Unmarshal data g).2 <> Panic.
Proof. apply (scan_total field), FailedAVP_field_total. Qed.
#[global] Hint Resolve FailedAVP_Unmarshal_no_panic : no_panic.

End FailedAVP.

Module CSGSubscriptionData.

Record t := mk {
  CsgId : Z;
  ExpirationDate : option Z;
  ServiceSelection : list bytes;
  VisitedPlmnId : option bytes }.

Definition zero : t := mk 0 None [] None.

Definition Marshal (g : t) : bytes :=
  marshalAVPWithVendor AVPCodeCSGID (VUnsigned32 (CsgId g)) true false 10415 ++
  write_opt (ExpirationDate g) (fun x =>
    marshalAVPWithVendor AVPCodeEXPIRATIONDATE (VTime x) true false 10415) ++
  write_all (ServiceSelection g) (fun x =>
    marshalAVP AVPCodeSERVICESELECTION (VUTF8String x) true false) ++
  write_opt (VisitedPlmnId g) (fun x =>
    marshalAVPWithVendor AVPCodeVISITEDPLMNID (VOctetString x) true false 10415).

Definition field (avpCode vendorID : Z) (avpValue : bytes) (g : t) : outcome parse_error t :=
  if avpCode =? AVPCodeCSGID then
    (if negb (vendorID =? 10415) then Ok g else assign (DecodeUnsigned32 avpValue) as_Unsigned32
      (fun x => g <| CsgId := x |>) g)
  else
  if avpCode =? AVPCodeEXPIRATIONDATE then
    (if negb (vendorID =? 10415) then Ok g else assign (DecodeTime avpValue) as_Time
      (fun x => g <| ExpirationDate := Some x |>) g)
  else
  if avpCode =? AVPCodeSERVICESELECTION then
    assign (DecodeUTF8String avpValue) as_UTF8String
      (fun x => g <| ServiceSelection := ServiceSelection g ++ [x] |>) g
  else
  if avpCode =? AVPCodeVISITEDPLMNID then
    (if negb (vendorID =? 10415) then Ok g else assign (DecodeOctetString avpValue) as_OctetString
      (fun x => g <| VisitedPlmnId := Some x |>) g)
  else
  Ok g.

Definition Unmarshal (data : bytes) (g : t) : t * outcome parse_error unit :=
  scan field data g.

Definition avps (g : t) : list avp :=
  [av AVPCodeCSGID (VUnsigned32 (CsgId g)) true false 10415] ++
  opt_avp (fun x => av AVPCodeEXPIRATIONDATE (VTime x) true false 10415) (ExpirationDate g) ++
  map (fun x => av AVPCodeSERVICESELECTION (VUTF8String x) true false 0) (ServiceSelection g) ++
  opt_avp (fun x => av AVPCodeVISITEDPLMNID (VOctetString x) true false 10415) (VisitedPlmnId g).

Definition wf (g : t) : Prop :=
  u32 (CsgId g) /\
  from_option time_window True (ExpirationDate g) /\
  Forall fits (ServiceSelection g) /\
  from_option fits True (VisitedPlmnId g).

Lemma CSG_Marshal_avps g : Marshal g = concat (map marshal (avps g)).
Proof. unfold avps. solve_body. Qed.

Lemma CSG_avps_wf g : wf g -> Forall wf_avp (avps g).
Proof. unfold wf, avps. solve_avps_wf. Qed.

(** Computes the fields of explicit records. *)
Ltac fields := cbv beta iota delta [set_field zero CsgId ExpirationDate ServiceSelection VisitedPlmnId].

Lemma CSG_fold_avps g :
  wf g -> fold_fields field (map avp_seen (avps g)) zero = (g, Ok tt).
Proof.
  destruct g. unfold wf; fields. intros H. destruct_and? H.
  rewrite <- (app_nil_r (avps _)). unfold avps. rewrite <- ?app_assoc. fields.
  erewrite fold_req by solve_field. fields.
  erewrite (fold_opt field (fun x m => m <| ExpirationDate := x |>)) by solve_field. fields.
  erewrite (fold_rep field ServiceSelection (fun x m => m <| ServiceSelection := x |>)) by solve_field. fields.
  erewrite (fold_opt field (fun x m => m <| VisitedPlmnId := x |>)) by solve_field. fields.
  by subst.
Qed.

#[global] Instance wire : WireMessage t := {|
  wire_start g := zero; wire_wf := wf; wire_avps := avps; wire_field := field;
  wire_wf_avps := CSG_avps_wf; wire_fold := CSG_fold_avps |}.

(** A group is read back from its own bytes. *)
Lemma CSG_Unmarshal_Marshal g :
  fits_group wf Marshal g -> Unmarshal (Serialize (VGrouped (Marshal g))) zero = (g, Ok tt).
Proof.
  intros [Hw _]. cbn [Serialize]. unfold Grouped_Serialize. rewrite CSG_Marshal_avps. exact (@wire_roundtrip t wire g Hw).
Qed.
#[global] Hint Resolve CSG_Unmarshal_Marshal : groups.

End CSGSubscriptionData.

Module CapabilitiesExchangeRequest.

Record t := mk {
  Header : DiameterHeader;
  OriginHost : bytes;
  OriginRealm : bytes;
  HostIpAddress : list bytes;
  VendorId : Z;
  ProductName : bytes;
  OriginStateId : option Z;
  SupportedVendorId : list Z;
  AuthApplicationId : list Z;
  InbandSecurityId : list Z;
  AcctApplicationId : list Z;
  VendorSpecificApplicationId : list (option VendorSpecificApplicationId.t);
  FirmwareRevision : option Z;
  Avp : list bytes }.

(** The zero value with a given header: [&X{}] once its header is set. *)
Definition start (h : DiameterHeader) : t :=
  mk h [] [] [] 0 [] None [] [] [] [] [] None [].

Definition zero : t := start zero_header.

Definition New : t := start (new_header 257 0 true false).

Definition Validate (m : t) : option marshal_error :=
  if len (OriginHost m) =? 0 then Some (ErrRequiredEmpty (gostr "Origin-Host")) else
  if len (OriginRealm m) =? 0 then Some (ErrRequiredEmpty (gostr "Origin-Realm")) else
  if len (HostIpAddress m) =? 0 then Some (ErrRequiredEmpty (gostr "Host-IP-Address")) else
  if len (ProductName m) =? 0 then Some (ErrRequiredEmpty (gostr "Product-Name")) else
  None.

Definition body (m : t) : bytes :=
  marshalAVP AVPCodeORIGINHOST (VDiameterIdentity (OriginHost m)) true false ++
  marshalAVP AVPCodeORIGINREALM (VDiameterIdentity (OriginRealm m)) true false ++
  write_all (HostIpAddress m) (fun x =>
    marshalAVP AVPCodeHOSTIPADDRESS (VAddress x) true false) ++
  marshalAVP AVPCodeVENDORID (VUnsigned32 (VendorId m)) true false ++
  marshalAVP AVPCodePRODUCTNAME (VUTF8String (ProductName m)) false false ++
  write_opt (OriginStateId m) (fun x =>
    marshalAVP AVPCodeORIGINSTATEID (VUnsigned32 x) false false) ++
  write_all (SupportedVendorId m) (fun x =>
    marshalAVP AVPCodeSUPPORTEDVENDORID (VUnsigned32 x) true false) ++
  write_all (AuthApplicationId m) (fun x =>
    marshalAVP AVPCodeAUTHAPPLICATIONID (VUnsigned32 x) true false) ++
  write_all (InbandSecurityId m) (fun x =>
    marshalAVP AVPCodeINBANDSECURITYID (VUnsigned32 x) true false) ++
  write_all (AcctApplicationId m) (fun x =>
    marshalAVP AVPCodeACCTAPPLICATIONID (VUnsigned32 x) true false) ++
  write_all (VendorSpecificApplicationId m) (fun p => write_opt p (fun x =>
    marshalAVP AVPCodeVENDORSPECIFICAPPLICATIONID (VGrouped (VendorSpecificApplicationId.Marshal x)) true false)) ++
  write_opt (FirmwareRevision m) (fun x =>
    marshalAVP AVPCodeFIRMWAREREVISION (VUnsigned32 x) false false).

Definition Marshal (m : t) : t * outcome marshal_error bytes :=
  match Validate m with
  | Some e => (m, Err e)
  | None =>
      let m := m <| Header := (Header m) <| Length := to_u32 (20 + len (body m)) |> |> in
      (m, Ok (marshalHeader (Header m) ++ body m))
  end.

Definition field (avpCode vendorID : Z) (avpValue : bytes) (m : t) : outcome parse_error t :=
  if avpCode =? AVPCodeORIGINHOST then
    assign (DecodeDiameterIdentity avpValue) as_DiameterIdentity
      (fun x => m <| OriginHost := x |>) m
  else
  if avpCode =? AVPCodeORIGINREALM then
    assign (DecodeDiameterIdentity avpValue) as_DiameterIdentity
      (fun x => m <| OriginRealm := x |>) m
  else
  if avpCode =? AVPCodeHOSTIPADDRESS then
    assign (DecodeAddress avpValue) as_Address
      (fun x => m <| HostIpAddress := HostIpAddress m ++ [x] |>) m
  else
  if avpCode =? AVPCodeVENDORID then
    assign (DecodeUnsigned32 avpValue) as_Unsigned32
      (fun x => m <| VendorId := x |>) m
  else
  if avpCode =? AVPCodePRODUCTNAME then
    assign (DecodeUTF8String avpValue) as_UTF8String
      (fun x => m <| ProductName := x |>) m
  else
  if avpCode =? AVPCodeORIGINSTATEID then
    assign (DecodeUnsigned32 avpValue) as_Unsigned32
      (fun x => m <| OriginStateId := Some x |>) m
  else
  if avpCode =? AVPCodeSUPPORTEDVENDORID then
    assign (DecodeUnsigned32 avpValue) as_Unsigned32
      (fun x => m <| SupportedVendorId := SupportedVendorId m ++ [x] |>) m
  else
  if avpCode =? AVPCodeAUTHAPPLICATIONID then
    assign (DecodeUnsigned32 avpValue) as_Unsigned32
      (fun x => m <| AuthApplicationId := AuthApplicationId m ++ [x] |>) m
  else
  if avpCode =? AVPCodeINBANDSECURITYID then
    assign (DecodeUnsigned32 avpValue) as_Unsigned32
      (fun x => m <| InbandSecurityId := InbandSecurityId m ++ [x] |>) m
  else
  if avpCode =? AVPCodeACCTAPPLICATIONID then
    assign (DecodeUnsigned32 avpValue) as_Unsigned32
      (fun x => m <| AcctApplicationId := AcctApplicationId m ++ [x] |>) m
  else
  if avpCode =? AVPCodeVENDORSPECIFICAPPLICATIONID then
    assign_group (VendorSpecificApplicationId.Unmarshal avpValue VendorSpecificApplicationId.zero)
      (fun grouped => m <| VendorSpecificApplicationId := VendorSpecificApplicationId m ++ [Some grouped] |>) m
  else
  if avpCode =? AVPCodeFIRMWAREREVISION then
    assign (DecodeUnsigned32 avpValue) as_Unsigned32
      (fun x => m <| FirmwareRevision := Some x |>) m
  else
  Ok m.

Definition Unmarshal (data : bytes) (m : t) : t * outcome parse_error unit :=
  if len data <? 20 then (m, Err ErrHeaderTooShort)
  else match read_header data with
       | Ok header => scan_from field data 20 (m <| Header := header |>)
       | Err e => (m, Err e)
       | Panic => (m, Panic)
       end.

Definition Len (m : t) : Z := match (Marshal m).2 with Ok data => len data | _ => 0 end.

Definition avps (m : t) : list avp :=
  [av AVPCodeORIGINHOST (VDiameterIdentity (OriginHost m)) true false 0] ++
  [av AVPCodeORIGINREALM (VDiameterIdentity (OriginRealm m)) true false 0] ++
  map (fun x => av AVPCodeHOSTIPADDRESS (VAddress x) true false 0) (HostIpAddress m) ++
  [av AVPCodeVENDORID (VUnsigned32 (VendorId m)) true false 0] ++
  [av AVPCodePRODUCTNAME (VUTF8String (ProductName m)) false false 0] ++
  opt_avp (fun x => av AVPCodeORIGINSTATEID (VUnsigned32 x) false false 0) (OriginStateId m) ++
  map (fun x => av AVPCodeSUPPORTEDVENDORID (VUnsigned32 x) true false 0) (SupportedVendorId m) ++
  map (fun x => av AVPCodeAUTHAPPLICATIONID (VUnsigned32 x) true false 0) (AuthApplicationId m) ++
  map (fun x => av AVPCodeINBANDSECURITYID (VUnsigned32 x) true false 0) (InbandSecurityId m) ++
  map (fun x => av AVPCodeACCTAPPLICATIONID (VUnsigned32 x) true false 0) (AcctApplicationId m) ++
  flat_map (opt_avp (fun x => av AVPCodeVENDORSPECIFICAPPLICATIONID (VGrouped (VendorSpecificApplicationId.Marshal x)) true false 0)) (VendorSpecificApplicationId m) ++
  opt_avp (fun x => av AVPCodeFIRMWAREREVISION (VUnsigned32 x) false false 0) (FirmwareRevision m).

Definition wf (m : t) : Prop :=
  fits (OriginHost m) /\
  fits (OriginRealm m) /\
  Forall fits_address (HostIpAddress m) /\
  u32 (VendorId m) /\
  fits (ProductName m) /\
  from_option u32 True (OriginStateId m) /\
  Forall u32 (SupportedVendorId m) /\
  Forall u32 (AuthApplicationId m) /\
  Forall u32 (InbandSecurityId m) /\
  Forall u32 (AcctApplicationId m) /\
  Forall (some_and (fits_group VendorSpecificApplicationId.wf VendorSpecificApplicationId.Marshal)) (VendorSpecificApplicationId m) /\
  from_option u32 True (FirmwareRevision m) /\
  Avp m = [].

Lemma CER_body_avps m : body m = concat (map marshal (avps m)).
Proof. unfold avps. solve_body. Qed.

Lemma CER_avps_wf m : wf m -> Forall wf_avp (avps m).
Proof. unfold wf, avps. solve_avps_wf. Qed.

(** Computes the fields of explicit records. *)
Ltac fields := cbv beta iota delta [set_field start Header OriginHost OriginRealm HostIpAddress VendorId ProductName OriginStateId SupportedVendorId AuthApplicationId InbandSecurityId AcctApplicationId VendorSpecificApplicationId FirmwareRevision Avp].

Lemma CER_fold_avps m :
  wf m -> fold_fields field (map avp_seen (avps m)) (start (Header m)) = (m, Ok tt).
Proof.
  destruct m. unfold wf; fields. intros H. destruct_and? H.
  rewrite <- (app_nil_r (avps _)). unfold avps. rewrite <- ?app_assoc. fields.
  erewrite fold_req by solve_field. fields.
  erewrite fold_req by solve_field. fields.
  erewrite (fold_rep field HostIpAddress (fun x m => m <| HostIpAddress := x |>)) by solve_field. fields.
  erewrite fold_req by solve_field. fields.
  erewrite fold_req by solve_field. fields.
  erewrite (fold_opt field (fun x m => m <| OriginStateId := x |>)) by solve_field. fields.
  erewrite (fold_rep field SupportedVendorId (fun x m => m <| SupportedVendorId := x |>)) by solve_field. fields.
  erewrite (fold_rep field AuthApplicationId (fun x m => m <| AuthApplicationId := x |>)) by solve_field. fields.
  erewrite (fold_rep field InbandSecurityId (fun x m => m <| InbandSecurityId := x |>)) by solve_field. fields.
  erewrite (fold_rep field AcctApplicationId (fun x m => m <| AcctApplicationId := x |>)) by solve_field. fields.
  erewrite (fold_rep_opt field VendorSpecificApplicationId (fun x m => m <| VendorSpecificApplicationId := x |>)) by solve_field. fields.
  erewrite (fold_opt field (fun x m => m <| FirmwareRevision := x |>)) by solve_field. fields.
  by subst.
Qed.

#[global] Instance wire : WireMessage t := {|
  wire_start m := start (Header m); wire_wf := wf; wire_avps := avps; wire_field := field;
  wire_wf_avps := CER_avps_wf; wire_fold := CER_fold_avps |}.

#[global] Program Instance command : WireCommand t := {|
  cmd_header := Header; cmd_with_header := fun h m => m <| Header := h |>; cmd_zero := zero;
  cmd_validate := Validate; cmd_body := body; cmd_marshal := Marshal;
  cmd_unmarshal := Unmarshal; cmd_body_eq := CER_body_avps |}.
Solve Obligations with reflexivity.

Lemma CER_roundtrip : roundtrip_spec wf Header body Validate Marshal Unmarshal zero.
Proof. exact (@command_roundtrip t wire command). Qed.

Lemma CER_field_total c w v m : exists m', field c w v m = Ok m'.
Proof. unfold field. solve_total. Qed.

Lemma CER_Unmarshal_total data m :
  (Unmarshal data m).2 <> Panic /\ (Unmarshal data m).2 <> Err ErrFuel.
Proof.
  exact (unmarshal_total field data m (fun h => m <| Header := h |>) CER_field_total).
Qed.

End CapabilitiesExchangeRequest.

Module CapabilitiesExchangeAnswer.

Record t := mk {
  Header : DiameterHeader;
  ResultCode : Z;
  OriginHost : bytes;
  OriginRealm : bytes;
  HostIpAddress : list bytes;
  VendorId : Z;
  ProductName : bytes;
  OriginStateId : option Z;
  ErrorMessage : option bytes;
  FailedAvp : option FailedAVP.t;
  SupportedVendorId : list Z;
  AuthApplicationId : list Z;
  InbandSecurityId : list Z;
  AcctApplicationId : list Z;
  VendorSpecificApplicationId : list (option VendorSpecificApplicationId.t);
  FirmwareRevision : option Z;
  Avp : list bytes }.

(** The zero value with a given header: [&X{}] once its header is set. *)
Definition start (h : DiameterHeader) : t :=
  mk h 0 [] [] [] 0 [] None None None [] [] [] [] [] None [].

Definition zero : t := start zero_header.

Definition New : t := start (new_header 257 0 false false).

Definition Validate (m : t) : option marshal_error :=
  if len (OriginHost m) =? 0 then Some (ErrRequiredEmpty (gostr "Origin-Host")) else
  if len (OriginRealm m) =? 0 then Some (ErrRequiredEmpty (gostr "Origin-Realm")) else
  if len (HostIpAddress m) =? 0 then Some (ErrRequiredEmpty (gostr "Host-IP-Address")) else
  if len (ProductName m) =? 0 then Some (ErrRequiredEmpty (gostr "Product-Name")) else
  None.

Definition body (m : t) : bytes :=
  marshalAVP AVPCodeRESULTCODE (VUnsigned32 (ResultCode m)) true false ++
  marshalAVP AVPCodeORIGINHOST (VDiameterIdentity (OriginHost m)) true false ++
  marshalAVP AVPCodeORIGINREALM (VDiameterIdentity (OriginRealm m)) true false ++
  write_all (HostIpAddress m) (fun x =>
    marshalAVP AVPCodeHOSTIPADDRESS (VAddress x) true false) ++
  marshalAVP AVPCodeVENDORID (VUnsigned32 (VendorId m)) true false ++
  marshalAVP AVPCodePRODUCTNAME (VUTF8String (ProductName m)) false false ++
  write_opt (OriginStateId m) (fun x =>
    marshalAVP AVPCodeORIGINSTATEID (VUnsigned32 x) false false) ++
  write_opt (ErrorMessage m) (fun x =>
    marshalAVP AVPCodeERRORMESSAGE (VUTF8String x) false false) ++
  write_opt (FailedAvp m) (fun x =>
    marshalAVP AVPCodeFAILEDAVP (VGrouped (FailedAVP.Marshal x)) true false) ++
  write_all (SupportedVendorId m) (fun x =>
    marshalAVP AVPCodeSUPPORTEDVENDORID (VUnsigned32 x) true false) ++
  write_all (AuthApplicationId m) (fun x =>
    marshalAVP AVPCodeAUTHAPPLICATIONID (VUnsigned32 x) true false) ++
  write_all (InbandSecurityId m) (fun x =>
    marshalAVP AVPCodeINBANDSECURITYID (VUnsigned32 x) true false) ++
  write_all (AcctApplicationId m) (fun x =>
    marshalAVP AVPCodeACCTAPPLICATIONID (VUnsigned32 x) true false) ++
  write_all (VendorSpecificApplicationId m) (fun p => write_opt p (fun x =>
    marshalAVP AVPCodeVENDORSPECIFICAPPLICATIONID (VGrouped (VendorSpecificApplicationId.Marshal x)) true false)) ++
  write_opt (FirmwareRevision m) (fun x =>
    marshalAVP AVPCodeFIRMWAREREVISION (VUnsigned32 x) false false).

Definition Marshal (m : t) : t * outcome marshal_error bytes :=
  match Validate m with
  | Some e => (m, Err e)
  | None =>
      let m := m <| Header := (Header m) <| Length := to_u32 (20 + len (body m)) |> |> in
      (m, Ok (marshalHeader (Header m) ++ body m))
  end.

Definition field (avpCode vendorID : Z) (avpValue : bytes) (m : t) : outcome parse_error t :=
  if avpCode =? AVPCodeRESULTCODE then
    assign (DecodeUnsigned32 avpValue) as_Unsigned32
      (fun x => m <| ResultCode := x |>) m
  else
  if avpCode =? AVPCodeORIGINHOST then
    assign (DecodeDiameterIdentity avpValue) as_DiameterIdentity
      (fun x => m <| OriginHost := x |>) m
  else
  if avpCode =? AVPCodeORIGINREALM then
    assign (DecodeDiameterIdentity avpValue) as_DiameterIdentity
      (fun x => m <| OriginRealm := x |>) m
  else
  if avpCode =? AVPCodeHOSTIPADDRESS then
    assign (DecodeAddress avpValue) as_Address
      (fun x => m <| HostIpAddress := HostIpAddress m ++ [x] |>) m
  else
  if avpCode =? AVPCodeVENDORID then
    assign (DecodeUnsigned32 avpValue) as_Unsigned32
      (fun x => m <| VendorId := x |>) m
  else
  if avpCode =? AVPCodePRODUCTNAME then
    assign (DecodeUTF8String avpValue) as_UTF8String
      (fun x => m <| ProductName := x |>) m
  else
  if avpCode =? AVPCodeORIGINSTATEID then
    assign (DecodeUnsigned32 avpValue) as_Unsigned32
      (fun x => m <| OriginStateId := Some x |>) m
  else
  if avpCode =? AVPCodeERRORMESSAGE then
    assign (DecodeUTF8String avpValue) as_UTF8String
      (fun x => m <| ErrorMessage := Some x |>) m
  else
  if avpCode =? AVPCodeFAILEDAVP then
    assign_group (FailedAVP.Unmarshal avpValue FailedAVP.zero)
      (fun grouped => m <| FailedAvp := Some grouped |>) m
  else
  if avpCode =? AVPCodeSUPPORTEDVENDORID then
    assign (DecodeUnsigned32 avpValue) as_Unsigned32
      (fun x => m <| SupportedVendorId := SupportedVendorId m ++ [x] |>) m
  else
  if avpCode =? AVPCodeAUTHAPPLICATIONID then
    assign (DecodeUnsigned32 avpValue) as_Unsigned32
      (fun x => m <| AuthApplicationId := AuthApplicationId m ++ [x] |>) m
  else
  if avpCode =? AVPCodeINBANDSECURITYID then
    assign (DecodeUnsigned32 avpValue) as_Unsigned32
      (fun x => m <| InbandSecurityId := InbandSecurityId m ++ [x] |>) m
  else
  if avpCode =? AVPCodeACCTAPPLICATIONID then
    assign (DecodeUnsigned32 avpValue) as_Unsigned32
      (fun x => m <| AcctApplicationId := AcctApplicationId m ++ [x] |>) m
  else
  if avpCode =? AVPCodeVENDORSPECIFICAPPLICATIONID then
    assign_group (VendorSpecificApplicationId.Unmarshal avpValue VendorSpecificApplicationId.zero)
      (fun grouped => m <| VendorSpecificApplicationId := VendorSpecificApplicationId m ++ [Some grouped] |>) m
  else
  if avpCode =? AVPCodeFIRMWAREREVISION then
    assign (DecodeUnsigned32 avpValue) as_Unsigned32
      (fun x => m <| FirmwareRevision := Some x |>) m
  else
  Ok m.

Definition Unmarshal (data : bytes) (m : t) : t * outcome parse_error unit :=
  if len data <? 20 then (m, Err ErrHeaderTooShort)
  else match read_header data with
       | Ok header => scan_from field data 20 (m <| Header := header |>)
       | Err e => (m, Err e)
       | Panic => (m, Panic)
       end.

Definition Len (m : t) : Z := match (Marshal m).2 with Ok data => len data | _ => 0 end.

Definition avps (m : t) : list avp :=
  [av AVPCodeRESULTCODE (VUnsigned32 (ResultCode m)) true false 0] ++
  [av AVPCodeORIGINHOST (VDiameterIdentity (OriginHost m)) true false 0] ++
  [av AVPCodeORIGINREALM (VDiameterIdentity (OriginRealm m)) true false 0] ++
  map (fun x => av AVPCodeHOSTIPADDRESS (VAddress x) true false 0) (HostIpAddress m) ++
  [av AVPCodeVENDORID (VUnsigned32 (VendorId m)) true false 0] ++
  [av AVPCodePRODUCTNAME (VUTF8String (ProductName m)) false false 0] ++
  opt_avp (fun x => av AVPCodeORIGINSTATEID (VUnsigned32 x) false false 0) (OriginStateId m) ++
  opt_avp (fun x => av AVPCodeERRORMESSAGE (VUTF8String x) false false 0) (ErrorMessage m) ++
  opt_avp (fun x => av AVPCodeFAILEDAVP (VGrouped (FailedAVP.Marshal x)) true false 0) (FailedAvp m) ++
  map (fun x => av AVPCodeSUPPORTEDVENDORID (VUnsigned32 x) true false 0) (SupportedVendorId m) ++
  map (fun x => av AVPCodeAUTHAPPLICATIONID (VUnsigned32 x) true false 0) (AuthApplicationId m) ++
  map (fun x => av AVPCodeINBANDSECURITYID (VUnsigned32 x) true false 0) (InbandSecurityId m) ++
  map (fun x => av AVPCodeACCTAPPLICATIONID (VUnsigned32 x) true false 0) (AcctApplicationId m) ++
  flat_map (opt_avp (fun x => av AVPCodeVENDORSPECIFICAPPLICATIONID (VGrouped (VendorSpecificApplicationId.Marshal x)) true false 0)) (VendorSpecificApplicationId m) ++
  opt_avp (fun x => av AVPCodeFIRMWAREREVISION (VUnsigned32 x) false false 0) (FirmwareRevision m).

Definition wf (m : t) : Prop :=
  u32 (ResultCode m) /\
  fits (OriginHost m) /\
  fits (OriginRealm m) /\
  Forall fits_address (HostIpAddress m) /\
  u32 (VendorId m) /\
  fits (ProductName m) /\
  from_option u32 True (OriginStateId m) /\
  from_option fits True (ErrorMessage m) /\
  from_option (fits_group FailedAVP.wf FailedAVP.Marshal) True (FailedAvp m) /\
  Forall u32 (SupportedVendorId m) /\
  Forall u32 (AuthApplicationId m) /\
  Forall u32 (InbandSecurityId m) /\
  Forall u32 (AcctApplicationId m) /\
  Forall (some_and (fits_group VendorSpecificApplicationId.wf VendorSpecificApplicationId.Marshal)) (VendorSpecificApplicationId m) /\
  from_option u32 True (FirmwareRevision m) /\
  Avp m = [].

Lemma CEA_body_avps m : body m = concat (map marshal (avps m)).
Proof. unfold avps. solve_body. Qed.

Lemma CEA_avps_wf m : wf m -> Forall wf_avp (avps m).
Proof. unfold wf, avps. solve_avps_wf. Qed.

(** Computes the fields of explicit records. *)
Ltac fields := cbv beta iota delta [set_field start Header ResultCode OriginHost OriginRealm HostIpAddress VendorId ProductName OriginStateId ErrorMessage FailedAvp SupportedVendorId AuthApplicationId InbandSecurityId AcctApplicationId VendorSpecificApplicationId FirmwareRevision Avp].

Lemma CEA_fold_avps m :
  wf m -> fold_fields field (map avp_seen (avps m)) (start (Header m)) = (m, Ok tt).
Proof.
  destruct m. unfold wf; fields. intros H. destruct_and? H.
  rewrite <- (app_nil_r (avps _)). unfold avps. rewrite <- ?app_assoc. fields.
  erewrite fold_req by solve_field. fields.
  erewrite fold_req by solve_field. fields.
  erewrite fold_req by solve_field. fields.
  erewrite (fold_rep field HostIpAddress (fun x m => m <| HostIpAddress := x |>)) by solve_field. fields.
  erewrite fold_req by solve_field. fields.
  erewrite fold_req by solve_field. fields.
  erewrite (fold_opt field (fun x m => m <| OriginStateId := x |>)) by solve_field. fields.
  erewrite (fold_opt field (fun x m => m <| ErrorMessage := x |>)) by solve_field. fields.
  erewrite (fold_opt field (fun x m => m <| FailedAvp := x |>)) by solve_field. fields.
  erewrite (fold_rep field SupportedVendorId (fun x m => m <| SupportedVendorId := x |>)) by solve_field. fields.
  erewrite (fold_rep field AuthApplicationId (fun x m => m <| AuthApplicationId := x |>)) by solve_field. fields.
  erewrite (fold_rep field InbandSecurityId (fun x m => m <| InbandSecurityId := x |>)) by solve_field. fields.
  erewrite (fold_rep field AcctApplicationId (fun x m => m <| AcctApplicationId := x |>)) by solve_field. fields.
  erewrite (fold_rep_opt field VendorSpecificApplicationId (fun x m => m <| VendorSpecificApplicationId := x |>)) by solve_field. fields.
  erewrite (fold_opt field (fun x m => m <| FirmwareRevision := x |>)) by solve_field. fields.
  by subst.
Qed.

#[global] Instance wire : WireMessage t := {|
  wire_start m := start (Header m); wire_wf := wf; wire_avps := avps; wire_field := field;
  wire_wf_avps := CEA_avps_wf; wire_fold := CEA_fold_avps |}.

#[global] Program Instance command : WireCommand t := {|
  cmd_header := Header; cmd_with_header := fun h m => m <| Header := h |>; cmd_zero := zero;
  cmd_validate := Validate; cmd_body := body; cmd_marshal := Marshal;
  cmd_unmarshal := Unmarshal; cmd_body_eq := CEA_body_avps |}.
Solve Obligations with reflexivity.

Lemma CEA_roundtrip : roundtrip_spec wf Header body Validate Marshal Unmarshal zero.
Proof. exact (@command_roundtrip t wire command). Qed.

Lemma CEA_field_total c w v m : exists m', field c w v m = Ok m'.
Proof. unfold field. solve_total. Qed.

Lemma CEA_Unmarshal_total data m :
  (Unmarshal data m).2 <> Panic /\ (Unmarshal data m).2 <> Err ErrFuel.
Proof.
  exact (unmarshal_total field data m (fun h => m <| Header := h |>) CEA_field_total).
Qed.

End CapabilitiesExchangeAnswer.

Module DeviceWatchdogRequest.

Record t := mk {
  Header : DiameterHeader;
  OriginHost : bytes;
  OriginRealm : bytes;
  OriginStateId : option Z;
  Avp : list bytes }.

(** The zero value with a given header: [&X{}] once its header is set. *)
Definition start (h : DiameterHeader) : t :=
  mk h [] [] None [].

Definition zero : t := start zero_header.

Definition New : t := start (new_header 280 0 true false).

Definition Validate (m : t) : option marshal_error :=
  if len (OriginHost m) =? 0 then Some (ErrRequiredEmpty (gostr "Origin-Host")) else
  if len (OriginRealm m) =? 0 then Some (ErrRequiredEmpty (gostr "Origin-Realm")) else
  None.

Definition body (m : t) : bytes :=
  marshalAVP AVPCodeORIGINHOST (VDiameterIdentity (OriginHost m)) true false ++
  marshalAVP AVPCodeORIGINREALM (VDiameterIdentity (OriginRealm m)) true false ++
  write_opt (OriginStateId m) (fun x =>
    marshalAVP AVPCodeORIGINSTATEID (VUnsigned32 x) false false).

Definition Marshal (m : t) : t * outcome marshal_error bytes :=
  match Validate m with
  | Some e => (m, Err e)
  | None =>
      let m := m <| Header := (Header m) <| Length := to_u32 (20 + len (body m)) |> |> in
      (m, Ok (marshalHeader (Header m) ++ body m))
  end.

Definition field (avpCode vendorID : Z) (avpValue : bytes) (m : t) : outcome parse_error t :=
  if avpCode =? AVPCodeORIGINHOST then
    assign (DecodeDiameterIdentity avpValue) as_DiameterIdentity
      (fun x => m <| OriginHost := x |>) m
  else
  if avpCode =? AVPCodeORIGINREALM then
    assign (DecodeDiameterIdentity avpValue) as_DiameterIdentity
      (fun x => m <| OriginRealm := x |>) m
  else
  if avpCode =? AVPCodeORIGINSTATEID then
    assign (DecodeUnsigned32 avpValue) as_Unsigned32
      (fun x => m <| OriginStateId := Some x |>) m
  else
  Ok m.

Definition Unmarshal (data : bytes) (m : t) : t * outcome parse_error unit :=
  if len data <? 20 then (m, Err ErrHeaderTooShort)
  else match read_header data with
       | Ok header => scan_from field data 20 (m <| Header := header |>)
       | Err e => (m, Err e)
       | Panic => (m, Panic)
       end.

Definition Len (m : t) : Z := match (Marshal m).2 with Ok data => len data | _ => 0 end.

Definition avps (m : t) : list avp :=
  [av AVPCodeORIGINHOST (VDiameterIdentity (OriginHost m)) true false 0] ++
  [av AVPCodeORIGINREALM (VDiameterIdentity (OriginRealm m)) true false 0] ++
  opt_avp (fun x => av AVPCodeORIGINSTATEID (VUnsigned32 x) false false 0) (OriginStateId m).

Definition wf (m : t) : Prop :=
  fits (OriginHost m) /\
  fits (OriginRealm m) /\
  from_option u32 True (OriginStateId m) /\
  Avp m = [].

Lemma DWR_body_avps m : body m = concat (map marshal (avps m)).
Proof. unfold avps. solve_body. Qed.

Lemma DWR_avps_wf m : wf m -> Forall wf_avp (avps m).
Proof. unfold wf, avps. solve_avps_wf. Qed.

(** Computes the fields of explicit records. *)
Ltac fields := cbv beta iota delta [set_field start Header OriginHost OriginRealm OriginStateId Avp].

Lemma DWR_fold_avps m :
  wf m -> fold_fields field (map avp_seen (avps m)) (start (Header m)) = (m, Ok tt).
Proof.
  destruct m. unfold wf; fields. intros H. destruct_and? H.
  rewrite <- (app_nil_r (avps _)). unfold avps. rewrite <- ?app_assoc. fields.
  erewrite fold_req by solve_field. fields.
  erewrite fold_req by solve_field. fields.
  erewrite (fold_opt field (fun x m => m <| OriginStateId := x |>)) by solve_field. fields.
  by subst.
Qed.

#[global] Instance wire : WireMessage t := {|
  wire_start m := start (Header m); wire_wf := wf; wire_avps := avps; wire_field := field;
  wire_wf_avps := DWR_avps_wf; wire_fold := DWR_fold_avps |}.

#[global] Program Instance command : WireCommand t := {|
  cmd_header := Header; cmd_with_header := fun h m => m <| Header := h |>; cmd_zero := zero;
  cmd_validate := Validate; cmd_body := body; cmd_marshal := Marshal;
  cmd_unmarshal := Unmarshal; cmd_body_eq := DWR_body_avps |}.
Solve Obligations with reflexivity.

Lemma DWR_roundtrip : roundtrip_spec wf Header body Validate Marshal Unmarshal zero.
Proof. exact (@command_roundtrip t wire command). Qed.

Lemma DWR_field_total c w v m : exists m', field c w v m = Ok m'.
Proof. unfold field. solve_total. Qed.

Lemma DWR_Unmarshal_total data m :
  (Unmarshal data m).2 <> Panic /\ (Unmarshal data m).2 <> Err ErrFuel.
Proof.
  exact (unmarshal_total field data m (fun h => m <| Header := h |>) DWR_field_total).
Qed.

End DeviceWatchdogRequest.

Module DeviceWatchdogAnswer.

Record t := mk {
  Header : DiameterHeader;
  ResultCode : Z;
  OriginHost : bytes;
  OriginRealm : bytes;
  ErrorMessage : option bytes;
  FailedAvp : option FailedAVP.t;
  OriginStateId : option Z;
  Avp : list bytes }.

(** The zero value with a given header: [&X{}] once its header is set. *)
Definition start (h : DiameterHeader) : t :=
  mk h 0 [] [] None None None [].

Definition zero : t := start zero_header.

Definition New : t := start (new_header 280 0 false false).

Definition Validate (m : t) : option marshal_error :=
  if len (OriginHost m) =? 0 then Some (ErrRequiredEmpty (gostr "Origin-Host")) else
  if len (OriginRealm m) =? 0 then Some (ErrRequiredEmpty (gostr "Origin-Realm")) else
  None.

Definition body (m : t) : bytes :=
  marshalAVP AVPCodeRESULTCODE (VUnsigned32 (ResultCode m)) true false ++
  marshalAVP AVPCodeORIGINHOST (VDiameterIdentity (OriginHost m)) true false ++
  marshalAVP AVPCodeORIGINREALM (VDiameterIdentity (OriginRealm m)) true false ++
  write_opt (ErrorMessage m) (fun x =>
    marshalAVP AVPCodeERRORMESSAGE (VUTF8String x) false false) ++
  write_opt (FailedAvp m) (fun x =>
    marshalAVP AVPCodeFAILEDAVP (VGrouped (FailedAVP.Marshal x)) true false) ++
  write_opt (OriginStateId m) (fun x =>
    marshalAVP AVPCodeORIGINSTATEID (VUnsigned32 x) false false).

Definition Marshal (m : t) : t * outcome marshal_error bytes :=
  match Validate m with
  | Some e => (m, Err e)
  | None =>
      let m := m <| Header := (Header m) <| Length := to_u32 (20 + len (body m)) |> |> in
      (m, Ok (marshalHeader (Header m) ++ body m))
  end.

Definition field (avpCode vendorID : Z) (avpValue : bytes) (m : t) : outcome parse_error t :=
  if avpCode =? AVPCodeRESULTCODE then
    assign (DecodeUnsigned32 avpValue) as_Unsigned32
      (fun x => m <| ResultCode := x |>) m
  else
  if avpCode =? AVPCodeORIGINHOST then
    assign (DecodeDiameterIdentity avpValue) as_DiameterIdentity
      (fun x => m <| OriginHost := x |>) m
  else
  if avpCode =? AVPCodeORIGINREALM then
    assign (DecodeDiameterIdentity avpValue) as_DiameterIdentity
      (fun x => m <| OriginRealm := x |>) m
  else
  if avpCode =? AVPCodeERRORMESSAGE then
    assign (DecodeUTF8String avpValue) as_UTF8String
      (fun x => m <| ErrorMessage := Some x |>) m
  else
  if avpCode =? AVPCodeFAILEDAVP then
    assign_group (FailedAVP.Unmarshal avpValue FailedAVP.zero)
      (fun grouped => m <| FailedAvp := Some grouped |>) m
  else
  if avpCode =? AVPCodeORIGINSTATEID then
    assign (DecodeUnsigned32 avpValue) as_Unsigned32
      (fun x => m <| OriginStateId := Some x |>) m
  else
  Ok m.

Definition Unmarshal (data : bytes) (m : t) : t * outcome parse_error unit :=
  if len data <? 20 then (m, Err ErrHeaderTooShort)
  else match read_header data with
       | Ok header => scan_from field data 20 (m <| Header := header |>)
       | Err e => (m, Err e)
       | Panic => (m, Panic)
       end.

Definition Len (m : t) : Z := match (Marshal m).2 with Ok data => len data | _ => 0 end.

Definition avps (m : t) : list avp :=
  [av AVPCodeRESULTCODE (VUnsigned32 (ResultCode m)) true false 0] ++
  [av AVPCodeORIGINHOST (VDiameterIdentity (OriginHost m)) true false 0] ++
  [av AVPCodeORIGINREALM (VDiameterIdentity (OriginRealm m)) true false 0] ++
  opt_avp (fun x => av AVPCodeERRORMESSAGE (VUTF8String x) false false 0) (ErrorMessage m) ++
  opt_avp (fun x => av AVPCodeFAILEDAVP (VGrouped (FailedAVP.Marshal x)) true false 0) (FailedAvp m) ++
  opt_avp (fun x => av AVPCodeORIGINSTATEID (VUnsigned32 x) false false 0) (OriginStateId m).

Definition wf (m : t) : Prop :=
  u32 (ResultCode m) /\
  fits (OriginHost m) /\
  fits (OriginRealm m) /\
  from_option fits True (ErrorMessage m) /\
  from_option (fits_group FailedAVP.wf FailedAVP.Marshal) True (FailedAvp m) /\
  from_option u32 True (OriginStateId m) /\
  Avp m = [].

Lemma DWA_body_avps m : body m = concat (map marshal (avps m)).
Proof. unfold avps. solve_body. Qed.

Lemma DWA_avps_wf m : wf m -> Forall wf_avp (avps m).
Proof. unfold wf, avps. solve_avps_wf. Qed.

(** Computes the fields of explicit records. *)
Ltac fields := cbv beta iota delta [set_field start Header ResultCode OriginHost OriginRealm ErrorMessage FailedAvp OriginStateId Avp].

Lemma DWA_fold_avps m :
  wf m -> fold_fields field (map avp_seen (avps m)) (start (Header m)) = (m, Ok tt).
Proof.
  destruct m. unfold wf; fields. intros H. destruct_and? H.
  rewrite <- (app_nil_r (avps _)). unfold avps. rewrite <- ?app_assoc. fields.
  erewrite fold_req by solve_field. fields.
  erewrite fold_req by solve_field. fields.
  erewrite fold_req by solve_field. fields.
  erewrite (fold_opt field (fun x m => m <| ErrorMessage := x |>)) by solve_field. fields.
  erewrite (fold_opt field (fun x m => m <| FailedAvp := x |>)) by solve_field. fields.
  erewrite (fold_opt field (fun x m => m <| OriginStateId := x |>)) by solve_field. fields.
  by subst.
Qed.

#[global] Instance wire : WireMessage t := {|
  wire_start m := start (Header m); wire_wf := wf; wire_avps := avps; wire_field := field;
  wire_wf_avps := DWA_avps_wf; wire_fold := DWA_fold_avps |}.

#[global] Program Instance command : WireCommand t := {|
  cmd_header := Header; cmd_with_header := fun h m => m <| Header := h |>; cmd_zero := zero;
  cmd_validate := Validate; cmd_body := body; cmd_marshal := Marshal;
  cmd_unmarshal := Unmarshal; cmd_body_eq := DWA_body_avps |}.
Solve Obligations with reflexivity.

Lemma DWA_roundtrip : roundtrip_spec wf Header body Validate Marshal Unmarshal zero.
Proof. exact (@command_roundtrip t wire command). Qed.

Lemma DWA_field_total c w v m : exists m', field c w v m = Ok m'.
Proof. unfold field. solve_total. Qed.

Lemma DWA_Unmarshal_total data m :
  (Unmarshal data m).2 <> Panic /\ (Unmarshal data m).2 <> Err ErrFuel.
Proof.
  exact (unmarshal_total field data m (fun h => m <| Header := h |>) DWA_field_total).
Qed.

End DeviceWatchdogAnswer.

Module DisconnectPeerRequest.

Record t := mk {
  Header : DiameterHeader;
  OriginHost : bytes;
  OriginRealm : bytes;
  DisconnectCause : Z;
  Avp : list bytes }.

(** The zero value with a given header: [&X{}] once its header is set. *)
Definition start (h : DiameterHeader) : t :=
  mk h [] [] 0 [].

Definition zero : t := start zero_header.

Definition New : t := start (new_header 282 0 true false).

Definition Validate (m : t) : option marshal_error :=
  if len (OriginHost m) =? 0 then Some (ErrRequiredEmpty (gostr "Origin-Host")) else
  if len (OriginRealm m) =? 0 then Some (ErrRequiredEmpty (gostr "Origin-Realm")) else
  None.

Definition body (m : t) : bytes :=
  marshalAVP AVPCodeORIGINHOST (VDiameterIdentity (OriginHost m)) true false ++
  marshalAVP AVPCodeORIGINREALM (VDiameterIdentity (OriginRealm m)) true false ++
  marshalAVP AVPCodeDISCONNECTCAUSE (VEnumerated (DisconnectCause m)) true false.

Definition Marshal (m : t) : t * outcome marshal_error bytes :=
  match Validate m with
  | Some e => (m, Err e)
  | None =>
      let m := m <| Header := (Header m) <| Length := to_u32 (20 + len (body m)) |> |> in
      (m, Ok (marshalHeader (Header m) ++ body m))
  end.

Definition field (avpCode vendorID : Z) (avpValue : bytes) (m : t) : outcome parse_error t :=
  if avpCode =? AVPCodeORIGINHOST then
    assign (DecodeDiameterIdentity avpValue) as_DiameterIdentity
      (fun x => m <| OriginHost := x |>) m
  else
  if avpCode =? AVPCodeORIGINREALM then
    assign (DecodeDiameterIdentity avpValue) as_DiameterIdentity
      (fun x => m <| OriginRealm := x |>) m
  else
  if avpCode =? AVPCodeDISCONNECTCAUSE then
    assign (DecodeEnumerated avpValue) as_Enumerated
      (fun x => m <| DisconnectCause := x |>) m
  else
  Ok m.

Definition Unmarshal (data : bytes) (m : t) : t * outcome parse_error unit :=
  if len data <? 20 then (m, Err ErrHeaderTooShort)
  else match read_header data with
       | Ok header => scan_from field data 20 (m <| Header := header |>)
       | Err e => (m, Err e)
       | Panic => (m, Panic)
       end.

Definition Len (m : t) : Z := match (Marshal m).2 with Ok data => len data | _ => 0 end.

Definition avps (m : t) : list avp :=
  [av AVPCodeORIGINHOST (VDiameterIdentity (OriginHost m)) true false 0] ++
  [av AVPCodeORIGINREALM (VDiameterIdentity (OriginRealm m)) true false 0] ++
  [av AVPCodeDISCONNECTCAUSE (VEnumerated (DisconnectCause m)) true false 0].

Definition wf (m : t) : Prop :=
  fits (OriginHost m) /\
  fits (OriginRealm m) /\
  i32 (DisconnectCause m) /\
  Avp m = [].

Lemma DPR_body_avps m : body m = concat (map marshal (avps m)).
Proof. unfold avps. solve_body. Qed.

Lemma DPR_avps_wf m : wf m -> Forall wf_avp (avps m).
Proof. unfold wf, avps. solve_avps_wf. Qed.

(** Computes the fields of explicit records. *)
Ltac fields := cbv beta iota delta [set_field start Header OriginHost OriginRealm DisconnectCause Avp].

Lemma DPR_fold_avps m :
  wf m -> fold_fields field (map avp_seen (avps m)) (start (Header m)) = (m, Ok tt).
Proof.
  destruct m. unfold wf; fields. intros H. destruct_and? H.
  rewrite <- (app_nil_r (avps _)). unfold avps. rewrite <- ?app_assoc. fields.
  erewrite fold_req by solve_field. fields.
  erewrite fold_req by solve_field. fields.
  erewrite fold_req by solve_field. fields.
  by subst.
Qed.

#[global] Instance wire : WireMessage t := {|
  wire_start m := start (Header m); wire_wf := wf; wire_avps := avps; wire_field := field;
  wire_wf_avps := DPR_avps_wf; wire_fold := DPR_fold_avps |}.

#[global] Program Instance command : WireCommand t := {|
  cmd_header := Header; cmd_with_header := fun h m => m <| Header := h |>; cmd_zero := zero;
  cmd_validate := Validate; cmd_body := body; cmd_marshal := Marshal;
  cmd_unmarshal := Unmarshal; cmd_body_eq := DPR_body_avps |}.
Solve Obligations with reflexivity.

Lemma DPR_roundtrip : roundtrip_spec wf Header body Validate Marshal Unmarshal zero.
Proof. exact (@command_roundtrip t wire command). Qed.

Lemma DPR_field_total c w v m : exists m', field c w v m = Ok m'.
Proof. unfold field. solve_total. Qed.

Lemma DPR_Unmarshal_total data m :
  (Unmarshal data m).2 <> Panic /\ (Unmarshal data m).2 <> Err ErrFuel.
Proof.
  exact (unmarshal_total field data m (fun h => m <| Header := h |>) DPR_field_total).
Qed.

End DisconnectPeerRequest.

Module DisconnectPeerAnswer.

Record t := mk {
  Header : DiameterHeader;
  ResultCode : Z;
  OriginHost : bytes;
  OriginRealm : bytes;
  ErrorMessage : option bytes;
  FailedAvp : option FailedAVP.t;
  Avp : list bytes }.

(** The zero value with a given header: [&X{}] once its header is set. *)
Definition start (h : DiameterHeader) : t :=
  mk h 0 [] [] None None [].

Definition zero : t := start zero_header.

Definition New : t := start (new_header 282 0 false false).

Definition Validate (m : t) : option marshal_error :=
  if len (OriginHost m) =? 0 then Some (ErrRequiredEmpty (gostr "Origin-Host")) else
  if len (OriginRealm m) =? 0 then Some (ErrRequiredEmpty (gostr "Origin-Realm")) else
  None.

Definition body (m : t) : bytes :=
  marshalAVP AVPCodeRESULTCODE (VUnsigned32 (ResultCode m)) true false ++
  marshalAVP AVPCodeORIGINHOST (VDiameterIdentity (OriginHost m)) true false ++
  marshalAVP AVPCodeORIGINREALM (VDiameterIdentity (OriginRealm m)) true false ++
  write_opt (ErrorMessage m) (fun x =>
    marshalAVP AVPCodeERRORMESSAGE (VUTF8String x) false false) ++
  write_opt (FailedAvp m) (fun x =>
    marshalAVP AVPCodeFAILEDAVP (VGrouped (FailedAVP.Marshal x)) true false).

Definition Marshal (m : t) : t * outcome marshal_error bytes :=
  match Validate m with
  | Some e => (m, Err e)
  | None =>
      let m := m <| Header := (Header m) <| Length := to_u32 (20 + len (body m)) |> |> in
      (m, Ok (marshalHeader (Header m) ++ body m))
  end.

Definition field (avpCode vendorID : Z) (avpValue : bytes) (m : t) : outcome parse_error t :=
  if avpCode =? AVPCodeRESULTCODE then
    assign (DecodeUnsigned32 avpValue) as_Unsigned32
      (fun x => m <| ResultCode := x |>) m
  else
  if avpCode =? AVPCodeORIGINHOST then
    assign (DecodeDiameterIdentity avpValue) as_DiameterIdentity
      (fun x => m <| OriginHost := x |>) m
  else
  if avpCode =? AVPCodeORIGINREALM then
    assign (DecodeDiameterIdentity avpValue) as_DiameterIdentity
      (fun x => m <| OriginRealm := x |>) m
  else
  if avpCode =? AVPCodeERRORMESSAGE then
    assign (DecodeUTF8String avpValue) as_UTF8String
      (fun x => m <| ErrorMessage := Some x |>) m
  else
  if avpCode =? AVPCodeFAILEDAVP then
    assign_group (FailedAVP.Unmarshal avpValue FailedAVP.zero)
      (fun grouped => m <| FailedAvp := Some grouped |>) m
  else
  Ok m.

Definition Unmarshal (data : bytes) (m : t) : t * outcome parse_error unit :=
  if len data <? 20 then (m, Err ErrHeaderTooShort)
  else match read_header data with
       | Ok header => scan_from field data 20 (m <| Header := header |>)
       | Err e => (m, Err e)
       | Panic => (m, Panic)
       end.

Definition Len (m : t) : Z := match (Marshal m).2 with Ok data => len data | _ => 0 end.

Definition avps (m : t) : list avp :=
  [av AVPCodeRESULTCODE (VUnsigned32 (ResultCode m)) true false 0] ++
  [av AVPCodeORIGINHOST (VDiameterIdentity (OriginHost m)) true false 0] ++
  [av AVPCodeORIGINREALM (VDiameterIdentity (OriginRealm m)) true false 0] ++
  opt_avp (fun x => av AVPCodeERRORMESSAGE (VUTF8String x) false false 0) (ErrorMessage m) ++
  opt_avp (fun x => av AVPCodeFAILEDAVP (VGrouped (FailedAVP.Marshal x)) true false 0) (FailedAvp m).

Definition wf (m : t) : Prop :=
  u32 (ResultCode m) /\
  fits (OriginHost m) /\
  fits (OriginRealm m) /\
  from_option fits True (ErrorMessage m) /\
  from_option (fits_group FailedAVP.wf FailedAVP.Marshal) True (FailedAvp m) /\
  Avp m = [].

Lemma DPA_body_avps m : body m = concat (map marshal (avps m)).
Proof. unfold avps. solve_body. Qed.

Lemma DPA_avps_wf m : wf m -> Forall wf_avp (avps m).
Proof. unfold wf, avps. solve_avps_wf. Qed.

(** Computes the fields of explicit records. *)
Ltac fields := cbv beta iota delta [set_field start Header ResultCode OriginHost OriginRealm ErrorMessage FailedAvp Avp].

Lemma DPA_fold_avps m :
  wf m -> fold_fields field (map avp_seen (avps m)) (start (Header m)) = (m, Ok tt).
Proof.
  destruct m. unfold wf; fields. intros H. destruct_and? H.
  rewrite <- (app_nil_r (avps _)). unfold avps. rewrite <- ?app_assoc. fields.
  erewrite fold_req by solve_field. fields.
  erewrite fold_req by solve_field. fields.
  erewrite fold_req by solve_field. fields.
  erewrite (fold_opt field (fun x m => m <| ErrorMessage := x |>)) by solve_field. fields.
  erewrite (fold_opt field (fun x m => m <| FailedAvp := x |>)) by solve_field. fields.
  by subst.
Qed.

#[global] Instance wire : WireMessage t := {|
  wire_start m := start (Header m); wire_wf := wf; wire_avps := avps; wire_field := field;
  wire_wf_avps := DPA_avps_wf; wire_fold := DPA_fold_avps |}.

#[global] Program Instance command : WireCommand t := {|
  cmd_header := Header; cmd_with_header := fun h m => m <| Header := h |>; cmd_zero := zero;
  cmd_validate := Validate; cmd_body := body; cmd_marshal := Marshal;
  cmd_unmarshal := Unmarshal; cmd_body_eq := DPA_body_avps |}.
Solve Obligations with reflexivity.

Lemma DPA_roundtrip : roundtrip_spec wf Header body Validate Marshal Unmarshal zero.
Proof. exact (@command_roundtrip t wire command). Qed.

Lemma DPA_field_total c w v m : exists m', field c w v m = Ok m'.
Proof. unfold field. solve_total. Qed.

Lemma DPA_Unmarshal_total data m :
  (Unmarshal data m).2 <> Panic /\ (Unmarshal data m).2 <> Err ErrFuel.
Proof.
  exact (unmarshal_total field data m (fun h => m <| Header := h |>) DPA_field_total).
Qed.

End DisconnectPeerAnswer.

(** ** An example, and a panic *)

(** A CER with two addresses and a vendor-specific application. *)
Definition example_cer : CapabilitiesExchangeRequest.t :=
  {| CapabilitiesExchangeRequest.Header := new_header 257 0 true false;
     CapabilitiesExchangeRequest.OriginHost := gostr "mme01.epc";
     CapabilitiesExchangeRequest.OriginRealm := gostr "epc";
     CapabilitiesExchangeRequest.HostIpAddress :=
       [be_put 4 2130706433; be_put 16 (2 ^ 127 + 5)];
     CapabilitiesExchangeRequest.VendorId := 10415;
     CapabilitiesExchangeRequest.ProductName := gostr "diam-gw";
     CapabilitiesExchangeRequest.OriginStateId := Some 3;
     CapabilitiesExchangeRequest.SupportedVendorId := [10415];
     CapabilitiesExchangeRequest.AuthApplicationId := [16777252; 16777251];
     CapabilitiesExchangeRequest.InbandSecurityId := [];
     CapabilitiesExchangeRequest.AcctApplicationId := [];
     CapabilitiesExchangeRequest.VendorSpecificApplicationId :=
       [Some (VendorSpecificApplicationId.mk (Some 10415) (Some 16777252) None)];
     CapabilitiesExchangeRequest.FirmwareRevision := None;
     CapabilitiesExchangeRequest.Avp := [] |}.

Lemma example_cer_wf : CapabilitiesExchangeRequest.wf example_cer.
Proof.
  split_and!; try exact I; [by vm_compute|by vm_compute| |by vm_compute|by vm_compute|
    by vm_compute| | | | | |done].
  - constructor; [split; [by left|by vm_compute]|].
    constructor; [|constructor]. split; [|by vm_compute]. right; left. by vm_compute.
  - by repeat constructor.
  - by repeat constructor.
  - constructor.
  - constructor.
  - constructor; [|constructor]. by vm_compute.
Qed.

(** A struct with a [Time] field is different.  [DecodeTime] answers a
    slice of the wrong length with a pointer and no error, so a 3GPP
    Expiration-Date AVP of any other length than four makes [Unmarshal] panic
    in the type assertion as soon as the loop reaches it, whatever was read
    before and whatever follows. *)
Theorem csg_time_panics value M P rest g :
  len value <> 4 -> len value < room ->
  (CSGSubscriptionData.Unmarshal
     (marshal (av AVPCodeEXPIRATIONDATE (VOctetString value) M P 10415) ++ rest) g).2 = Panic.
Proof.
  intros Hn Hr. apply scan_panics; [by apply wf_av|].
  unfold CSGSubscriptionData.field. eval_tests. by apply assign_Time_panics.
Qed.

Lemma csg_time_panics_witness :
  (CSGSubscriptionData.Unmarshal
     (marshal (av AVPCodeEXPIRATIONDATE (VOctetString (be_put 3 7)) true false 10415) ++ [])
     CSGSubscriptionData.zero).2 = Panic.
Proof. apply csg_time_panics; by vm_compute. Defined.
