(* ===== verification/SessionMessages.v ===== *)
(** * The session messages of the base protocol ([commands/base/diameter.pb.go])

    Re-Auth, Session-Termination, Abort-Session and Accounting, and the group
    ProxyInfo that they contain, in the layout of BaseMessages. *)

From S2P Require Import Prelude Binary DataTypes Wire Message BaseMessages.
(** ** AVP codes ([constants.go]) *)

Definition AVPCodePROXYHOST : Z := 280.
Definition AVPCodePROXYSTATE : Z := 33.
Definition AVPCodeSESSIONID : Z := 263.
Definition AVPCodeDESTINATIONREALM : Z := 283.
Definition AVPCodeDESTINATIONHOST : Z := 293.
Definition AVPCodeREAUTHREQUESTTYPE : Z := 285.
Definition AVPCodeUSERNAME : Z := 1.
Definition AVPCodePROXYINFO : Z := 284.
Definition AVPCodeROUTERECORD : Z := 282.
Definition AVPCodeERRORREPORTINGHOST : Z := 294.
Definition AVPCodeREDIRECTHOST : Z := 292.
Definition AVPCodeREDIRECTHOSTUSAGE : Z := 261.
Definition AVPCodeREDIRECTMAXCACHETIME : Z := 262.
Definition AVPCodeTERMINATIONCAUSE : Z := 295.
Definition AVPCodeCLASS : Z := 25.
Definition AVPCodeACCOUNTINGRECORDTYPE : Z := 480.
Definition AVPCodeACCOUNTINGRECORDNUMBER : Z := 485.
Definition AVPCodeACCOUNTINGSUBSESSIONID : Z := 287.
Definition AVPCodeACCTSESSIONID : Z := 44.
Definition AVPCodeACCTMULTISESSIONID : Z := 50.
Definition AVPCodeACCTINTERIMINTERVAL : Z := 85.
Definition AVPCodeACCOUNTINGREALTIMEREQUIRED : Z := 483.
Definition AVPCodeEVENTTIMESTAMP : Z := 55.

(** ** Structs *)

Module ProxyInfo.

Record t := mk {
  ProxyHost : bytes;
  ProxyState : option bytes }.

Definition zero : t := mk [] None.

Definition Marshal (g : t) : bytes :=
  marshalAVP AVPCodePROXYHOST (VDiameterIdentity (ProxyHost g)) true false ++
  write_opt (ProxyState g) (fun x =>
    marshalAVP AVPCodePROXYSTATE (VOctetString x) true false).

Definition field (avpCode vendorID : Z) (avpValue : bytes) (g : t) : outcome parse_error t :=
  if avpCode =? AVPCodePROXYHOST then
    assign (DecodeDiameterIdentity avpValue) as_DiameterIdentity
      (fun x => g <| ProxyHost := x |>) g
  else
  if avpCode =? AVPCodePROXYSTATE then
    assign (DecodeOctetString avpValue) as_OctetString
      (fun x => g <| ProxyState := Some x |>) g
  else
  Ok g.

Definition Unmarshal (data : bytes) (g : t) : t * outcome parse_error unit :=
  scan field data g.

Definition avps (g : t) : list avp :=
  [av AVPCodePROXYHOST (VDiameterIdentity (ProxyHost g)) true false 0] ++
  opt_avp (fun x => av AVPCodePROXYSTATE (VOctetString x) true false 0) (ProxyState g).

Definition wf (g : t) : Prop :=
  fits (ProxyHost g) /\
  from_option fits True (ProxyState g).

Lemma PI_Marshal_avps g : Marshal g = concat (map marshal (avps g)).
Proof. unfold avps. solve_body. Qed.

Lemma PI_avps_wf g : wf g -> Forall wf_avp (avps g).
Proof. unfold wf, avps. solve_avps_wf. Qed.

(** Computes the fields of explicit records. *)
Ltac fields := cbv beta iota delta [set_field zero ProxyHost ProxyState].

Lemma PI_fold_avps g :
  wf g -> fold_fields field (map avp_seen (avps g)) zero = (g, Ok tt).
Proof.
  destruct g. unfold wf; fields. intros H. destruct_and? H.
  rewrite <- (app_nil_r (avps _)). unfold avps. rewrite <- ?app_assoc. fields.
  erewrite fold_req by solve_field. fields.
  erewrite (fold_opt field (fun x m => m <| ProxyState := x |>)) by solve_field. fields.
  by subst.
Qed.

#[global] Instance wire : WireMessage t := {|
  wire_start g := zero; wire_wf := wf; wire_avps := avps; wire_field := field;
  wire_wf_avps := PI_avps_wf; wire_fold := PI_fold_avps |}.

(** A group is read back from its own bytes. *)
Lemma PI_Unmarshal_Marshal g :
  fits_group wf Marshal g -> Unmarshal (Serialize (VGrouped (Marshal g))) zero = (g, Ok tt).
Proof.
  intros [Hw _]. cbn [Serialize]. unfold Grouped_Serialize. rewrite PI_Marshal_avps. exact (@wire_roundtrip t wire g Hw).
Qed.
#[global] Hint Resolve PI_Unmarshal_Marshal : groups.

Lemma PI_field_total c w v g : exists m', field c w v g = Ok m'.
Proof. unfold field. solve_total. Qed.

Lemma PI_Unmarshal_no_panic data g : (Unmarshal data g).2 <> Panic.
Proof. apply (scan_total field), PI_field_total. Qed.
#[global] Hint Resolve PI_Unmarshal_no_panic : no_panic.

End ProxyInfo.

Module ReAuthRequest.

Record t := mk {
  Header : DiameterHeader;
  SessionId : bytes;
  OriginHost : bytes;
  OriginRealm : bytes;
  DestinationRealm : bytes;
  DestinationHost : bytes;
  AuthApplicationId : Z;
  ReAuthRequestType : Z;
  UserName : option bytes;
  OriginStateId : option Z;
  ProxyInfo : list (option ProxyInfo.t);
  RouteRecord : list bytes;
  Avp : list bytes }.

(** The zero value with a given header: [&X{}] once its header is set. *)
Definition start (h : DiameterHeader) : t :=
  mk h [] [] [] [] [] 0 0 None None [] [] [].

Definition zero : t := start zero_header.

Definition New : t := start (new_header 258 0 true true).

Definition Validate (m : t) : option marshal_error :=
  if len (SessionId m) =? 0 then Some (ErrRequiredEmpty (gostr "Session-Id")) else
  if len (OriginHost m) =? 0 then Some (ErrRequiredEmpty (gostr "Origin-Host")) else
  if len (OriginRealm m) =? 0 then Some (ErrRequiredEmpty (gostr "Origin-Realm")) else
  if len (DestinationRealm m) =? 0 then Some (ErrRequiredEmpty (gostr "Destination-Realm")) else
  if len (DestinationHost m) =? 0 then Some (ErrRequiredEmpty (gostr "Destination-Host")) else
  None.

Definition body (m : t) : bytes :=
  marshalAVP AVPCodeSESSIONID (VUTF8String (SessionId m)) true false ++
  marshalAVP AVPCodeORIGINHOST (VDiameterIdentity (OriginHost m)) true false ++
  marshalAVP AVPCodeORIGINREALM (VDiameterIdentity (OriginRealm m)) true false ++
  marshalAVP AVPCodeDESTINATIONREALM (VDiameterIdentity (DestinationRealm m)) true false ++
  marshalAVP AVPCodeDESTINATIONHOST (VDiameterIdentity (DestinationHost m)) true false ++
  marshalAVP AVPCodeAUTHAPPLICATIONID (VUnsigned32 (AuthApplicationId m)) true false ++
  marshalAVP AVPCodeREAUTHREQUESTTYPE (VEnumerated (ReAuthRequestType m)) true false ++
  write_opt (UserName m) (fun x =>
    marshalAVP AVPCodeUSERNAME (VUTF8String x) true true) ++
  write_opt (OriginStateId m) (fun x =>
    marshalAVP AVPCodeORIGINSTATEID (VUnsigned32 x) false false) ++
  write_all (ProxyInfo m) (fun p => write_opt p (fun x =>
    marshalAVP AVPCodePROXYINFO (VGrouped (ProxyInfo.Marshal x)) true false)) ++
  write_all (RouteRecord m) (fun x =>
    marshalAVP AVPCodeROUTERECORD (VDiameterIdentity x) true false).

Definition Marshal (m : t) : t * outcome marshal_error bytes :=
  match Validate m with
  | Some e => (m, Err e)
  | None =>
      let m := m <| Header := (Header m) <| Length := to_u32 (20 + len (body m)) |> |> in
      (m, Ok (marshalHeader (Header m) ++ body m))
  end.

Definition field (avpCode vendorID : Z) (avpValue : bytes) (m : t) : outcome parse_error t :=
  if avpCode =? AVPCodeSESSIONID then
    assign (DecodeUTF8String avpValue) as_UTF8String
      (fun x => m <| SessionId := x |>) m
  else
  if avpCode =? AVPCodeORIGINHOST then
    assign (DecodeDiameterIdentity avpValue) as_DiameterIdentity
      (fun x => m <| OriginHost := x |>) m
  else
  if avpCode =? AVPCodeORIGINREALM then
    assign (DecodeDiameterIdentity avpValue) as_DiameterIdentity
      (fun x => m <| OriginRealm := x |>) m
  else
  if avpCode =? AVPCodeDESTINATIONREALM then
    assign (DecodeDiameterIdentity avpValue) as_DiameterIdentity
      (fun x => m <| DestinationRealm := x |>) m
  else
  if avpCode =? AVPCodeDESTINATIONHOST then
    assign (DecodeDiameterIdentity avpValue) as_DiameterIdentity
      (fun x => m <| DestinationHost := x |>) m
  else
  if avpCode =? AVPCodeAUTHAPPLICATIONID then
    assign (DecodeUnsigned32 avpValue) as_Unsigned32
      (fun x => m <| AuthApplicationId := x |>) m
  else
  if avpCode =? AVPCodeREAUTHREQUESTTYPE then
    assign (DecodeEnumerated avpValue) as_Enumerated
      (fun x => m <| ReAuthRequestType := x |>) m
  else
  if avpCode =? AVPCodeUSERNAME then
    assign (DecodeUTF8String avpValue) as_UTF8String
      (fun x => m <| UserName := Some x |>) m
  else
  if avpCode =? AVPCodeORIGINSTATEID then
    assign (DecodeUnsigned32 avpValue) as_Unsigned32
      (fun x => m <| OriginStateId := Some x |>) m
  else
  if avpCode =? AVPCodePROXYINFO then
    assign_group (ProxyInfo.Unmarshal avpValue ProxyInfo.zero)
      (fun grouped => m <| ProxyInfo := ProxyInfo m ++ [Some grouped] |>) m
  else
  if avpCode =? AVPCodeROUTERECORD then
    assign (DecodeDiameterIdentity avpValue) as_DiameterIdentity
      (fun x => m <| RouteRecord := RouteRecord m ++ [x] |>) m
  else
  Ok m.

Definition Unmarshal (data : bytes) (m : t) : t * outcome parse_error unit :=
  if len data <? 20 then (m, Err ErrHeaderTooShort)
  else match read_header data with
       | Ok header => scan_from field data 20 (m <| Header := header |>)
       | Err e => (m, Err e)
       | Panic => (m, Panic)
       end.

Definition Len (m : t) : Z := match (Marshal m).2 with Ok data => len data | _ => 0 end.

Definition avps (m : t) : list avp :=
  [av AVPCodeSESSIONID (VUTF8String (SessionId m)) true false 0] ++
  [av AVPCodeORIGINHOST (VDiameterIdentity (OriginHost m)) true false 0] ++
  [av AVPCodeORIGINREALM (VDiameterIdentity (OriginRealm m)) true false 0] ++
  [av AVPCodeDESTINATIONREALM (VDiameterIdentity (DestinationRealm m)) true false 0] ++
  [av AVPCodeDESTINATIONHOST (VDiameterIdentity (DestinationHost m)) true false 0] ++
  [av AVPCodeAUTHAPPLICATIONID (VUnsigned32 (AuthApplicationId m)) true false 0] ++
  [av AVPCodeREAUTHREQUESTTYPE (VEnumerated (ReAuthRequestType m)) true false 0] ++
  opt_avp (fun x => av AVPCodeUSERNAME (VUTF8String x) true true 0) (UserName m) ++
  opt_avp (fun x => av AVPCodeORIGINSTATEID (VUnsigned32 x) false false 0) (OriginStateId m) ++
  flat_map (opt_avp (fun x => av AVPCodePROXYINFO (VGrouped (ProxyInfo.Marshal x)) true false 0)) (ProxyInfo m) ++
  map (fun x => av AVPCodeROUTERECORD (VDiameterIdentity x) true false 0) (RouteRecord m).

Definition wf (m : t) : Prop :=
  fits (SessionId m) /\
  fits (OriginHost m) /\
  fits (OriginRealm m) /\
  fits (DestinationRealm m) /\
  fits (DestinationHost m) /\
  u32 (AuthApplicationId m) /\
  i32 (ReAuthRequestType m) /\
  from_option fits True (UserName m) /\
  from_option u32 True (OriginStateId m) /\
  Forall (some_and (fits_group ProxyInfo.wf ProxyInfo.Marshal)) (ProxyInfo m) /\
  Forall fits (RouteRecord m) /\
  Avp m = [].

Lemma RAR_body_avps m : body m = concat (map marshal (avps m)).
Proof. unfold avps. solve_body. Qed.

Lemma RAR_avps_wf m : wf m -> Forall wf_avp (avps m).
Proof. unfold wf, avps. solve_avps_wf. Qed.

(** Computes the fields of explicit records. *)
Ltac fields := cbv beta iota delta [set_field start Header SessionId OriginHost OriginRealm DestinationRealm DestinationHost AuthApplicationId ReAuthRequestType UserName OriginStateId ProxyInfo RouteRecord Avp].

Lemma RAR_fold_avps m :
  wf m -> fold_fields field (map avp_seen (avps m)) (start (Header m)) = (m, Ok tt).
Proof.
  destruct m. unfold wf; fields. intros H. destruct_and? H.
  rewrite <- (app_nil_r (avps _)). unfold avps. rewrite <- ?app_assoc. fields.
  erewrite fold_req by solve_field. fields.
  erewrite fold_req by solve_field. fields.
  erewrite fold_req by solve_field. fields.
  erewrite fold_req by solve_field. fields.
  erewrite fold_req by solve_field. fields.
  erewrite fold_req by solve_field. fields.
  erewrite fold_req by solve_field. fields.
  erewrite (fold_opt field (fun x m => m <| UserName := x |>)) by solve_field. fields.
  erewrite (fold_opt field (fun x m => m <| OriginStateId := x |>)) by solve_field. fields.
  erewrite (fold_rep_opt field ProxyInfo (fun x m => m <| ProxyInfo := x |>)) by solve_field. fields.
  erewrite (fold_rep field RouteRecord (fun x m => m <| RouteRecord := x |>)) by solve_field. fields.
  by subst.
Qed.

#[global] Instance wire : WireMessage t := {|
  wire_start m := (start (Header m)); wire_wf := wf; wire_avps := avps; wire_field := field;
  wire_wf_avps := RAR_avps_wf; wire_fold := RAR_fold_avps |}.

#[global] Program Instance command : WireCommand t := {|
  cmd_header := Header; cmd_with_header := fun h m => m <| Header := h |>; cmd_zero := zero;
  cmd_validate := Validate; cmd_body := body; cmd_marshal := Marshal;
  cmd_unmarshal := Unmarshal; cmd_body_eq := RAR_body_avps |}.
Solve Obligations with reflexivity.

Lemma RAR_roundtrip : roundtrip_spec wf Header body Validate Marshal Unmarshal zero.
Proof. exact (@command_roundtrip t wire command). Qed.

Lemma RAR_field_total c w v m : exists m', field c w v m = Ok m'.
Proof. unfold field. solve_total. Qed.

Lemma RAR_Unmarshal_total data m :
  (Unmarshal data m).2 <> Panic /\ (Unmarshal data m).2 <> Err ErrFuel.
Proof.
  exact (unmarshal_total field data m (fun h => m <| Header := h |>) RAR_field_total).
Qed.

End ReAuthRequest.

Module ReAuthAnswer.

Record t := mk {
  Header : DiameterHeader;
  SessionId : bytes;
  ResultCode : Z;
  OriginHost : bytes;
  OriginRealm : bytes;
  UserName : option bytes;
  OriginStateId : option Z;
  ErrorMessage : option bytes;
  ErrorReportingHost : option bytes;
  FailedAvp : option FailedAVP.t;
  RedirectHost : list bytes;
  RedirectHostUsage : option Z;
  RedirectMaxCacheTime : option Z;
  ProxyInfo : list (option ProxyInfo.t);
  Avp : list bytes }.

(** The zero value with a given header: [&X{}] once its header is set. *)
Definition start (h : DiameterHeader) : t :=
  mk h [] 0 [] [] None None None None None [] None None [] [].

Definition zero : t := start zero_header.

Definition New : t := start (new_header 258 0 false true).

Definition Validate (m : t) : option marshal_error :=
  if len (SessionId m) =? 0 then Some (ErrRequiredEmpty (gostr "Session-Id")) else
  if len (OriginHost m) =? 0 then Some (ErrRequiredEmpty (gostr "Origin-Host")) else
  if len (OriginRealm m) =? 0 then Some (ErrRequiredEmpty (gostr "Origin-Realm")) else
  None.

Definition body (m : t) : bytes :=
  marshalAVP AVPCodeSESSIONID (VUTF8String (SessionId m)) true false ++
  marshalAVP AVPCodeRESULTCODE (VUnsigned32 (ResultCode m)) true false ++
  marshalAVP AVPCodeORIGINHOST (VDiameterIdentity (OriginHost m)) true false ++
  marshalAVP AVPCodeORIGINREALM (VDiameterIdentity (OriginRealm m)) true false ++
  write_opt (UserName m) (fun x =>
    marshalAVP AVPCodeUSERNAME (VUTF8String x) true true) ++
  write_opt (OriginStateId m) (fun x =>
    marshalAVP AVPCodeORIGINSTATEID (VUnsigned32 x) false false) ++
  write_opt (ErrorMessage m) (fun x =>
    marshalAVP AVPCodeERRORMESSAGE (VUTF8String x) false false) ++
  write_opt (ErrorReportingHost m) (fun x =>
    marshalAVP AVPCodeERRORREPORTINGHOST (VDiameterIdentity x) false false) ++
  write_opt (FailedAvp m) (fun x =>
    marshalAVP AVPCodeFAILEDAVP (VGrouped (FailedAVP.Marshal x)) true false) ++
  write_all (RedirectHost m) (fun x =>
    marshalAVP AVPCodeREDIRECTHOST (VDiameterURI x) true false) ++
  write_opt (RedirectHostUsage m) (fun x =>
    marshalAVP AVPCodeREDIRECTHOSTUSAGE (VEnumerated x) true false) ++
  write_opt (RedirectMaxCacheTime m) (fun x =>
    marshalAVP AVPCodeREDIRECTMAXCACHETIME (VUnsigned32 x) true false) ++
  write_all (ProxyInfo m) (fun p => write_opt p (fun x =>
    marshalAVP AVPCodePROXYINFO (VGrouped (ProxyInfo.Marshal x)) true false)).

Definition Marshal (m : t) : t * outcome marshal_error bytes :=
  match Validate m with
  | Some e => (m, Err e)
  | None =>
      let m := m <| Header := (Header m) <| Length := to_u32 (20 + len (body m)) |> |> in
      (m, Ok (marshalHeader (Header m) ++ body m))
  end.

Definition field (avpCode vendorID : Z) (avpValue : bytes) (m : t) : outcome parse_error t :=
  if avpCode =? AVPCodeSESSIONID then
    assign (DecodeUTF8String avpValue) as_UTF8String
      (fun x => m <| SessionId := x |>) m
  else
  if avpCode =? AVPCodeRESULTCODE then
    assign (DecodeUnsigned32 avpValue) as_Unsigned32
      (fun x => m <| ResultCode := x |>) m
  else
  if avpCode =? AVPCodeORIGINHOST then
    assign (DecodeDiameterIdentity avpValue) as_DiameterIdentity
      (fun x => m <| OriginHost := x |>) m
  else
  if avpCode =? AVPCodeORIGINREALM then
    assign (DecodeDiameterIdentity avpValue) as_DiameterIdentity
      (fun x => m <| OriginRealm := x |>) m
  else
  if avpCode =? AVPCodeUSERNAME then
    assign (DecodeUTF8String avpValue) as_UTF8String
      (fun x => m <| UserName := Some x |>) m
  else
  if avpCode =? AVPCodeORIGINSTATEID then
    assign (DecodeUnsigned32 avpValue) as_Unsigned32
      (fun x => m <| OriginStateId := Some x |>) m
  else
  if avpCode =? AVPCodeERRORMESSAGE then
    assign (DecodeUTF8String avpValue) as_UTF8String
      (fun x => m <| ErrorMessage := Some x |>) m
  else
  if avpCode =? AVPCodeERRORREPORTINGHOST then
    assign (DecodeDiameterIdentity avpValue) as_DiameterIdentity
      (fun x => m <| ErrorReportingHost := Some x |>) m
  else
  if avpCode =? AVPCodeFAILEDAVP then
    assign_group (FailedAVP.Unmarshal avpValue FailedAVP.zero)
      (fun grouped => m <| FailedAvp := Some grouped |>) m
  else
  if avpCode =? AVPCodeREDIRECTHOST then
    assign (DecodeDiameterURI avpValue) as_DiameterURI
      (fun x => m <| RedirectHost := RedirectHost m ++ [x] |>) m
  else
  if avpCode =? AVPCodeREDIRECTHOSTUSAGE then
    assign (DecodeEnumerated avpValue) as_Enumerated
      (fun x => m <| RedirectHostUsage := Some x |>) m
  else
  if avpCode =? AVPCodeREDIRECTMAXCACHETIME then
    assign (DecodeUnsigned32 avpValue) as_Unsigned32
      (fun x => m <| RedirectMaxCacheTime := Some x |>) m
  else
  if avpCode =? AVPCodePROXYINFO then
    assign_group (ProxyInfo.Unmarshal avpValue ProxyInfo.zero)
      (fun grouped => m <| ProxyInfo := ProxyInfo m ++ [Some grouped] |>) m
  else
  Ok m.

Definition Unmarshal (data : bytes) (m : t) : t * outcome parse_error unit :=
  if len data <? 20 then (m, Err ErrHeaderTooShort)
  else match read_header data with
       | Ok header => scan_from field data 20 (m <| Header := header |>)
       | Err e => (m, Err e)
       | Panic => (m, Panic)
       end.

Definition Len (m : t) : Z := match (Marshal m).2 with Ok data => len data | _ => 0 end.

Definition avps (m : t) : list avp :=
  [av AVPCodeSESSIONID (VUTF8String (SessionId m)) true false 0] ++
  [av AVPCodeRESULTCODE (VUnsigned32 (ResultCode m)) true false 0] ++
  [av AVPCodeORIGINHOST (VDiameterIdentity (OriginHost m)) true false 0] ++
  [av AVPCodeORIGINREALM (VDiameterIdentity (OriginRealm m)) true false 0] ++
  opt_avp (fun x => av AVPCodeUSERNAME (VUTF8String x) true true 0) (UserName m) ++
  opt_avp (fun x => av AVPCodeORIGINSTATEID (VUnsigned32 x) false false 0) (OriginStateId m) ++
  opt_avp (fun x => av AVPCodeERRORMESSAGE (VUTF8String x) false false 0) (ErrorMessage m) ++
  opt_avp (fun x => av AVPCodeERRORREPORTINGHOST (VDiameterIdentity x) false false 0) (ErrorReportingHost m) ++
  opt_avp (fun x => av AVPCodeFAILEDAVP (VGrouped (FailedAVP.Marshal x)) true false 0) (FailedAvp m) ++
  map (fun x => av AVPCodeREDIRECTHOST (VDiameterURI x) true false 0) (RedirectHost m) ++
  opt_avp (fun x => av AVPCodeREDIRECTHOSTUSAGE (VEnumerated x) true false 0) (RedirectHostUsage m) ++
  opt_avp (fun x => av AVPCodeREDIRECTMAXCACHETIME (VUnsigned32 x) true false 0) (RedirectMaxCacheTime m) ++
  flat_map (opt_avp (fun x => av AVPCodePROXYINFO (VGrouped (ProxyInfo.Marshal x)) true false 0)) (ProxyInfo m).

Definition wf (m : t) : Prop :=
  fits (SessionId m) /\
  u32 (ResultCode m) /\
  fits (OriginHost m) /\
  fits (OriginRealm m) /\
  from_option fits True (UserName m) /\
  from_option u32 True (OriginStateId m) /\
  from_option fits True (ErrorMessage m) /\
  from_option fits True (ErrorReportingHost m) /\
  from_option (fits_group FailedAVP.wf FailedAVP.Marshal) True (FailedAvp m) /\
  Forall fits (RedirectHost m) /\
  from_option i32 True (RedirectHostUsage m) /\
  from_option u32 True (RedirectMaxCacheTime m) /\
  Forall (some_and (fits_group ProxyInfo.wf ProxyInfo.Marshal)) (ProxyInfo m) /\
  Avp m = [].

Lemma RAA_body_avps m : body m = concat (map marshal (avps m)).
Proof. unfold avps. solve_body. Qed.

Lemma RAA_avps_wf m : wf m -> Forall wf_avp (avps m).
Proof. unfold wf, avps. solve_avps_wf. Qed.

(** Computes the fields of explicit records. *)
Ltac fields := cbv beta iota delta [set_field start Header SessionId ResultCode OriginHost OriginRealm UserName OriginStateId ErrorMessage ErrorReportingHost FailedAvp RedirectHost RedirectHostUsage RedirectMaxCacheTime ProxyInfo Avp].

Lemma RAA_fold_avps m :
  wf m -> fold_fields field (map avp_seen (avps m)) (start (Header m)) = (m, Ok tt).
Proof.
  destruct m. unfold wf; fields. intros H. destruct_and? H.
  rewrite <- (app_nil_r (avps _)). unfold avps. rewrite <- ?app_assoc. fields.
  erewrite fold_req by solve_field. fields.
  erewrite fold_req by solve_field. fields.
  erewrite fold_req by solve_field. fields.
  erewrite fold_req by solve_field. fields.
  erewrite (fold_opt field (fun x m => m <| UserName := x |>)) by solve_field. fields.
  erewrite (fold_opt field (fun x m => m <| OriginStateId := x |>)) by solve_field. fields.
  erewrite (fold_opt field (fun x m => m <| ErrorMessage := x |>)) by solve_field. fields.
  erewrite (fold_opt field (fun x m => m <| ErrorReportingHost := x |>)) by solve_field. fields.
  erewrite (fold_opt field (fun x m => m <| FailedAvp := x |>)) by solve_field. fields.
  erewrite (fold_rep field RedirectHost (fun x m => m <| RedirectHost := x |>)) by solve_field. fields.
  erewrite (fold_opt field (fun x m => m <| RedirectHostUsage := x |>)) by solve_field. fields.
  erewrite (fold_opt field (fun x m => m <| RedirectMaxCacheTime := x |>)) by solve_field. fields.
  erewrite (fold_rep_opt field ProxyInfo (fun x m => m <| ProxyInfo := x |>)) by solve_field. fields.
  by subst.
Qed.

#[global] Instance wire : WireMessage t := {|
  wire_start m := (start (Header m)); wire_wf := wf; wire_avps := avps; wire_field := field;
  wire_wf_avps := RAA_avps_wf; wire_fold := RAA_fold_avps |}.

#[global] Program Instance command : WireCommand t := {|
  cmd_header := Header; cmd_with_header := fun h m => m <| Header := h |>; cmd_zero := zero;
  cmd_validate := Validate; cmd_body := body; cmd_marshal := Marshal;
  cmd_unmarshal := Unmarshal; cmd_body_eq := RAA_body_avps |}.
Solve Obligations with reflexivity.

Lemma RAA_roundtrip : roundtrip_spec wf Header body Validate Marshal Unmarshal zero.
Proof. exact (@command_roundtrip t wire command). Qed.

Lemma RAA_field_total c w v m : exists m', field c w v m = Ok m'.
Proof. unfold field. solve_total. Qed.

Lemma RAA_Unmarshal_total data m :
  (Unmarshal data m).2 <> Panic /\ (Unmarshal data m).2 <> Err ErrFuel.
Proof.
  exact (unmarshal_total field data m (fun h => m <| Header := h |>) RAA_field_total).
Qed.

End ReAuthAnswer.

Module SessionTerminationRequest.

Record t := mk {
  Header : DiameterHeader;
  SessionId : bytes;
  OriginHost : bytes;
  OriginRealm : bytes;
  DestinationRealm : bytes;
  AuthApplicationId : Z;
  TerminationCause : Z;
  UserName : option bytes;
  DestinationHost : option bytes;
  Class : list bytes;
  OriginStateId : option Z;
  ProxyInfo : list (option ProxyInfo.t);
  RouteRecord : list bytes;
  Avp : list bytes }.

(** The zero value with a given header: [&X{}] once its header is set. *)
Definition start (h : DiameterHeader) : t :=
  mk h [] [] [] [] 0 0 None None [] None [] [] [].

Definition zero : t := start zero_header.

Definition New : t := start (new_header 275 0 true true).

Definition Validate (m : t) : option marshal_error :=
  if len (SessionId m) =? 0 then Some (ErrRequiredEmpty (gostr "Session-Id")) else
  if len (OriginHost m) =? 0 then Some (ErrRequiredEmpty (gostr "Origin-Host")) else
  if len (OriginRealm m) =? 0 then Some (ErrRequiredEmpty (gostr "Origin-Realm")) else
  if len (DestinationRealm m) =? 0 then Some (ErrRequiredEmpty (gostr "Destination-Realm")) else
  None.

Definition body (m : t) : bytes :=
  marshalAVP AVPCodeSESSIONID (VUTF8String (SessionId m)) true false ++
  marshalAVP AVPCodeORIGINHOST (VDiameterIdentity (OriginHost m)) true false ++
  marshalAVP AVPCodeORIGINREALM (VDiameterIdentity (OriginRealm m)) true false ++
  marshalAVP AVPCodeDESTINATIONREALM (VDiameterIdentity (DestinationRealm m)) true false ++
  marshalAVP AVPCodeAUTHAPPLICATIONID (VUnsigned32 (AuthApplicationId m)) true false ++
  marshalAVP AVPCodeTERMINATIONCAUSE (VEnumerated (TerminationCause m)) true false ++
  write_opt (UserName m) (fun x =>
    marshalAVP AVPCodeUSERNAME (VUTF8String x) true true) ++
  write_opt (DestinationHost m) (fun x =>
    marshalAVP AVPCodeDESTINATIONHOST (VDiameterIdentity x) true false) ++
  write_all (Class m) (fun x =>
    marshalAVP AVPCodeCLASS (VOctetString x) true true) ++
  write_opt (OriginStateId m) (fun x =>
    marshalAVP AVPCodeORIGINSTATEID (VUnsigned32 x) false false) ++
  write_all (ProxyInfo m) (fun p => write_opt p (fun x =>
    marshalAVP AVPCodePROXYINFO (VGrouped (ProxyInfo.Marshal x)) true false)) ++
  write_all (RouteRecord m) (fun x =>
    marshalAVP AVPCodeROUTERECORD (VDiameterIdentity x) true false).

Definition Marshal (m : t) : t * outcome marshal_error bytes :=
  match Validate m with
  | Some e => (m, Err e)
  | None =>
      let m := m <| Header := (Header m) <| Length := to_u32 (20 + len (body m)) |> |> in
      (m, Ok (marshalHeader (Header m) ++ body m))
  end.

Definition field (avpCode vendorID : Z) (avpValue : bytes) (m : t) : outcome parse_error t :=
  if avpCode =? AVPCodeSESSIONID then
    assign (DecodeUTF8String avpValue) as_UTF8String
      (fun x => m <| SessionId := x |>) m
  else
  if avpCode =? AVPCodeORIGINHOST then
    assign (DecodeDiameterIdentity avpValue) as_DiameterIdentity
      (fun x => m <| OriginHost := x |>) m
  else
  if avpCode =? AVPCodeORIGINREALM then
    assign (DecodeDiameterIdentity avpValue) as_DiameterIdentity
      (fun x => m <| OriginRealm := x |>) m
  else
  if avpCode =? AVPCodeDESTINATIONREALM then
    assign (DecodeDiameterIdentity avpValue) as_DiameterIdentity
      (fun x => m <| DestinationRealm := x |>) m
  else
  if avpCode =? AVPCodeAUTHAPPLICATIONID then
    assign (DecodeUnsigned32 avpValue) as_Unsigned32
      (fun x => m <| AuthApplicationId := x |>) m
  else
  if avpCode =? AVPCodeTERMINATIONCAUSE then
    assign (DecodeEnumerated avpValue) as_Enumerated
      (fun x => m <| TerminationCause := x |>) m
  else
  if avpCode =? AVPCodeUSERNAME then
    assign (DecodeUTF8String avpValue) as_UTF8String
      (fun x => m <| UserName := Some x |>) m
  else
  if avpCode =? AVPCodeDESTINATIONHOST then
    assign (DecodeDiameterIdentity avpValue) as_DiameterIdentity
      (fun x => m <| DestinationHost := Some x |>) m
  else
  if avpCode =? AVPCodeCLASS then
    assign (DecodeOctetString avpValue) as_OctetString
      (fun x => m <| Class := Class m ++ [x] |>) m
  else
  if avpCode =? AVPCodeORIGINSTATEID then
    assign (DecodeUnsigned32 avpValue) as_Unsigned32
      (fun x => m <| OriginStateId := Some x |>) m
  else
  if avpCode =? AVPCodePROXYINFO then
    assign_group (ProxyInfo.Unmarshal avpValue ProxyInfo.zero)
      (fun grouped => m <| ProxyInfo := ProxyInfo m ++ [Some grouped] |>) m
  else
  if avpCode =? AVPCodeROUTERECORD then
    assign (DecodeDiameterIdentity avpValue) as_DiameterIdentity
      (fun x => m <| RouteRecord := RouteRecord m ++ [x] |>) m
  else
  Ok m.

Definition Unmarshal (data : bytes) (m : t) : t * outcome parse_error unit :=
  if len data <? 20 then (m, Err ErrHeaderTooShort)
  else match read_header data with
       | Ok header => scan_from field data 20 (m <| Header := header |>)
       | Err e => (m, Err e)
       | Panic => (m, Panic)
       end.

Definition Len (m : t) : Z := match (Marshal m).2 with Ok data => len data | _ => 0 end.

Definition avps (m : t) : list avp :=
  [av AVPCodeSESSIONID (VUTF8String (SessionId m)) true false 0] ++
  [av AVPCodeORIGINHOST (VDiameterIdentity (OriginHost m)) true false 0] ++
  [av AVPCodeORIGINREALM (VDiameterIdentity (OriginRealm m)) true false 0] ++
  [av AVPCodeDESTINATIONREALM (VDiameterIdentity (DestinationRealm m)) true false 0] ++
  [av AVPCodeAUTHAPPLICATIONID (VUnsigned32 (AuthApplicationId m)) true false 0] ++
  [av AVPCodeTERMINATIONCAUSE (VEnumerated (TerminationCause m)) true false 0] ++
  opt_avp (fun x => av AVPCodeUSERNAME (VUTF8String x) true true 0) (UserName m) ++
  opt_avp (fun x => av AVPCodeDESTINATIONHOST (VDiameterIdentity x) true false 0) (DestinationHost m) ++
  map (fun x => av AVPCodeCLASS (VOctetString x) true true 0) (Class m) ++
  opt_avp (fun x => av AVPCodeORIGINSTATEID (VUnsigned32 x) false false 0) (OriginStateId m) ++
  flat_map (opt_avp (fun x => av AVPCodePROXYINFO (VGrouped (ProxyInfo.Marshal x)) true false 0)) (ProxyInfo m) ++
  map (fun x => av AVPCodeROUTERECORD (VDiameterIdentity x) true false 0) (RouteRecord m).

Definition wf (m : t) : Prop :=
  fits (SessionId m) /\
  fits (OriginHost m) /\
  fits (OriginRealm m) /\
  fits (DestinationRealm m) /\
  u32 (AuthApplicationId m) /\
  i32 (TerminationCause m) /\
  from_option fits True (UserName m) /\
  from_option fits True (DestinationHost m) /\
  Forall fits (Class m) /\
  from_option u32 True (OriginStateId m) /\
  Forall (some_and (fits_group ProxyInfo.wf ProxyInfo.Marshal)) (ProxyInfo m) /\
  Forall fits (RouteRecord m) /\
  Avp m = [].

Lemma STR_body_avps m : body m = concat (map marshal (avps m)).
Proof. unfold avps. solve_body. Qed.

Lemma STR_avps_wf m : wf m -> Forall wf_avp (avps m).
Proof. unfold wf, avps. solve_avps_wf. Qed.

(** Computes the fields of explicit records. *)
Ltac fields := cbv beta iota delta [set_field start Header SessionId OriginHost OriginRealm DestinationRealm AuthApplicationId TerminationCause UserName DestinationHost Class OriginStateId ProxyInfo RouteRecord Avp].

Lemma STR_fold_avps m :
  wf m -> fold_fields field (map avp_seen (avps m)) (start (Header m)) = (m, Ok tt).
Proof.
  destruct m. unfold wf; fields. intros H. destruct_and? H.
  rewrite <- (app_nil_r (avps _)). unfold avps. rewrite <- ?app_assoc. fields.
  erewrite fold_req by solve_field. fields.
  erewrite fold_req by solve_field. fields.
  erewrite fold_req by solve_field. fields.
  erewrite fold_req by solve_field. fields.
  erewrite fold_req by solve_field. fields.
  erewrite fold_req by solve_field. fields.
  erewrite (fold_opt field (fun x m => m <| UserName := x |>)) by solve_field. fields.
  erewrite (fold_opt field (fun x m => m <| DestinationHost := x |>)) by solve_field. fields.
  erewrite (fold_rep field Class (fun x m => m <| Class := x |>)) by solve_field. fields.
  erewrite (fold_opt field (fun x m => m <| OriginStateId := x |>)) by solve_field. fields.
  erewrite (fold_rep_opt field ProxyInfo (fun x m => m <| ProxyInfo := x |>)) by solve_field. fields.
  erewrite (fold_rep field RouteRecord (fun x m => m <| RouteRecord := x |>)) by solve_field. fields.
  by subst.
Qed.

#[global] Instance wire : WireMessage t := {|
  wire_start m := (start (Header m)); wire_wf := wf; wire_avps := avps; wire_field := field;
  wire_wf_avps := STR_avps_wf; wire_fold := STR_fold_avps |}.

#[global] Program Instance command : WireCommand t := {|
  cmd_header := Header; cmd_with_header := fun h m => m <| Header := h |>; cmd_zero := zero;
  cmd_validate := Validate; cmd_body := body; cmd_marshal := Marshal;
  cmd_unmarshal := Unmarshal; cmd_body_eq := STR_body_avps |}.
Solve Obligations with reflexivity.

Lemma STR_roundtrip : roundtrip_spec wf Header body Validate Marshal Unmarshal zero.
Proof. exact (@command_roundtrip t wire command). Qed.

Lemma STR_field_total c w v m : exists m', field c w v m = Ok m'.
Proof. unfold field. solve_total. Qed.

Lemma STR_Unmarshal_total data m :
  (Unmarshal data m).2 <> Panic /\ (Unmarshal data m).2 <> Err ErrFuel.
Proof.
  exact (unmarshal_total field data m (fun h => m <| Header := h |>) STR_field_total).
Qed.

End SessionTerminationRequest.

Module SessionTerminationAnswer.

Record t := mk {
  Header : DiameterHeader;
  SessionId : bytes;
  ResultCode : Z;
  OriginHost : bytes;
  OriginRealm : bytes;
  UserName : option bytes;
  Class : list bytes;
  ErrorMessage : option bytes;
  ErrorReportingHost : option bytes;
  FailedAvp : option FailedAVP.t;
  OriginStateId : option Z;
  RedirectHost : list bytes;
  RedirectHostUsage : option Z;
  RedirectMaxCacheTime : option Z;
  ProxyInfo : list (option ProxyInfo.t);
  Avp : list bytes }.

(** The zero value with a given header: [&X{}] once its header is set. *)
Definition start (h : DiameterHeader) : t :=
  mk h [] 0 [] [] None [] None None None None [] None None [] [].

Definition zero : t := start zero_header.

Definition New : t := start (new_header 275 0 false true).

Definition Validate (m : t) : option marshal_error :=
  if len (SessionId m) =? 0 then Some (ErrRequiredEmpty (gostr "Session-Id")) else
  if len (OriginHost m) =? 0 then Some (ErrRequiredEmpty (gostr "Origin-Host")) else
  if len (OriginRealm m) =? 0 then Some (ErrRequiredEmpty (gostr "Origin-Realm")) else
  None.

Definition body (m : t) : bytes :=
  marshalAVP AVPCodeSESSIONID (VUTF8String (SessionId m)) true false ++
  marshalAVP AVPCodeRESULTCODE (VUnsigned32 (ResultCode m)) true false ++
  marshalAVP AVPCodeORIGINHOST (VDiameterIdentity (OriginHost m)) true false ++
  marshalAVP AVPCodeORIGINREALM (VDiameterIdentity (OriginRealm m)) true false ++
  write_opt (UserName m) (fun x =>
    marshalAVP AVPCodeUSERNAME (VUTF8String x) true true) ++
  write_all (Class m) (fun x =>
    marshalAVP AVPCodeCLASS (VOctetString x) true true) ++
  write_opt (ErrorMessage m) (fun x =>
    marshalAVP AVPCodeERRORMESSAGE (VUTF8String x) false false) ++
  write_opt (ErrorReportingHost m) (fun x =>
    marshalAVP AVPCodeERRORREPORTINGHOST (VDiameterIdentity x) false false) ++
  write_opt (FailedAvp m) (fun x =>
    marshalAVP AVPCodeFAILEDAVP (VGrouped (FailedAVP.Marshal x)) true false) ++
  write_opt (OriginStateId m) (fun x =>
    marshalAVP AVPCodeORIGINSTATEID (VUnsigned32 x) false false) ++
  write_all (RedirectHost m) (fun x =>
    marshalAVP AVPCodeREDIRECTHOST (VDiameterURI x) true false) ++
  write_opt (RedirectHostUsage m) (fun x =>
    marshalAVP AVPCodeREDIRECTHOSTUSAGE (VEnumerated x) true false) ++
  write_opt (RedirectMaxCacheTime m) (fun x =>
    marshalAVP AVPCodeREDIRECTMAXCACHETIME (VUnsigned32 x) true false) ++
  write_all (ProxyInfo m) (fun p => write_opt p (fun x =>
    marshalAVP AVPCodePROXYINFO (VGrouped (ProxyInfo.Marshal x)) true false)).

Definition Marshal (m : t) : t * outcome marshal_error bytes :=
  match Validate m with
  | Some e => (m, Err e)
  | None =>
      let m := m <| Header := (Header m) <| Length := to_u32 (20 + len (body m)) |> |> in
      (m, Ok (marshalHeader (Header m) ++ body m))
  end.

Definition field (avpCode vendorID : Z) (avpValue : bytes) (m : t) : outcome parse_error t :=
  if avpCode =? AVPCodeSESSIONID then
    assign (DecodeUTF8String avpValue) as_UTF8String
      (fun x => m <| SessionId := x |>) m
  else
  if avpCode =? AVPCodeRESULTCODE then
    assign (DecodeUnsigned32 avpValue) as_Unsigned32
      (fun x => m <| ResultCode := x |>) m
  else
  if avpCode =? AVPCodeORIGINHOST then
    assign (DecodeDiameterIdentity avpValue) as_DiameterIdentity
      (fun x => m <| OriginHost := x |>) m
  else
  if avpCode =? AVPCodeORIGINREALM then
    assign (DecodeDiameterIdentity avpValue) as_DiameterIdentity
      (fun x => m <| OriginRealm := x |>) m
  else
  if avpCode =? AVPCodeUSERNAME then
    assign (DecodeUTF8String avpValue) as_UTF8String
      (fun x => m <| UserName := Some x |>) m
  else
  if avpCode =? AVPCodeCLASS then
    assign (DecodeOctetString avpValue) as_OctetString
      (fun x => m <| Class := Class m ++ [x] |>) m
  else
  if avpCode =? AVPCodeERRORMESSAGE then
    assign (DecodeUTF8String avpValue) as_UTF8String
      (fun x => m <| ErrorMessage := Some x |>) m
  else
  if avpCode =? AVPCodeERRORREPORTINGHOST then
    assign (DecodeDiameterIdentity avpValue) as_DiameterIdentity
      (fun x => m <| ErrorReportingHost := Some x |>) m
  else
  if avpCode =? AVPCodeFAILEDAVP then
    assign_group (FailedAVP.Unmarshal avpValue FailedAVP.zero)
      (fun grouped => m <| FailedAvp := Some grouped |>) m
  else
  if avpCode =? AVPCodeORIGINSTATEID then
    assign (DecodeUnsigned32 avpValue) as_Unsigned32
      (fun x => m <| OriginStateId := Some x |>) m
  else
  if avpCode =? AVPCodeREDIRECTHOST then
    assign (DecodeDiameterURI avpValue) as_DiameterURI
      (fun x => m <| RedirectHost := RedirectHost m ++ [x] |>) m
  else
  if avpCode =? AVPCodeREDIRECTHOSTUSAGE then
    assign (DecodeEnumerated avpValue) as_Enumerated
      (fun x => m <| RedirectHostUsage := Some x |>) m
  else
  if avpCode =? AVPCodeREDIRECTMAXCACHETIME then
    assign (DecodeUnsigned32 avpValue) as_Unsigned32
      (fun x => m <| RedirectMaxCacheTime := Some x |>) m
  else
  if avpCode =? AVPCodePROXYINFO then
    assign_group (ProxyInfo.Unmarshal avpValue ProxyInfo.zero)
      (fun grouped => m <| ProxyInfo := ProxyInfo m ++ [Some grouped] |>) m
  else
  Ok m.

Definition Unmarshal (data : bytes) (m : t) : t * outcome parse_error unit :=
  if len data <? 20 then (m, Err ErrHeaderTooShort)
  else match read_header data with
       | Ok header => scan_from field data 20 (m <| Header := header |>)
       | Err e => (m, Err e)
       | Panic => (m, Panic)
       end.

Definition Len (m : t) : Z := match (Marshal m).2 with Ok data => len data | _ => 0 end.

Definition avps (m : t) : list avp :=
  [av AVPCodeSESSIONID (VUTF8String (SessionId m)) true false 0] ++
  [av AVPCodeRESULTCODE (VUnsigned32 (ResultCode m)) true false 0] ++
  [av AVPCodeORIGINHOST (VDiameterIdentity (OriginHost m)) true false 0] ++
  [av AVPCodeORIGINREALM (VDiameterIdentity (OriginRealm m)) true false 0] ++
  opt_avp (fun x => av AVPCodeUSERNAME (VUTF8String x) true true 0) (UserName m) ++
  map (fun x => av AVPCodeCLASS (VOctetString x) true true 0) (Class m) ++
  opt_avp (fun x => av AVPCodeERRORMESSAGE (VUTF8String x) false false 0) (ErrorMessage m) ++
  opt_avp (fun x => av AVPCodeERRORREPORTINGHOST (VDiameterIdentity x) false false 0) (ErrorReportingHost m) ++
  opt_avp (fun x => av AVPCodeFAILEDAVP (VGrouped (FailedAVP.Marshal x)) true false 0) (FailedAvp m) ++
  opt_avp (fun x => av AVPCodeORIGINSTATEID (VUnsigned32 x) false false 0) (OriginStateId m) ++
  map (fun x => av AVPCodeREDIRECTHOST (VDiameterURI x) true false 0) (RedirectHost m) ++
  opt_avp (fun x => av AVPCodeREDIRECTHOSTUSAGE (VEnumerated x) true false 0) (RedirectHostUsage m) ++
  opt_avp (fun x => av AVPCodeREDIRECTMAXCACHETIME (VUnsigned32 x) true false 0) (RedirectMaxCacheTime m) ++
  flat_map (opt_avp (fun x => av AVPCodePROXYINFO (VGrouped (ProxyInfo.Marshal x)) true false 0)) (ProxyInfo m).

Definition wf (m : t) : Prop :=
  fits (SessionId m) /\
  u32 (ResultCode m) /\
  fits (OriginHost m) /\
  fits (OriginRealm m) /\
  from_option fits True (UserName m) /\
  Forall fits (Class m) /\
  from_option fits True (ErrorMessage m) /\
  from_option fits True (ErrorReportingHost m) /\
  from_option (fits_group FailedAVP.wf FailedAVP.Marshal) True (FailedAvp m) /\
  from_option u32 True (OriginStateId m) /\
  Forall fits (RedirectHost m) /\
  from_option i32 True (RedirectHostUsage m) /\
  from_option u32 True (RedirectMaxCacheTime m) /\
  Forall (some_and (fits_group ProxyInfo.wf ProxyInfo.Marshal)) (ProxyInfo m) /\
  Avp m = [].

Lemma STA_body_avps m : body m = concat (map marshal (avps m)).
Proof. unfold avps. solve_body. Qed.

Lemma STA_avps_wf m : wf m -> Forall wf_avp (avps m).
Proof. unfold wf, avps. solve_avps_wf. Qed.

(** Computes the fields of explicit records. *)
Ltac fields := cbv beta iota delta [set_field start Header SessionId ResultCode OriginHost OriginRealm UserName Class ErrorMessage ErrorReportingHost FailedAvp OriginStateId RedirectHost RedirectHostUsage RedirectMaxCacheTime ProxyInfo Avp].

Lemma STA_fold_avps m :
  wf m -> fold_fields field (map avp_seen (avps m)) (start (Header m)) = (m, Ok tt).
Proof.
  destruct m. unfold wf; fields. intros H. destruct_and? H.
  rewrite <- (app_nil_r (avps _)). unfold avps. rewrite <- ?app_assoc. fields.
  erewrite fold_req by solve_field. fields.
  erewrite fold_req by solve_field. fields.
  erewrite fold_req by solve_field. fields.
  erewrite fold_req by solve_field. fields.
  erewrite (fold_opt field (fun x m => m <| UserName := x |>)) by solve_field. fields.
  erewrite (fold_rep field Class (fun x m => m <| Class := x |>)) by solve_field. fields.
  erewrite (fold_opt field (fun x m => m <| ErrorMessage := x |>)) by solve_field. fields.
  erewrite (fold_opt field (fun x m => m <| ErrorReportingHost := x |>)) by solve_field. fields.
  erewrite (fold_opt field (fun x m => m <| FailedAvp := x |>)) by solve_field. fields.
  erewrite (fold_opt field (fun x m => m <| OriginStateId := x |>)) by solve_field. fields.
  erewrite (fold_rep field RedirectHost (fun x m => m <| RedirectHost := x |>)) by solve_field. fields.
  erewrite (fold_opt field (fun x m => m <| RedirectHostUsage := x |>)) by solve_field. fields.
  erewrite (fold_opt field (fun x m => m <| RedirectMaxCacheTime := x |>)) by solve_field. fields.
  erewrite (fold_rep_opt field ProxyInfo (fun x m => m <| ProxyInfo := x |>)) by solve_field. fields.
  by subst.
Qed.

#[global] Instance wire : WireMessage t := {|
  wire_start m := (start (Header m)); wire_wf := wf; wire_avps := avps; wire_field := field;
  wire_wf_avps := STA_avps_wf; wire_fold := STA_fold_avps |}.

#[global] Program Instance command : WireCommand t := {|
  cmd_header := Header; cmd_with_header := fun h m => m <| Header := h |>; cmd_zero := zero;
  cmd_validate := Validate; cmd_body := body; cmd_marshal := Marshal;
  cmd_unmarshal := Unmarshal; cmd_body_eq := STA_body_avps |}.
Solve Obligations with reflexivity.

Lemma STA_roundtrip : roundtrip_spec wf Header body Validate Marshal Unmarshal zero.
Proof. exact (@command_roundtrip t wire command). Qed.

Lemma STA_field_total c w v m : exists m', field c w v m = Ok m'.
Proof. unfold field. solve_total. Qed.

Lemma STA_Unmarshal_total data m :
  (Unmarshal data m).2 <> Panic /\ (Unmarshal data m).2 <> Err ErrFuel.
Proof.
  exact (unmarshal_total field data m (fun h => m <| Header := h |>) STA_field_total).
Qed.

End SessionTerminationAnswer.

Module AbortSessionRequest.

Record t := mk {
  Header : DiameterHeader;
  SessionId : bytes;
  OriginHost : bytes;
  OriginRealm : bytes;
  DestinationRealm : bytes;
  DestinationHost : bytes;
  AuthApplicationId : Z;
  UserName : option bytes;
  OriginStateId : option Z;
  ProxyInfo : list (option ProxyInfo.t);
  RouteRecord : list bytes;
  Avp : list bytes }.

(** The zero value with a given header: [&X{}] once its header is set. *)
Definition start (h : DiameterHeader) : t :=
  mk h [] [] [] [] [] 0 None None [] [] [].

Definition zero : t := start zero_header.

Definition New : t := start (new_header 274 0 true true).

Definition Validate (m : t) : option marshal_error :=
  if len (SessionId m) =? 0 then Some (ErrRequiredEmpty (gostr "Session-Id")) else
  if len (OriginHost m) =? 0 then Some (ErrRequiredEmpty (gostr "Origin-Host")) else
  if len (OriginRealm m) =? 0 then Some (ErrRequiredEmpty (gostr "Origin-Realm")) else
  if len (DestinationRealm m) =? 0 then Some (ErrRequiredEmpty (gostr "Destination-Realm")) else
  if len (DestinationHost m) =? 0 then Some (ErrRequiredEmpty (gostr "Destination-Host")) else
  None.

Definition body (m : t) : bytes :=
  marshalAVP AVPCodeSESSIONID (VUTF8String (SessionId m)) true false ++
  marshalAVP AVPCodeORIGINHOST (VDiameterIdentity (OriginHost m)) true false ++
  marshalAVP AVPCodeORIGINREALM (VDiameterIdentity (OriginRealm m)) true false ++
  marshalAVP AVPCodeDESTINATIONREALM (VDiameterIdentity (DestinationRealm m)) true false ++
  marshalAVP AVPCodeDESTINATIONHOST (VDiameterIdentity (DestinationHost m)) true false ++
  marshalAVP AVPCodeAUTHAPPLICATIONID (VUnsigned32 (AuthApplicationId m)) true false ++
  write_opt (UserName m) (fun x =>
    marshalAVP AVPCodeUSERNAME (VUTF8String x) true true) ++
  write_opt (OriginStateId m) (fun x =>
    marshalAVP AVPCodeORIGINSTATEID (VUnsigned32 x) false false) ++
  write_all (ProxyInfo m) (fun p => write_opt p (fun x =>
    marshalAVP AVPCodePROXYINFO (VGrouped (ProxyInfo.Marshal x)) true false)) ++
  write_all (RouteRecord m) (fun x =>
    marshalAVP AVPCodeROUTERECORD (VDiameterIdentity x) true false).

Definition Marshal (m : t) : t * outcome marshal_error bytes :=
  match Validate m with
  | Some e => (m, Err e)
  | None =>
      let m := m <| Header := (Header m) <| Length := to_u32 (20 + len (body m)) |> |> in
      (m, Ok (marshalHeader (Header m) ++ body m))
  end.

Definition field (avpCode vendorID : Z) (avpValue : bytes) (m : t) : outcome parse_error t :=
  if avpCode =? AVPCodeSESSIONID then
    assign (DecodeUTF8String avpValue) as_UTF8String
      (fun x => m <| SessionId := x |>) m
  else
  if avpCode =? AVPCodeORIGINHOST then
    assign (DecodeDiameterIdentity avpValue) as_DiameterIdentity
      (fun x => m <| OriginHost := x |>) m
  else
  if avpCode =? AVPCodeORIGINREALM then
    assign (DecodeDiameterIdentity avpValue) as_DiameterIdentity
      (fun x => m <| OriginRealm := x |>) m
  else
  if avpCode =? AVPCodeDESTINATIONREALM then
    assign (DecodeDiameterIdentity avpValue) as_DiameterIdentity
      (fun x => m <| DestinationRealm := x |>) m
  else
  if avpCode =? AVPCodeDESTINATIONHOST then
    assign (DecodeDiameterIdentity avpValue) as_DiameterIdentity
      (fun x => m <| DestinationHost := x |>) m
  else
  if avpCode =? AVPCodeAUTHAPPLICATIONID then
    assign (DecodeUnsigned32 avpValue) as_Unsigned32
      (fun x => m <| AuthApplicationId := x |>) m
  else
  if avpCode =? AVPCodeUSERNAME then
    assign (DecodeUTF8String avpValue) as_UTF8String
      (fun x => m <| UserName := Some x |>) m
  else
  if avpCode =? AVPCodeORIGINSTATEID then
    assign (DecodeUnsigned32 avpValue) as_Unsigned32
      (fun x => m <| OriginStateId := Some x |>) m
  else
  if avpCode =? AVPCodePROXYINFO then
    assign_group (ProxyInfo.Unmarshal avpValue ProxyInfo.zero)
      (fun grouped => m <| ProxyInfo := ProxyInfo m ++ [Some grouped] |>) m
  else
  if avpCode =? AVPCodeROUTERECORD then
    assign (DecodeDiameterIdentity avpValue) as_DiameterIdentity
      (fun x => m <| RouteRecord := RouteRecord m ++ [x] |>) m
  else
  Ok m.

Definition Unmarshal (data : bytes) (m : t) : t * outcome parse_error unit :=
  if len data <? 20 then (m, Err ErrHeaderTooShort)
  else match read_header data with
       | Ok header => scan_from field data 20 (m <| Header := header |>)
       | Err e => (m, Err e)
       | Panic => (m, Panic)
       end.

Definition Len (m : t) : Z := match (Marshal m).2 with Ok data => len data | _ => 0 end.

Definition avps (m : t) : list avp :=
  [av AVPCodeSESSIONID (VUTF8String (SessionId m)) true false 0] ++
  [av AVPCodeORIGINHOST (VDiameterIdentity (OriginHost m)) true false 0] ++
  [av AVPCodeORIGINREALM (VDiameterIdentity (OriginRealm m)) true false 0] ++
  [av AVPCodeDESTINATIONREALM (VDiameterIdentity (DestinationRealm m)) true false 0] ++
  [av AVPCodeDESTINATIONHOST (VDiameterIdentity (DestinationHost m)) true false 0] ++
  [av AVPCodeAUTHAPPLICATIONID (VUnsigned32 (AuthApplicationId m)) true false 0] ++
  opt_avp (fun x => av AVPCodeUSERNAME (VUTF8String x) true true 0) (UserName m) ++
  opt_avp (fun x => av AVPCodeORIGINSTATEID (VUnsigned32 x) false false 0) (OriginStateId m) ++
  flat_map (opt_avp (fun x => av AVPCodePROXYINFO (VGrouped (ProxyInfo.Marshal x)) true false 0)) (ProxyInfo m) ++
  map (fun x => av AVPCodeROUTERECORD (VDiameterIdentity x) true false 0) (RouteRecord m).

Definition wf (m : t) : Prop :=
  fits (SessionId m) /\
  fits (OriginHost m) /\
  fits (OriginRealm m) /\
  fits (DestinationRealm m) /\
  fits (DestinationHost m) /\
  u32 (AuthApplicationId m) /\
  from_option fits True (UserName m) /\
  from_option u32 True (OriginStateId m) /\
  Forall (some_and (fits_group ProxyInfo.wf ProxyInfo.Marshal)) (ProxyInfo m) /\
  Forall fits (RouteRecord m) /\
  Avp m = [].

Lemma ASR_body_avps m : body m = concat (map marshal (avps m)).
Proof. unfold avps. solve_body. Qed.

Lemma ASR_avps_wf m : wf m -> Forall wf_avp (avps m).
Proof. unfold wf, avps. solve_avps_wf. Qed.

(** Computes the fields of explicit records. *)
Ltac fields := cbv beta iota delta [set_field start Header SessionId OriginHost OriginRealm DestinationRealm DestinationHost AuthApplicationId UserName OriginStateId ProxyInfo RouteRecord Avp].

Lemma ASR_fold_avps m :
  wf m -> fold_fields field (map avp_seen (avps m)) (start (Header m)) = (m, Ok tt).
Proof.
  destruct m. unfold wf; fields. intros H. destruct_and? H.
  rewrite <- (app_nil_r (avps _)). unfold avps. rewrite <- ?app_assoc. fields.
  erewrite fold_req by solve_field. fields.
  erewrite fold_req by solve_field. fields.
  erewrite fold_req by solve_field. fields.
  erewrite fold_req by solve_field. fields.
  erewrite fold_req by solve_field. fields.
  erewrite fold_req by solve_field. fields.
  erewrite (fold_opt field (fun x m => m <| UserName := x |>)) by solve_field. fields.
  erewrite (fold_opt field (fun x m => m <| OriginStateId := x |>)) by solve_field. fields.
  erewrite (fold_rep_opt field ProxyInfo (fun x m => m <| ProxyInfo := x |>)) by solve_field. fields.
  erewrite (fold_rep field RouteRecord (fun x m => m <| RouteRecord := x |>)) by solve_field. fields.
  by subst.
Qed.

#[global] Instance wire : WireMessage t := {|
  wire_start m := (start (Header m)); wire_wf := wf; wire_avps := avps; wire_field := field;
  wire_wf_avps := ASR_avps_wf; wire_fold := ASR_fold_avps |}.

#[global] Program Instance command : WireCommand t := {|
  cmd_header := Header; cmd_with_header := fun h m => m <| Header := h |>; cmd_zero := zero;
  cmd_validate := Validate; cmd_body := body; cmd_marshal := Marshal;
  cmd_unmarshal := Unmarshal; cmd_body_eq := ASR_body_avps |}.
Solve Obligations with reflexivity.

Lemma ASR_roundtrip : roundtrip_spec wf Header body Validate Marshal Unmarshal zero.
Proof. exact (@command_roundtrip t wire command). Qed.

Lemma ASR_field_total c w v m : exists m', field c w v m = Ok m'.
Proof. unfold field. solve_total. Qed.

Lemma ASR_Unmarshal_total data m :
  (Unmarshal data m).2 <> Panic /\ (Unmarshal data m).2 <> Err ErrFuel.
Proof.
  exact (unmarshal_total field data m (fun h => m <| Header := h |>) ASR_field_total).
Qed.

End AbortSessionRequest.

Module AbortSessionAnswer.

Record t := mk {
  Header : DiameterHeader;
  SessionId : bytes;
  ResultCode : Z;
  OriginHost : bytes;
  OriginRealm : bytes;
  UserName : option bytes;
  OriginStateId : option Z;
  ErrorMessage : option bytes;
  ErrorReportingHost : option bytes;
  FailedAvp : option FailedAVP.t;
  RedirectHost : list bytes;
  RedirectHostUsage : option Z;
  RedirectMaxCacheTime : option Z;
  ProxyInfo : list (option ProxyInfo.t);
  Avp : list bytes }.

(** The zero value with a given header: [&X{}] once its header is set. *)
Definition start (h : DiameterHeader) : t :=
  mk h [] 0 [] [] None None None None None [] None None [] [].

Definition zero : t := start zero_header.

Definition New : t := start (new_header 274 0 false true).

Definition Validate (m : t) : option marshal_error :=
  if len (SessionId m) =? 0 then Some (ErrRequiredEmpty (gostr "Session-Id")) else
  if len (OriginHost m) =? 0 then Some (ErrRequiredEmpty (gostr "Origin-Host")) else
  if len (OriginRealm m) =? 0 then Some (ErrRequiredEmpty (gostr "Origin-Realm")) else
  None.

Definition body (m : t) : bytes :=
  marshalAVP AVPCodeSESSIONID (VUTF8String (SessionId m)) true false ++
  marshalAVP AVPCodeRESULTCODE (VUnsigned32 (ResultCode m)) true false ++
  marshalAVP AVPCodeORIGINHOST (VDiameterIdentity (OriginHost m)) true false ++
  marshalAVP AVPCodeORIGINREALM (VDiameterIdentity (OriginRealm m)) true false ++
  write_opt (UserName m) (fun x =>
    marshalAVP AVPCodeUSERNAME (VUTF8String x) true true) ++
  write_opt (OriginStateId m) (fun x =>
    marshalAVP AVPCodeORIGINSTATEID (VUnsigned32 x) false false) ++
  write_opt (ErrorMessage m) (fun x =>
    marshalAVP AVPCodeERRORMESSAGE (VUTF8String x) false false) ++
  write_opt (ErrorReportingHost m) (fun x =>
    marshalAVP AVPCodeERRORREPORTINGHOST (VDiameterIdentity x) false false) ++
  write_opt (FailedAvp m) (fun x =>
    marshalAVP AVPCodeFAILEDAVP (VGrouped (FailedAVP.Marshal x)) true false) ++
  write_all (RedirectHost m) (fun x =>
    marshalAVP AVPCodeREDIRECTHOST (VDiameterURI x) true false) ++
  write_opt (RedirectHostUsage m) (fun x =>
    marshalAVP AVPCodeREDIRECTHOSTUSAGE (VEnumerated x) true false) ++
  write_opt (RedirectMaxCacheTime m) (fun x =>
    marshalAVP AVPCodeREDIRECTMAXCACHETIME (VUnsigned32 x) true false) ++
  write_all (ProxyInfo m) (fun p => write_opt p (fun x =>
    marshalAVP AVPCodePROXYINFO (VGrouped (ProxyInfo.Marshal x)) true false)).

Definition Marshal (m : t) : t * outcome marshal_error bytes :=
  match Validate m with
  | Some e => (m, Err e)
  | None =>
      let m := m <| Header := (Header m) <| Length := to_u32 (20 + len (body m)) |> |> in
      (m, Ok (marshalHeader (Header m) ++ body m))
  end.

Definition field (avpCode vendorID : Z) (avpValue : bytes) (m : t) : outcome parse_error t :=
  if avpCode =? AVPCodeSESSIONID then
    assign (DecodeUTF8String avpValue) as_UTF8String
      (fun x => m <| SessionId := x |>) m
  else
  if avpCode =? AVPCodeRESULTCODE then
    assign (DecodeUnsigned32 avpValue) as_Unsigned32
      (fun x => m <| ResultCode := x |>) m
  else
  if avpCode =? AVPCodeORIGINHOST then
    assign (DecodeDiameterIdentity avpValue) as_DiameterIdentity
      (fun x => m <| OriginHost := x |>) m
  else
  if avpCode =? AVPCodeORIGINREALM then
    assign (DecodeDiameterIdentity avpValue) as_DiameterIdentity
      (fun x => m <| OriginRealm := x |>) m
  else
  if avpCode =? AVPCodeUSERNAME then
    assign (DecodeUTF8String avpValue) as_UTF8String
      (fun x => m <| UserName := Some x |>) m
  else
  if avpCode =? AVPCodeORIGINSTATEID then
    assign (DecodeUnsigned32 avpValue) as_Unsigned32
      (fun x => m <| OriginStateId := Some x |>) m
  else
  if avpCode =? AVPCodeERRORMESSAGE then
    assign (DecodeUTF8String avpValue) as_UTF8String
      (fun x => m <| ErrorMessage := Some x |>) m
  else
  if avpCode =? AVPCodeERRORREPORTINGHOST then
    assign (DecodeDiameterIdentity avpValue) as_DiameterIdentity
      (fun x => m <| ErrorReportingHost := Some x |>) m
  else
  if avpCode =? AVPCodeFAILEDAVP then
    assign_group (FailedAVP.Unmarshal avpValue FailedAVP.zero)
      (fun grouped => m <| FailedAvp := Some grouped |>) m
  else
  if avpCode =? AVPCodeREDIRECTHOST then
    assign (DecodeDiameterURI avpValue) as_DiameterURI
      (fun x => m <| RedirectHost := RedirectHost m ++ [x] |>) m
  else
  if avpCode =? AVPCodeREDIRECTHOSTUSAGE then
    assign (DecodeEnumerated avpValue) as_Enumerated
      (fun x => m <| RedirectHostUsage := Some x |>) m
  else
  if avpCode =? AVPCodeREDIRECTMAXCACHETIME then
    assign (DecodeUnsigned32 avpValue) as_Unsigned32
      (fun x => m <| RedirectMaxCacheTime := Some x |>) m
  else
  if avpCode =? AVPCodePROXYINFO then
    assign_group (ProxyInfo.Unmarshal avpValue ProxyInfo.zero)
      (fun grouped => m <| ProxyInfo := ProxyInfo m ++ [Some grouped] |>) m
  else
  Ok m.

Definition Unmarshal (data : bytes) (m : t) : t * outcome parse_error unit :=
  if len data <? 20 then (m, Err ErrHeaderTooShort)
  else match read_header data with
       | Ok header => scan_from field data 20 (m <| Header := header |>)
       | Err e => (m, Err e)
       | Panic => (m, Panic)
       end.

Definition Len (m : t) : Z := match (Marshal m).2 with Ok data => len data | _ => 0 end.

Definition avps (m : t) : list avp :=
  [av AVPCodeSESSIONID (VUTF8String (SessionId m)) true false 0] ++
  [av AVPCodeRESULTCODE (VUnsigned32 (ResultCode m)) true false 0] ++
  [av AVPCodeORIGINHOST (VDiameterIdentity (OriginHost m)) true false 0] ++
  [av AVPCodeORIGINREALM (VDiameterIdentity (OriginRealm m)) true false 0] ++
  opt_avp (fun x => av AVPCodeUSERNAME (VUTF8String x) true true 0) (UserName m) ++
  opt_avp (fun x => av AVPCodeORIGINSTATEID (VUnsigned32 x) false false 0) (OriginStateId m) ++
  opt_avp (fun x => av AVPCodeERRORMESSAGE (VUTF8String x) false false 0) (ErrorMessage m) ++
  opt_avp (fun x => av AVPCodeERRORREPORTINGHOST (VDiameterIdentity x) false false 0) (ErrorReportingHost m) ++
  opt_avp (fun x => av AVPCodeFAILEDAVP (VGrouped (FailedAVP.Marshal x)) true false 0) (FailedAvp m) ++
  map (fun x => av AVPCodeREDIRECTHOST (VDiameterURI x) true false 0) (RedirectHost m) ++
  opt_avp (fun x => av AVPCodeREDIRECTHOSTUSAGE (VEnumerated x) true false 0) (RedirectHostUsage m) ++
  opt_avp (fun x => av AVPCodeREDIRECTMAXCACHETIME (VUnsigned32 x) true false 0) (RedirectMaxCacheTime m) ++
  flat_map (opt_avp (fun x => av AVPCodePROXYINFO (VGrouped (ProxyInfo.Marshal x)) true false 0)) (ProxyInfo m).

Definition wf (m : t) : Prop :=
  fits (SessionId m) /\
  u32 (ResultCode m) /\
  fits (OriginHost m) /\
  fits (OriginRealm m) /\
  from_option fits True (UserName m) /\
  from_option u32 True (OriginStateId m) /\
  from_option fits True (ErrorMessage m) /\
  from_option fits True (ErrorReportingHost m) /\
  from_option (fits_group FailedAVP.wf FailedAVP.Marshal) True (FailedAvp m) /\
  Forall fits (RedirectHost m) /\
  from_option i32 True (RedirectHostUsage m) /\
  from_option u32 True (RedirectMaxCacheTime m) /\
  Forall (some_and (fits_group ProxyInfo.wf ProxyInfo.Marshal)) (ProxyInfo m) /\
  Avp m = [].

Lemma ASA_body_avps m : body m = concat (map marshal (avps m)).
Proof. unfold avps. solve_body. Qed.

Lemma ASA_avps_wf m : wf m -> Forall wf_avp (avps m).
Proof. unfold wf, avps. solve_avps_wf. Qed.

(** Computes the fields of explicit records. *)
Ltac fields := cbv beta iota delta [set_field start Header SessionId ResultCode OriginHost OriginRealm UserName OriginStateId ErrorMessage ErrorReportingHost FailedAvp RedirectHost RedirectHostUsage RedirectMaxCacheTime ProxyInfo Avp].

Lemma ASA_fold_avps m :
  wf m -> fold_fields field (map avp_seen (avps m)) (start (Header m)) = (m, Ok tt).
Proof.
  destruct m. unfold wf; fields. intros H. destruct_and? H.
  rewrite <- (app_nil_r (avps _)). unfold avps. rewrite <- ?app_assoc. fields.
  erewrite fold_req by solve_field. fields.
  erewrite fold_req by solve_field. fields.
  erewrite fold_req by solve_field. fields.
  erewrite fold_req by solve_field. fields.
  erewrite (fold_opt field (fun x m => m <| UserName := x |>)) by solve_field. fields.
  erewrite (fold_opt field (fun x m => m <| OriginStateId := x |>)) by solve_field. fields.
  erewrite (fold_opt field (fun x m => m <| ErrorMessage := x |>)) by solve_field. fields.
  erewrite (fold_opt field (fun x m => m <| ErrorReportingHost := x |>)) by solve_field. fields.
  erewrite (fold_opt field (fun x m => m <| FailedAvp := x |>)) by solve_field. fields.
  erewrite (fold_rep field RedirectHost (fun x m => m <| RedirectHost := x |>)) by solve_field. fields.
  erewrite (fold_opt field (fun x m => m <| RedirectHostUsage := x |>)) by solve_field. fields.
  erewrite (fold_opt field (fun x m => m <| RedirectMaxCacheTime := x |>)) by solve_field. fields.
  erewrite (fold_rep_opt field ProxyInfo (fun x m => m <| ProxyInfo := x |>)) by solve_field. fields.
  by subst.
Qed.

#[global] Instance wire : WireMessage t := {|
  wire_start m := (start (Header m)); wire_wf := wf; wire_avps := avps; wire_field := field;
  wire_wf_avps := ASA_avps_wf; wire_fold := ASA_fold_avps |}.

#[global] Program Instance command : WireCommand t := {|
  cmd_header := Header; cmd_with_header := fun h m => m <| Header := h |>; cmd_zero := zero;
  cmd_validate := Validate; cmd_body := body; cmd_marshal := Marshal;
  cmd_unmarshal := Unmarshal; cmd_body_eq := ASA_body_avps |}.
Solve Obligations with reflexivity.

Lemma ASA_roundtrip : roundtrip_spec wf Header body Validate Marshal Unmarshal zero.
Proof. exact (@command_roundtrip t wire command). Qed.

Lemma ASA_field_total c w v m : exists m', field c w v m = Ok m'.
Proof. unfold field. solve_total. Qed.

Lemma ASA_Unmarshal_total data m :
  (Unmarshal data m).2 <> Panic /\ (Unmarshal data m).2 <> Err ErrFuel.
Proof.
  exact (unmarshal_total field data m (fun h => m <| Header := h |>) ASA_field_total).
Qed.

End AbortSessionAnswer.

Module AccountingRequest.

Record t := mk {
  Header : DiameterHeader;
  SessionId : bytes;
  OriginHost : bytes;
  OriginRealm : bytes;
  DestinationRealm : bytes;
  AccountingRecordType : Z;
  AccountingRecordNumber : Z;
  AcctApplicationId : option Z;
  VendorSpecificApplicationId : option VendorSpecificApplicationId.t;
  UserName : option bytes;
  DestinationHost : option bytes;
  AccountingSubSessionId : option Z;
  AcctSessionId : option bytes;
  AcctMultiSessionId : option bytes;
  AcctInterimInterval : option Z;
  AccountingRealtimeRequired : option Z;
  OriginStateId : option Z;
  EventTimestamp : option Z;
  ProxyInfo : list (option ProxyInfo.t);
  RouteRecord : list bytes;
  Avp : list bytes }.

(** The zero value with a given header: [&X{}] once its header is set. *)
Definition start (h : DiameterHeader) : t :=
  mk h [] [] [] [] 0 0 None None None None None None None None None None None [] [] [].

Definition zero : t := start zero_header.

Definition New : t := start (new_header 271 3 true true).

Definition Validate (m : t) : option marshal_error :=
  if len (SessionId m) =? 0 then Some (ErrRequiredEmpty (gostr "Session-Id")) else
  if len (OriginHost m) =? 0 then Some (ErrRequiredEmpty (gostr "Origin-Host")) else
  if len (OriginRealm m) =? 0 then Some (ErrRequiredEmpty (gostr "Origin-Realm")) else
  if len (DestinationRealm m) =? 0 then Some (ErrRequiredEmpty (gostr "Destination-Realm")) else
  None.

Definition body (m : t) : bytes :=
  marshalAVP AVPCodeSESSIONID (VUTF8String (SessionId m)) true false ++
  marshalAVP AVPCodeORIGINHOST (VDiameterIdentity (OriginHost m)) true false ++
  marshalAVP AVPCodeORIGINREALM (VDiameterIdentity (OriginRealm m)) true false ++
  marshalAVP AVPCodeDESTINATIONREALM (VDiameterIdentity (DestinationRealm m)) true false ++
  marshalAVP AVPCodeACCOUNTINGRECORDTYPE (VEnumerated (AccountingRecordType m)) true false ++
  marshalAVP AVPCodeACCOUNTINGRECORDNUMBER (VUnsigned32 (AccountingRecordNumber m)) true false ++
  write_opt (AcctApplicationId m) (fun x =>
    marshalAVP AVPCodeACCTAPPLICATIONID (VUnsigned32 x) true false) ++
  write_opt (VendorSpecificApplicationId m) (fun x =>
    marshalAVP AVPCodeVENDORSPECIFICAPPLICATIONID (VGrouped (VendorSpecificApplicationId.Marshal x)) true false) ++
  write_opt (UserName m) (fun x =>
    marshalAVP AVPCodeUSERNAME (VUTF8String x) true true) ++
  write_opt (DestinationHost m) (fun x =>
    marshalAVP AVPCodeDESTINATIONHOST (VDiameterIdentity x) true false) ++
  write_opt (AccountingSubSessionId m) (fun x =>
    marshalAVP AVPCodeACCOUNTINGSUBSESSIONID (VUnsigned64 x) true false) ++
  write_opt (AcctSessionId m) (fun x =>
    marshalAVP AVPCodeACCTSESSIONID (VOctetString x) true false) ++
  write_opt (AcctMultiSessionId m) (fun x =>
    marshalAVP AVPCodeACCTMULTISESSIONID (VUTF8String x) true false) ++
  write_opt (AcctInterimInterval m) (fun x =>
    marshalAVP AVPCodeACCTINTERIMINTERVAL (VUnsigned32 x) true false) ++
  write_opt (AccountingRealtimeRequired m) (fun x =>
    marshalAVP AVPCodeACCOUNTINGREALTIMEREQUIRED (VEnumerated x) true false) ++
  write_opt (OriginStateId m) (fun x =>
    marshalAVP AVPCodeORIGINSTATEID (VUnsigned32 x) false false) ++
  write_opt (EventTimestamp m) (fun x =>
    marshalAVP AVPCodeEVENTTIMESTAMP (VTime x) true false) ++
  write_all (ProxyInfo m) (fun p => write_opt p (fun x =>
    marshalAVP AVPCodePROXYINFO (VGrouped (ProxyInfo.Marshal x)) true false)) ++
  write_all (RouteRecord m) (fun x =>
    marshalAVP AVPCodeROUTERECORD (VDiameterIdentity x) true false).

Definition Marshal (m : t) : t * outcome marshal_error bytes :=
  match Validate m with
  | Some e => (m, Err e)
  | None =>
      let m := m <| Header := (Header m) <| Length := to_u32 (20 + len (body m)) |> |> in
      (m, Ok (marshalHeader (Header m) ++ body m))
  end.

Definition field (avpCode vendorID : Z) (avpValue : bytes) (m : t) : outcome parse_error t :=
  if avpCode =? AVPCodeSESSIONID then
    assign (DecodeUTF8String avpValue) as_UTF8String
      (fun x => m <| SessionId := x |>) m
  else
  if avpCode =? AVPCodeORIGINHOST then
    assign (DecodeDiameterIdentity avpValue) as_DiameterIdentity
      (fun x => m <| OriginHost := x |>) m
  else
  if avpCode =? AVPCodeORIGINREALM then
    assign (DecodeDiameterIdentity avpValue) as_DiameterIdentity
      (fun x => m <| OriginRealm := x |>) m
  else
  if avpCode =? AVPCodeDESTINATIONREALM then
    assign (DecodeDiameterIdentity avpValue) as_DiameterIdentity
      (fun x => m <| DestinationRealm := x |>) m
  else
  if avpCode =? AVPCodeACCOUNTINGRECORDTYPE then
    assign (DecodeEnumerated avpValue) as_Enumerated
      (fun x => m <| AccountingRecordType := x |>) m
  else
  if avpCode =? AVPCodeACCOUNTINGRECORDNUMBER then
    assign (DecodeUnsigned32 avpValue) as_Unsigned32
      (fun x => m <| AccountingRecordNumber := x |>) m
  else
  if avpCode =? AVPCodeACCTAPPLICATIONID then
    assign (DecodeUnsigned32 avpValue) as_Unsigned32
      (fun x => m <| AcctApplicationId := Some x |>) m
  else
  if avpCode =? AVPCodeVENDORSPECIFICAPPLICATIONID then
    assign_group (VendorSpecificApplicationId.Unmarshal avpValue VendorSpecificApplicationId.zero)
      (fun grouped => m <| VendorSpecificApplicationId := Some grouped |>) m
  else
  if avpCode =? AVPCodeUSERNAME then
    assign (DecodeUTF8String avpValue) as_UTF8String
      (fun x => m <| UserName := Some x |>) m
  else
  if avpCode =? AVPCodeDESTINATIONHOST then
    assign (DecodeDiameterIdentity avpValue) as_DiameterIdentity
      (fun x => m <| DestinationHost := Some x |>) m
  else
  if avpCode =? AVPCodeACCOUNTINGSUBSESSIONID then
    assign (DecodeUnsigned64 avpValue) as_Unsigned64
      (fun x => m <| AccountingSubSessionId := Some x |>) m
  else
  if avpCode =? AVPCodeACCTSESSIONID then
    assign (DecodeOctetString avpValue) as_OctetString
      (fun x => m <| AcctSessionId := Some x |>) m
  else
  if avpCode =? AVPCodeACCTMULTISESSIONID then
    assign (DecodeUTF8String avpValue) as_UTF8String
      (fun x => m <| AcctMultiSessionId := Some x |>) m
  else
  if avpCode =? AVPCodeACCTINTERIMINTERVAL then
    assign (DecodeUnsigned32 avpValue) as_Unsigned32
      (fun x => m <| AcctInterimInterval := Some x |>) m
  else
  if avpCode =? AVPCodeACCOUNTINGREALTIMEREQUIRED then
    assign (DecodeEnumerated avpValue) as_Enumerated
      (fun x => m <| AccountingRealtimeRequired := Some x |>) m
  else
  if avpCode =? AVPCodeORIGINSTATEID then
    assign (DecodeUnsigned32 avpValue) as_Unsigned32
      (fun x => m <| OriginStateId := Some x |>) m
  else
  if avpCode =? AVPCodeEVENTTIMESTAMP then
    assign (DecodeTime avpValue) as_Time
      (fun x => m <| EventTimestamp := Some x |>) m
  else
  if avpCode =? AVPCodePROXYINFO then
    assign_group (ProxyInfo.Unmarshal avpValue ProxyInfo.zero)
      (fun grouped => m <| ProxyInfo := ProxyInfo m ++ [Some grouped] |>) m
  else
  if avpCode =? AVPCodeROUTERECORD then
    assign (DecodeDiameterIdentity avpValue) as_DiameterIdentity
      (fun x => m <| RouteRecord := RouteRecord m ++ [x] |>) m
  else
  Ok m.

Definition Unmarshal (data : bytes) (m : t) : t * outcome parse_error unit :=
  if len data <? 20 then (m, Err ErrHeaderTooShort)
  else match read_header data with
       | Ok header => scan_from field data 20 (m <| Header := header |>)
       | Err e => (m, Err e)
       | Panic => (m, Panic)
       end.

Definition Len (m : t) : Z := match (Marshal m).2 with Ok data => len data | _ => 0 end.

Definition avps (m : t) : list avp :=
  [av AVPCodeSESSIONID (VUTF8String (SessionId m)) true false 0] ++
  [av AVPCodeORIGINHOST (VDiameterIdentity (OriginHost m)) true false 0] ++
  [av AVPCodeORIGINREALM (VDiameterIdentity (OriginRealm m)) true false 0] ++
  [av AVPCodeDESTINATIONREALM (VDiameterIdentity (DestinationRealm m)) true false 0] ++
  [av AVPCodeACCOUNTINGRECORDTYPE (VEnumerated (AccountingRecordType m)) true false 0] ++
  [av AVPCodeACCOUNTINGRECORDNUMBER (VUnsigned32 (AccountingRecordNumber m)) true false 0] ++
  opt_avp (fun x => av AVPCodeACCTAPPLICATIONID (VUnsigned32 x) true false 0) (AcctApplicationId m) ++
  opt_avp (fun x => av AVPCodeVENDORSPECIFICAPPLICATIONID (VGrouped (VendorSpecificApplicationId.Marshal x)) true false 0) (VendorSpecificApplicationId m) ++
  opt_avp (fun x => av AVPCodeUSERNAME (VUTF8String x) true true 0) (UserName m) ++
  opt_avp (fun x => av AVPCodeDESTINATIONHOST (VDiameterIdentity x) true false 0) (DestinationHost m) ++
  opt_avp (fun x => av AVPCodeACCOUNTINGSUBSESSIONID (VUnsigned64 x) true false 0) (AccountingSubSessionId m) ++
  opt_avp (fun x => av AVPCodeACCTSESSIONID (VOctetString x) true false 0) (AcctSessionId m) ++
  opt_avp (fun x => av AVPCodeACCTMULTISESSIONID (VUTF8String x) true false 0) (AcctMultiSessionId m) ++
  opt_avp (fun x => av AVPCodeACCTINTERIMINTERVAL (VUnsigned32 x) true false 0) (AcctInterimInterval m) ++
  opt_avp (fun x => av AVPCodeACCOUNTINGREALTIMEREQUIRED (VEnumerated x) true false 0) (AccountingRealtimeRequired m) ++
  opt_avp (fun x => av AVPCodeORIGINSTATEID (VUnsigned32 x) false false 0) (OriginStateId m) ++
  opt_avp (fun x => av AVPCodeEVENTTIMESTAMP (VTime x) true false 0) (EventTimestamp m) ++
  flat_map (opt_avp (fun x => av AVPCodePROXYINFO (VGrouped (ProxyInfo.Marshal x)) true false 0)) (ProxyInfo m) ++
  map (fun x => av AVPCodeROUTERECORD (VDiameterIdentity x) true false 0) (RouteRecord m).

Definition wf (m : t) : Prop :=
  fits (SessionId m) /\
  fits (OriginHost m) /\
  fits (OriginRealm m) /\
  fits (DestinationRealm m) /\
  i32 (AccountingRecordType m) /\
  u32 (AccountingRecordNumber m) /\
  from_option u32 True (AcctApplicationId m) /\
  from_option (fits_group VendorSpecificApplicationId.wf VendorSpecificApplicationId.Marshal) True (VendorSpecificApplicationId m) /\
  from_option fits True (UserName m) /\
  from_option fits True (DestinationHost m) /\
  from_option u64 True (AccountingSubSessionId m) /\
  from_option fits True (AcctSessionId m) /\
  from_option fits True (AcctMultiSessionId m) /\
  from_option u32 True (AcctInterimInterval m) /\
  from_option i32 True (AccountingRealtimeRequired m) /\
  from_option u32 True (OriginStateId m) /\
  from_option time_window True (EventTimestamp m) /\
  Forall (some_and (fits_group ProxyInfo.wf ProxyInfo.Marshal)) (ProxyInfo m) /\
  Forall fits (RouteRecord m) /\
  Avp m = [].

Lemma ACR_body_avps m : body m = concat (map marshal (avps m)).
Proof. unfold avps. solve_body. Qed.

Lemma ACR_avps_wf m : wf m -> Forall wf_avp (avps m).
Proof. unfold wf, avps. solve_avps_wf. Qed.

(** Computes the fields of explicit records. *)
Ltac fields := cbv beta iota delta [set_field start Header SessionId OriginHost OriginRealm DestinationRealm AccountingRecordType AccountingRecordNumber AcctApplicationId VendorSpecificApplicationId UserName DestinationHost AccountingSubSessionId AcctSessionId AcctMultiSessionId AcctInterimInterval AccountingRealtimeRequired OriginStateId EventTimestamp ProxyInfo RouteRecord Avp].

Lemma ACR_fold_avps m :
  wf m -> fold_fields field (map avp_seen (avps m)) (start (Header m)) = (m, Ok tt).
Proof.
  destruct m. unfold wf; fields. intros H. destruct_and? H.
  rewrite <- (app_nil_r (avps _)). unfold avps. rewrite <- ?app_assoc. fields.
  erewrite fold_req by solve_field. fields.
  erewrite fold_req by solve_field. fields.
  erewrite fold_req by solve_field. fields.
  erewrite fold_req by solve_field. fields.
  erewrite fold_req by solve_field. fields.
  erewrite fold_req by solve_field. fields.
  erewrite (fold_opt field (fun x m => m <| AcctApplicationId := x |>)) by solve_field. fields.
  erewrite (fold_opt field (fun x m => m <| VendorSpecificApplicationId := x |>)) by solve_field. fields.
  erewrite (fold_opt field (fun x m => m <| UserName := x |>)) by solve_field. fields.
  erewrite (fold_opt field (fun x m => m <| DestinationHost := x |>)) by solve_field. fields.
  erewrite (fold_opt field (fun x m => m <| AccountingSubSessionId := x |>)) by solve_field. fields.
  erewrite (fold_opt field (fun x m => m <| AcctSessionId := x |>)) by solve_field. fields.
  erewrite (fold_opt field (fun x m => m <| AcctMultiSessionId := x |>)) by solve_field. fields.
  erewrite (fold_opt field (fun x m => m <| AcctInterimInterval := x |>)) by solve_field. fields.
  erewrite (fold_opt field (fun x m => m <| AccountingRealtimeRequired := x |>)) by solve_field. fields.
  erewrite (fold_opt field (fun x m => m <| OriginStateId := x |>)) by solve_field. fields.
  erewrite (fold_opt field (fun x m => m <| EventTimestamp := x |>)) by solve_field. fields.
  erewrite (fold_rep_opt field ProxyInfo (fun x m => m <| ProxyInfo := x |>)) by solve_field. fields.
  erewrite (fold_rep field RouteRecord (fun x m => m <| RouteRecord := x |>)) by solve_field. fields.
  by subst.
Qed.

#[global] Instance wire : WireMessage t := {|
  wire_start m := (start (Header m)); wire_wf := wf; wire_avps := avps; wire_field := field;
  wire_wf_avps := ACR_avps_wf; wire_fold := ACR_fold_avps |}.

#[global] Program Instance command : WireCommand t := {|
  cmd_header := Header; cmd_with_header := fun h m => m <| Header := h |>; cmd_zero := zero;
  cmd_validate := Validate; cmd_body := body; cmd_marshal := Marshal;
  cmd_unmarshal := Unmarshal; cmd_body_eq := ACR_body_avps |}.
Solve Obligations with reflexivity.

Lemma ACR_roundtrip : roundtrip_spec wf Header body Validate Marshal Unmarshal zero.
Proof. exact (@command_roundtrip t wire command). Qed.

(** The one case that can panic is that of the [Time]. *)
Lemma ACR_field_cases c w v m :
  (c = AVPCodeEVENTTIMESTAMP -> len v = 4) -> exists m', field c w v m = Ok m'.
Proof. unfold field. solve_total. Qed.

Lemma ACR_field_panics w v m : len v <> 4 -> field AVPCodeEVENTTIMESTAMP w v m = Panic.
Proof. intros H. unfold field. eval_tests. by apply assign_Time_panics. Qed.

Lemma ACR_field_no_fuel c w v m : field c w v m <> Err ErrFuel.
Proof.
  destruct (Z.eq_dec c AVPCodeEVENTTIMESTAMP) as [->|Hc]; [destruct (Z.eq_dec (len v) 4) as [Hv|Hv]|].
  - by destruct (ACR_field_cases AVPCodeEVENTTIMESTAMP w v m) as [? ->].
  - by rewrite ACR_field_panics.
  - by destruct (ACR_field_cases c w v m) as [? ->].
Qed.

Lemma ACR_Unmarshal_ends data m : (Unmarshal data m).2 <> Err ErrFuel.
Proof.
  exact (unmarshal_ends field data m (fun h => m <| Header := h |>) ACR_field_no_fuel).
Qed.

End AccountingRequest.

Module AccountingAnswer.

Record t := mk {
  Header : DiameterHeader;
  SessionId : bytes;
  ResultCode : Z;
  OriginHost : bytes;
  OriginRealm : bytes;
  AccountingRecordType : Z;
  AccountingRecordNumber : Z;
  AcctApplicationId : option Z;
  VendorSpecificApplicationId : option VendorSpecificApplicationId.t;
  UserName : option bytes;
  AcctInterimInterval : option Z;
  AccountingRealtimeRequired : option Z;
  OriginStateId : option Z;
  EventTimestamp : option Z;
  ErrorMessage : option bytes;
  ErrorReportingHost : option bytes;
  FailedAvp : option FailedAVP.t;
  ProxyInfo : list (option ProxyInfo.t);
  Avp : list bytes }.

(** The zero value with a given header: [&X{}] once its header is set. *)
Definition start (h : DiameterHeader) : t :=
  mk h [] 0 [] [] 0 0 None None None None None None None None None None [] [].

Definition zero : t := start zero_header.

Definition New : t := start (new_header 271 3 false true).

Definition Validate (m : t) : option marshal_error :=
  if len (SessionId m) =? 0 then Some (ErrRequiredEmpty (gostr "Session-Id")) else
  if len (OriginHost m) =? 0 then Some (ErrRequiredEmpty (gostr "Origin-Host")) else
  if len (OriginRealm m) =? 0 then Some (ErrRequiredEmpty (gostr "Origin-Realm")) else
  None.

Definition body (m : t) : bytes :=
  marshalAVP AVPCodeSESSIONID (VUTF8String (SessionId m)) true false ++
  marshalAVP AVPCodeRESULTCODE (VUnsigned32 (ResultCode m)) true false ++
  marshalAVP AVPCodeORIGINHOST (VDiameterIdentity (OriginHost m)) true false ++
  marshalAVP AVPCodeORIGINREALM (VDiameterIdentity (OriginRealm m)) true false ++
  marshalAVP AVPCodeACCOUNTINGRECORDTYPE (VEnumerated (AccountingRecordType m)) true false ++
  marshalAVP AVPCodeACCOUNTINGRECORDNUMBER (VUnsigned32 (AccountingRecordNumber m)) true false ++
  write_opt (AcctApplicationId m) (fun x =>
    marshalAVP AVPCodeACCTAPPLICATIONID (VUnsigned32 x) true false) ++
  write_opt (VendorSpecificApplicationId m) (fun x =>
    marshalAVP AVPCodeVENDORSPECIFICAPPLICATIONID (VGrouped (VendorSpecificApplicationId.Marshal x)) true false) ++
  write_opt (UserName m) (fun x =>
    marshalAVP AVPCodeUSERNAME (VUTF8String x) true true) ++
  write_opt (AcctInterimInterval m) (fun x =>
    marshalAVP AVPCodeACCTINTERIMINTERVAL (VUnsigned32 x) true false) ++
  write_opt (AccountingRealtimeRequired m) (fun x =>
    marshalAVP AVPCodeACCOUNTINGREALTIMEREQUIRED (VEnumerated x) true false) ++
  write_opt (OriginStateId m) (fun x =>
    marshalAVP AVPCodeORIGINSTATEID (VUnsigned32 x) false false) ++
  write_opt (EventTimestamp m) (fun x =>
    marshalAVP AVPCodeEVENTTIMESTAMP (VTime x) true false) ++
  write_opt (ErrorMessage m) (fun x =>
    marshalAVP AVPCodeERRORMESSAGE (VUTF8String x) false false) ++
  write_opt (ErrorReportingHost m) (fun x =>
    marshalAVP AVPCodeERRORREPORTINGHOST (VDiameterIdentity x) false false) ++
  write_opt (FailedAvp m) (fun x =>
    marshalAVP AVPCodeFAILEDAVP (VGrouped (FailedAVP.Marshal x)) true false) ++
  write_all (ProxyInfo m) (fun p => write_opt p (fun x =>
    marshalAVP AVPCodePROXYINFO (VGrouped (ProxyInfo.Marshal x)) true false)).

Definition Marshal (m : t) : t * outcome marshal_error bytes :=
  match Validate m with
  | Some e => (m, Err e)
  | None =>
      let m := m <| Header := (Header m) <| Length := to_u32 (20 + len (body m)) |> |> in
      (m, Ok (marshalHeader (Header m) ++ body m))
  end.

Definition field (avpCode vendorID : Z) (avpValue : bytes) (m : t) : outcome parse_error t :=
  if avpCode =? AVPCodeSESSIONID then
    assign (DecodeUTF8String avpValue) as_UTF8String
      (fun x => m <| SessionId := x |>) m
  else
  if avpCode =? AVPCodeRESULTCODE then
    assign (DecodeUnsigned32 avpValue) as_Unsigned32
      (fun x => m <| ResultCode := x |>) m
  else
  if avpCode =? AVPCodeORIGINHOST then
    assign (DecodeDiameterIdentity avpValue) as_DiameterIdentity
      (fun x => m <| OriginHost := x |>) m
  else
  if avpCode =? AVPCodeORIGINREALM then
    assign (DecodeDiameterIdentity avpValue) as_DiameterIdentity
      (fun x => m <| OriginRealm := x |>) m
  else
  if avpCode =? AVPCodeACCOUNTINGRECORDTYPE then
    assign (DecodeEnumerated avpValue) as_Enumerated
      (fun x => m <| AccountingRecordType := x |>) m
  else
  if avpCode =? AVPCodeACCOUNTINGRECORDNUMBER then
    assign (DecodeUnsigned32 avpValue) as_Unsigned32
      (fun x => m <| AccountingRecordNumber := x |>) m
  else
  if avpCode =? AVPCodeACCTAPPLICATIONID then
    assign (DecodeUnsigned32 avpValue) as_Unsigned32
      (fun x => m <| AcctApplicationId := Some x |>) m
  else
  if avpCode =? AVPCodeVENDORSPECIFICAPPLICATIONID then
    assign_group (VendorSpecificApplicationId.Unmarshal avpValue VendorSpecificApplicationId.zero)
      (fun grouped => m <| VendorSpecificApplicationId := Some grouped |>) m
  else
  if avpCode =? AVPCodeUSERNAME then
    assign (DecodeUTF8String avpValue) as_UTF8String
      (fun x => m <| UserName := Some x |>) m
  else
  if avpCode =? AVPCodeACCTINTERIMINTERVAL then
    assign (DecodeUnsigned32 avpValue) as_Unsigned32
      (fun x => m <| AcctInterimInterval := Some x |>) m
  else
  if avpCode =? AVPCodeACCOUNTINGREALTIMEREQUIRED then
    assign (DecodeEnumerated avpValue) as_Enumerated
      (fun x => m <| AccountingRealtimeRequired := Some x |>) m
  else
  if avpCode =? AVPCodeORIGINSTATEID then
    assign (DecodeUnsigned32 avpValue) as_Unsigned32
      (fun x => m <| OriginStateId := Some x |>) m
  else
  if avpCode =? AVPCodeEVENTTIMESTAMP then
    assign (DecodeTime avpValue) as_Time
      (fun x => m <| EventTimestamp := Some x |>) m
  else
  if avpCode =? AVPCodeERRORMESSAGE then
    assign (DecodeUTF8String avpValue) as_UTF8String
      (fun x => m <| ErrorMessage := Some x |>) m
  else
  if avpCode =? AVPCodeERRORREPORTINGHOST then
    assign (DecodeDiameterIdentity avpValue) as_DiameterIdentity
      (fun x => m <| ErrorReportingHost := Some x |>) m
  else
  if avpCode =? AVPCodeFAILEDAVP then
    assign_group (FailedAVP.Unmarshal avpValue FailedAVP.zero)
      (fun grouped => m <| FailedAvp := Some grouped |>) m
  else
  if avpCode =? AVPCodePROXYINFO then
    assign_group (ProxyInfo.Unmarshal avpValue ProxyInfo.zero)
      (fun grouped => m <| ProxyInfo := ProxyInfo m ++ [Some grouped] |>) m
  else
  Ok m.

Definition Unmarshal (data : bytes) (m : t) : t * outcome parse_error unit :=
  if len data <? 20 then (m, Err ErrHeaderTooShort)
  else match read_header data with
       | Ok header => scan_from field data 20 (m <| Header := header |>)
       | Err e => (m, Err e)
       | Panic => (m, Panic)
       end.

Definition Len (m : t) : Z := match (Marshal m).2 with Ok data => len data | _ => 0 end.

Definition avps (m : t) : list avp :=
  [av AVPCodeSESSIONID (VUTF8String (SessionId m)) true false 0] ++
  [av AVPCodeRESULTCODE (VUnsigned32 (ResultCode m)) true false 0] ++
  [av AVPCodeORIGINHOST (VDiameterIdentity (OriginHost m)) true false 0] ++
  [av AVPCodeORIGINREALM (VDiameterIdentity (OriginRealm m)) true false 0] ++
  [av AVPCodeACCOUNTINGRECORDTYPE (VEnumerated (AccountingRecordType m)) true false 0] ++
  [av AVPCodeACCOUNTINGRECORDNUMBER (VUnsigned32 (AccountingRecordNumber m)) true false 0] ++
  opt_avp (fun x => av AVPCodeACCTAPPLICATIONID (VUnsigned32 x) true false 0) (AcctApplicationId m) ++
  opt_avp (fun x => av AVPCodeVENDORSPECIFICAPPLICATIONID (VGrouped (VendorSpecificApplicationId.Marshal x)) true false 0) (VendorSpecificApplicationId m) ++
  opt_avp (fun x => av AVPCodeUSERNAME (VUTF8String x) true true 0) (UserName m) ++
  opt_avp (fun x => av AVPCodeACCTINTERIMINTERVAL (VUnsigned32 x) true false 0) (AcctInterimInterval m) ++
  opt_avp (fun x => av AVPCodeACCOUNTINGREALTIMEREQUIRED (VEnumerated x) true false 0) (AccountingRealtimeRequired m) ++
  opt_avp (fun x => av AVPCodeORIGINSTATEID (VUnsigned32 x) false false 0) (OriginStateId m) ++
  opt_avp (fun x => av AVPCodeEVENTTIMESTAMP (VTime x) true false 0) (EventTimestamp m) ++
  opt_avp (fun x => av AVPCodeERRORMESSAGE (VUTF8String x) false false 0) (ErrorMessage m) ++
  opt_avp (fun x => av AVPCodeERRORREPORTINGHOST (VDiameterIdentity x) false false 0) (ErrorReportingHost m) ++
  opt_avp (fun x => av AVPCodeFAILEDAVP (VGrouped (FailedAVP.Marshal x)) true false 0) (FailedAvp m) ++
  flat_map (opt_avp (fun x => av AVPCodePROXYINFO (VGrouped (ProxyInfo.Marshal x)) true false 0)) (ProxyInfo m).

Definition wf (m : t) : Prop :=
  fits (SessionId m) /\
  u32 (ResultCode m) /\
  fits (OriginHost m) /\
  fits (OriginRealm m) /\
  i32 (AccountingRecordType m) /\
  u32 (AccountingRecordNumber m) /\
  from_option u32 True (AcctApplicationId m) /\
  from_option (fits_group VendorSpecificApplicationId.wf VendorSpecificApplicationId.Marshal) True (VendorSpecificApplicationId m) /\
  from_option fits True (UserName m) /\
  from_option u32 True (AcctInterimInterval m) /\
  from_option i32 True (AccountingRealtimeRequired m) /\
  from_option u32 True (OriginStateId m) /\
  from_option time_window True (EventTimestamp m) /\
  from_option fits True (ErrorMessage m) /\
  from_option fits True (ErrorReportingHost m) /\
  from_option (fits_group FailedAVP.wf FailedAVP.Marshal) True (FailedAvp m) /\
  Forall (some_and (fits_group ProxyInfo.wf ProxyInfo.Marshal)) (ProxyInfo m) /\
  Avp m = [].

Lemma ACA_body_avps m : body m = concat (map marshal (avps m)).
Proof. unfold avps. solve_body. Qed.

Lemma ACA_avps_wf m : wf m -> Forall wf_avp (avps m).
Proof. unfold wf, avps. solve_avps_wf. Qed.

(** Computes the fields of explicit records. *)
Ltac fields := cbv beta iota delta [set_field start Header SessionId ResultCode OriginHost OriginRealm AccountingRecordType AccountingRecordNumber AcctApplicationId VendorSpecificApplicationId UserName AcctInterimInterval AccountingRealtimeRequired OriginStateId EventTimestamp ErrorMessage ErrorReportingHost FailedAvp ProxyInfo Avp].

Lemma ACA_fold_avps m :
  wf m -> fold_fields field (map avp_seen (avps m)) (start (Header m)) = (m, Ok tt).
Proof.
  destruct m. unfold wf; fields. intros H. destruct_and? H.
  rewrite <- (app_nil_r (avps _)). unfold avps. rewrite <- ?app_assoc. fields.
  erewrite fold_req by solve_field. fields.
  erewrite fold_req by solve_field. fields.
  erewrite fold_req by solve_field. fields.
  erewrite fold_req by solve_field. fields.
  erewrite fold_req by solve_field. fields.
  erewrite fold_req by solve_field. fields.
  erewrite (fold_opt field (fun x m => m <| AcctApplicationId := x |>)) by solve_field. fields.
  erewrite (fold_opt field (fun x m => m <| VendorSpecificApplicationId := x |>)) by solve_field. fields.
  erewrite (fold_opt field (fun x m => m <| UserName := x |>)) by solve_field. fields.
  erewrite (fold_opt field (fun x m => m <| AcctInterimInterval := x |>)) by solve_field. fields.
  erewrite (fold_opt field (fun x m => m <| AccountingRealtimeRequired := x |>)) by solve_field. fields.
  erewrite (fold_opt field (fun x m => m <| OriginStateId := x |>)) by solve_field. fields.
  erewrite (fold_opt field (fun x m => m <| EventTimestamp := x |>)) by solve_field. fields.
  erewrite (fold_opt field (fun x m => m <| ErrorMessage := x |>)) by solve_field. fields.
  erewrite (fold_opt field (fun x m => m <| ErrorReportingHost := x |>)) by solve_field. fields.
  erewrite (fold_opt field (fun x m => m <| FailedAvp := x |>)) by solve_field. fields.
  erewrite (fold_rep_opt field ProxyInfo (fun x m => m <| ProxyInfo := x |>)) by solve_field. fields.
  by subst.
Qed.

#[global] Instance wire : WireMessage t := {|
  wire_start m := (start (Header m)); wire_wf := wf; wire_avps := avps; wire_field := field;
  wire_wf_avps := ACA_avps_wf; wire_fold := ACA_fold_avps |}.

#[global] Program Instance command : WireCommand t := {|
  cmd_header := Header; cmd_with_header := fun h m => m <| Header := h |>; cmd_zero := zero;
  cmd_validate := Validate; cmd_body := body; cmd_marshal := Marshal;
  cmd_unmarshal := Unmarshal; cmd_body_eq := ACA_body_avps |}.
Solve Obligations with reflexivity.

Lemma ACA_roundtrip : roundtrip_spec wf Header body Validate Marshal Unmarshal zero.
Proof. exact (@command_roundtrip t wire command). Qed.

(** The one case that can panic is that of the [Time]. *)
Lemma ACA_field_cases c w v m :
  (c = AVPCodeEVENTTIMESTAMP -> len v = 4) -> exists m', field c w v m = Ok m'.
Proof. unfold field. solve_total. Qed.

Lemma ACA_field_panics w v m : len v <> 4 -> field AVPCodeEVENTTIMESTAMP w v m = Panic.
Proof. intros H. unfold field. eval_tests. by apply assign_Time_panics. Qed.

Lemma ACA_field_no_fuel c w v m : field c w v m <> Err ErrFuel.
Proof.
  destruct (Z.eq_dec c AVPCodeEVENTTIMESTAMP) as [->|Hc]; [destruct (Z.eq_dec (len v) 4) as [Hv|Hv]|].
  - by destruct (ACA_field_cases AVPCodeEVENTTIMESTAMP w v m) as [? ->].
  - by rewrite ACA_field_panics.
  - by destruct (ACA_field_cases c w v m) as [? ->].
Qed.

Lemma ACA_Unmarshal_ends data m : (Unmarshal data m).2 <> Err ErrFuel.
Proof.
  exact (unmarshal_ends field data m (fun h => m <| Header := h |>) ACA_field_no_fuel).
Qed.

End AccountingAnswer.

