(* ===== verification/S13.v ===== *)
(** * The messages of S13 ([commands/s13/s13.pb.go])

    ME-Identity-Check, which the gateway serves, and the groups it contains,
    in the layout of BaseMessages.  The groups VendorSpecificApplicationId,
    FailedAVP and ProxyInfo of the package are letter for letter those of the
    base protocol, and are not repeated. *)

From S2P Require Import Prelude Binary DataTypes Wire Message BaseMessages SessionMessages.

(** ** AVP codes ([constants.go]) *)

Definition AVPCodeEXPERIMENTALRESULTCODE : Z := 298.
Definition AVPCodeIMEI : Z := 1402.
Definition AVPCode3GPP2MEID : Z := 1471.
Definition AVPCodeSOFTWAREVERSION : Z := 1403.
Definition AVPCodeAUTHSESSIONSTATE : Z := 277.
Definition AVPCodeTERMINALINFORMATION : Z := 1401.
Definition AVPCodeDRMP : Z := 301.
Definition AVPCodeEXPERIMENTALRESULT : Z := 297.
Definition AVPCodeEQUIPMENTSTATUS : Z := 1445.

(** ** Structs *)

Module ExperimentalResult.

Record t := mk {
  VendorId : Z;
  ExperimentalResultCode : Z }.

Definition zero : t := mk 0 0.

Definition Marshal (g : t) : bytes :=
  marshalAVP AVPCodeVENDORID (VUnsigned32 (VendorId g)) true false ++
  marshalAVP AVPCodeEXPERIMENTALRESULTCODE (VUnsigned32 (ExperimentalResultCode g)) true false.

Definition field (avpCode vendorID : Z) (avpValue : bytes) (g : t) : outcome parse_error t :=
  if avpCode =? AVPCodeVENDORID then
    assign (DecodeUnsigned32 avpValue) as_Unsigned32
      (fun x => g <| VendorId := x |>) g
  else
  if avpCode =? AVPCodeEXPERIMENTALRESULTCODE then
    assign (DecodeUnsigned32 avpValue) as_Unsigned32
      (fun x => g <| ExperimentalResultCode := x |>) g
  else
  Ok g.

Definition Unmarshal (data : bytes) (g : t) : t * outcome parse_error unit :=
  scan field data g.

Definition avps (g : t) : list avp :=
  [av AVPCodeVENDORID (VUnsigned32 (VendorId g)) true false 0] ++
  [av AVPCodeEXPERIMENTALRESULTCODE (VUnsigned32 (ExperimentalResultCode g)) true false 0].

Definition wf (g : t) : Prop :=
  u32 (VendorId g) /\
  u32 (ExperimentalResultCode g).

Lemma ER_Marshal_avps g : Marshal g = concat (map marshal (avps g)).
Proof. unfold avps. solve_body. Qed.

Lemma ER_avps_wf g : wf g -> Forall wf_avp (avps g).
Proof. unfold wf, avps. solve_avps_wf. Qed.

(** Computes the fields of explicit records. *)
Ltac fields := cbv beta iota delta [set_field zero VendorId ExperimentalResultCode].

Lemma ER_fold_avps g :
  wf g -> fold_fields field (map avp_seen (avps g)) zero = (g, Ok tt).
Proof.
  destruct g. unfold wf; fields. intros H. destruct_and? H.
  rewrite <- (app_nil_r (avps _)). unfold avps. rewrite <- ?app_assoc. fields.
  erewrite fold_req by solve_field. fields.
  erewrite fold_req by solve_field. fields.
  by subst.
Qed.

#[global] Instance wire : WireMessage t := {|
  wire_start g := zero; wire_wf := wf; wire_avps := avps; wire_field := field;
  wire_wf_avps := ER_avps_wf; wire_fold := ER_fold_avps |}.

(** A group is read back from its own bytes. *)
Lemma ER_Unmarshal_Marshal g :
  fits_group wf Marshal g -> Unmarshal (Serialize (VGrouped (Marshal g))) zero = (g, Ok tt).
Proof.
  intros [Hw _]. cbn [Serialize]. unfold Grouped_Serialize. rewrite ER_Marshal_avps. exact (@wire_roundtrip t wire g Hw).
Qed.
#[global] Hint Resolve ER_Unmarshal_Marshal : groups.

Lemma ER_field_total c w v g : exists m', field c w v g = Ok m'.
Proof. unfold field. solve_total. Qed.

Lemma ER_Unmarshal_no_panic data g : (Unmarshal data g).2 <> Panic.
Proof. apply (scan_total field), ER_field_total. Qed.
#[global] Hint Resolve ER_Unmarshal_no_panic : no_panic.

End ExperimentalResult.

Module TerminalInformation.

Record t := mk {
  Imei : option bytes;
  Meid : option bytes;
  SoftwareVersion : option bytes }.

Definition zero : t := mk None None None.

Definition Marshal (g : t) : bytes :=
  write_opt (Imei g) (fun x =>
    marshalAVPWithVendor AVPCodeIMEI (VUTF8String x) true false 10415) ++
  write_opt (Meid g) (fun x =>
    marshalAVPWithVendor AVPCode3GPP2MEID (VOctetString x) true false 10415) ++
  write_opt (SoftwareVersion g) (fun x =>
    marshalAVPWithVendor AVPCodeSOFTWAREVERSION (VUTF8String x) true false 10415).

Definition field (avpCode vendorID : Z) (avpValue : bytes) (g : t) : outcome parse_error t :=
  if avpCode =? AVPCodeIMEI then
    (if negb (vendorID =? 10415) then Ok g else assign (DecodeUTF8String avpValue) as_UTF8String
      (fun x => g <| Imei := Some x |>) g)
  else
  if avpCode =? AVPCode3GPP2MEID then
    (if negb (vendorID =? 10415) then Ok g else assign (DecodeOctetString avpValue) as_OctetString
      (fun x => g <| Meid := Some x |>) g)
  else
  if avpCode =? AVPCodeSOFTWAREVERSION then
    (if negb (vendorID =? 10415) then Ok g else assign (DecodeUTF8String avpValue) as_UTF8String
      (fun x => g <| SoftwareVersion := Some x |>) g)
  else
  Ok g.

Definition Unmarshal (data : bytes) (g : t) : t * outcome parse_error unit :=
  scan field data g.

Definition avps (g : t) : list avp :=
  opt_avp (fun x => av AVPCodeIMEI (VUTF8String x) true false 10415) (Imei g) ++
  opt_avp (fun x => av AVPCode3GPP2MEID (VOctetString x) true false 10415) (Meid g) ++
  opt_avp (fun x => av AVPCodeSOFTWAREVERSION (VUTF8String x) true false 10415) (SoftwareVersion g).

Definition wf (g : t) : Prop :=
  from_option fits True (Imei g) /\
  from_option fits True (Meid g) /\
  from_option fits True (SoftwareVersion g).

Lemma TI_Marshal_avps g : Marshal g = concat (map marshal (avps g)).
Proof. unfold avps. solve_body. Qed.

Lemma TI_avps_wf g : wf g -> Forall wf_avp (avps g).
Proof. unfold wf, avps. solve_avps_wf. Qed.

(** Computes the fields of explicit records. *)
Ltac fields := cbv beta iota delta [set_field zero Imei Meid SoftwareVersion].

Lemma TI_fold_avps g :
  wf g -> fold_fields field (map avp_seen (avps g)) zero = (g, Ok tt).
Proof.
  destruct g. unfold wf; fields. intros H. destruct_and? H.
  rewrite <- (app_nil_r (avps _)). unfold avps. rewrite <- ?app_assoc. fields.
  erewrite (fold_opt field (fun x m => m <| Imei := x |>)) by solve_field. fields.
  erewrite (fold_opt field (fun x m => m <| Meid := x |>)) by solve_field. fields.
  erewrite (fold_opt field (fun x m => m <| SoftwareVersion := x |>)) by solve_field. fields.
  by subst.
Qed.

#[global] Instance wire : WireMessage t := {|
  wire_start g := zero; wire_wf := wf; wire_avps := avps; wire_field := field;
  wire_wf_avps := TI_avps_wf; wire_fold := TI_fold_avps |}.

(** A group is read back from its own bytes. *)
Lemma TI_Unmarshal_Marshal g :
  fits_group wf Marshal g -> Unmarshal (Serialize (VGrouped (Marshal g))) zero = (g, Ok tt).
Proof.
  intros [Hw _]. cbn [Serialize]. unfold Grouped_Serialize. rewrite TI_Marshal_avps. exact (@wire_roundtrip t wire g Hw).
Qed.
#[global] Hint Resolve TI_Unmarshal_Marshal : groups.

Lemma TI_field_total c w v g : exists m', field c w v g = Ok m'.
Proof. unfold field. solve_total. Qed.

Lemma TI_Unmarshal_no_panic data g : (Unmarshal data g).2 <> Panic.
Proof. apply (scan_total field), TI_field_total. Qed.
#[global] Hint Resolve TI_Unmarshal_no_panic : no_panic.

End TerminalInformation.

Module MEIdentityCheckRequest.

Record t := mk {
  Header : DiameterHeader;
  SessionId : bytes;
  AuthSessionState : Z;
  OriginHost : bytes;
  OriginRealm : bytes;
  DestinationRealm : bytes;
  TerminalInformation : option TerminalInformation.t;
  Drmp : option Z;
  VendorSpecificApplicationId : option VendorSpecificApplicationId.t;
  DestinationHost : option bytes;
  UserName : option bytes;
  Avp : list bytes;
  ProxyInfo : list (option ProxyInfo.t);
  RouteRecord : list bytes }.

(** The zero value with a given header: [&X{}] once its header is set. *)
Definition start (h : DiameterHeader) : t :=
  mk h [] 0 [] [] [] None None None None None [] [] [].

Definition zero : t := start zero_header.

Definition New : t := start (new_header 324 16777252 true true).

Definition Validate (m : t) : option marshal_error :=
  if len (SessionId m) =? 0 then Some (ErrRequiredEmpty (gostr "Session-Id")) else
  if len (OriginHost m) =? 0 then Some (ErrRequiredEmpty (gostr "Origin-Host")) else
  if len (OriginRealm m) =? 0 then Some (ErrRequiredEmpty (gostr "Origin-Realm")) else
  if len (DestinationRealm m) =? 0 then Some (ErrRequiredEmpty (gostr "Destination-Realm")) else
  if is_nil (TerminalInformation m) then Some (ErrRequiredNil (gostr "Terminal-Information")) else
  None.

Definition body (m : t) : bytes :=
  marshalAVP AVPCodeSESSIONID (VUTF8String (SessionId m)) true false ++
  marshalAVP AVPCodeAUTHSESSIONSTATE (VEnumerated (AuthSessionState m)) true false ++
  marshalAVP AVPCodeORIGINHOST (VDiameterIdentity (OriginHost m)) true false ++
  marshalAVP AVPCodeORIGINREALM (VDiameterIdentity (OriginRealm m)) true false ++
  marshalAVP AVPCodeDESTINATIONREALM (VDiameterIdentity (DestinationRealm m)) true false ++
  write_opt (TerminalInformation m) (fun x =>
    marshalAVPWithVendor AVPCodeTERMINALINFORMATION (VGrouped (TerminalInformation.Marshal x)) true false 10415) ++
  write_opt (Drmp m) (fun x =>
    marshalAVP AVPCodeDRMP (VEnumerated x) false false) ++
  write_opt (VendorSpecificApplicationId m) (fun x =>
    marshalAVP AVPCodeVENDORSPECIFICAPPLICATIONID (VGrouped (VendorSpecificApplicationId.Marshal x)) true false) ++
  write_opt (DestinationHost m) (fun x =>
    marshalAVP AVPCodeDESTINATIONHOST (VDiameterIdentity x) true false) ++
  write_opt (UserName m) (fun x =>
    marshalAVP AVPCodeUSERNAME (VUTF8String x) true true) ++
  write_all (ProxyInfo m) (fun p => write_opt p (fun x =>
    marshalAVP AVPCodePROXYINFO (VGrouped (ProxyInfo.Marshal x)) true false)) ++
  write_all (RouteRecord m) (fun x =>
    marshalAVP AVPCodeROUTERECORD (VDiameterIdentity x) true false).

Definition Marshal (m : t) : t * outcome marshal_error bytes :=
  match Validate m with
  | Some e => (m, Err e)
  | None =>
      let m := m <| Header := (Header m) <| Length := to_u32 (20 + len (body m)) |> |> in
      (m, Ok (marshalHeader (Header m) ++ body m))
  end.

Definition field (avpCode vendorID : Z) (avpValue : bytes) (m : t) : outcome parse_error t :=
  if avpCode =? AVPCodeSESSIONID then
    assign (DecodeUTF8String avpValue) as_UTF8String
      (fun x => m <| SessionId := x |>) m
  else
  if avpCode =? AVPCodeAUTHSESSIONSTATE then
    assign (DecodeEnumerated avpValue) as_Enumerated
      (fun x => m <| AuthSessionState := x |>) m
  else
  if avpCode =? AVPCodeORIGINHOST then
    assign (DecodeDiameterIdentity avpValue) as_DiameterIdentity
      (fun x => m <| OriginHost := x |>) m
  else
  if avpCode =? AVPCodeORIGINREALM then
    assign (DecodeDiameterIdentity avpValue) as_DiameterIdentity
      (fun x => m <| OriginRealm := x |>) m
  else
  if avpCode =? AVPCodeDESTINATIONREALM then
    assign (DecodeDiameterIdentity avpValue) as_DiameterIdentity
      (fun x => m <| DestinationRealm := x |>) m
  else
  if avpCode =? AVPCodeTERMINALINFORMATION then
    (if negb (vendorID =? 10415) then Ok m else assign_group (TerminalInformation.Unmarshal avpValue TerminalInformation.zero)
      (fun grouped => m <| TerminalInformation := Some grouped |>) m)
  else
  if avpCode =? AVPCodeDRMP then
    assign (DecodeEnumerated avpValue) as_Enumerated
      (fun x => m <| Drmp := Some x |>) m
  else
  if avpCode =? AVPCodeVENDORSPECIFICAPPLICATIONID then
    assign_group (VendorSpecificApplicationId.Unmarshal avpValue VendorSpecificApplicationId.zero)
      (fun grouped => m <| VendorSpecificApplicationId := Some grouped |>) m
  else
  if avpCode =? AVPCodeDESTINATIONHOST then
    assign (DecodeDiameterIdentity avpValue) as_DiameterIdentity
      (fun x => m <| DestinationHost := Some x |>) m
  else
  if avpCode =? AVPCodeUSERNAME then
    assign (DecodeUTF8String avpValue) as_UTF8String
      (fun x => m <| UserName := Some x |>) m
  else
  if avpCode =? AVPCodePROXYINFO then
    assign_group (ProxyInfo.Unmarshal avpValue ProxyInfo.zero)
      (fun grouped => m <| ProxyInfo := ProxyInfo m ++ [Some grouped] |>) m
  else
  if avpCode =? AVPCodeROUTERECORD then
    assign (DecodeDiameterIdentity avpValue) as_DiameterIdentity
      (fun x => m <| RouteRecord := RouteRecord m ++ [x] |>) m
  else
  Ok m.

Definition Unmarshal (data : bytes) (m : t) : t * outcome parse_error unit :=
  if len data <? 20 then (m, Err ErrHeaderTooShort)
  else match read_header data with
       | Ok header => scan_from field data 20 (m <| Header := header |>)
       | Err e => (m, Err e)
       | Panic => (m, Panic)
       end.

Definition Len (m : t) : Z := match (Marshal m).2 with Ok data => len data | _ => 0 end.

Definition avps (m : t) : list avp :=
  [av AVPCodeSESSIONID (VUTF8String (SessionId m)) true false 0] ++
  [av AVPCodeAUTHSESSIONSTATE (VEnumerated (AuthSessionState m)) true false 0] ++
  [av AVPCodeORIGINHOST (VDiameterIdentity (OriginHost m)) true false 0] ++
  [av AVPCodeORIGINREALM (VDiameterIdentity (OriginRealm m)) true false 0] ++
  [av AVPCodeDESTINATIONREALM (VDiameterIdentity (DestinationRealm m)) true false 0] ++
  opt_avp (fun x => av AVPCodeTERMINALINFORMATION (VGrouped (TerminalInformation.Marshal x)) true false 10415) (TerminalInformation m) ++
  opt_avp (fun x => av AVPCodeDRMP (VEnumerated x) false false 0) (Drmp m) ++
  opt_avp (fun x => av AVPCodeVENDORSPECIFICAPPLICATIONID (VGrouped (VendorSpecificApplicationId.Marshal x)) true false 0) (VendorSpecificApplicationId m) ++
  opt_avp (fun x => av AVPCodeDESTINATIONHOST (VDiameterIdentity x) true false 0) (DestinationHost m) ++
  opt_avp (fun x => av AVPCodeUSERNAME (VUTF8String x) true true 0) (UserName m) ++
  flat_map (opt_avp (fun x => av AVPCodePROXYINFO (VGrouped (ProxyInfo.Marshal x)) true false 0)) (ProxyInfo m) ++
  map (fun x => av AVPCodeROUTERECORD (VDiameterIdentity x) true false 0) (RouteRecord m).

Definition wf (m : t) : Prop :=
  fits (SessionId m) /\
  i32 (AuthSessionState m) /\
  fits (OriginHost m) /\
  fits (OriginRealm m) /\
  fits (DestinationRealm m) /\
  from_option (fits_group TerminalInformation.wf TerminalInformation.Marshal) True (TerminalInformation m) /\
  from_option i32 True (Drmp m) /\
  from_option (fits_group VendorSpecificApplicationId.wf VendorSpecificApplicationId.Marshal) True (VendorSpecificApplicationId m) /\
  from_option fits True (DestinationHost m) /\
  from_option fits True (UserName m) /\
  Avp m = [] /\
  Forall (some_and (fits_group ProxyInfo.wf ProxyInfo.Marshal)) (ProxyInfo m) /\
  Forall fits (RouteRecord m).

Lemma MICR_body_avps m : body m = concat (map marshal (avps m)).
Proof. unfold avps. solve_body. Qed.

Lemma MICR_avps_wf m : wf m -> Forall wf_avp (avps m).
Proof. unfold wf, avps. solve_avps_wf. Qed.

(** Computes the fields of explicit records. *)
Ltac fields := cbv beta iota delta [set_field start Header SessionId AuthSessionState OriginHost OriginRealm DestinationRealm TerminalInformation Drmp VendorSpecificApplicationId DestinationHost UserName Avp ProxyInfo RouteRecord].

Lemma MICR_fold_avps m :
  wf m -> fold_fields field (map avp_seen (avps m)) (start (Header m)) = (m, Ok tt).
Proof.
  destruct m. unfold wf; fields. intros H. destruct_and? H.
  rewrite <- (app_nil_r (avps _)). unfold avps. rewrite <- ?app_assoc. fields.
  erewrite fold_req by solve_field. fields.
  erewrite fold_req by solve_field. fields.
  erewrite fold_req by solve_field. fields.
  erewrite fold_req by solve_field. fields.
  erewrite fold_req by solve_field. fields.
  erewrite (fold_opt field (fun x m => m <| TerminalInformation := x |>)) by solve_field. fields.
  erewrite (fold_opt field (fun x m => m <| Drmp := x |>)) by solve_field. fields.
  erewrite (fold_opt field (fun x m => m <| VendorSpecificApplicationId := x |>)) by solve_field. fields.
  erewrite (fold_opt field (fun x m => m <| DestinationHost := x |>)) by solve_field. fields.
  erewrite (fold_opt field (fun x m => m <| UserName := x |>)) by solve_field. fields.
  erewrite (fold_rep_opt field ProxyInfo (fun x m => m <| ProxyInfo := x |>)) by solve_field. fields.
  erewrite (fold_rep field RouteRecord (fun x m => m <| RouteRecord := x |>)) by solve_field. fields.
  by subst.
Qed.

#[global] Instance wire : WireMessage t := {|
  wire_start m := (start (Header m)); wire_wf := wf; wire_avps := avps; wire_field := field;
  wire_wf_avps := MICR_avps_wf; wire_fold := MICR_fold_avps |}.

#[global] Program Instance command : WireCommand t := {|
  cmd_header := Header; cmd_with_header := fun h m => m <| Header := h |>; cmd_zero := zero;
  cmd_validate := Validate; cmd_body := body; cmd_marshal := Marshal;
  cmd_unmarshal := Unmarshal; cmd_body_eq := MICR_body_avps |}.
Solve Obligations with reflexivity.

Lemma MICR_roundtrip : roundtrip_spec wf Header body Validate Marshal Unmarshal zero.
Proof. exact (@command_roundtrip t wire command). Qed.

Lemma MICR_field_total c w v m : exists m', field c w v m = Ok m'.
Proof. unfold field. solve_total. Qed.

Lemma MICR_Unmarshal_total data m :
  (Unmarshal data m).2 <> Panic /\ (Unmarshal data m).2 <> Err ErrFuel.
Proof.
  exact (unmarshal_total field data m (fun h => m <| Header := h |>) MICR_field_total).
Qed.

End MEIdentityCheckRequest.

Module MEIdentityCheckAnswer.

Record t := mk {
  Header : DiameterHeader;
  SessionId : bytes;
  AuthSessionState : Z;
  OriginHost : bytes;
  OriginRealm : bytes;
  ResultCode : option Z;
  ExperimentalResult : option ExperimentalResult.t;
  EquipmentStatus : option Z;
  Drmp : option Z;
  VendorSpecificApplicationId : option VendorSpecificApplicationId.t;
  Avp : list bytes;
  FailedAvp : option FailedAVP.t;
  ProxyInfo : list (option ProxyInfo.t);
  RouteRecord : list bytes }.

(** The zero value with a given header: [&X{}] once its header is set. *)
Definition start (h : DiameterHeader) : t :=
  mk h [] 0 [] [] None None None None None [] None [] [].

Definition zero : t := start zero_header.

Definition New : t := start (new_header 324 16777252 false true).

Definition Validate (m : t) : option marshal_error :=
  if len (SessionId m) =? 0 then Some (ErrRequiredEmpty (gostr "Session-Id")) else
  if len (OriginHost m) =? 0 then Some (ErrRequiredEmpty (gostr "Origin-Host")) else
  if len (OriginRealm m) =? 0 then Some (ErrRequiredEmpty (gostr "Origin-Realm")) else
  None.

Definition body (m : t) : bytes :=
  marshalAVP AVPCodeSESSIONID (VUTF8String (SessionId m)) true false ++
  marshalAVP AVPCodeAUTHSESSIONSTATE (VEnumerated (AuthSessionState m)) true false ++
  marshalAVP AVPCodeORIGINHOST (VDiameterIdentity (OriginHost m)) true false ++
  marshalAVP AVPCodeORIGINREALM (VDiameterIdentity (OriginRealm m)) true false ++
  write_opt (ResultCode m) (fun x =>
    marshalAVP AVPCodeRESULTCODE (VUnsigned32 x) true false) ++
  write_opt (ExperimentalResult m) (fun x =>
    marshalAVP AVPCodeEXPERIMENTALRESULT (VGrouped (ExperimentalResult.Marshal x)) true false) ++
  write_opt (EquipmentStatus m) (fun x =>
    marshalAVPWithVendor AVPCodeEQUIPMENTSTATUS (VEnumerated x) true false 10415) ++
  write_opt (Drmp m) (fun x =>
    marshalAVP AVPCodeDRMP (VEnumerated x) false false) ++
  write_opt (VendorSpecificApplicationId m) (fun x =>
    marshalAVP AVPCodeVENDORSPECIFICAPPLICATIONID (VGrouped (VendorSpecificApplicationId.Marshal x)) true false) ++
  write_opt (FailedAvp m) (fun x =>
    marshalAVP AVPCodeFAILEDAVP (VGrouped (FailedAVP.Marshal x)) true false) ++
  write_all (ProxyInfo m) (fun p => write_opt p (fun x =>
    marshalAVP AVPCodePROXYINFO (VGrouped (ProxyInfo.Marshal x)) true false)) ++
  write_all (RouteRecord m) (fun x =>
    marshalAVP AVPCodeROUTERECORD (VDiameterIdentity x) true false).

Definition Marshal (m : t) : t * outcome marshal_error bytes :=
  match Validate m with
  | Some e => (m, Err e)
  | None =>
      let m := m <| Header := (Header m) <| Length := to_u32 (20 + len (body m)) |> |> in
      (m, Ok (marshalHeader (Header m) ++ body m))
  end.

Definition field (avpCode vendorID : Z) (avpValue : bytes) (m : t) : outcome parse_error t :=
  if avpCode =? AVPCodeSESSIONID then
    assign (DecodeUTF8String avpValue) as_UTF8String
      (fun x => m <| SessionId := x |>) m
  else
  if avpCode =? AVPCodeAUTHSESSIONSTATE then
    assign (DecodeEnumerated avpValue) as_Enumerated
      (fun x => m <| AuthSessionState := x |>) m
  else
  if avpCode =? AVPCodeORIGINHOST then
    assign (DecodeDiameterIdentity avpValue) as_DiameterIdentity
      (fun x => m <| OriginHost := x |>) m
  else
  if avpCode =? AVPCodeORIGINREALM then
    assign (DecodeDiameterIdentity avpValue) as_DiameterIdentity
      (fun x => m <| OriginRealm := x |>) m
  else
  if avpCode =? AVPCodeRESULTCODE then
    assign (DecodeUnsigned32 avpValue) as_Unsigned32
      (fun x => m <| ResultCode := Some x |>) m
  else
  if avpCode =? AVPCodeEXPERIMENTALRESULT then
    assign_group (ExperimentalResult.Unmarshal avpValue ExperimentalResult.zero)
      (fun grouped => m <| ExperimentalResult := Some grouped |>) m
  else
  if avpCode =? AVPCodeEQUIPMENTSTATUS then
    (if negb (vendorID =? 10415) then Ok m else assign (DecodeEnumerated avpValue) as_Enumerated
      (fun x => m <| EquipmentStatus := Some x |>) m)
  else
  if avpCode =? AVPCodeDRMP then
    assign (DecodeEnumerated avpValue) as_Enumerated
      (fun x => m <| Drmp := Some x |>) m
  else
  if avpCode =? AVPCodeVENDORSPECIFICAPPLICATIONID then
    assign_group (VendorSpecificApplicationId.Unmarshal avpValue VendorSpecificApplicationId.zero)
      (fun grouped => m <| VendorSpecificApplicationId := Some grouped |>) m
  else
  if avpCode =? AVPCodeFAILEDAVP then
    assign_group (FailedAVP.Unmarshal avpValue FailedAVP.zero)
      (fun grouped => m <| FailedAvp := Some grouped |>) m
  else
  if avpCode =? AVPCodePROXYINFO then
    assign_group (ProxyInfo.Unmarshal avpValue ProxyInfo.zero)
      (fun grouped => m <| ProxyInfo := ProxyInfo m ++ [Some grouped] |>) m
  else
  if avpCode =? AVPCodeROUTERECORD then
    assign (DecodeDiameterIdentity avpValue) as_DiameterIdentity
      (fun x => m <| RouteRecord := RouteRecord m ++ [x] |>) m
  else
  Ok m.

Definition Unmarshal (data : bytes) (m : t) : t * outcome parse_error unit :=
  if len data <? 20 then (m, Err ErrHeaderTooShort)
  else match read_header data with
       | Ok header => scan_from field data 20 (m <| Header := header |>)
       | Err e => (m, Err e)
       | Panic => (m, Panic)
       end.

Definition Len (m : t) : Z := match (Marshal m).2 with Ok data => len data | _ => 0 end.

Definition avps (m : t) : list avp :=
  [av AVPCodeSESSIONID (VUTF8String (SessionId m)) true false 0] ++
  [av AVPCodeAUTHSESSIONSTATE (VEnumerated (AuthSessionState m)) true false 0] ++
  [av AVPCodeORIGINHOST (VDiameterIdentity (OriginHost m)) true false 0] ++
  [av AVPCodeORIGINREALM (VDiameterIdentity (OriginRealm m)) true false 0] ++
  opt_avp (fun x => av AVPCodeRESULTCODE (VUnsigned32 x) true false 0) (ResultCode m) ++
  opt_avp (fun x => av AVPCodeEXPERIMENTALRESULT (VGrouped (ExperimentalResult.Marshal x)) true false 0) (ExperimentalResult m) ++
  opt_avp (fun x => av AVPCodeEQUIPMENTSTATUS (VEnumerated x) true false 10415) (EquipmentStatus m) ++
  opt_avp (fun x => av AVPCodeDRMP (VEnumerated x) false false 0) (Drmp m) ++
  opt_avp (fun x => av AVPCodeVENDORSPECIFICAPPLICATIONID (VGrouped (VendorSpecificApplicationId.Marshal x)) true false 0) (VendorSpecificApplicationId m) ++
  opt_avp (fun x => av AVPCodeFAILEDAVP (VGrouped (FailedAVP.Marshal x)) true false 0) (FailedAvp m) ++
  flat_map (opt_avp (fun x => av AVPCodePROXYINFO (VGrouped (ProxyInfo.Marshal x)) true false 0)) (ProxyInfo m) ++
  map (fun x => av AVPCodeROUTERECORD (VDiameterIdentity x) true false 0) (RouteRecord m).

Definition wf (m : t) : Prop :=
  fits (SessionId m) /\
  i32 (AuthSessionState m) /\
  fits (OriginHost m) /\
  fits (OriginRealm m) /\
  from_option u32 True (ResultCode m) /\
  from_option (fits_group ExperimentalResult.wf ExperimentalResult.Marshal) True (ExperimentalResult m) /\
  from_option i32 True (EquipmentStatus m) /\
  from_option i32 True (Drmp m) /\
  from_option (fits_group VendorSpecificApplicationId.wf VendorSpecificApplicationId.Marshal) True (VendorSpecificApplicationId m) /\
  Avp m = [] /\
  from_option (fits_group FailedAVP.wf FailedAVP.Marshal) True (FailedAvp m) /\
  Forall (some_and (fits_group ProxyInfo.wf ProxyInfo.Marshal)) (ProxyInfo m) /\
  Forall fits (RouteRecord m).

Lemma MICA_body_avps m : body m = concat (map marshal (avps m)).
Proof. unfold avps. solve_body. Qed.

Lemma MICA_avps_wf m : wf m -> Forall wf_avp (avps m).
Proof. unfold wf, avps. solve_avps_wf. Qed.

(** Computes the fields of explicit records. *)
Ltac fields := cbv beta iota delta [set_field start Header SessionId AuthSessionState OriginHost OriginRealm ResultCode ExperimentalResult EquipmentStatus Drmp VendorSpecificApplicationId Avp FailedAvp ProxyInfo RouteRecord].

Lemma MICA_fold_avps m :
  wf m -> fold_fields field (map avp_seen (avps m)) (start (Header m)) = (m, Ok tt).
Proof.
  destruct m. unfold wf; fields. intros H. destruct_and? H.
  rewrite <- (app_nil_r (avps _)). unfold avps. rewrite <- ?app_assoc. fields.
  erewrite fold_req by solve_field. fields.
  erewrite fold_req by solve_field. fields.
  erewrite fold_req by solve_field. fields.
  erewrite fold_req by solve_field. fields.
  erewrite (fold_opt field (fun x m => m <| ResultCode := x |>)) by solve_field. fields.
  erewrite (fold_opt field (fun x m => m <| ExperimentalResult := x |>)) by solve_field. fields.
  erewrite (fold_opt field (fun x m => m <| EquipmentStatus := x |>)) by solve_field. fields.
  erewrite (fold_opt field (fun x m => m <| Drmp := x |>)) by solve_field. fields.
  erewrite (fold_opt field (fun x m => m <| VendorSpecificApplicationId := x |>)) by solve_field. fields.
  erewrite (fold_opt field (fun x m => m <| FailedAvp := x |>)) by solve_field. fields.
  erewrite (fold_rep_opt field ProxyInfo (fun x m => m <| ProxyInfo := x |>)) by solve_field. fields.
  erewrite (fold_rep field RouteRecord (fun x m => m <| RouteRecord := x |>)) by solve_field. fields.
  by subst.
Qed.

#[global] Instance wire : WireMessage t := {|
  wire_start m := (start (Header m)); wire_wf := wf; wire_avps := avps; wire_field := field;
  wire_wf_avps := MICA_avps_wf; wire_fold := MICA_fold_avps |}.

#[global] Program Instance command : WireCommand t := {|
  cmd_header := Header; cmd_with_header := fun h m => m <| Header := h |>; cmd_zero := zero;
  cmd_validate := Validate; cmd_body := body; cmd_marshal := Marshal;
  cmd_unmarshal := Unmarshal; cmd_body_eq := MICA_body_avps |}.
Solve Obligations with reflexivity.

Lemma MICA_roundtrip : roundtrip_spec wf Header body Validate Marshal Unmarshal zero.
Proof. exact (@command_roundtrip t wire command). Qed.

Lemma MICA_field_total c w v m : exists m', field c w v m = Ok m'.
Proof. unfold field. solve_total. Qed.

Lemma MICA_Unmarshal_total data m :
  (Unmarshal data m).2 <> Panic /\ (Unmarshal data m).2 <> Err ErrFuel.
Proof.
  exact (unmarshal_total field data m (fun h => m <| Header := h |>) MICA_field_total).
Qed.

End MEIdentityCheckAnswer.

