(* ===== verification/Commands.v ===== *)
(** * What holds of all messages: BaseMessages, SessionMessages and S13

    Sixteen messages and the groups they contain. *)

From S2P Require Import Prelude DataTypes Wire Message BaseMessages SessionMessages S13.

(** C2: each of the sixteen messages is read back as it was sent.  For a
    message that passes [Validate], whose fields fit their AVPs and which fits
    the 24-bit length: [Marshal] succeeds, sets the header's length to the
    number of bytes it returns, a multiple of four, and [Unmarshal] of those
    bytes into a zero struct gives the message back, with no error. *)
Theorem commands_roundtrip :
  (reads_back CapabilitiesExchangeRequest.t /\ reads_back CapabilitiesExchangeAnswer.t) /\
  (reads_back DeviceWatchdogRequest.t /\ reads_back DeviceWatchdogAnswer.t) /\
  (reads_back DisconnectPeerRequest.t /\ reads_back DisconnectPeerAnswer.t) /\
  (reads_back ReAuthRequest.t /\ reads_back ReAuthAnswer.t) /\
  (reads_back SessionTerminationRequest.t /\ reads_back SessionTerminationAnswer.t) /\
  (reads_back AbortSessionRequest.t /\ reads_back AbortSessionAnswer.t) /\
  (reads_back AccountingRequest.t /\ reads_back AccountingAnswer.t) /\
  (reads_back MEIdentityCheckRequest.t /\ reads_back MEIdentityCheckAnswer.t).
Proof. split_and!; apply command_roundtrip. Qed.

(** An ME-Identity-Check for a handset, sent through one proxy. *)
Definition example_micr : MEIdentityCheckRequest.t :=
  MEIdentityCheckRequest.New
    <| MEIdentityCheckRequest.SessionId := gostr "mme01;1;2" |>
    <| MEIdentityCheckRequest.OriginHost := gostr "mme01.epc" |>
    <| MEIdentityCheckRequest.OriginRealm := gostr "epc" |>
    <| MEIdentityCheckRequest.DestinationRealm := gostr "epc" |>
    <| MEIdentityCheckRequest.TerminalInformation :=
         Some (TerminalInformation.mk (Some (gostr "353490069873318")) None (Some (gostr "01"))) |>
    <| MEIdentityCheckRequest.ProxyInfo := [Some (ProxyInfo.mk (gostr "dra01") (Some (gostr "7")))] |>.

Lemma example_micr_wf : MEIdentityCheckRequest.wf example_micr.
Proof.
  split_and!; try exact I; try done.
  all: constructor; [|constructor]; by vm_compute.
Qed.

Lemma commands_roundtrip_witness :
  (exists m' data,
    CapabilitiesExchangeRequest.Marshal example_cer = (m', Ok data) /\
    CapabilitiesExchangeRequest.Unmarshal data CapabilitiesExchangeRequest.zero = (m', Ok tt)) /\
  exists m' data,
    MEIdentityCheckRequest.Marshal example_micr = (m', Ok data) /\
    MEIdentityCheckRequest.Unmarshal data MEIdentityCheckRequest.zero = (m', Ok tt).
Proof.
  destruct commands_roundtrip as ((H1 & _) & _ & _ & _ & _ & _ & _ & H2 & _). split.
  - destruct (H1 example_cer) as (m' & data & E1 & _ & _ & _ & E2);
      [exact example_cer_wf|by vm_compute..|]. by exists m', data.
  - destruct (H2 example_micr) as (m' & data & E1 & _ & _ & _ & E2); [|by vm_compute..|].
    + exact example_micr_wf.
    + by exists m', data.
Defined.

(** C3: [Unmarshal] returns on every input, whatever the receiver held: no
    index or slice expression of it, of its loop over AVPs or of the decoders
    is out of range, each of these reads being one that panics otherwise; no
    type assertion fails; and the loop ends.  This holds of the messages and
    groups without a [Time]. *)
Theorem unmarshal_never_panics data :
  (forall m, (CapabilitiesExchangeRequest.Unmarshal data m).2 ∉ [Panic; Err ErrFuel]) /\
  (forall m, (CapabilitiesExchangeAnswer.Unmarshal data m).2 ∉ [Panic; Err ErrFuel]) /\
  (forall m, (DeviceWatchdogRequest.Unmarshal data m).2 ∉ [Panic; Err ErrFuel]) /\
  (forall m, (DeviceWatchdogAnswer.Unmarshal data m).2 ∉ [Panic; Err ErrFuel]) /\
  (forall m, (DisconnectPeerRequest.Unmarshal data m).2 ∉ [Panic; Err ErrFuel]) /\
  (forall m, (DisconnectPeerAnswer.Unmarshal data m).2 ∉ [Panic; Err ErrFuel]) /\
  (forall m, (ReAuthRequest.Unmarshal data m).2 ∉ [Panic; Err ErrFuel]) /\
  (forall m, (ReAuthAnswer.Unmarshal data m).2 ∉ [Panic; Err ErrFuel]) /\
  (forall m, (SessionTerminationRequest.Unmarshal data m).2 ∉ [Panic; Err ErrFuel]) /\
  (forall m, (SessionTerminationAnswer.Unmarshal data m).2 ∉ [Panic; Err ErrFuel]) /\
  (forall m, (AbortSessionRequest.Unmarshal data m).2 ∉ [Panic; Err ErrFuel]) /\
  (forall m, (AbortSessionAnswer.Unmarshal data m).2 ∉ [Panic; Err ErrFuel]) /\
  (forall m, (MEIdentityCheckRequest.Unmarshal data m).2 ∉ [Panic; Err ErrFuel]) /\
  (forall m, (MEIdentityCheckAnswer.Unmarshal data m).2 ∉ [Panic; Err ErrFuel]) /\
  (forall g, (VendorSpecificApplicationId.Unmarshal data g).2 ∉ [Panic; Err ErrFuel]) /\
  (forall g, (FailedAVP.Unmarshal data g).2 ∉ [Panic; Err ErrFuel]) /\
  (forall g, (ProxyInfo.Unmarshal data g).2 ∉ [Panic; Err ErrFuel]) /\
  (forall g, (ExperimentalResult.Unmarshal data g).2 ∉ [Panic; Err ErrFuel]) /\
  (forall g, (TerminalInformation.Unmarshal data g).2 ∉ [Panic; Err ErrFuel]).
Proof.
  assert (forall r : outcome parse_error unit,
    r <> Panic /\ r <> Err ErrFuel -> r ∉ [Panic; Err ErrFuel]) as H.
  { intros r [? ?]. rewrite !elem_of_cons, elem_of_nil. naive_solver. }
  split_and!; intros; apply H.
  - apply CapabilitiesExchangeRequest.CER_Unmarshal_total.
  - apply CapabilitiesExchangeAnswer.CEA_Unmarshal_total.
  - apply DeviceWatchdogRequest.DWR_Unmarshal_total.
  - apply DeviceWatchdogAnswer.DWA_Unmarshal_total.
  - apply DisconnectPeerRequest.DPR_Unmarshal_total.
  - apply DisconnectPeerAnswer.DPA_Unmarshal_total.
  - apply ReAuthRequest.RAR_Unmarshal_total.
  - apply ReAuthAnswer.RAA_Unmarshal_total.
  - apply SessionTerminationRequest.STR_Unmarshal_total.
  - apply SessionTerminationAnswer.STA_Unmarshal_total.
  - apply AbortSessionRequest.ASR_Unmarshal_total.
  - apply AbortSessionAnswer.ASA_Unmarshal_total.
  - apply MEIdentityCheckRequest.MICR_Unmarshal_total.
  - apply MEIdentityCheckAnswer.MICA_Unmarshal_total.
  - apply scan_total, VendorSpecificApplicationId.VSAI_field_total.
  - apply scan_total, FailedAVP.FailedAVP_field_total.
  - apply scan_total, ProxyInfo.PI_field_total.
  - apply scan_total, ExperimentalResult.ER_field_total.
  - apply scan_total, TerminalInformation.TI_field_total.
Qed.

(** The two Accounting messages have a [Time]: an Event-Timestamp of any length
    but four makes [Unmarshal] panic, behind any header. *)
Lemma accounting_time_panics h value M P rest :
  wf_header h -> len value <> 4 -> len value < room ->
  let data := marshalHeader h ++ marshal (av AVPCodeEVENTTIMESTAMP (VOctetString value) M P 0) ++ rest in
  (forall m, (AccountingRequest.Unmarshal data m).2 = Panic) /\
  (forall m, (AccountingAnswer.Unmarshal data m).2 = Panic).
Proof.
  intros Hh Hn Hr data.
  assert (20 <= len data) as Hd
    by (unfold data; rewrite len_app, len_marshalHeader; pose proof (len_nonneg (marshal (av AVPCodeEVENTTIMESTAMP (VOctetString value) M P 0) ++ rest)); lia).
  assert (unmarshalHeader (take 20 data) = Ok h) as E.
  { unfold data. rewrite (take_length_app _ _ 20), <- (app_nil_r (marshalHeader h)) by done.
    by apply unmarshal_marshalHeader. }
  assert (wf_avp (av AVPCodeEVENTTIMESTAMP (VOctetString value) M P 0)) as Hw by by apply wf_av.
  split; intros m.
  - change (AccountingRequest.Unmarshal data m) with
      (unmarshal_message AccountingRequest.field data m (fun h => m <| AccountingRequest.Header := h |>)).
    rewrite unmarshal_in_range, (proj2 (Z.ltb_ge _ 20)), E by done.
    unfold data. rewrite (drop_length_app _ _ 20) by done.
    apply scan_panics; [done|]. by apply AccountingRequest.ACR_field_panics.
  - change (AccountingAnswer.Unmarshal data m) with
      (unmarshal_message AccountingAnswer.field data m (fun h => m <| AccountingAnswer.Header := h |>)).
    rewrite unmarshal_in_range, (proj2 (Z.ltb_ge _ 20)), E by done.
    unfold data. rewrite (drop_length_app _ _ 20) by done.
    apply scan_panics; [done|]. by apply AccountingAnswer.ACA_field_panics.
Qed.
