(* ===== verification/Framing.v ===== *)
(** * Cutting a TCP stream into messages

    Three readers: [ReadMessage] ([pkg/connection/message.go], used by the
    client's read loop), [readMessage] ([dra/peer.go]) and the loop of the
    server's connection, [readLoop] ([server/connection.go]).  A stream is the
    list of the bytes that the peer sends before it closes; [ReadFull] is
    [io.ReadFull] on it. *)

From S2P Require Import Prelude Binary Wire.

Inductive read_error : Type :=
| ErrEOF
| ErrUnexpectedEOF (got : Z)
| ErrMessageLength (n : Z)   (* shorter than a header, or over the reader's limit *)
| ErrBadVersion
| ErrReadBody (e : read_error).

(** [io.ReadFull(r, b)] with [len b = n]: what is read, and what is left. *)
Definition ReadFull (n : Z) (s : bytes) : outcome read_error bytes * bytes :=
  if n =? 0 then (Ok [], s)
  else if len s <? n then (Err (if len s =? 0 then ErrEOF else ErrUnexpectedEOF (len s)), [])
  else (Ok (take (Z.to_nat n) s), drop (Z.to_nat n) s).

(** ** [ReadMessage] *)

Definition maxMessageLength : Z := 4096.

Record Message := { msg_Length : Z; msg_Header : bytes; msg_Body : bytes }.

(** A pooled [bytes.Buffer] is its backing array: [buf.Bytes()\[:l\]] reslices
    it up to its capacity.  [newReaderBuffer] takes one from the pool or makes
    one; every pooled buffer has been through [putReaderBuffer]. *)
Definition newReaderBuffer (pooled : option bytes) : bytes :=
  match pooled with
  | Some b => b
  | None => replicate (Z.to_nat maxMessageLength) Byte.x00
  end.

(** [None]: the buffer is left to the garbage collector. *)
Definition putReaderBuffer (b : bytes) : option bytes :=
  if len b =? maxMessageLength then Some b else None.

(** [None] is a slice out of range. *)
Definition readerBufferSlice (buf : bytes) (l : Z) : option bytes :=
  if (l <=? maxMessageLength) && (maxMessageLength <=? len buf)
  then (if l <=? len buf then Some (take (Z.to_nat l) buf) else None)
  else Some (replicate (Z.to_nat l) Byte.x00).

Definition readHeader (buf s : bytes) : outcome read_error Message * bytes :=
  if len buf <? 20 then (Panic, s)
  else
    match ReadFull 20 s with
    | (Ok b, s) =>
        let l := Z.lor (Z.lor (Z.shiftl (at_ b 1) 16) (Z.shiftl (at_ b 2) 8)) (at_ b 3) in
        if l <? 20 then (Err (ErrMessageLength l), s)
        else (Ok {| msg_Length := l; msg_Header := b; msg_Body := [] |}, s)
    | (Err e, s) => (Err e, s)
    | (Panic, s) => (Panic, s)
    end.

Definition readBody (m : Message) (buf s : bytes) : outcome read_error Message * bytes :=
  if msg_Length m <=? 20 then (Ok (m <| msg_Body := [] |>), s)
  else
    let bodyLen := msg_Length m - 20 in
    match readerBufferSlice buf bodyLen with
    | None => (Panic, s)
    | Some b =>
        match ReadFull (len b) s with
        | (Ok b, s) => (Ok (m <| msg_Body := b |>), s)
        | (Err e, s) => (Err (ErrReadBody e), s)
        | (Panic, s) => (Panic, s)
        end
    end.

Definition ReadMessage (pooled : option bytes) (s : bytes) : outcome read_error Message * bytes :=
  let buf := newReaderBuffer pooled in
  match readHeader buf s with
  | (Ok m, s) => readBody m buf s
  | (Err e, s) => (Err e, s)
  | (Panic, s) => (Panic, s)
  end.

(** ** The DRA's [readMessage] *)

Definition headerLen : Z := 20.

Definition readMessage (s : bytes) : outcome read_error bytes * bytes :=
  match ReadFull 4 s with
  | (Ok prefix, s) =>
      if negb (at_ prefix 0 =? 1) then (Err ErrBadVersion, s)
      else
        let total :=
          Z.lor (Z.lor (Z.shiftl (at_ prefix 1) 16) (Z.shiftl (at_ prefix 2) 8)) (at_ prefix 3) in
        if (total <? headerLen) || (2 ^ 20 <? total) then (Err (ErrMessageLength total), s)
        else
          match ReadFull (total - 4) s with
          | (Ok rest, s) => (Ok (prefix ++ rest), s)
          | (Err e, s) => (Err e, s)
          | (Panic, s) => (Panic, s)
          end
  | (Err e, s) => (Err e, s)
  | (Panic, s) => (Panic, s)
  end.

(** ** The server's [readLoop] *)

Record ReadStats := { MessagesReceived : Z; BytesReceived : Z; Errors : Z }.

(** One iteration, without the counters; the limit is the configured one as
    a [uint32]. *)
Definition readLoop_message (MaxMessageSize : Z) (s : bytes) : outcome read_error bytes * bytes :=
  match ReadFull 20 s with
  | (Ok header, s) =>
      let msgLen := be_get (Byte.x00 :: slice header 1 4) in
      if (msgLen <? 20) || (MaxMessageSize <? msgLen) then (Err (ErrMessageLength msgLen), s)
      else
        match ReadFull (msgLen - 20) s with
        | (Ok body, s) => (Ok (header ++ body), s)
        | (Err e, s) => (Err (ErrReadBody e), s)
        | (Panic, s) => (Panic, s)
        end
  | (Err e, s) => (Err e, s)
  | (Panic, s) => (Panic, s)
  end.

(** The loop until it closes the connection: the messages given to the
    processing loop, and the counters.  An end of file between two messages
    is not an error. *)
Fixpoint readLoop (fuel : nat) (MaxMessageSize : Z) (s : bytes) (st : ReadStats)
  : list bytes * ReadStats :=
  match fuel with
  | O => ([], st)
  | S fuel =>
      match readLoop_message (to_u32 MaxMessageSize) s with
      | (Ok message, s) =>
          let st := st <| MessagesReceived ::= fun n => to_u64 (n + 1) |>
                       <| BytesReceived ::= fun n => to_u64 (n + len message) |> in
          let '(l, st) := readLoop fuel MaxMessageSize s st in (message :: l, st)
      | (Err ErrEOF, _) => ([], st)
      | (Err _, _) | (Panic, _) => ([], st <| Errors ::= fun n => to_u64 (n + 1) |>)
      end
  end.

(** ** Lemmas *)

(** [m] is one framed message: its 24-bit length field is its length. *)
Definition framed (m : bytes) : Prop := 20 <= len m /\ be_get (slice m 1 4) = len m.

(** [b1<<16 | b2<<8 | b3] is the big-endian number of the three bytes. *)
Lemma lor_bytes b1 b2 b3 :
  Z.lor (Z.lor (Z.shiftl (byteZ b1) 16) (Z.shiftl (byteZ b2) 8)) (byteZ b3) =
  be_get [b1; b2; b3].
Proof.
  pose proof (byteZ_bound b1). pose proof (byteZ_bound b2). pose proof (byteZ_bound b3).
  rewrite !be_get_cons. change (be_get []) with 0. rewrite !len_cons, len_nil.
  assert (forall x y n, 0 <= n -> 0 <= y < 2 ^ n -> Z.lor (Z.shiftl x n) y = x * 2 ^ n + y) as Hl.
  { intros x y n Hn Hy. rewrite <- Z.add_lor_land, Z.shiftl_mul_pow2 by done.
    assert (Z.land (x * 2 ^ n) y = 0) as ->; [|lia].
    apply Z.bits_inj'. intros k Hk. rewrite Z.land_spec, Z.bits_0.
    destruct (Z.lt_ge_cases k n).
    - rewrite Z.mul_pow2_bits_low by done. done.
    - rewrite <- (Z.mod_small y (2 ^ n)), Z.mod_pow2_bits_high by lia. apply andb_false_r. }
  replace (Z.shiftl (byteZ b1) 16) with (Z.shiftl (Z.shiftl (byteZ b1) 8) 8)
    by (by rewrite Z.shiftl_shiftl by lia).
  rewrite <- Z.shiftl_lor, !Hl by lia. lia.
Qed.

Lemma ReadFull_inv n s b s' :
  0 <= n -> ReadFull n s = (Ok b, s') -> s = b ++ s' /\ len b = n.
Proof.
  intros Hn. unfold ReadFull. destruct (Z.eqb_spec n 0) as [->|]; [by intros [= <- <-]|].
  destruct (Z.ltb_spec (len s) n); [done|]. intros [= <- <-].
  rewrite take_drop. split; [done|]. unfold len in *. rewrite length_take. lia.
Qed.

Lemma ReadFull_app b s n : len b = n -> ReadFull n (b ++ s) = (Ok b, s).
Proof.
  intros <-. unfold ReadFull. pose proof (len_nonneg b). pose proof (len_nonneg s).
  destruct (Z.eqb_spec (len b) 0) as [E|]; [destruct b; [done|]; rewrite len_cons in E;
    pose proof (len_nonneg b0); lia|].
  rewrite (proj2 (Z.ltb_ge _ _)) by (rewrite len_app; lia).
  rewrite take_length_app, drop_length_app by (unfold len; lia). done.
Qed.

Lemma ReadFull_no_panic n s : (ReadFull n s).1 <> Panic.
Proof. unfold ReadFull. by repeat case_match. Qed.

Lemma length_field b : 4 <= len b ->
  Z.lor (Z.lor (Z.shiftl (at_ b 1) 16) (Z.shiftl (at_ b 2) 8)) (at_ b 3) =
  be_get (slice b 1 4).
Proof.
  intros H. assert (4 <= length b)%nat as Hn by (unfold len in H; lia). clear H.
  peel b. unfold at_, slice. eval_to_nat. cbn [nth drop take]. apply lor_bytes.
Qed.

(** The length field lies in the first four bytes. *)
Lemma slice_prefix_app {A} (a b : list A) i j : 0 <= i <= j -> j <= len a -> slice (a ++ b) i j = slice a i j.
Proof.
  intros Hi Hj. unfold slice, len in *. rewrite drop_app_le by lia.
  rewrite take_app_le; [done|]. rewrite length_drop. lia.
Qed.

Lemma length_field_bound b : 4 <= len b -> 0 <= be_get (slice b 1 4) < 2 ^ 24.
Proof.
  intros H. pose proof (be_get_bound (slice b 1 4)) as Hb.
  rewrite len_slice in Hb by lia. exact Hb.
Qed.

(** Buffers of the pool have the capacity [maxMessageLength], so that no
    slice expression of [ReadMessage] is out of range. *)
Definition pool_buffer (pooled : option bytes) : Prop :=
  match pooled with Some b => len b = maxMessageLength | None => True end.

Lemma len_newReaderBuffer pooled :
  pool_buffer pooled -> len (newReaderBuffer pooled) = maxMessageLength.
Proof. destruct pooled; [done|]. intros _. cbn [newReaderBuffer]. by rewrite len_replicate, Z2Nat.id. Qed.

Lemma readerBufferSlice_ok buf l :
  len buf = maxMessageLength -> 0 <= l -> exists b, readerBufferSlice buf l = Some b /\ len b = l.
Proof.
  intros Hb Hl. unfold readerBufferSlice, maxMessageLength in *. rewrite Hb.
  destruct (Z.leb_spec l 4096); cbn [andb].
  - rewrite Z.leb_refl. eexists. split; [done|]. unfold len in *. rewrite length_take. lia.
  - eexists. split; [done|]. rewrite len_replicate. lia.
Qed.

(** The message that a framed one is split into. *)
Definition split_message (m : bytes) : Message :=
  {| msg_Length := len m; msg_Header := take 20 m; msg_Body := drop 20 m |}.

Lemma split_app h b : len h = 20 -> split_message (h ++ b) =
  {| msg_Length := 20 + len b; msg_Header := h; msg_Body := b |}.
Proof.
  intros H. unfold split_message. rewrite len_app, H.
  by rewrite take_length_app, drop_length_app by (unfold len in H; lia).
Qed.

(** A framed message seen as a prefix and the bytes after it. *)
Lemma framed_split m n : framed m -> 4 <= n <= 20 ->
  exists h b, m = h ++ b /\ len h = n /\ be_get (slice h 1 4) = n + len b /\ 20 <= n + len b.
Proof.
  intros [Hl Hf] Hn. exists (take (Z.to_nat n) m), (drop (Z.to_nat n) m).
  assert (len (take (Z.to_nat n) m) = n) as Ht
    by (unfold len in *; rewrite length_take; lia).
  rewrite take_drop. split; [done|]. split; [done|].
  rewrite <- (slice_prefix_app _ (drop (Z.to_nat n) m)) by lia. rewrite take_drop, Hf.
  assert (len m = n + len (drop (Z.to_nat n) m)) as -> by (unfold len in *; rewrite length_drop; lia).
  split; [done|]. unfold len in *. rewrite length_drop. lia.
Qed.

Lemma framed_app h b :
  4 <= len h -> be_get (slice h 1 4) = len h + len b -> 20 <= len h + len b -> framed (h ++ b).
Proof.
  intros H1 H2 H3. unfold framed. rewrite len_app, slice_prefix_app by lia. done.
Qed.

Lemma ReadMessage_spec pooled s m rest :
  pool_buffer pooled ->
  ReadMessage pooled s = (Ok m, rest) <->
  exists d, framed d /\ s = d ++ rest /\ m = split_message d.
Proof.
  intros Hp. apply len_newReaderBuffer in Hp. unfold ReadMessage, readHeader, readBody.
  set (buf := newReaderBuffer pooled) in *.
  rewrite (proj2 (Z.ltb_ge _ 20)) by (rewrite Hp; done). split.
  - destruct (ReadFull 20 s) as [[h| |] s1] eqn:E1; [|done..].
    apply ReadFull_inv in E1 as [-> Hh]; [|lia].
    rewrite length_field by lia. pose proof (length_field_bound h ltac:(lia)).
    set (l := be_get (slice h 1 4)) in *.
    destruct (Z.ltb_spec l 20); [done|]. cbn [msg_Length].
    destruct (Z.leb_spec l 20) as [Hl|Hl].
    + intros [= <- <-]. exists (h ++ []).
      split; [apply framed_app; rewrite ?len_nil; fold l; lia|].
      split; [by rewrite app_nil_r|].
      rewrite split_app, len_nil by done. unfold set_field. cbn. f_equal. lia.
    + destruct (readerBufferSlice_ok buf (l - 20) Hp ltac:(lia)) as (b & -> & Hb).
      rewrite Hb. destruct (ReadFull (l - 20) s1) as [[b'| |] s2] eqn:E2; [|done..].
      apply ReadFull_inv in E2 as [-> Hb']; [|lia]. intros [= <- <-].
      exists (h ++ b'). split; [apply framed_app; fold l; lia|]. split; [by rewrite app_assoc|].
      rewrite split_app by done. unfold set_field. cbn. f_equal. lia.
  - intros (d & Hd & -> & ->).
    destruct (framed_split d 20 Hd ltac:(lia)) as (h & b & -> & Hh & Hf & Hl).
    rewrite <- app_assoc, ReadFull_app, length_field, Hf by lia.
    pose proof (len_nonneg b). rewrite (proj2 (Z.ltb_ge _ 20)) by lia. cbn [msg_Length].
    rewrite split_app by done. destruct (Z.leb_spec (20 + len b) 20) as [Hz|Hz].
    + destruct b; [done|rewrite len_cons in *; pose proof (len_nonneg b0); lia].
    + replace (20 + len b - 20) with (len b) by lia.
      destruct (readerBufferSlice_ok buf (len b) Hp ltac:(lia)) as (b' & -> & ->).
      by rewrite ReadFull_app.
Qed.

Lemma readMessage_spec s m rest :
  readMessage s = (Ok m, rest) <->
  framed m /\ at_ m 0 = 1 /\ len m <= 2 ^ 20 /\ s = m ++ rest.
Proof.
  unfold readMessage, headerLen. split.
  - destruct (ReadFull 4 s) as [[h| |] s1] eqn:E1; [|done..].
    apply ReadFull_inv in E1 as [-> Hh]; [|lia]. rewrite length_field by lia.
    destruct (Z.eqb_spec (at_ h 0) 1) as [Hv|]; [|done]. cbn [negb].
    set (l := be_get (slice h 1 4)). destruct (Z.ltb_spec l 20); [done|].
    destruct (Z.ltb_spec (2 ^ 20) l); [done|]. cbn [orb].
    destruct (ReadFull (l - 4) s1) as [[b| |] s2] eqn:E2; [|done..].
    apply ReadFull_inv in E2 as [-> Hb]; [|lia]. intros [= <- <-].
    split; [apply framed_app; fold l; lia|]. split.
    { unfold at_ in *. rewrite app_nth1; [done|]. unfold len in Hh. lia. }
    rewrite len_app. split; [lia|]. by rewrite app_assoc.
  - intros (Hd & Hv & Hm & ->).
    destruct (framed_split m 4 Hd ltac:(lia)) as (h & b & -> & Hh & Hf & Hl).
    rewrite <- app_assoc, ReadFull_app, length_field, Hf by lia.
    assert (at_ h 0 = 1) as -> by (unfold at_ in *; rewrite app_nth1 in Hv by
      (unfold len in Hh; lia); done).
    rewrite len_app in Hm. cbn [Z.eqb Pos.eqb negb].
    rewrite (proj2 (Z.ltb_ge _ 20)), (proj2 (Z.ltb_ge (2 ^ 20) _)) by lia. cbn [orb].
    replace (4 + len b - 4) with (len b) by lia. by rewrite ReadFull_app.
Qed.

Lemma readLoop_message_spec mx s m rest :
  readLoop_message mx s = (Ok m, rest) <-> framed m /\ len m <= mx /\ s = m ++ rest.
Proof.
  unfold readLoop_message. split.
  - destruct (ReadFull 20 s) as [[h| |] s1] eqn:E1; [|done..].
    apply ReadFull_inv in E1 as [-> Hh]; [|lia]. rewrite be_get_0.
    set (l := be_get (slice h 1 4)). destruct (Z.ltb_spec l 20); [done|].
    destruct (Z.ltb_spec mx l); [done|]. cbn [orb].
    destruct (ReadFull (l - 20) s1) as [[b| |] s2] eqn:E2; [|done..].
    apply ReadFull_inv in E2 as [-> Hb]; [|lia]. intros [= <- <-].
    split; [apply framed_app; fold l; lia|]. rewrite len_app. split; [lia|].
    by rewrite app_assoc.
  - intros (Hd & Hm & ->).
    destruct (framed_split m 20 Hd ltac:(lia)) as (h & b & -> & Hh & Hf & Hl).
    rewrite <- app_assoc, ReadFull_app, be_get_0, Hf by lia. rewrite len_app in Hm.
    rewrite (proj2 (Z.ltb_ge _ 20)), (proj2 (Z.ltb_ge mx _)) by lia. cbn [orb].
    replace (20 + len b - 20) with (len b) by lia. by rewrite ReadFull_app.
Qed.

Lemma ReadMessage_no_panic pooled s :
  pool_buffer pooled -> (ReadMessage pooled s).1 <> Panic.
Proof.
  intros Hp. apply len_newReaderBuffer in Hp. unfold ReadMessage, readHeader, readBody.
  set (buf := newReaderBuffer pooled) in *.
  rewrite (proj2 (Z.ltb_ge _ 20)) by (rewrite Hp; done).
  pose proof (ReadFull_no_panic 20 s). destruct (ReadFull 20 s) as [[h| |] s1]; [|done..].
  set (l := Z.lor _ _). destruct (Z.ltb_spec l 20); [done|]. cbn [msg_Length].
  destruct (Z.leb_spec l 20); [done|].
  destruct (readerBufferSlice_ok buf (l - 20) Hp ltac:(lia)) as (b & -> & _).
  pose proof (ReadFull_no_panic (len b) s1). by destruct (ReadFull (len b) s1) as [[| |] ?].
Qed.

(** ** Theorems *)

(** C6: the three readers return exactly the framed messages.  Each succeeds
    if and only if the stream starts with one (of version 1 and at most 1 MB
    for the DRA, at most [MaxMessageSize] bytes for the server), returns it,
    split after its header for [ReadMessage], and leaves what follows; the
    contents of a pooled buffer never show, and nothing is out of range. *)
Theorem readers_exact pooled mx s rest :
  pool_buffer pooled ->
  (forall m, ReadMessage pooled s = (Ok m, rest) <->
    exists d, framed d /\ s = d ++ rest /\ m = split_message d) /\
  (ReadMessage pooled s).1 <> Panic /\
  (forall m, readMessage s = (Ok m, rest) <->
    framed m /\ at_ m 0 = 1 /\ len m <= 2 ^ 20 /\ s = m ++ rest) /\
  (forall m, readLoop_message mx s = (Ok m, rest) <->
    framed m /\ len m <= mx /\ s = m ++ rest).
Proof.
  intros Hp. split; [intros; by apply ReadMessage_spec|].
  split; [by apply ReadMessage_no_panic|].
  split; intros m; [apply readMessage_spec|apply readLoop_message_spec].
Qed.

Definition ex_frame : bytes := Byte.x01 :: be_put 3 24 ++ replicate 20 Byte.x07.

Lemma readers_exact_witness :
  ReadMessage (Some (replicate 4096 Byte.xff)) (ex_frame ++ [Byte.x01]) =
    (Ok (split_message ex_frame), [Byte.x01]).
Proof.
  assert (pool_buffer (Some (replicate 4096 Byte.xff))) as Hp by apply len_replicate.
  apply (readers_exact _ 0 _ [Byte.x01] Hp). exists ex_frame. split; [by vm_compute|done].
Defined.

Lemma readLoop_frames mx ms tail st k :
  Forall (fun m => framed m /\ len m <= to_u32 mx) ms ->
  readLoop (length ms + k) mx (concat ms ++ tail) st =
    let '(l, st') := readLoop k mx tail
      (st <| MessagesReceived := (if decide (ms = []) then MessagesReceived st
                                  else to_u64 (MessagesReceived st + len ms)) |>
          <| BytesReceived := (if decide (ms = []) then BytesReceived st
                               else to_u64 (BytesReceived st + len (concat ms))) |>) in
    (ms ++ l, st').
Proof.
  intros H. revert st. induction H as [|m ms [Hf Hm] Hms IH]; intros st.
  { cbn [length Nat.add concat app]. destruct st. by destruct (readLoop _ _ _ _). }
  cbn [length Nat.add concat]. rewrite <- app_assoc. cbn [readLoop].
  rewrite (proj2 (readLoop_message_spec (to_u32 mx) _ m (concat ms ++ tail))) by done.
  rewrite IH. destruct (decide (m :: ms = [])); [done|]. rsimpl.
  match goal with
  | |- (let '(_, _) := (let '(_, _) := readLoop _ _ _ ?a in _) in _) =
       (let '(_, _) := readLoop _ _ _ ?b in _) => assert (a = b) as ->
  end; [|by destruct (readLoop _ _ _ _)].
  destruct st as [mr br er]. unfold set_field. cbn.
  destruct (decide (ms = [])) as [->|Hne].
  - cbn. rewrite app_nil_r. done.
  - rewrite len_cons, len_app. unfold to_u64. rewrite !Zplus_mod_idemp_l. do 2 f_equal; lia.
Qed.

(** The server's loop gives the processing loop the messages that the
    peer sent, in order and unaltered, however many the peer sent before
    closing, and counts each and every byte of them; a clean end of the
    stream adds no error, a stream cut inside a message adds one. *)
Theorem readLoop_delivers mx ms cut fuel :
  Forall (fun m => framed m /\ len m <= to_u32 mx) ms ->
  len (concat ms) < 2 ^ 64 -> len ms < 2 ^ 64 -> len cut < 20 -> (length ms < fuel)%nat ->
  readLoop fuel mx (concat ms ++ cut)
    {| MessagesReceived := 0; BytesReceived := 0; Errors := 0 |} =
  (ms, {| MessagesReceived := len ms; BytesReceived := len (concat ms);
          Errors := if len cut =? 0 then 0 else 1 |}).
Proof.
  intros H Hb Hl Hc Hk.
  replace fuel with (length ms + S (fuel - length ms - 1))%nat by lia.
  rewrite readLoop_frames by done.
  pose proof (len_nonneg cut). pose proof (len_nonneg (concat ms)). pose proof (len_nonneg ms).
  assert (forall st k, readLoop (S k) mx cut st =
    ([], if len cut =? 0 then st else st <| Errors ::= fun n => to_u64 (n + 1) |>)) as ->.
  { intros st k. cbn [readLoop]. unfold readLoop_message, ReadFull. cbn [Z.eqb].
    rewrite (proj2 (Z.ltb_lt _ 20)) by done. by destruct (len cut =? 0). }
  rewrite app_nil_r. f_equal. destruct (decide (ms = [])) as [->|]; unfold set_field; cbn.
  - by destruct (len cut =? 0).
  - rewrite !to_u64_id by (unfold u64; lia). by destruct (len cut =? 0).
Qed.

Lemma readLoop_delivers_witness :
  readLoop 5 65536 (concat [ex_frame; ex_frame] ++ [Byte.x01; Byte.x00])
    {| MessagesReceived := 0; BytesReceived := 0; Errors := 0 |} =
  ([ex_frame; ex_frame], {| MessagesReceived := 2; BytesReceived := 48; Errors := 1 |}).
Proof.
  rewrite (readLoop_delivers 65536 [ex_frame; ex_frame] [Byte.x01; Byte.x00] 5);
    [done| |done|done|done|vm_compute; lia].
  repeat constructor; by vm_compute.
Defined.
