(* ===== verification/PortPool.v ===== *)
(** * The source-port pool ([pkg/portpool/portpool.go])

    A [Pool] hands out the ports of a configured range, each to one caller at
    a time, and keeps a released port in quarantine for a configured time.
    The mutex makes every method atomic, so a method is a function on the
    state.  Two arguments stand for what the environment chooses: [now], the
    clock ([cfg.Now()], in nanoseconds), and [order], the order in which
    [range] visits the quarantine map, any permutation of its keys. *)

From S2P Require Import Prelude.

Record Config := {
  SourceIP : option bytes; (* [None] is the nil IP *)
  MinPort : Z;
  MaxPort : Z;
  QuarantineDuration : Z }.

Record Pool := {
  cfg : Config;
  free : list Z;
  inUse : gmap Z bytes;
  quarantine : gmap Z Z;
  failures : Z }.

Record Stats_ := {
  s_Total : Z;
  s_InUse : Z;
  s_Quarantined : Z;
  s_Free : Z;
  s_AllocationFailures : Z }.

Inductive pool_error : Type :=
| ErrSourceIPRequired
| ErrMinPortRange
| ErrMaxPortRange
| ErrMinMaxPort
| ErrNegativeQuarantine
| ErrPoolExhausted.

(** [for port := MinPort; port <= MaxPort; port++]. *)
Definition ports (c : Config) : list Z :=
  map (fun i => MinPort c + Z.of_nat i) (seq 0 (Z.to_nat (MaxPort c - MinPort c + 1))).

Definition New (c : Config) : outcome pool_error Pool :=
  match SourceIP c with
  | None => Err ErrSourceIPRequired
  | Some _ =>
      if (MinPort c <? 1) || (65535 <? MinPort c) then Err ErrMinPortRange
      else if (MaxPort c <? 1) || (65535 <? MaxPort c) then Err ErrMaxPortRange
      else if MaxPort c <? MinPort c then Err ErrMinMaxPort
      else if QuarantineDuration c <? 0 then Err ErrNegativeQuarantine
      else Ok {| cfg := c; free := ports c; inUse := ∅; quarantine := ∅; failures := 0 |}
  end.

(** One iteration of the sweep: an expired port goes back to the free list. *)
Definition sweep1 (now : Z) (p : Pool) (port : Z) : Pool :=
  match quarantine p !! port with
  | None => p
  | Some until =>
      if negb (now <? until)
      then p <| quarantine ::= delete port |> <| free ::= fun l => l ++ [port] |>
      else p
  end.

Definition sweepQuarantineLocked (order : list Z) (now : Z) (p : Pool) : Pool :=
  if Nat.eqb (size (quarantine p)) 0 then p else foldl (sweep1 now) p order.

Definition Acquire (owner : bytes) (order : list Z) (now : Z) (p : Pool)
  : Pool * outcome pool_error Z :=
  let p := sweepQuarantineLocked order now p in
  match free p with
  | [] => (p <| failures ::= fun n => to_u64 (n + 1) |>, Err ErrPoolExhausted)
  | port :: rest =>
      (p <| free := rest |> <| inUse ::= <[port := owner]> |>, Ok port)
  end.

Definition Release (port : Z) (now : Z) (p : Pool) : Pool :=
  match inUse p !! port with
  | None => p
  | Some _ =>
      let p := p <| inUse ::= delete port |> in
      if 0 <? QuarantineDuration (cfg p)
      then p <| quarantine ::= <[port := now + QuarantineDuration (cfg p)]> |>
      else p <| free ::= fun l => l ++ [port] |>
  end.

Definition Contains (p : Pool) (port : Z) : bool :=
  (MinPort (cfg p) <=? port) && (port <=? MaxPort (cfg p)).

Definition Stats (order : list Z) (now : Z) (p : Pool) : Pool * Stats_ :=
  let p := sweepQuarantineLocked order now p in
  let total := MaxPort (cfg p) - MinPort (cfg p) + 1 in
  let used := Z.of_nat (size (inUse p)) in
  let q := Z.of_nat (size (quarantine p)) in
  let fr := total - used - q in
  let fr := if fr <? 0 then 0 else fr in
  (p, {| s_Total := total; s_InUse := used; s_Quarantined := q; s_Free := fr;
         s_AllocationFailures := failures p |}).

Definition InUseOwners (p : Pool) : gmap Z bytes := inUse p.

(** ** Invariant

    Every port of the range is in exactly one of the free list, the map of
    ports in use and the quarantine, and no other port is. *)

Record wf (p : Pool) : Prop := {
  wf_free : NoDup (free p);
  wf_free_inUse port : port ∈ free p -> inUse p !! port = None;
  wf_free_quar port : port ∈ free p -> quarantine p !! port = None;
  wf_inUse_quar port : is_Some (inUse p !! port) -> quarantine p !! port = None;
  wf_range port :
    Contains p port = true <->
    port ∈ free p \/ is_Some (inUse p !! port) \/ is_Some (quarantine p !! port) }.

(** The order in which a [range] over a map visits its keys. *)
Definition range_order {A} (m : gmap Z A) (order : list Z) : Prop :=
  order ≡ₚ (map_to_list m).*1.

Lemma range_order_elem {A} (m : gmap Z A) order port :
  range_order m order -> port ∈ order <-> is_Some (m !! port).
Proof.
  intros ->. rewrite list_elem_of_fmap. split.
  - intros ([k v] & -> & H). apply elem_of_map_to_list in H. by eexists.
  - intros [v H]. exists (port, v). split; [done|]. by apply elem_of_map_to_list.
Qed.

Lemma elem_of_ports c port : port ∈ ports c <-> MinPort c <= port <= MaxPort c.
Proof.
  unfold ports. rewrite list_elem_of_fmap. split.
  - intros (i & -> & H). apply elem_of_seq in H. lia.
  - intros H. exists (Z.to_nat (port - MinPort c)). split; [lia|].
    apply elem_of_seq. lia.
Qed.

Lemma NoDup_ports c : NoDup (ports c).
Proof. unfold ports. apply NoDup_fmap_2; [intros ???; lia|apply NoDup_seq]. Qed.

Lemma len_ports c : len (ports c) = Z.max 0 (MaxPort c - MinPort c + 1).
Proof. unfold len, ports. rewrite length_fmap, length_seq. lia. Qed.

Lemma Contains_true p port :
  Contains p port = true <-> MinPort (cfg p) <= port <= MaxPort (cfg p).
Proof. unfold Contains. rewrite andb_true_iff, !Z.leb_le. done. Qed.

(** ** Preservation *)

Lemma New_wf c p : New c = Ok p -> wf p /\ cfg p = c /\ free p = ports c /\ inUse p = ∅.
Proof.
  unfold New. intros H. repeat case_match_in H; simplify_eq. split; [|done].
  split; cbn [free inUse quarantine]; intros; try apply lookup_empty.
  - apply NoDup_ports.
  - rewrite Contains_true, elem_of_ports, !lookup_empty. cbn [cfg]. split; [by left|].
    by intros [?|[[? ?]|[? ?]]].
Qed.

Lemma sweep1_cfg now p port : cfg (sweep1 now p port) = cfg p.
Proof. unfold sweep1. by repeat case_match. Qed.

Lemma sweep1_inUse now p port : inUse (sweep1 now p port) = inUse p.
Proof. unfold sweep1. by repeat case_match. Qed.

Lemma sweep1_wf now p port : wf p -> wf (sweep1 now p port).
Proof.
  intros [Hf Hfi Hfq Hiq Hr]. unfold sweep1.
  destruct (quarantine p !! port) as [until|] eqn:E; [|done].
  destruct (negb _); [|done].
  split; rsimpl; unfold Contains in *; rsimpl.
  - apply NoDup_app. split; [done|]. split; [|apply NoDup_singleton].
    intros q Hq ->%list_elem_of_singleton. by rewrite (Hfq port) in E.
  - intros q. rewrite elem_of_app, list_elem_of_singleton. intros [Hq| ->]; [by apply Hfi|].
    destruct (inUse p !! port) eqn:Eu; [|done]. by rewrite (Hiq port) in E.
  - intros q. rewrite elem_of_app, list_elem_of_singleton. intros [Hq| ->].
    + destruct (decide (q = port)) as [->|]; [by rewrite lookup_delete_eq|].
      rewrite lookup_delete_ne by done. by apply Hfq.
    + by rewrite lookup_delete_eq.
  - intros q Hq. destruct (decide (q = port)) as [->|]; [by rewrite lookup_delete_eq|].
    rewrite lookup_delete_ne by done. by apply Hiq.
  - intros q. rewrite Hr, elem_of_app, list_elem_of_singleton.
    destruct (decide (q = port)) as [->|].
    + rewrite lookup_delete_eq, E. naive_solver.
    + rewrite lookup_delete_ne by done. naive_solver.
Qed.

(** The sweep, whatever the order of the map. *)
Lemma foldl_sweep1 now order p :
  let p' := foldl (sweep1 now) p order in
  (wf p -> wf p') /\ cfg p' = cfg p /\ inUse p' = inUse p /\ failures p' = failures p /\
  (forall port until, quarantine p' !! port = Some until <->
    quarantine p !! port = Some until /\ ~ (port ∈ order /\ until <= now)) /\
  (forall port, port ∈ free p -> port ∈ free p').
Proof.
  cbv zeta. revert p. induction order as [|q order IH]; intros p.
  { cbn. split_and!; try done. intros. set_solver. }
  cbn [foldl]. destruct (IH (sweep1 now p q)) as (Hw & -> & -> & -> & Hq & Hf).
  rewrite sweep1_cfg, sweep1_inUse.
  split; [intros; by apply Hw, sweep1_wf|]. split; [done|]. split; [done|].
  split; [unfold sweep1; by repeat case_match|]. split.
  - intros port until. rewrite Hq. unfold sweep1.
    rewrite elem_of_cons. destruct (decide (port = q)) as [->|Hne].
    + destruct (quarantine p !! q) as [u|] eqn:E; [destruct (Z.ltb_spec now u)|];
        cbn [negb]; rsimpl; rewrite ?lookup_delete_eq, ?E;
        [|split; [by intros []|]|by split; intros []].
      * split; intros [[= ->] ?]; (split; [done|]); [lia|tauto].
      * intros [[= ->] []]. by split; [left|].
    + assert (forall P : Prop, (port = q \/ P) <-> P) as -> by tauto.
      destruct (quarantine p !! q) as [u|]; [destruct (negb (now <? u))|]; rsimpl;
        rewrite ?lookup_delete_ne by done; done.
  - intros port Hp. apply Hf. unfold sweep1. repeat case_match; rsimpl; set_solver.
Qed.

Lemma sweep_spec order now p :
  range_order (quarantine p) order ->
  let p' := sweepQuarantineLocked order now p in
  (wf p -> wf p') /\ cfg p' = cfg p /\ inUse p' = inUse p /\ failures p' = failures p /\
  (forall port until, quarantine p' !! port = Some until <->
    quarantine p !! port = Some until /\ now < until) /\
  (forall port, port ∈ free p -> port ∈ free p').
Proof.
  intros Ho. unfold sweepQuarantineLocked. destruct (Nat.eqb_spec (size (quarantine p)) 0) as [E|E].
  - apply map_size_empty_iff in E. split_and!; try done. rewrite E. intros.
    rewrite lookup_empty. naive_solver.
  - destruct (foldl_sweep1 now order p) as (Hw & Hc & Hi & Hfl & Hq & Hf).
    split_and!; try done. intros port until. rewrite Hq, (range_order_elem _ _ _ Ho).
    split; intros [Hu Hn]; (split; [done|]); [|intros [_ ?]; lia].
    destruct (Z.lt_ge_cases now until); [done|]. destruct Hn. split; [by eexists|done].
Qed.

Lemma wf_ports p :
  wf p ->
  ports (cfg p) ≡ₚ free p ++ (map_to_list (inUse p)).*1 ++ (map_to_list (quarantine p)).*1.
Proof.
  intros [Hf Hfi Hfq Hiq Hr].
  assert (forall A (m : gmap Z A) port, port ∈ (map_to_list m).*1 <-> is_Some (m !! port)) as He
    by (intros; apply range_order_elem; by unfold range_order).
  apply NoDup_Permutation; [apply NoDup_ports| |].
  - apply NoDup_app. split; [done|]. split.
    { intros port Hp. rewrite elem_of_app, !He, (Hfi port), (Hfq port) by done.
      by intros [[]|[]]. }
    apply NoDup_app. split; [apply NoDup_fst_map_to_list|]. split; [|apply NoDup_fst_map_to_list].
    intros port. rewrite !He. intros Hi. rewrite Hiq by done. by intros [].
  - intros port. rewrite elem_of_ports, <- Contains_true, Hr, !elem_of_app, !He. done.
Qed.

Lemma wf_size p :
  wf p -> MinPort (cfg p) <= MaxPort (cfg p) + 1 ->
  len (free p) + Z.of_nat (size (inUse p)) + Z.of_nat (size (quarantine p)) =
    MaxPort (cfg p) - MinPort (cfg p) + 1.
Proof.
  intros Hw Hr. pose proof (wf_ports p Hw) as H. apply Permutation_length in H.
  pose proof (len_ports (cfg p)) as Hl. unfold len in *. rewrite H in Hl.
  rewrite !length_app, !length_fmap, !length_map_to_list in Hl. lia.
Qed.

Lemma Acquire_wf owner order now p :
  range_order (quarantine p) order -> wf p -> wf (Acquire owner order now p).1.
Proof.
  intros Ho Hp. unfold Acquire. destruct (sweep_spec order now p Ho) as (Hw & _).
  set (q := sweepQuarantineLocked order now p) in *. destruct (Hw Hp) as [Hf Hfi Hfq Hiq Hr].
  destruct (free q) as [|port rest] eqn:E; cbn [fst].
  { split; unfold Contains in *; rsimpl; rewrite ?E; try done. }
  apply NoDup_cons in Hf as [Hn Hf].
  assert (port ∈ port :: rest) as Hin by set_solver.
  split; unfold Contains in *; rsimpl.
  - done.
  - intros k Hk. rewrite lookup_insert_ne by set_solver. apply Hfi. set_solver.
  - intros k Hk. apply Hfq. set_solver.
  - intros k. destruct (decide (port = k)) as [<-|]; [by rewrite (Hfq port)|].
    rewrite lookup_insert_ne by done. apply Hiq.
  - intros k. rewrite Hr, elem_of_cons. destruct (decide (port = k)) as [<-|].
    + rewrite lookup_insert_eq. naive_solver.
    + rewrite lookup_insert_ne by done. naive_solver.
Qed.

Lemma Release_wf port now p : wf p -> wf (Release port now p).
Proof.
  intros [Hf Hfi Hfq Hiq Hr]. unfold Release.
  destruct (inUse p !! port) as [o|] eqn:E; [|done]. cbv zeta. rsimpl.
  assert (port ∉ free p) as Hn by (intros Hp; by rewrite (Hfi port) in E).
  assert (quarantine p !! port = None) as Hq by (apply Hiq; by rewrite E).
  destruct (0 <? _); split; unfold Contains in *; rsimpl.
  - done.
  - intros k Hk. rewrite lookup_delete_ne by set_solver. by apply Hfi.
  - intros k Hk. rewrite lookup_insert_ne by set_solver. by apply Hfq.
  - intros k. destruct (decide (port = k)) as [<-|].
    + rewrite lookup_delete_eq. by intros [].
    + rewrite lookup_delete_ne, lookup_insert_ne by done. apply Hiq.
  - intros k. rewrite Hr. destruct (decide (port = k)) as [<-|].
    + rewrite E, lookup_insert_eq. naive_solver.
    + by rewrite lookup_delete_ne, lookup_insert_ne by done.
  - apply NoDup_app. split; [done|]. split; [|apply NoDup_singleton].
    by intros q Hqf ->%list_elem_of_singleton.
  - intros k. rewrite elem_of_app, list_elem_of_singleton. intros [Hk| ->].
    + rewrite lookup_delete_ne by set_solver. by apply Hfi.
    + apply lookup_delete_eq.
  - intros k. rewrite elem_of_app, list_elem_of_singleton. intros [Hk| ->]; [by apply Hfq|done].
  - intros k. destruct (decide (port = k)) as [<-|].
    + rewrite lookup_delete_eq. by intros [].
    + rewrite lookup_delete_ne by done. apply Hiq.
  - intros k. rewrite Hr, elem_of_app, list_elem_of_singleton. destruct (decide (port = k)) as [<-|].
    + rewrite E, lookup_delete_eq. naive_solver.
    + rewrite lookup_delete_ne by done. naive_solver.
Qed.

Lemma Stats_wf order now p :
  range_order (quarantine p) order -> wf p -> wf (Stats order now p).1.
Proof. intros Ho Hp. by apply (sweep_spec order now p Ho). Qed.

(** ** Runs

    A run is a sequence of calls; [held] is what the callers hold after it,
    read off the calls and their results alone. *)

Inductive event : Type :=
| EvAcquire (owner : bytes) (order : list Z) (now : Z)
| EvRelease (port : Z) (now : Z)
| EvStats (order : list Z) (now : Z).

Inductive result : Type :=
| RAcquire (r : outcome pool_error Z)
| RRelease
| RStats (s : Stats_).

Definition ev_now (e : event) : Z :=
  match e with EvAcquire _ _ now | EvRelease _ now | EvStats _ now => now end.

Definition step (e : event) (p : Pool) : Pool * result :=
  match e with
  | EvAcquire owner order now =>
      let '(p, r) := Acquire owner order now p in (p, RAcquire r)
  | EvRelease port now => (Release port now p, RRelease)
  | EvStats order now => let '(p, s) := Stats order now p in (p, RStats s)
  end.

Definition ev_ok (e : event) (p : Pool) : Prop :=
  match e with
  | EvAcquire _ order _ | EvStats order _ => range_order (quarantine p) order
  | EvRelease _ _ => True
  end.

Inductive run : Pool -> list (event * result) -> Pool -> Prop :=
| run_nil p : run p [] p
| run_step p e tr q :
    ev_ok e p -> run (step e p).1 tr q -> run p ((e, (step e p).2) :: tr) q.

Definition held1 (h : gmap Z bytes) (er : event * result) : gmap Z bytes :=
  match er with
  | (EvAcquire owner _ _, RAcquire (Ok port)) => <[port := owner]> h
  | (EvRelease port _, _) => delete port h
  | _ => h
  end.
Definition held (tr : list (event * result)) : gmap Z bytes := foldl held1 ∅ tr.

Lemma step_wf e p : ev_ok e p -> wf p -> wf (step e p).1.
Proof.
  destruct e as [owner order now|port now|order now]; cbn; intros Ho Hp.
  - pose proof (Acquire_wf owner order now p Ho Hp). by destruct (Acquire _ _ _ _).
  - by apply Release_wf.
  - by apply (Stats_wf order now p Ho).
Qed.

Lemma Acquire_cases owner order now p p' r :
  range_order (quarantine p) order -> Acquire owner order now p = (p', r) ->
  (exists port, r = Ok port /\ inUse p' = <[port := owner]> (inUse p) /\
     port ∈ free (sweepQuarantineLocked order now p) /\
     quarantine p' = quarantine (sweepQuarantineLocked order now p)) \/
  (r = Err ErrPoolExhausted /\ inUse p' = inUse p /\
   free (sweepQuarantineLocked order now p) = [] /\
   quarantine p' = quarantine (sweepQuarantineLocked order now p)).
Proof.
  intros Ho. unfold Acquire. destruct (sweep_spec order now p Ho) as (_ & _ & Hi & _).
  destruct (free _) as [|port rest] eqn:E; intros [= <- <-]; rsimpl; rewrite Hi.
  - by right.
  - left. exists port. split_and!; try done. set_solver.
Qed.

Lemma step_inUse e p : ev_ok e p -> inUse (step e p).1 = held1 (inUse p) (e, (step e p).2).
Proof.
  destruct e as [owner order now|port now|order now]; cbn; intros Ho.
  - destruct (Acquire _ _ _ _) as [p' r] eqn:E.
    apply (Acquire_cases _ _ _ _ _ _ Ho) in E as [(port & -> & Hi & _)|(-> & Hi & _)];
      cbn; by rewrite Hi.
  - unfold Release. destruct (inUse p !! port) eqn:E; [|by rewrite delete_id].
    cbv zeta. destruct (0 <? _); by rsimpl.
  - by apply sweep_spec.
Qed.

Lemma step_cfg e p : ev_ok e p -> cfg (step e p).1 = cfg p.
Proof.
  destruct e as [owner order now|port now|order now]; cbn; intros Ho.
  - unfold Acquire. destruct (sweep_spec order now p Ho) as (_ & Hc & _).
    by destruct (free _).
  - unfold Release. destruct (inUse p !! port); [|done]. cbv zeta. by destruct (0 <? _).
  - by apply sweep_spec.
Qed.

Lemma run_inv p tr q :
  run p tr q -> wf p -> wf q /\ cfg q = cfg p /\ inUse q = foldl held1 (inUse p) tr.
Proof.
  induction 1 as [p|p e tr q Ho Hr IH]; intros Hp; [done|].
  destruct IH as (Hq & -> & ->); [by apply step_wf|].
  rewrite step_cfg, step_inUse by done. done.
Qed.

Lemma run_app p tr1 tr2 q : run p (tr1 ++ tr2) q -> exists m, run p tr1 m /\ run m tr2 q.
Proof.
  revert p. induction tr1 as [|er tr1 IH]; intros p H; [by eexists; split; [apply run_nil|]|].
  inversion H; subst. destruct (IH _ H5) as (m & H1 & H2).
  exists m. split; [by apply run_step|done].
Qed.

Lemma wf_free_in_range p port : wf p -> port ∈ free p -> MinPort (cfg p) <= port <= MaxPort (cfg p).
Proof. intros Hw Hp. apply Contains_true, (wf_range p Hw). by left. Qed.

(** A quarantined port stays where it is while its time has not come. *)
Lemma step_quarantined e p port until :
  ev_ok e p -> wf p -> quarantine p !! port = Some until -> ev_now e < until ->
  quarantine (step e p).1 !! port = Some until /\
  (step e p).2 <> RAcquire (Ok port).
Proof.
  destruct e as [owner order now|k now|order now]; cbn; intros Ho Hp Hq Hn.
  - destruct (Acquire _ _ _ _) as [p' r] eqn:E. cbn.
    destruct (sweep_spec order now p Ho) as (Hw & _ & _ & _ & Hsq & _).
    assert (quarantine (sweepQuarantineLocked order now p) !! port = Some until) as Hs
      by (by apply Hsq).
    apply (Acquire_cases _ _ _ _ _ _ Ho) in E as [(k & -> & _ & Hk & ->)|(-> & _ & _ & ->)];
      (split; [done|]); [|done].
    intros [= ->]. by rewrite (wf_free_quar _ (Hw Hp) port Hk) in Hs.
  - split; [|done]. unfold Release. destruct (inUse p !! k) eqn:Ek; [|done]. cbv zeta.
    destruct (0 <? _); rsimpl; [|done]. rewrite lookup_insert_ne; [done|].
    intros ->. rewrite (wf_inUse_quar _ Hp port) in Hq; [done|by rewrite Ek].
  - split; [|done]. by apply sweep_spec.
Qed.

Lemma run_quarantined p tr q port until :
  run p tr q -> wf p -> quarantine p !! port = Some until ->
  Forall (fun er => ev_now er.1 < until) tr ->
  Forall (fun er => er.2 <> RAcquire (Ok port)) tr.
Proof.
  induction 1 as [p|p e tr q Ho Hr IH]; intros Hp Hq Hn; [done|].
  apply Forall_cons in Hn as [Hn Htr]. cbn in Hn.
  destruct (step_quarantined e p port until Ho Hp Hq Hn) as [Hq' Hne].
  apply Forall_cons. split; [done|]. apply IH; [by apply step_wf|done|done].
Qed.

(** ** Theorems *)

Section Examples.

(** A pool of three ports with a quarantine of 60, used by the witnesses. *)
Definition ex_cfg : Config :=
  {| SourceIP := Some (replicate 4 Byte.x01); MinPort := 56000; MaxPort := 56002;
     QuarantineDuration := 60 |}.
Definition ex_pool : Pool :=
  {| cfg := ex_cfg; free := [56000; 56001; 56002]; inUse := ∅; quarantine := ∅; failures := 0 |}.

Lemma ex_New : New ex_cfg = Ok ex_pool.
Proof. reflexivity. Qed.

Definition ex_acquire (now : Z) : event := EvAcquire (gostr "conn-1") [] now.

Lemma ex_order : range_order (∅ : gmap Z Z) [].
Proof. unfold range_order. by rewrite map_to_list_empty. Qed.

Lemma ex_wf : wf ex_pool.
Proof. apply (New_wf ex_cfg), ex_New. Qed.

(** A pool of one port. *)
Definition one_cfg : Config :=
  {| SourceIP := Some (replicate 4 Byte.x01); MinPort := 56000; MaxPort := 56000;
     QuarantineDuration := 0 |}.
Definition one_pool : Pool :=
  {| cfg := one_cfg; free := [56000]; inUse := ∅; quarantine := ∅; failures := 0 |}.
Lemma one_wf : wf (step (ex_acquire 5) one_pool).1.
Proof. apply step_wf; [exact ex_order|by apply (New_wf one_cfg)]. Qed.

Lemma ex_run : run ex_pool [(ex_acquire 5, RAcquire (Ok 56000))] (step (ex_acquire 5) ex_pool).1.
Proof.
  apply (run_step ex_pool (ex_acquire 5)); [exact ex_order|apply run_nil].
Qed.

End Examples.

(** C5: the pool hands out every port to one caller at a time.  After any
    sequence of calls on a new pool the ports recorded in use, with their
    owners, are the ones that were acquired and not released since; the three
    collections partition the range; and a port that [Acquire] returns next is
    in the range and held by nobody. *)
Theorem pool_exclusive c p0 tr p :
  New c = Ok p0 -> run p0 tr p ->
  wf p /\ inUse p = held tr /\
  (forall owner order now p' port,
     range_order (quarantine p) order -> Acquire owner order now p = (p', Ok port) ->
     MinPort c <= port <= MaxPort c /\ held tr !! port = None).
Proof.
  intros Hn Hr. apply New_wf in Hn as (Hw0 & <- & _ & Hi0).
  destruct (run_inv p0 tr p Hr Hw0) as (Hw & Hc & Hi). rewrite Hi0 in Hi.
  split; [done|]. split; [done|]. intros owner order now p' port Ho Ha.
  destruct (sweep_spec order now p Ho) as (Hws & Hcs & His & _).
  apply (Acquire_cases _ _ _ _ _ _ Ho) in Ha as [(k & [= ->] & _ & Hk & _)|[? _]]; [|done].
  rewrite <- Hc, <- Hcs. split; [by apply wf_free_in_range; [apply Hws|]|].
  unfold held. rewrite <- Hi, <- His. by apply (wf_free_inUse _ (Hws Hw)).
Qed.

Lemma pool_exclusive_witness :
  inUse (step (ex_acquire 5) ex_pool).1 = {[ 56000 := gostr "conn-1" ]}.
Proof. by rewrite (proj1 (proj2 (pool_exclusive ex_cfg ex_pool _ _ ex_New ex_run))). Defined.

(** [Acquire] reports an exhausted pool exactly when every port of the
    range is held or still in quarantine; then it counts the failure and
    changes nothing else. *)
Theorem acquire_exhausted_iff owner order now p :
  wf p -> range_order (quarantine p) order ->
  ((Acquire owner order now p).2 = Err ErrPoolExhausted <->
   forall port, MinPort (cfg p) <= port <= MaxPort (cfg p) ->
     is_Some (inUse p !! port) \/
     exists until, quarantine p !! port = Some until /\ now < until) /\
  ((Acquire owner order now p).2 = Err ErrPoolExhausted ->
   inUse (Acquire owner order now p).1 = inUse p /\
   failures (Acquire owner order now p).1 = to_u64 (failures p + 1)).
Proof.
  intros Hp Ho. destruct (sweep_spec order now p Ho) as (Hw & Hc & Hi & Hfl & Hq & _).
  unfold Acquire. set (s := sweepQuarantineLocked order now p) in *.
  pose proof (fun port => wf_range s (Hw Hp) port) as Hr.
  assert (forall port, MinPort (cfg p) <= port <= MaxPort (cfg p) <->
    port ∈ free s \/ is_Some (inUse p !! port) \/
    exists until, quarantine p !! port = Some until /\ now < until) as Hpart.
  { intros port. rewrite <- Hc, <- Contains_true, Hr, Hi.
    assert (is_Some (quarantine s !! port) <->
      exists until, quarantine p !! port = Some until /\ now < until) as ->
      by (unfold is_Some; setoid_rewrite Hq; done). done. }
  destruct (free s) as [|k rest] eqn:E; cbn [fst snd]; rsimpl.
  - split; [|by rewrite Hi, Hfl]. split; [|done]. intros _ port Hport.
    apply Hpart in Hport as [?|?]; [set_solver|done].
  - split; [|done]. split; [done|]. intros Hall. exfalso.
    assert (k ∈ free s) as Hk by (rewrite E; set_solver).
    assert (MinPort (cfg p) <= k <= MaxPort (cfg p)) as Hk'
      by (apply Hpart; left; set_solver).
    destruct (Hall k Hk') as [[o Hu]|(u & Hu)].
    + rewrite <- Hi, (wf_free_inUse s (Hw Hp) k Hk) in Hu. done.
    + apply Hq in Hu. by rewrite (wf_free_quar s (Hw Hp) k Hk) in Hu.
Qed.

Lemma acquire_exhausted_iff_witness :
  failures (Acquire (gostr "conn-2") [] 6 (step (ex_acquire 5) one_pool).1).1 = 1.
Proof.
  apply (proj2 (acquire_exhausted_iff (gostr "conn-2") [] 6 _ one_wf ex_order)).
  by vm_compute.
Defined.

(** A released port is not handed out again before its quarantine ends,
    whatever is called in the meantime and in whatever order the sweeps visit
    the map. *)
Theorem quarantine_respected p port t tr q :
  wf p -> is_Some (inUse p !! port) -> 0 < QuarantineDuration (cfg p) ->
  run (Release port t p) tr q ->
  Forall (fun er => ev_now er.1 < t + QuarantineDuration (cfg p)) tr ->
  Forall (fun er => er.2 <> RAcquire (Ok port)) tr.
Proof.
  intros Hp [o Ho] Hd Hr Hn.
  eapply run_quarantined; [done|by apply Release_wf| |done].
  unfold Release. rewrite Ho. cbv zeta. rsimpl. rewrite (proj2 (Z.ltb_lt _ _) Hd).
  rsimpl. apply lookup_insert_eq.
Qed.

Lemma quarantine_respected_witness :
  let e := EvAcquire (gostr "conn-2") [56000] 60 in
  let p := (step (ex_acquire 5) ex_pool).1 in
  Forall (fun er => er.2 <> RAcquire (Ok 56000)) [(e, (step e (Release 56000 10 p)).2)].
Proof.
  intros e p.
  apply (quarantine_respected p 56000 10 _ (step e (Release 56000 10 p)).1).
  - apply step_wf; [exact ex_order|exact ex_wf].
  - vm_compute. by eexists.
  - by vm_compute.
  - apply (run_step _ e); [|apply run_nil].
    change (range_order ({[56000 := 70]} : gmap Z Z) [56000]).
    unfold range_order. by rewrite map_to_list_singleton.
  - constructor; [by vm_compute|constructor].
Defined.

(** [Stats] always accounts for every port: what it reports free is the
    length of the free list (the clamp to zero never applies), and free, in
    use and quarantined add up to the size of the range. *)
Theorem stats_exact c p0 tr p order now :
  New c = Ok p0 -> run p0 tr p -> range_order (quarantine p) order ->
  let '(p', s) := Stats order now p in
  s_Free s = len (free p') /\
  s_Free s + s_InUse s + s_Quarantined s = s_Total s /\
  s_Total s = MaxPort c - MinPort c + 1.
Proof.
  intros Hn Hr Ho.
  assert (MinPort c <= MaxPort c) as Hmm.
  { unfold New in Hn. repeat case_match_in Hn; simplify_eq. b2p. lia. }
  apply New_wf in Hn as (Hw0 & Hc0 & _).
  destruct (run_inv p0 tr p Hr Hw0) as (Hw & Hc & _). rewrite Hc0 in Hc.
  destruct (sweep_spec order now p Ho) as (Hws & Hcs & _). specialize (Hws Hw).
  unfold Stats. set (s := sweepQuarantineLocked order now p) in *.
  pose proof (wf_size s Hws) as Hs. pose proof (len_nonneg (free s)).
  rewrite Hcs, Hc in *. cbn [s_Free s_InUse s_Quarantined s_Total].
  rewrite (proj2 (Z.ltb_ge _ 0)) by lia. split; [lia|]. split; [lia|done].
Qed.

Lemma stats_exact_witness :
  s_Free (Stats [] 9 (step (ex_acquire 5) ex_pool).1).2 = 2.
Proof.
  pose proof (stats_exact ex_cfg ex_pool _ _ [] 9 ex_New ex_run ex_order) as H.
  rewrite (surjective_pairing (Stats _ _ _)) in H. destruct H as (-> & _). by vm_compute.
Defined.

(** [Release] of a port that nobody holds, released twice or out of the
    range, changes nothing. *)
Theorem release_idempotent port t1 t2 p :
  wf p ->
  Release port t2 (Release port t1 p) = Release port t1 p /\
  (Contains p port = false -> Release port t1 p = p).
Proof.
  intros Hp. split.
  - unfold Release at 1. assert (inUse (Release port t1 p) !! port = None) as ->; [|done].
    unfold Release. destruct (inUse p !! port) eqn:E; [|done]. cbv zeta.
    destruct (0 <? _); rsimpl; apply lookup_delete_eq.
  - intros Hc. unfold Release. destruct (inUse p !! port) eqn:E; [|done].
    exfalso. assert (Contains p port = true) by (apply (wf_range p Hp); right; left; by rewrite E).
    congruence.
Qed.

Lemma release_idempotent_witness : Release 80 7 ex_pool = ex_pool.
Proof. apply (release_idempotent 80 7 8 ex_pool ex_wf). by vm_compute. Defined.
