(* ===== verification/DraAvp.v ===== *)
(** * The routing agent's view of a message ([dra/avp.go], [sendProtocolError])

    The DRA does not decode what it forwards: it walks the top-level AVPs,
    reads four of them, replaces two and copies the others byte for byte.
    Slices of the received message are the point where this can go wrong: the
    message that [readMessage] returns has no spare capacity, so a slice past
    its end panics. *)

From S2P Require Import Prelude Binary DataTypes Wire Message Framing.

Definition avpOriginHost : Z := 264.
Definition avpOriginRealm : Z := 296.
Definition avpDestinationHost : Z := 293.
Definition avpDestinationRealm : Z := 283.

Inductive dra_error : Type :=
| ErrShortHeader
| ErrMessageTooShort
| ErrTruncatedAVPHeader
| ErrBadAVPLength
| ErrTruncatedVendorAVP
| ErrBadAVPDataLength
| ErrOutOfFuel. (* never with the fuel given *)

(** ** Header *)

Record parsedHeader := {
  ph_Version : Z;
  ph_Length : Z;
  ph_Flags : Z;
  ph_CommandCode : Z;
  ph_ApplicationID : Z;
  ph_HopByHopID : Z;
  ph_EndToEndID : Z }.

Definition isRequest (h : parsedHeader) : bool := has_bit (ph_Flags h) 128.

(** [uint32(b1)<<16 | uint32(b2)<<8 | uint32(b3)] at offset [i]. *)
Definition uint24_at {E} (b : bytes) (i : nat) : outcome E Z :=
  (try b1 <- index b i ;; try b2 <- index b (i + 1) ;; try b3 <- index b (i + 2) ;;
   Ok (Z.lor (Z.lor (Z.shiftl b1 16) (Z.shiftl b2 8)) b3))%outcome.

Definition parseHeader (b : bytes) : outcome dra_error parsedHeader :=
  if len b <? headerLen then Err ErrShortHeader
  else
    (try version <- index b 0 ;;
     try length <- uint24_at b 1 ;;
     try flags <- index b 4 ;;
     try commandCode <- uint24_at b 5 ;;
     try applicationID <- Uint32_at b 8 ;;
     try hopByHopID <- Uint32_at b 12 ;;
     try endToEndID <- Uint32_at b 16 ;;
     Ok {| ph_Version := version; ph_Length := length; ph_Flags := flags; ph_CommandCode := commandCode;
           ph_ApplicationID := applicationID; ph_HopByHopID := hopByHopID;
           ph_EndToEndID := endToEndID |})%outcome.

(** In place, on a buffer of at least 16 bytes. *)
Definition setHopByHop (msg : bytes) (id : Z) : bytes :=
  take 12 msg ++ be_put 4 id ++ drop 16 msg.

(** ** Walking the AVPs *)

Record avpLoc := { start : Z; hdrLen : Z; dataLen : Z; paddedTo : Z }.

(** One iteration at [pos], up to the call of [fn]. *)
Definition avp_at (msg : bytes) (pos : Z) : outcome dra_error (Z * Z * avpLoc * bytes) :=
  if len msg <? pos + 8 then Err ErrTruncatedAVPHeader
  else
    (try code <- Uint32_at msg pos ;;
     try flags <- index msg (Z.to_nat (pos + 4)) ;;
     try avpLen <- uint24_at msg (Z.to_nat (pos + 5)) ;;
     if (avpLen <? 8) || (len msg - pos <? avpLen) then Err ErrBadAVPLength
     else
       try (vendor, hdr) <-
         (if has_bit flags 128 then
            if len msg <? pos + 12 then Err ErrTruncatedVendorAVP
            else try vendor <- Uint32_at msg (pos + 8) ;; Ok (vendor, 12)
          else Ok (0, 8)) ;;
       let dataLen := avpLen - hdr in
       if dataLen <? 0 then Err ErrBadAVPDataLength
       else
         let padded := if negb (avpLen mod 4 =? 0) then avpLen + (4 - avpLen mod 4) else avpLen in
         let loc := {| start := pos; hdrLen := hdr; dataLen := dataLen; paddedTo := padded |} in
         try body <- slice_expr msg (pos + hdr) (pos + hdr + dataLen) ;;
         Ok (code, vendor, loc, body))%outcome.

(** The callback updates the variables [S] that it closes over; they keep
    what they hold when an error stops the walk. *)
Section Iterate.
Context {S : Type} (fn : Z -> Z -> avpLoc -> bytes -> S -> outcome dra_error S).

Fixpoint iterate_fuel (fuel : nat) (msg : bytes) (pos : Z) (s : S)
  : S * outcome dra_error unit :=
  match fuel with
  | O => (s, Err ErrOutOfFuel)
  | Datatypes.S fuel =>
      if negb (pos <? len msg) then (s, Ok tt)
      else
        match avp_at msg pos with
        | Err e => (s, Err e)
        | Panic => (s, Panic)
        | Ok (code, vendor, loc, body) =>
            match fn code vendor loc body s with
            | Err e => (s, Err e)
            | Panic => (s, Panic)
            | Ok s => iterate_fuel fuel msg (pos + paddedTo loc) s
            end
        end
  end.

Definition iterateAVPs (msg : bytes) (s : S) : S * outcome dra_error unit :=
  if len msg <? headerLen then (s, Err ErrMessageTooShort)
  else iterate_fuel (length msg) msg headerLen s.
End Iterate.

(** ** Extraction *)

Record routingView := {
  OriginHost : bytes;
  OriginRealm : bytes;
  DestinationHost : bytes;
  DestinationRealm : bytes;
  OriginHostLoc : avpLoc;
  OriginRealmLoc : avpLoc;
  hasOriginHost : bool;
  hasOriginRealm : bool }.

Definition zero_loc : avpLoc := {| start := 0; hdrLen := 0; dataLen := 0; paddedTo := 0 |}.
Definition zero_view : routingView :=
  {| OriginHost := []; OriginRealm := []; DestinationHost := []; DestinationRealm := [];
     OriginHostLoc := zero_loc; OriginRealmLoc := zero_loc;
     hasOriginHost := false; hasOriginRealm := false |}.

Definition extract_field (code vendor : Z) (loc : avpLoc) (body : bytes) (rv : routingView)
  : outcome dra_error routingView :=
  if negb (vendor =? 0) then Ok rv
  else if code =? avpOriginHost then
    Ok (rv <| OriginHost := body |> <| OriginHostLoc := loc |> <| hasOriginHost := true |>)
  else if code =? avpOriginRealm then
    Ok (rv <| OriginRealm := body |> <| OriginRealmLoc := loc |> <| hasOriginRealm := true |>)
  else if code =? avpDestinationHost then Ok (rv <| DestinationHost := body |>)
  else if code =? avpDestinationRealm then Ok (rv <| DestinationRealm := body |>)
  else Ok rv.

Definition extractRouting (msg : bytes) : routingView * outcome dra_error unit :=
  iterateAVPs extract_field msg zero_view.

(** ** Rewriting *)

(** [byte(total >> 16), byte(total >> 8), byte(total)] of a [uint32]. *)
Definition put24 (total : Z) : bytes :=
  [Zbyte (Z.shiftr total 16); Zbyte (Z.shiftr total 8); Zbyte total].

Definition encodeStringAVP (code : Z) (value : bytes) (mandatory : bool) : bytes :=
  let total := 8 + len value in
  let padded := if negb (total mod 4 =? 0) then total + (4 - total mod 4) else total in
  let flags := if mandatory then 64 else 0 in
  be_put 4 code ++ Zbyte flags :: put24 total ++ value ++
  replicate (Z.to_nat (padded - total)) Byte.x00.

(** [msg\[i:j\]] with [i <= j]: in range up to the capacity, which is the
    length. *)
Definition subslice (msg : bytes) (i j : Z) : outcome dra_error bytes :=
  if len msg <? j then Panic else Ok (slice msg i j).

Record rewriteState := { out : bytes; wroteHost : bool; wroteRealm : bool }.

Definition rewrite_field (msg newHost newRealm : bytes) (code vendor : Z) (loc : avpLoc)
    (body : bytes) (s : rewriteState) : outcome dra_error rewriteState :=
  if (vendor =? 0) && (code =? avpOriginHost) then
    Ok (s <| out ::= fun o => o ++ encodeStringAVP avpOriginHost newHost true |>
          <| wroteHost := true |>)
  else if (vendor =? 0) && (code =? avpOriginRealm) then
    Ok (s <| out ::= fun o => o ++ encodeStringAVP avpOriginRealm newRealm true |>
          <| wroteRealm := true |>)
  else
    match subslice msg (start loc) (start loc + paddedTo loc) with
    | Ok b => Ok (s <| out ::= fun o => o ++ b |>)
    | Err e => Err e
    | Panic => Panic
    end.

Definition rewriteOriginHostRealm (msg newHost newRealm : bytes) : outcome dra_error bytes :=
  if len msg <? headerLen then Err ErrMessageTooShort
  else
    let s := {| out := take (Z.to_nat headerLen) msg; wroteHost := false; wroteRealm := false |} in
    match iterateAVPs (rewrite_field msg newHost newRealm) msg s with
    | (_, Err e) => Err e
    | (_, Panic) => Panic
    | (s, Ok _) =>
        let o := out s in
        let o := if negb (wroteHost s)
                 then o ++ encodeStringAVP avpOriginHost newHost true else o in
        let o := if negb (wroteRealm s)
                 then o ++ encodeStringAVP avpOriginRealm newRealm true else o in
        Ok (take 1 o ++ put24 (to_u32 (len o)) ++ drop 4 o)
    end.

(** ** The error answer ([start.go], [sendProtocolError]): the bytes sent *)

Definition put32 (v : Z) : bytes :=
  [Zbyte (Z.shiftr v 24); Zbyte (Z.shiftr v 16); Zbyte (Z.shiftr v 8); Zbyte v].

Definition protocolError (originHost originRealm : bytes) (req : parsedHeader) (resultCode : Z)
  : bytes :=
  let rcAvp := [Byte.x00; Byte.x00; Byte.x01; Byte.x0c; Byte.x40; Byte.x00; Byte.x00; Byte.x0c]
               ++ put32 resultCode in
  let avps := rcAvp ++ encodeStringAVP avpOriginHost originHost true ++
              encodeStringAVP avpOriginRealm originRealm true in
  let total := to_u32 (headerLen + len avps) in
  (Byte.x01 :: put24 total) ++
  (Zbyte (Z.lor (Z.land (ph_Flags req) 64) 32) :: put24 (ph_CommandCode req)) ++
  put32 (ph_ApplicationID req) ++ put32 (ph_HopByHopID req) ++ put32 (ph_EndToEndID req) ++
  avps.

(** ** Lemmas: the same AVPs as the generated code reads *)

Lemma slice_drop {A} (l : list A) p i j : 0 <= p -> 0 <= i ->
  slice l (p + i) (p + j) = slice (drop (Z.to_nat p) l) i j.
Proof.
  intros Hp Hi. unfold slice. rewrite drop_drop. f_equal; [lia|f_equal; lia].
Qed.

Lemma at_drop l p i : at_ (drop p l) i = at_ l (p + i).
Proof. unfold at_. by rewrite nth_skipn. Qed.

(** *** The reads, in range *)

Definition uint24_of (b : bytes) (i : nat) : Z :=
  Z.lor (Z.lor (Z.shiftl (at_ b i) 16) (Z.shiftl (at_ b (i + 1)) 8)) (at_ b (i + 2)).

Lemma uint24_at_ok {E} b i : Z.of_nat i + 3 <= len b -> uint24_at (E := E) b i = Ok (uint24_of b i).
Proof. intros H. unfold len in H. unfold uint24_at. by rewrite !index_ok by lia. Qed.

Lemma parseHeader_eq b :
  parseHeader b =
    if len b <? headerLen then Err ErrShortHeader
    else Ok {| ph_Version := at_ b 0; ph_Length := uint24_of b 1; ph_Flags := at_ b 4;
               ph_CommandCode := uint24_of b 5; ph_ApplicationID := be_get (slice b 8 12);
               ph_HopByHopID := be_get (slice b 12 16); ph_EndToEndID := be_get (slice b 16 20) |}.
Proof.
  unfold parseHeader, headerLen. destruct (Z.ltb_spec (len b) 20); [done|].
  rewrite (index_ok b 0), (index_ok b 4), !uint24_at_ok, !Uint32_at_ok by (unfold len in *; lia). reflexivity.
Qed.

Lemma avp_at_eq msg pos :
  0 <= pos ->
  avp_at msg pos =
    if len msg <? pos + 8 then Err ErrTruncatedAVPHeader
    else
      let flags := at_ msg (Z.to_nat (pos + 4)) in
      let avpLen := uint24_of msg (Z.to_nat (pos + 5)) in
      if (avpLen <? 8) || (len msg - pos <? avpLen) then Err ErrBadAVPLength
      else if has_bit flags 128 && (len msg <? pos + 12) then Err ErrTruncatedVendorAVP
      else
        let vendor := if has_bit flags 128 then be_get (slice msg (pos + 8) (pos + 12)) else 0 in
        let hdr := if has_bit flags 128 then 12 else 8 in
        let dataLen := avpLen - hdr in
        if dataLen <? 0 then Err ErrBadAVPDataLength
        else Ok (be_get (slice msg pos (pos + 4)), vendor,
                 {| start := pos; hdrLen := hdr; dataLen := dataLen; paddedTo := padded avpLen |},
                 slice msg (pos + hdr) (pos + hdr + dataLen)).
Proof.
  intros Hp. unfold avp_at. destruct (Z.ltb_spec (len msg) (pos + 8)); [done|].
  rewrite (Uint32_at_ok msg pos), (index_ok msg), uint24_at_ok by (unfold len in *; lia). cbn [obind]. cbv zeta.
  set (n := uint24_of msg _). destruct (Z.ltb_spec n 8); [done|].
  destruct (Z.ltb_spec (len msg - pos) n); [done|]. cbn [orb].
  destruct (has_bit _ 128); cbn [andb].
  - destruct (Z.ltb_spec (len msg) (pos + 12)); [done|]. rewrite Uint32_at_ok by lia. cbn [obind].
    destruct (Z.ltb_spec (n - 12) 0); [done|]. rewrite slice_expr_ok by lia.
    by replace (pos + 8 + 4) with (pos + 12) by lia.
  - cbn [obind]. destruct (Z.ltb_spec (n - 8) 0); [done|]. by rewrite slice_expr_ok by lia.
Qed.

Lemma avp_at_nonneg msg pos x : avp_at msg pos = Ok x -> 0 <= pos.
Proof.
  unfold avp_at, Uint32_at, slice_expr. destruct (len msg <? pos + 8); [done|].
  destruct (Z.leb_spec 0 pos); [done|]. done.
Qed.

Lemma uint24_at_slice d : 8 <= len d -> uint24_of d 5 = be_get (Byte.x00 :: slice d 5 8).
Proof.
  intros H. assert (8 <= length d)%nat as Hn by (unfold len in H; lia). clear H.
  rewrite be_get_0. peel d. unfold uint24_of, at_, slice. eval_to_nat.
  cbn [nth drop take Nat.add]. apply lor_bytes.
Qed.

(** The DRA's header reader agrees with the generated one. *)
Lemma parseHeader_unmarshal b h :
  unmarshalHeader b = Ok h ->
  exists ph, parseHeader b = Ok ph /\ isRequest ph = Request (Flags h) /\
    ph_CommandCode ph = CommandCode h /\ ph_ApplicationID ph = ApplicationID h /\
    ph_HopByHopID ph = HopByHopID h /\ ph_EndToEndID ph = EndToEndID h.
Proof.
  rewrite unmarshalHeader_eq, parseHeader_eq. unfold headerLen. destruct (Z.ltb_spec (len b) 20); [done|].
  intros [= <-]. eexists. split; [done|].
  cbn [isRequest ph_Flags ph_CommandCode ph_ApplicationID ph_HopByHopID ph_EndToEndID
       Flags Request CommandCode ApplicationID HopByHopID EndToEndID].
  split; [done|]. by rewrite uint24_at_slice by lia.
Qed.

Lemma len_drop_Z {A} (l : list A) p : 0 <= p <= len l -> len (drop (Z.to_nat p) l) = len l - p.
Proof. unfold len. intros. rewrite length_drop. lia. Qed.

(** [iterateAVPs] and the generated [Unmarshal] loop split a message alike
    wherever the walk finds an AVP. *)
Lemma avp_at_next msg pos code vendor value p :
  0 <= pos <= len msg ->
  next_avp (drop (Z.to_nat pos) msg) = Ok (AvpNext code vendor value p) <->
  avp_at msg pos =
    Ok (code, vendor, {| start := pos; hdrLen := header_size (at_ (drop (Z.to_nat pos) msg) 4);
                         dataLen := len value; paddedTo := p |}, value).
Proof.
  intros Hp. rewrite next_avp_eq, avp_at_eq by lia. cbv zeta. set (d := drop (Z.to_nat pos) msg).
  assert (len d = len msg - pos) as Hd by (by apply len_drop_Z).
  destruct (Z.ltb_spec (len d) 8) as [H8|H8], (Z.ltb_spec (len msg) (pos + 8)) as [H8'|H8'];
    [done|lia|lia|].
  replace (slice msg pos (pos + 4)) with (slice d 0 4)
    by (unfold d; rewrite <- slice_drop, Z.add_0_r by lia; done).
  rewrite (slice_drop msg pos 8 12) by lia. fold d.
  assert (at_ msg (Z.to_nat (pos + 4)) = at_ d 4) as ->
    by (unfold d; rewrite at_drop; f_equal; lia).
  assert (uint24_of msg (Z.to_nat (pos + 5)) = be_get (Byte.x00 :: slice d 5 8)) as ->.
  { rewrite <- uint24_at_slice by done. unfold uint24_of, d. rewrite !at_drop.
    replace (Z.to_nat pos + 5)%nat with (Z.to_nat (pos + 5)) by lia.
    replace (Z.to_nat pos + (5 + 1))%nat with (Z.to_nat (pos + 5) + 1)%nat by lia.
    by replace (Z.to_nat pos + (5 + 2))%nat with (Z.to_nat (pos + 5) + 2)%nat by lia. }
  set (n := be_get (Byte.x00 :: slice d 5 8)). set (v := has_bit (at_ d 4) 128).
  change (header_size (at_ d 4)) with (if v then 12 else 8). set (h := if v then 12 else 8).
  assert (8 <= h) as Hh by (unfold h; destruct v; lia).
  assert ((len msg <? pos + 12) = (len d <? 12)) as ->
    by (destruct (Z.ltb_spec (len d) 12), (Z.ltb_spec (len msg) (pos + 12)); lia).
  assert ((len msg - pos <? n) = (len d <? n)) as -> by (by rewrite Hd).
  assert (slice msg (pos + h) (pos + h + (n - h)) = slice d h (h + (n - h))) as ->
    by (unfold d; rewrite <- slice_drop by lia; f_equal; lia).
  fold (padded n).
  destruct (Z.ltb_spec (len d) n) as [Hn|Hn]; [rewrite orb_true_r; done|].
  rewrite orb_false_r.
  destruct (Z.ltb_spec n 8) as [Hn8|Hn8].
  { destruct (v && (len d <? 12)); [done|].
    rewrite (proj2 (Z.ltb_lt (n - h) 0)) by lia. done. }
  destruct (v && (len d <? 12)); [done|].
  destruct (Z.ltb_spec (n - h) 0) as [Hnh|Hnh]; [done|].
  assert (len (slice d h (h + (n - h))) = n - h) as Hs by (rewrite len_slice by lia; lia).
  split.
  - intros [= <- <- <- <-]. by rewrite Hs.
  - by intros [= <- <- _ <- <-].
Qed.

(** Where the walk finds an AVP that was marshalled at [pos]. *)
Definition loc_of (pos : Z) (a : avp) : avpLoc :=
  {| start := pos; hdrLen := header_size (avp_flags a); dataLen := len (Serialize (avp_data a));
     paddedTo := len (marshal a) |}.

Lemma at_marshal_4 a rest : wf_avp a -> at_ (marshal a ++ rest) 4 = avp_flags a.
Proof.
  intros Hw. rewrite marshal_shape, <- !app_assoc by done. byte_list 4%nat (avp_code a).
  unfold at_. cbn [app nth]. rewrite byteZ_Zbyte. apply Z.mod_small, avp_flags_u8.
Qed.

Lemma avp_at_marshal pre a rest :
  wf_avp a ->
  avp_at (pre ++ marshal a ++ rest) (len pre) =
    Ok (avp_code a, avp_vendor a, loc_of (len pre) a, Serialize (avp_data a)).
Proof.
  intros Hw. pose proof (len_nonneg pre). pose proof (len_nonneg (marshal a ++ rest)).
  destruct (avp_at_next (pre ++ marshal a ++ rest) (len pre) (avp_code a) (avp_vendor a)
    (Serialize (avp_data a)) (len (marshal a))) as [Hn _]; [rewrite len_app; lia|].
  rewrite drop_Z_app, at_marshal_4 in Hn by done. apply Hn. by apply next_avp_marshal.
Qed.

(** ** Lemmas: the walk *)

Lemma avp_at_progress msg pos c v loc b :
  avp_at msg pos = Ok (c, v, loc, b) -> start loc = pos /\ 8 <= paddedTo loc.
Proof.
  intros E. pose proof (avp_at_nonneg _ _ _ E) as Hp. revert E. rewrite avp_at_eq by done. cbv zeta.
  set (n := uint24_of msg (Z.to_nat (pos + 5))).
  destruct (len msg <? pos + 8); [done|]. destruct (Z.ltb_spec n 8) as [|Hn]; [done|].
  cbn [orb]. destruct (len msg - pos <? n); [done|]. destruct (_ && _); [done|].
  destruct (_ <? 0); [done|]. intros [= _ _ <- _]. cbn [start paddedTo].
  pose proof (padded_spec n ltac:(lia)). lia.
Qed.

(** What the callback sees of the AVPs [l] that start at [pos]. *)
Section IterateLemmas.
Context {S : Type} (fn : Z -> Z -> avpLoc -> bytes -> S -> outcome dra_error S).

Lemma iterate_fuel_enough n k msg pos s :
  0 <= pos -> (Z.to_nat (len msg - pos) < n)%nat -> (n <= k)%nat ->
  iterate_fuel fn k msg pos s = iterate_fuel fn n msg pos s.
Proof.
  revert k pos s. induction n as [|n IH]; intros k pos s Hp Hn Hk; [lia|].
  destruct k as [|k]; [lia|]. cbn [iterate_fuel].
  destruct (Z.ltb_spec pos (len msg)) as [Hlt|]; [|done]. cbn [negb].
  destruct (avp_at msg pos) as [[[[c v] loc] b]|e|] eqn:E; [|done..].
  apply avp_at_progress in E as [_ Hpad].
  destruct (fn c v loc b s) as [s'|e|]; [|done..]. apply IH; lia.
Qed.

Fixpoint visit (pos : Z) (l : list avp) (s : S) : S * outcome dra_error unit :=
  match l with
  | [] => (s, Ok tt)
  | a :: l =>
      match fn (avp_code a) (avp_vendor a) (loc_of pos a) (Serialize (avp_data a)) s with
      | Err e => (s, Err e)
      | Panic => (s, Panic)
      | Ok s => visit (pos + len (marshal a)) l s
      end
  end.

Lemma len_marshal_pos a : wf_avp a -> 8 <= len (marshal a).
Proof.
  intros Hw. rewrite len_marshal by done. destruct (avp_total_u24 a Hw) as [_ H].
  pose proof (padded_spec (avp_total a) ltac:(lia)). lia.
Qed.

Lemma iterate_visit n pre l s :
  Forall wf_avp l -> (Z.to_nat (len (concat (map marshal l))) < n)%nat ->
  iterate_fuel fn n (pre ++ concat (map marshal l)) (len pre) s = visit (len pre) l s.
Proof.
  intros Hl. revert n pre s. induction Hl as [|a l Ha Hl IH]; intros n pre s Hn.
  { destruct n as [|n]; [lia|]. cbn [iterate_fuel map concat visit].
    rewrite app_nil_r, (proj2 (Z.ltb_ge _ _)) by lia. done. }
  destruct n as [|n]; [lia|]. cbn [map concat iterate_fuel visit] in *.
  pose proof (len_marshal_pos a Ha). rewrite len_app in Hn.
  pose proof (len_nonneg pre). pose proof (len_nonneg (concat (map marshal l))).
  rewrite (proj2 (Z.ltb_lt _ _)) by (rewrite !len_app; lia). cbn [negb].
  rewrite avp_at_marshal by done.
  destruct (fn _ _ _ _ _) as [s'|e|]; [|done..]. cbn [paddedTo loc_of].
  rewrite app_assoc, <- len_app. apply IH. lia.
Qed.

(** A message of twenty bytes of header and well-formed AVPs. *)
Lemma iterateAVPs_visit hdr l s :
  len hdr = headerLen -> Forall wf_avp l ->
  iterateAVPs fn (hdr ++ concat (map marshal l)) s = visit headerLen l s.
Proof.
  intros Hh Hl. unfold iterateAVPs. pose proof (len_nonneg (concat (map marshal l))).
  rewrite (proj2 (Z.ltb_ge _ _)) by (rewrite len_app; lia). rewrite <- Hh.
  apply iterate_visit; [done|]. rewrite length_app. unfold headerLen, len in *. lia.
Qed.

Lemma iterate_unfold n msg pos s :
  iterate_fuel fn (Datatypes.S n) msg pos s =
    if negb (pos <? len msg) then (s, Ok tt)
    else match avp_at msg pos with
         | Err e => (s, Err e)
         | Panic => (s, Panic)
         | Ok (code, vendor, loc, body) =>
             match fn code vendor loc body s with
             | Err e => (s, Err e)
             | Panic => (s, Panic)
             | Ok s => iterate_fuel fn n msg (pos + paddedTo loc) s
             end
         end.
Proof. done. Qed.

(** The last AVP, whose padded length reaches or passes the end. *)
Lemma iterate_last n msg pos a s :
  avp_at msg pos = Ok (avp_code a, avp_vendor a, loc_of pos a, Serialize (avp_data a)) ->
  pos < len msg -> len msg <= pos + len (marshal a) -> (2 <= n)%nat ->
  iterate_fuel fn n msg pos s =
    match fn (avp_code a) (avp_vendor a) (loc_of pos a) (Serialize (avp_data a)) s with
    | Ok s => (s, Ok tt) | Err e => (s, Err e) | Panic => (s, Panic)
    end.
Proof.
  intros Hat Hp Hl Hn. destruct n as [|[|n]]; [lia..|].
  rewrite iterate_unfold, (proj2 (Z.ltb_lt _ _)), Hat by done. cbn [negb].
  destruct (fn _ _ _ _ s); [|done..]. rewrite iterate_unfold. cbn [paddedTo loc_of].
  by rewrite (proj2 (Z.ltb_ge _ _)) by lia.
Qed.

(** Bytes after the AVPs [l]: the walk goes on with them. *)
Lemma iterate_visit_post n pre l post s :
  Forall wf_avp l -> (Z.to_nat (len (concat (map marshal l) ++ post)) < n)%nat ->
  iterate_fuel fn n (pre ++ concat (map marshal l) ++ post) (len pre) s =
  match visit (len pre) l s with
  | (s', Ok _) =>
      iterate_fuel fn n (pre ++ concat (map marshal l) ++ post)
        (len pre + len (concat (map marshal l))) s'
  | r => r
  end.
Proof.
  intros Hl. revert n pre s. induction Hl as [|a l Ha Hl IH]; intros n pre s Hn.
  { cbn [map concat visit]. by rewrite len_nil, Z.add_0_r. }
  pose proof (len_marshal_pos a Ha). pose proof (len_nonneg pre). pose proof (len_nonneg post).
  pose proof (len_nonneg (concat (map marshal l))).
  cbn [map concat] in *. rewrite !len_app in Hn. destruct n as [|n]; [lia|].
  rewrite iterate_unfold at 1.
  rewrite (proj2 (Z.ltb_lt _ _)) by (rewrite !len_app; lia). cbn [negb].
  rewrite <- app_assoc, avp_at_marshal by done. cbn [visit].
  destruct (fn _ _ _ _ _) as [s'|e|]; [|done..]. cbn [paddedTo loc_of].
  rewrite app_assoc, <- len_app, IH by (rewrite len_app; lia).
  rewrite !(len_app pre), (len_app (marshal a)), Z.add_assoc.
  destruct (visit (len pre + len (marshal a)) l s') as [s'' [[]|e|]]; [|done..].
  symmetry. apply iterate_fuel_enough; rewrite ?len_app; lia.
Qed.

End IterateLemmas.

(** ** Lemmas: the hand-written encoders *)

Lemma put24_be v : put24 v = be_put 3 v.
Proof. unfold put24, be_put. cbn [Z.of_nat Z.mul Z.mul Pos.mul]. by rewrite Z.shiftr_0_r. Qed.

Lemma put32_be v : put32 v = be_put 4 v.
Proof. unfold put32, be_put. cbn [Z.of_nat Z.mul Pos.mul]. by rewrite Z.shiftr_0_r. Qed.

(** The AVP that [encodeStringAVP(code, value, true)] builds. *)
Definition string_avp (code : Z) (value : bytes) : avp := av code (VOctetString value) true false 0.

Lemma string_avp_wf code value : u32 code -> fits value -> wf_avp (string_avp code value).
Proof. intros. by apply wf_av. Qed.

Lemma encodeStringAVP_marshal code value :
  u32 code -> fits value -> encodeStringAVP code value true = marshal (string_avp code value).
Proof.
  intros Hc Hf. rewrite marshal_shape by (by apply string_avp_wf).
  unfold encodeStringAVP. fold (padded (8 + len value)). rewrite put24_be.
  change (avp_total (string_avp code value)) with (8 + len value).
  change (vendor_bytes (string_avp code value)) with (@nil byte).
  change (avp_flags (string_avp code value)) with 64.
  change (Serialize (avp_data (string_avp code value))) with value.
  rewrite <- app_assoc. do 2 f_equal. cbn [app]. do 3 f_equal.
  pose proof (len_nonneg value). pose proof (len_pad_zeros (8 + len value) ltac:(lia)) as Hp.
  unfold pad_zeros in *. f_equal. rewrite len_replicate in Hp. lia.
Qed.

(** ** Lemmas: extraction *)

Definition is_avp (code : Z) (a : avp) : bool := (avp_vendor a =? 0) && (avp_code a =? code).

(** The value of the last AVP of a base code, empty when there is none. *)
Definition last_value (code : Z) (l : list avp) : bytes :=
  foldl (fun v a => if is_avp code a then Serialize (avp_data a) else v) [] l.

Lemma extract_field_ok a loc rv :
  let upd code v := if is_avp code a then Serialize (avp_data a) else v in
  exists rv', extract_field (avp_code a) (avp_vendor a) loc (Serialize (avp_data a)) rv = Ok rv' /\
  OriginHost rv' = upd avpOriginHost (OriginHost rv) /\
  OriginRealm rv' = upd avpOriginRealm (OriginRealm rv) /\
  DestinationHost rv' = upd avpDestinationHost (DestinationHost rv) /\
  DestinationRealm rv' = upd avpDestinationRealm (DestinationRealm rv).
Proof.
  cbv zeta. unfold extract_field, is_avp. destruct (avp_vendor a =? 0); cbn [negb andb]; [|by eexists].
  destruct (Z.eqb_spec (avp_code a) avpOriginHost) as [->|]; [by eexists|].
  destruct (Z.eqb_spec (avp_code a) avpOriginRealm) as [->|]; [by eexists|].
  destruct (Z.eqb_spec (avp_code a) avpDestinationHost) as [->|]; [by eexists|].
  destruct (avp_code a =? avpDestinationRealm); by eexists.
Qed.

Lemma visit_extract pos l rv :
  let r := visit extract_field pos l rv in
  let upd code v := foldl (fun v a => if is_avp code a then Serialize (avp_data a) else v) v l in
  r.2 = Ok tt /\
  OriginHost r.1 = upd avpOriginHost (OriginHost rv) /\
  OriginRealm r.1 = upd avpOriginRealm (OriginRealm rv) /\
  DestinationHost r.1 = upd avpDestinationHost (DestinationHost rv) /\
  DestinationRealm r.1 = upd avpDestinationRealm (DestinationRealm rv).
Proof.
  cbv zeta. revert pos rv. induction l as [|a l IH]; intros pos rv; [done|].
  cbn [visit foldl].
  destruct (extract_field_ok a (loc_of pos a) rv) as (rv' & -> & <- & <- & <- & <-).
  apply IH.
Qed.

(** ** Lemmas: rewriting *)

Section Rewrite.
Context (newHost newRealm : bytes).

Definition host_avp : avp := string_avp avpOriginHost newHost.
Definition realm_avp : avp := string_avp avpOriginRealm newRealm.

(** The AVP that takes the place of [a]. *)
Definition rewrite_avp (a : avp) : avp :=
  if is_avp avpOriginHost a then host_avp
  else if is_avp avpOriginRealm a then realm_avp else a.

(** The identity AVPs that the message lacks. *)
Definition missing (l : list avp) : list avp :=
  (if existsb (is_avp avpOriginHost) l then [] else [host_avp]) ++
  (if existsb (is_avp avpOriginRealm) l then [] else [realm_avp]).

Context (Hhost : fits newHost) (Hrealm : fits newRealm).

Lemma host_avp_wf : wf_avp host_avp.
Proof. by apply string_avp_wf. Qed.
Lemma realm_avp_wf : wf_avp realm_avp.
Proof. by apply string_avp_wf. Qed.

Lemma rewrite_avp_wf a : wf_avp a -> wf_avp (rewrite_avp a).
Proof.
  unfold rewrite_avp. destruct (is_avp avpOriginHost a); [intros; apply host_avp_wf|].
  destruct (is_avp avpOriginRealm a); [intros; apply realm_avp_wf|done].
Qed.

Lemma missing_wf l : Forall wf_avp (missing l).
Proof.
  unfold missing. apply Forall_app. split; case_match; repeat constructor;
    apply host_avp_wf || apply realm_avp_wf.
Qed.

Lemma rewrite_field_spec pre a rest s :
  wf_avp a ->
  rewrite_field (pre ++ marshal a ++ rest) newHost newRealm (avp_code a) (avp_vendor a)
    (loc_of (len pre) a) (Serialize (avp_data a)) s =
  Ok {| out := out s ++ marshal (rewrite_avp a);
        wroteHost := wroteHost s || is_avp avpOriginHost a;
        wroteRealm := wroteRealm s || (negb (is_avp avpOriginHost a) && is_avp avpOriginRealm a) |}.
Proof.
  intros Ha. unfold rewrite_field, rewrite_avp.
  fold (is_avp avpOriginHost a) (is_avp avpOriginRealm a).
  rewrite !encodeStringAVP_marshal by done. destruct s as [o wh wr].
  destruct (is_avp avpOriginHost a); [unfold set_field; cbn; by rewrite orb_true_r, orb_false_r|].
  destruct (is_avp avpOriginRealm a); [unfold set_field; cbn; by rewrite orb_true_r, orb_false_r|].
  unfold subslice, loc_of. cbn [start paddedTo].
  pose proof (len_nonneg rest).
  rewrite (proj2 (Z.ltb_ge _ _)) by (rewrite !len_app; lia).
  rewrite slice_app_mid by done. unfold set_field. cbn. by rewrite !orb_false_r.
Qed.

Lemma is_avp_disjoint a : is_avp avpOriginHost a = true -> is_avp avpOriginRealm a = false.
Proof. unfold is_avp, avpOriginHost, avpOriginRealm. intros. b2p. lia. Qed.

Lemma visit_rewrite pre l post s :
  Forall wf_avp l ->
  visit (rewrite_field (pre ++ concat (map marshal l) ++ post) newHost newRealm) (len pre) l s =
  ({| out := out s ++ concat (map marshal (map rewrite_avp l));
      wroteHost := wroteHost s || existsb (is_avp avpOriginHost) l;
      wroteRealm := wroteRealm s || existsb (is_avp avpOriginRealm) l |}, Ok tt).
Proof.
  intros Hl. revert pre s. induction Hl as [|a l Ha Hl IH]; intros pre s.
  { cbn. rewrite app_nil_r, !orb_false_r. by destruct s. }
  cbn [map concat visit existsb]. rewrite <- app_assoc, rewrite_field_spec by done.
  rewrite app_assoc, <- len_app, IH. cbn [out wroteHost wroteRealm]. do 2 f_equal.
  - by rewrite <- app_assoc.
  - by rewrite orb_assoc.
  - destruct (is_avp avpOriginHost a) eqn:E; cbn [negb andb].
    + by rewrite (is_avp_disjoint a E), orb_false_r.
    + by rewrite orb_assoc.
Qed.

(** The length field patched into a header. *)
Definition with_total (hdr : bytes) (total : Z) : bytes :=
  take 1 hdr ++ be_put 3 total ++ drop 4 hdr.

Lemma patch_length hdr body n :
  len hdr = headerLen ->
  take 1 (hdr ++ body) ++ put24 n ++ drop 4 (hdr ++ body) = with_total hdr n ++ body.
Proof.
  intros Hh. unfold with_total, headerLen, len in *.
  rewrite put24_be, take_app_le, drop_app_le by lia. by rewrite <- !app_assoc.
Qed.

Lemma rewriteOriginHostRealm_spec hdr l :
  len hdr = headerLen -> Forall wf_avp l ->
  let l' := map rewrite_avp l ++ missing l in
  rewriteOriginHostRealm (hdr ++ concat (map marshal l)) newHost newRealm =
  Ok (with_total hdr (to_u32 (headerLen + len (concat (map marshal l')))) ++
      concat (map marshal l')).
Proof.
  intros Hh Hl l'. unfold rewriteOriginHostRealm.
  pose proof (len_nonneg (concat (map marshal l))).
  rewrite (proj2 (Z.ltb_ge _ _)) by (rewrite len_app; lia).
  rewrite iterateAVPs_visit by done.
  rewrite <- (app_nil_r (hdr ++ _)) at 1. rewrite <- app_assoc, <- Hh at 1.
  rewrite visit_rewrite by done. cbn [out wroteHost wroteRealm orb].
  rewrite take_length_app by (unfold headerLen, len in *; lia).
  set (o1 := concat (map marshal (map rewrite_avp l))).
  rewrite !encodeStringAVP_marshal by done.
  assert ((if negb (existsb (is_avp avpOriginRealm) l)
    then (if negb (existsb (is_avp avpOriginHost) l) then (hdr ++ o1) ++ marshal host_avp
          else hdr ++ o1) ++ marshal realm_avp
    else if negb (existsb (is_avp avpOriginHost) l) then (hdr ++ o1) ++ marshal host_avp
         else hdr ++ o1) = hdr ++ concat (map marshal l')) as Ho.
  { unfold l', missing. rewrite map_app, concat_app. fold o1.
    destruct (existsb (is_avp avpOriginHost) l), (existsb (is_avp avpOriginRealm) l);
      cbn; rewrite ?app_nil_r, <- ?app_assoc; done. }
  fold host_avp realm_avp in Ho |- *. rewrite Ho, len_app, Hh. by rewrite patch_length.
Qed.

(** The AVP [a] without the padding that should follow it. *)
Definition unpadded (a : avp) : bytes :=
  (be_put 4 (avp_code a) ++ Zbyte (avp_flags a) :: be_put 3 (avp_total a)) ++
  vendor_bytes a ++ Serialize (avp_data a).

Lemma marshal_unpadded a : wf_avp a -> marshal a = unpadded a ++ pad_zeros (avp_total a).
Proof. intros. rewrite marshal_shape by done. unfold unpadded. by rewrite <- !app_assoc. Qed.

Lemma len_unpadded a : wf_avp a -> len (unpadded a) = avp_total a.
Proof.
  intros Hw. pose proof (len_marshal a Hw) as H. rewrite marshal_unpadded, len_app in H by done.
  destruct (avp_total_u24 a Hw) as [_ ?].
  pose proof (len_pad_zeros (avp_total a) ltac:(lia)). lia.
Qed.

Lemma avp_at_unpadded pre a :
  wf_avp a ->
  avp_at (pre ++ unpadded a) (len pre) =
    Ok (avp_code a, avp_vendor a, loc_of (len pre) a, Serialize (avp_data a)).
Proof.
  intros Hw. destruct (avp_total_u24 a Hw) as [Ht H8].
  pose proof (len_nonneg pre). pose proof (len_nonneg (unpadded a)).
  destruct (avp_at_next (pre ++ unpadded a) (len pre) (avp_code a) (avp_vendor a)
    (Serialize (avp_data a)) (len (marshal a))) as [Hn _]; [rewrite len_app; lia|].
  rewrite drop_Z_app in Hn by done.
  assert (at_ (unpadded a) 4 = avp_flags a) as Hf.
  { unfold unpadded. byte_list 4%nat (avp_code a). unfold at_. cbn [app nth].
    rewrite byteZ_Zbyte. apply Z.mod_small, avp_flags_u8. }
  rewrite Hf in Hn. apply Hn. rewrite len_marshal by done.
  pose proof (next_avp_raw (avp_code a) (avp_flags a) (avp_total a) (vendor_bytes a)
    (Serialize (avp_data a)) [] (proj1 Hw) (avp_flags_u8 a) (len_vendor_bytes a) eq_refl Ht) as E.
  rewrite app_nil_r, be_get_vendor_bytes in E by apply Hw. exact E.
Qed.
End Rewrite.

(** ** Lemmas: the header of any rewritten message *)

Lemma iterate_invariant {S} (fn : Z -> Z -> avpLoc -> bytes -> S -> outcome dra_error S)
    (P : S -> Prop) :
  (forall c v loc b s s', P s -> fn c v loc b s = Ok s' -> P s') ->
  forall msg s, P s -> P (iterateAVPs fn msg s).1.
Proof.
  intros Hf msg s Hs. unfold iterateAVPs. destruct (_ <? _); [done|].
  generalize headerLen as pos. generalize (length msg) as n. intros n. revert s Hs.
  induction n as [|n IH]; intros s Hs pos; [done|]. rewrite iterate_unfold.
  destruct (negb _); [done|]. destruct (avp_at msg pos) as [[[[c v] loc] b]|e|]; [|done..].
  destruct (fn c v loc b s) as [s'|e|] eqn:E; [|done..]. apply IH. eauto.
Qed.

(** Errors come from the walk, not from the callbacks: a walk that one
    callback completes, another completes unless it errs or panics itself. *)
Lemma iterate_same {S T} (fn : Z -> Z -> avpLoc -> bytes -> S -> outcome dra_error S)
    (gn : Z -> Z -> avpLoc -> bytes -> T -> outcome dra_error T) msg s t :
  (forall c v loc b x e, gn c v loc b x <> Err e) ->
  (iterateAVPs fn msg s).2 = Ok tt -> forall e, (iterateAVPs gn msg t).2 <> Err e.
Proof.
  intros Hg. unfold iterateAVPs. destruct (_ <? _); [done|].
  generalize headerLen as pos. generalize (length msg) as n. intros n. revert s t.
  induction n as [|n IH]; intros s t pos; [done|]. rewrite !iterate_unfold.
  destruct (negb _); [done|]. destruct (avp_at msg pos) as [[[[c v] loc] b]|e|]; [|done..].
  destruct (fn c v loc b s) as [s'|e|]; [|done..].
  destruct (gn c v loc b t) as [t'|e|] eqn:E; [apply IH|by destruct (Hg c v loc b t e)|done].
Qed.

Lemma readable_rewrites msg nh nr e :
  (extractRouting msg).2 = Ok tt -> rewriteOriginHostRealm msg nh nr <> Err e.
Proof.
  intros H. unfold rewriteOriginHostRealm. destruct (_ <? _) eqn:El.
  { unfold extractRouting, iterateAVPs in H. by rewrite El in H. }
  set (s0 := {| out := _; wroteHost := _; wroteRealm := _ |}).
  pose proof (iterate_same extract_field (rewrite_field msg nh nr) msg zero_view s0) as Hs.
  destruct (iterateAVPs (rewrite_field msg nh nr) msg s0) as [s [[]|er|]]; [done| |done].
  exfalso. apply (Hs ltac:(clear; intros; unfold rewrite_field, subslice; by repeat case_match) H er).
  done.
Qed.

Lemma rewrite_out_prefix msg nh nr c v loc b s s' h :
  (exists t, out s = h ++ t) -> rewrite_field msg nh nr c v loc b s = Ok s' ->
  exists t, out s' = h ++ t.
Proof.
  intros [t Ht]. unfold rewrite_field, subslice.
  repeat case_match; intros; simplify_eq; rsimpl; rewrite Ht, <- app_assoc; eauto.
Qed.

(** Whatever follows it, the header is kept but for the length. *)
Lemma rewrite_header msg nh nr m :
  rewriteOriginHostRealm msg nh nr = Ok m ->
  20 <= len msg /\ 20 <= len m /\ take 1 m = take 1 msg /\ slice m 4 20 = slice msg 4 20 /\
  (len m < 2 ^ 24 -> be_get (slice m 1 4) = len m).
Proof.
  unfold rewriteOriginHostRealm, headerLen. destruct (Z.ltb_spec (len msg) 20) as [|Hl]; [done|].
  set (hd := take (Z.to_nat 20) msg). set (s0 := {| out := hd; wroteHost := _; wroteRealm := _ |}).
  assert (exists t, out (iterateAVPs (rewrite_field msg nh nr) msg s0).1 = hd ++ t) as [t Ht].
  { apply (iterate_invariant _ (fun s => exists t, out s = hd ++ t)).
    - intros c v loc b s s'. apply rewrite_out_prefix.
    - exists []. by rewrite app_nil_r. }
  destruct (iterateAVPs _ _ _) as [s [[]|e|]]; cbn [fst] in Ht; [|done..].
  set (o := if negb (wroteRealm s) then _ else _).
  assert (exists u, o = hd ++ u) as [u Hu].
  { unfold o. rewrite Ht. repeat case_match; rewrite <- ?app_assoc; eauto. }
  intros Hm. assert (m = take 1 o ++ put24 (to_u32 (len o)) ++ drop 4 o) as -> by congruence.
  clear Hm. rewrite Hu.
  assert (20 <= length msg)%nat as Hn by (unfold len in Hl; lia).
  assert (length hd = 20%nat) as Hhd by (unfold hd; rewrite length_take; lia).
  assert (forall n, len (take 1 (hd ++ u) ++ put24 n ++ drop 4 (hd ++ u)) = len (hd ++ u)) as Hlen.
  { intros n. unfold len. rewrite !length_app, length_take, length_drop, length_app.
    change (length (put24 n)) with 3%nat. lia. }
  rewrite Hlen. split; [done|].
  split; [unfold len; rewrite length_app; lia|].
  clear Hu Ht o. subst hd s0. clear Hlen Hhd. peel msg. eval_to_nat. cbn [take app drop].
  split; [done|]. split; [done|]. intros Hb. rewrite put24_be.
  unfold slice. eval_to_nat. cbn [app drop].
  rewrite drop_0, take_app_length' by (by rewrite be_put_length).
  match goal with |- context [to_u32 ?n] => set (k := n) in * end.
  assert (0 <= k) by apply len_nonneg.
  rewrite to_u32_id by (unfold u32; lia). apply be_get_put3. unfold u24. lia.
Qed.

(** ** Theorems *)

(** C7: the rewrite.  A message whose AVPs are padded goes out with every
    base Origin-Host and Origin-Realm AVP replaced by one with the DRA's
    identity, the missing ones of the two appended, every other AVP byte for
    byte where it was, and a header that differs only in the length field,
    which is the new length. *)
Theorem rewrite_exact newHost newRealm hdr l :
  fits newHost -> fits newRealm -> len hdr = headerLen -> Forall wf_avp l ->
  let body := concat (map marshal (map (rewrite_avp newHost newRealm) l ++
                                   missing newHost newRealm l)) in
  headerLen + len body < 2 ^ 24 ->
  rewriteOriginHostRealm (hdr ++ concat (map marshal l)) newHost newRealm =
    Ok (take 1 hdr ++ be_put 3 (headerLen + len body) ++ drop 4 hdr ++ body).
Proof.
  intros Hh Hr Hd Hl body Hb. rewrite rewriteOriginHostRealm_spec by done. fold body.
  pose proof (len_nonneg body). rewrite to_u32_id by (unfold u32, headerLen in *; lia).
  unfold with_total. by rewrite <- !app_assoc.
Qed.

Definition ex_hdr : bytes := Byte.x01 :: replicate 19 Byte.x00.

Lemma rewrite_exact_witness :
  let l := [string_avp 263 (gostr "sess"); string_avp 264 (gostr "mme")] in
  exists m, rewriteOriginHostRealm (ex_hdr ++ concat (map marshal l)) (gostr "dra") (gostr "r") = Ok m
    /\ len m = 56.
Proof.
  intros l. eexists. split.
  - apply rewrite_exact; [by vm_compute|by vm_compute|done| |by vm_compute].
    repeat constructor; by vm_compute.
  - by vm_compute.
Defined.

(** The walk over a message whose last AVP lacks its padding. *)
Lemma iterate_unpadded {S} (fn : Z -> Z -> avpLoc -> bytes -> S -> outcome dra_error S) hdr l a s :
  len hdr = headerLen -> Forall wf_avp l -> wf_avp a ->
  iterateAVPs fn (hdr ++ concat (map marshal l) ++ unpadded a) s =
  match visit fn headerLen l s with
  | (s, Ok _) =>
      match fn (avp_code a) (avp_vendor a) (loc_of (headerLen + len (concat (map marshal l))) a)
              (Serialize (avp_data a)) s with
      | Ok s => (s, Ok tt) | Err e => (s, Err e) | Panic => (s, Panic) end
  | r => r
  end.
Proof.
  intros Hd Hl Ha. destruct (avp_total_u24 a Ha) as [_ H8].
  set (msg := hdr ++ concat (map marshal l) ++ unpadded a).
  pose proof (len_nonneg (concat (map marshal l))). pose proof (len_unpadded a Ha).
  pose proof (padded_spec (avp_total a) ltac:(lia)) as [Hp1 Hp2].
  assert (len msg = headerLen + len (concat (map marshal l)) + avp_total a) as Hm
    by (unfold msg; rewrite !len_app; lia).
  assert (Z.to_nat (len (concat (map marshal l) ++ unpadded a)) < length msg)%nat as Hfuel.
  { rewrite len_app. unfold headerLen, len in *. lia. }
  pose proof (avp_at_unpadded (hdr ++ concat (map marshal l)) a Ha) as Hat.
  rewrite <- app_assoc in Hat. fold msg in Hat. rewrite len_app, Hd in Hat.
  pose proof (len_marshal a Ha) as Hlm.
  unfold iterateAVPs. rewrite (proj2 (Z.ltb_ge _ _)) by lia.
  pose proof (iterate_visit_post fn (length msg) hdr l (unpadded a) s Hl Hfuel) as E.
  fold msg in E. rewrite Hd in E. rewrite E.
  destruct (visit fn headerLen l s) as [s' [[]|e|]]; [|done..].
  apply iterate_last; [done|lia|lia|]. unfold headerLen, len in *. lia.
Qed.

(** Such a message is read without an error, but its rewrite panics: the
    slice that would copy the last AVP ends past the message's capacity. *)
Lemma rewrite_unpadded newHost newRealm hdr l a :
  fits newHost -> fits newRealm -> len hdr = headerLen -> Forall wf_avp l -> wf_avp a ->
  avp_total a mod 4 <> 0 -> is_avp avpOriginHost a = false -> is_avp avpOriginRealm a = false ->
  let msg := hdr ++ concat (map marshal l) ++ unpadded a in
  (extractRouting msg).2 = Ok tt /\
  DestinationRealm (extractRouting msg).1 = last_value avpDestinationRealm (l ++ [a]) /\
  rewriteOriginHostRealm msg newHost newRealm = Panic.
Proof.
  intros Hh Hr Hd Hl Ha Hmod Hnh Hnr msg. destruct (avp_total_u24 a Ha) as [_ H8].
  pose proof (len_unpadded a Ha). pose proof (len_nonneg (concat (map marshal l))).
  assert (len msg = headerLen + len (concat (map marshal l)) + avp_total a) as Hm
    by (unfold msg; rewrite !len_app; lia).
  pose proof (padded_spec (avp_total a) ltac:(lia)) as [Hp1 Hp2].
  assert (avp_total a < padded (avp_total a)) as Hp3.
  { destruct (Z.eq_dec (avp_total a) (padded (avp_total a))) as [E|]; [|lia].
    by rewrite E in Hmod. }
  assert ((extractRouting msg).2 = Ok tt /\
    DestinationRealm (extractRouting msg).1 = last_value avpDestinationRealm (l ++ [a]))
    as [Hx Hdr].
  { unfold extractRouting, msg. rewrite iterate_unpadded by done.
    destruct (visit_extract headerLen l zero_view) as (Hv & _ & _ & _ & Hlast).
    destruct (visit _ _ _ _) as [rv r]. cbn [fst snd] in Hv, Hlast. subst r.
    destruct (extract_field_ok a (loc_of (headerLen + len (concat (map marshal l))) a) rv)
      as (rv' & -> & _ & _ & _ & E4). split; [done|]. cbn [fst]. rewrite E4, Hlast.
    unfold last_value. by rewrite foldl_app. }
  split; [done|]. split; [done|].
  unfold rewriteOriginHostRealm. rewrite (proj2 (Z.ltb_ge _ _)) by lia.
  unfold msg at 2. rewrite iterate_unpadded by done. fold msg.
  pose proof (fun s => visit_rewrite newHost newRealm Hh Hr hdr l (unpadded a) s Hl) as E.
  fold msg in E. rewrite Hd in E. rewrite E.
  unfold rewrite_field. fold (is_avp avpOriginHost a) (is_avp avpOriginRealm a).
  rewrite Hnh, Hnr. unfold subslice. cbn [start paddedTo loc_of].
  by rewrite (proj2 (Z.ltb_lt (len msg) _)) by (rewrite (len_marshal a Ha); lia).
Qed.

(** The routing AVPs.  Of a message whose AVPs are padded the DRA reads
    the last Origin-Host, Origin-Realm, Destination-Host and
    Destination-Realm among the AVPs without a vendor; an absent one is
    empty; a vendor's AVP with the same code is not taken for it. *)
Theorem extractRouting_exact hdr l :
  len hdr = headerLen -> Forall wf_avp l ->
  let '(rv, r) := extractRouting (hdr ++ concat (map marshal l)) in
  r = Ok tt /\
  OriginHost rv = last_value avpOriginHost l /\
  OriginRealm rv = last_value avpOriginRealm l /\
  DestinationHost rv = last_value avpDestinationHost l /\
  DestinationRealm rv = last_value avpDestinationRealm l.
Proof.
  intros Hh Hl. unfold extractRouting. rewrite iterateAVPs_visit by done.
  pose proof (visit_extract headerLen l zero_view) as H.
  destruct (visit _ _ _ _). exact H.
Qed.

Lemma extractRouting_exact_witness :
  DestinationRealm (extractRouting (ex_hdr ++ concat (map marshal
    [string_avp 283 (gostr "epc"); av 283 (VOctetString (gostr "x")) true false 10415]))).1
  = gostr "epc".
Proof.
  set (l := [_; _]). pose proof (extractRouting_exact ex_hdr l eq_refl) as H.
  rewrite (surjective_pairing (extractRouting _)) in H.
  destruct H as (_ & _ & _ & _ & ->); [|by vm_compute].
  repeat constructor; by vm_compute.
Defined.

(** The error answer is a well-formed Diameter answer to the request:
    version 1, R cleared, E set, P kept, the request's command, application
    and identifiers, a length that is its size, and the AVPs Result-Code,
    Origin-Host and Origin-Realm; it is read back so by the generated header
    reader and by the DRA's own. *)
Theorem protocolError_exact originHost originRealm req resultCode rest :
  fits originHost -> fits originRealm -> len originHost + len originRealm < 2 ^ 23 ->
  u32 resultCode ->
  u24 (ph_CommandCode req) -> u32 (ph_ApplicationID req) -> u32 (ph_HopByHopID req) ->
  u32 (ph_EndToEndID req) ->
  let avps := [av 268 (VUnsigned32 resultCode) true false 0;
               string_avp avpOriginHost originHost; string_avp avpOriginRealm originRealm] in
  let h := {| Version := 1; Length := 20 + len (concat (map marshal avps));
              Flags := {| Request := false; Proxiable := has_bit (ph_Flags req) 64;
                          Error := true; Retransmitted := false |};
              CommandCode := ph_CommandCode req; ApplicationID := ph_ApplicationID req;
              HopByHopID := ph_HopByHopID req; EndToEndID := ph_EndToEndID req |} in
  protocolError originHost originRealm req resultCode =
    marshalHeader h ++ concat (map marshal avps) /\
  unmarshalHeader (protocolError originHost originRealm req resultCode ++ rest) = Ok h.
Proof.
  intros Hh Hr Hb Hrc Hc Ha Hhh He avps h.
  assert (Forall wf_avp avps) as Hw.
  { repeat constructor; try done; by apply string_avp_wf. }
  assert (20 + len (concat (map marshal avps)) < 2 ^ 24 /\ 0 <= len (concat (map marshal avps)))
    as [Hlen Hpos].
  { split; [|apply len_nonneg]. pose proof Hw as Hw'. unfold avps in Hw'.
    apply Forall_cons in Hw' as [W1 Hw']. apply Forall_cons in Hw' as [W2 Hw'].
    apply Forall_cons in Hw' as [W3 _]. cbn [avps map concat]. rewrite !len_app. change (len (@nil byte)) with 0.
    rewrite !len_marshal by done.
    change (avp_total (av 268 (VUnsigned32 resultCode) true false 0)) with 12.
    change (avp_total (string_avp avpOriginHost originHost)) with (8 + len originHost).
    change (avp_total (string_avp avpOriginRealm originRealm)) with (8 + len originRealm).
    change (padded 12) with 12.
    pose proof (len_nonneg originHost). pose proof (len_nonneg originRealm).
    pose proof (padded_spec (8 + len originHost) ltac:(lia)).
    pose proof (padded_spec (8 + len originRealm) ltac:(lia)). lia. }
  assert (protocolError originHost originRealm req resultCode =
    marshalHeader h ++ concat (map marshal avps)) as ->.
  { unfold protocolError. rewrite !encodeStringAVP_marshal by done. rewrite !put32_be, !put24_be.
    assert ([Byte.x00; Byte.x00; Byte.x01; Byte.x0c; Byte.x40; Byte.x00; Byte.x00; Byte.x0c]
      ++ be_put 4 resultCode = marshal (av 268 (VUnsigned32 resultCode) true false 0)) as -> by done.
    assert (marshal (av 268 (VUnsigned32 resultCode) true false 0) ++
      marshal (string_avp avpOriginHost originHost) ++ marshal (string_avp avpOriginRealm originRealm)
      = concat (map marshal avps)) as -> by (cbn [avps map concat]; by rewrite app_nil_r).
    unfold headerLen. rewrite to_u32_id by (unfold u32; lia).
    rewrite marshalHeader_shape.
    assert (Zbyte (Z.lor (Z.land (ph_Flags req) 64) 32) = Zbyte (flags_byte (Flags h))) as ->.
    { cbn [h Flags flags_byte Request Proxiable Error Retransmitted or_bit]. unfold has_bit.
      assert (Z.land (ph_Flags req) 64 = 0 \/ Z.land (ph_Flags req) 64 = 64) as [-> | ->]; [|done..].
      destruct (Z.testbit (ph_Flags req) 6) eqn:Eb; [right|left]; apply Z.bits_inj';
        intros n Hn; rewrite Z.land_spec; change 64 with (2 ^ 6);
        rewrite (Z.pow2_bits_eqb 6 n) by lia; destruct (Z.eqb_spec 6 n) as [<-|];
        rewrite ?Eb, ?andb_false_r, ?Z.bits_0; done. }
    done. }
  split; [done|]. rewrite <- app_assoc. apply unmarshal_marshalHeader.
  split; [done|]. split; [unfold u24; cbn [h Length]; lia|]. done.
Qed.

Lemma protocolError_exact_witness :
  let req := {| ph_Version := 1; ph_Length := 20; ph_Flags := 192; ph_CommandCode := 316;
                ph_ApplicationID := 16777251; ph_HopByHopID := 7; ph_EndToEndID := 9 |} in
  exists h, unmarshalHeader (protocolError (gostr "dra.x") (gostr "x") req 3002 ++ []) = Ok h
    /\ Proxiable (Flags h) = true /\ HopByHopID h = 7.
Proof.
  intros req. eexists. split; [|split].
  - apply protocolError_exact; by vm_compute.
  - done.
  - done.
Defined.
