(* ===== verification/DraNode.v ===== *)
(** * The routing agent ([dra/node.go], [dra/peer.go], [dra/route.go], [dra/start.go])

    One goroutine per connection runs [handleConnection]; they share the peer
    registry, the pending table and the counters.  Here a step of the node is
    what one goroutine does with one framed message, or when its stream ends:
    the table operations are atomic under their mutexes, and a request is put
    in the table before it is sent.  A [*Peer] is a number; what a node sends
    is a list of outputs, each labelled with the handler that
    sent it (a request and an answer also with the identifiers involved).  What
    the environment decides is an argument: whether a write succeeds ([ok]),
    and the order in which [range] visits the registry ([order]).  Logging is
    left out. *)

From S2P Require Import Prelude Binary DataTypes Wire Message BaseMessages Framing DraAvp.

Definition DIAMETER_SUCCESS : Z := 2001.
Definition DIAMETER_UNABLE_TO_DELIVER : Z := 3002.
Definition DIAMETER_REALM_NOT_SERVED : Z := 3003.
Definition DIAMETER_INVALID_AVP_VALUE : Z := 5004.
Definition DIAMETER_UNABLE_TO_COMPLY : Z := 5012.

Record Config := {
  ListenAddr : bytes;
  cfg_OriginHost : bytes;
  cfg_OriginRealm : bytes;
  cfg_ProductName : bytes;
  cfg_VendorID : Z;
  cfg_HostIPs : list bytes;
  cfg_SupportedApps : list Z }.

Abbreviation peer_id := nat.

Record Peer := {
  peer_OriginHost : bytes;
  peer_OriginRealm : bytes;
  peer_RemoteAddr : bytes }.

Record pendingEntry := {
  origPeer : peer_id;
  origHbH : Z;
  origEndToEnd : Z;
  cmdCode : Z }.

Inductive output : Type :=
| OCEA (to : peer_id) (msg : bytes)
| ODWA (to : peer_id) (msg : bytes)
| OError (to : peer_id) (resultCode : Z) (msg : bytes)
| ORequest (to from : peer_id) (origHbH hbh : Z) (msg : bytes)
| OAnswer (to : peer_id) (origHbH hbh : Z) (msg : bytes).

(** The node, the [*Peer] objects of its goroutines, and the package's
    [rrCounter].  [up] are the connections whose goroutine is in its main
    loop, [waiting] those that wait for the CER. *)
Record DRANode := {
  cfg : Config;
  objs : gmap peer_id Peer;
  peers : gmap bytes peer_id;
  pending : gmap Z pendingEntry;
  hbhSeq : Z;
  rrCounter : Z;
  waiting : gset peer_id;
  up : gset peer_id;
  outputs : list output }.

Definition NewDRANode (c : Config) : DRANode :=
  {| cfg := c; objs := ∅; peers := ∅; pending := ∅; hbhSeq := 0; rrCounter := 0;
     waiting := ∅; up := ∅; outputs := [] |}.

(** The checks of [StartNode] before it listens. *)
Definition StartNode_ok (c : Config) : bool :=
  negb (len (ListenAddr c) =? 0) &&
  negb ((len (cfg_OriginHost c) =? 0) || (len (cfg_OriginRealm c) =? 0)).

Definition emit (o : output) (d : DRANode) : DRANode := d <| outputs ::= fun l => l ++ [o] |>.

(** [Peer.Send]: [ok] tells whether the write succeeds. *)
Definition Send (ok : bool) (o : output) (d : DRANode) : DRANode * bool :=
  if ok then (emit o d, true) else (d, false).

(** ** The registry *)

Definition obj (d : DRANode) (p : peer_id) : Peer :=
  default {| peer_OriginHost := []; peer_OriginRealm := []; peer_RemoteAddr := [] |} (objs d !! p).

Definition registryKey (p : Peer) : bytes := peer_OriginHost p ++ gostr "|" ++ peer_RemoteAddr p.

Definition registerPeer (p : peer_id) (d : DRANode) : DRANode :=
  d <| peers ::= <[registryKey (obj d p) := p]> |>.

Definition removePeer (p : peer_id) (d : DRANode) : DRANode :=
  let key := registryKey (obj d p) in
  if decide (peers d !! key = Some p) then d <| peers ::= delete key |> else d.

(** The values of the registry in the order in which [range] visits it. *)
Definition visited (d : DRANode) (order : list bytes) : list peer_id :=
  omap (fun k => peers d !! k) order.

Definition peerByHost (order : list bytes) (host : bytes) (d : DRANode) : option peer_id :=
  head (List.filter (fun p => bool_decide (peer_OriginHost (obj d p) = host)) (visited d order)).

Definition peersByRealm (order : list bytes) (realm : bytes) (d : DRANode) : list peer_id :=
  List.filter (fun p => bool_decide (peer_OriginRealm (obj d p) = realm)) (visited d order).

(** ** The pending table *)

Definition put (hbh : Z) (e : pendingEntry) (d : DRANode) : DRANode :=
  d <| pending ::= <[hbh := e]> |>.

Definition take_ (hbh : Z) (d : DRANode) : DRANode * option pendingEntry :=
  match pending d !! hbh with
  | Some e => (d <| pending ::= delete hbh |>, Some e)
  | None => (d, None)
  end.

Definition forgetPeer (p : peer_id) (d : DRANode) : DRANode :=
  d <| pending ::= filter (fun ke => ~ origPeer ke.2 = p) |>.

Definition nextHbH (d : DRANode) : DRANode * Z :=
  let n := to_u32 (hbhSeq d + 1) in (d <| hbhSeq := n |>, n).

(** ** Routing *)

Definition pickPeer (order1 order2 : list bytes) (rv : routingView) (from : peer_id) (d : DRANode)
  : DRANode * option peer_id :=
  let by_realm :=
    let filtered :=
      List.filter (fun p => bool_decide (p <> from)) (peersByRealm order2 (DestinationRealm rv) d) in
    if len filtered =? 0 then (d, None)
    else
      let i := to_u64 (rrCounter d + 1) in
      (d <| rrCounter := i |>, filtered !! Z.to_nat (i mod len filtered)) in
  if negb (len (DestinationHost rv) =? 0) then
    match peerByHost order1 (DestinationHost rv) d with
    | Some p => if bool_decide (p <> from) then (d, Some p) else by_realm
    | None => by_realm
    end
  else by_realm.

Definition sendProtocolError (ok : bool) (to : peer_id) (req : parsedHeader) (resultCode : Z)
    (d : DRANode) : DRANode :=
  (Send ok (OError to resultCode
    (protocolError (cfg_OriginHost (cfg d)) (cfg_OriginRealm (cfg d)) req resultCode)) d).1.

(** What the environment decides while one message is handled: whether the
    write to each peer succeeds, and two orders of the registry. *)
Record env := { ok : peer_id -> bool; order1 : list bytes; order2 : list bytes }.

Definition forwardRequest (e : env) (from : peer_id) (msg : bytes) (h : parsedHeader) (d : DRANode)
  : outcome unit DRANode :=
  match extractRouting msg with
  | (_, Panic) => Panic
  | (_, Err _) => Ok (sendProtocolError (ok e from) from h DIAMETER_INVALID_AVP_VALUE d)
  | (rv, Ok _) =>
      if len (DestinationRealm rv) =? 0
      then Ok (sendProtocolError (ok e from) from h DIAMETER_REALM_NOT_SERVED d)
      else
        let '(d, to) := pickPeer (order1 e) (order2 e) rv from d in
        match to with
        | None => Ok (sendProtocolError (ok e from) from h DIAMETER_UNABLE_TO_DELIVER d)
        | Some to =>
            match rewriteOriginHostRealm msg (cfg_OriginHost (cfg d)) (cfg_OriginRealm (cfg d)) with
            | Panic => Panic
            | Err _ => Ok (sendProtocolError (ok e from) from h DIAMETER_UNABLE_TO_COMPLY d)
            | Ok rewritten =>
                let '(d, newHbH) := nextHbH d in
                let rewritten := setHopByHop rewritten newHbH in
                let d := put newHbH {| origPeer := from; origHbH := ph_HopByHopID h;
                                       origEndToEnd := ph_EndToEndID h;
                                       cmdCode := ph_CommandCode h |} d in
                match Send (ok e to) (ORequest to from (ph_HopByHopID h) newHbH rewritten) d with
                | (d, true) => Ok d
                | (d, false) =>
                    let d := (take_ newHbH d).1 in
                    Ok (sendProtocolError (ok e from) from h DIAMETER_UNABLE_TO_DELIVER d)
                end
            end
        end
  end.

Definition forwardAnswer (e : env) (from : peer_id) (msg : bytes) (h : parsedHeader) (d : DRANode)
  : outcome unit DRANode :=
  match take_ (ph_HopByHopID h) d with
  | (d, None) => Ok d
  | (d, Some entry) =>
      match rewriteOriginHostRealm msg (cfg_OriginHost (cfg d)) (cfg_OriginRealm (cfg d)) with
      | Panic => Panic
      | Err _ => Ok d
      | Ok rewritten =>
          let rewritten := setHopByHop rewritten (origHbH entry) in
          Ok (Send (ok e (origPeer entry)) 
                (OAnswer (origPeer entry) (origHbH entry) (ph_HopByHopID h) rewritten) d).1
      end
  end.

(** ** The messages that the DRA answers itself *)

(** The CEA, before [Marshal]. *)
Definition build_CEA (c : Config) (cer : CapabilitiesExchangeRequest.t) : CapabilitiesExchangeAnswer.t :=
  let h := CapabilitiesExchangeRequest.Header cer in
  {| CapabilitiesExchangeAnswer.Header :=
       (new_header 257 0 false false) <| HopByHopID := HopByHopID h |>
                                      <| EndToEndID := EndToEndID h |>;
     CapabilitiesExchangeAnswer.ResultCode := DIAMETER_SUCCESS;
     CapabilitiesExchangeAnswer.OriginHost := cfg_OriginHost c;
     CapabilitiesExchangeAnswer.OriginRealm := cfg_OriginRealm c;
     CapabilitiesExchangeAnswer.HostIpAddress := cfg_HostIPs c;
     CapabilitiesExchangeAnswer.VendorId := cfg_VendorID c;
     CapabilitiesExchangeAnswer.ProductName := cfg_ProductName c;
     CapabilitiesExchangeAnswer.OriginStateId := None;
     CapabilitiesExchangeAnswer.ErrorMessage := None;
     CapabilitiesExchangeAnswer.FailedAvp := None;
     CapabilitiesExchangeAnswer.SupportedVendorId := [];
     CapabilitiesExchangeAnswer.AuthApplicationId := cfg_SupportedApps c;
     CapabilitiesExchangeAnswer.InbandSecurityId := [];
     CapabilitiesExchangeAnswer.AcctApplicationId := [];
     CapabilitiesExchangeAnswer.VendorSpecificApplicationId := [];
     CapabilitiesExchangeAnswer.FirmwareRevision := None;
     CapabilitiesExchangeAnswer.Avp := [] |}.

(** [true]: no error. *)
Definition handleCER (e : env) (p : peer_id) (msg : bytes) (d : DRANode) : DRANode * bool :=
  match CapabilitiesExchangeRequest.Unmarshal msg CapabilitiesExchangeRequest.New with
  | (cer, Ok _) =>
      let d := d <| objs ::= <[p := (obj d p)
        <| peer_OriginHost := CapabilitiesExchangeRequest.OriginHost cer |>
        <| peer_OriginRealm := CapabilitiesExchangeRequest.OriginRealm cer |>]> |> in
      match (CapabilitiesExchangeAnswer.Marshal (build_CEA (cfg d) cer)).2 with
      | Ok out => Send (ok e p) (OCEA p out) d
      | _ => (d, false)
      end
  | _ => (d, false)
  end.

Definition build_DWA (c : Config) (dwr : DeviceWatchdogRequest.t) : DeviceWatchdogAnswer.t :=
  let h := DeviceWatchdogRequest.Header dwr in
  {| DeviceWatchdogAnswer.Header :=
       (new_header 280 0 false false) <| HopByHopID := HopByHopID h |>
                                      <| EndToEndID := EndToEndID h |>;
     DeviceWatchdogAnswer.ResultCode := DIAMETER_SUCCESS;
     DeviceWatchdogAnswer.OriginHost := cfg_OriginHost c;
     DeviceWatchdogAnswer.OriginRealm := cfg_OriginRealm c;
     DeviceWatchdogAnswer.ErrorMessage := None;
     DeviceWatchdogAnswer.FailedAvp := None;
     DeviceWatchdogAnswer.OriginStateId := None;
     DeviceWatchdogAnswer.Avp := [] |}.

Definition handleDWR (e : env) (p : peer_id) (msg : bytes) (d : DRANode) : DRANode * bool :=
  match DeviceWatchdogRequest.Unmarshal msg DeviceWatchdogRequest.New with
  | (dwr, Ok _) =>
      match (DeviceWatchdogAnswer.Marshal (build_DWA (cfg d) dwr)).2 with
      | Ok out => Send (ok e p) (ODWA p out) d
      | _ => (d, false)
      end
  | _ => (d, false)
  end.

(** ** [handleConnection], a message at a time *)

(** What its deferred function does when it returns. *)
Definition disconnect (p : peer_id) (d : DRANode) : DRANode :=
  let d := removePeer p (forgetPeer p d) in
  d <| waiting ::= fun s => s ∖ {[ p ]} |> <| up ::= fun s => s ∖ {[ p ]} |>.

(** A new connection: [newPeer]. *)
Definition accept (p : peer_id) (addr : bytes) (d : DRANode) : DRANode :=
  d <| objs ::= <[p := {| peer_OriginHost := []; peer_OriginRealm := []; peer_RemoteAddr := addr |}]> |>
    <| waiting ::= fun s => s ∪ {[ p ]} |>.

(** The first message has to be a CER. *)
Definition first_message (e : env) (p : peer_id) (msg : bytes) (d : DRANode) : DRANode :=
  match parseHeader msg with
  | Ok hdr =>
      if negb (ph_CommandCode hdr =? 257) || negb (isRequest hdr) then disconnect p d
      else
        match handleCER e p msg d with
        | (d, false) => disconnect p d
        | (d, true) =>
            (registerPeer p d) <| waiting ::= fun s => s ∖ {[ p ]} |> <| up ::= fun s => s ∪ {[ p ]} |>
        end
  | _ => disconnect p d
  end.

(** One turn of the main loop.  [Panic]: the goroutine panics, and with it
    the process, for nothing recovers. *)
Definition main_message (e : env) (p : peer_id) (msg : bytes) (d : DRANode) : outcome unit DRANode :=
  match parseHeader msg with
  | Ok h =>
      if ph_CommandCode h =? 280 then
        if isRequest h then
          match handleDWR e p msg d with
          | (d, true) => Ok d
          | (d, false) => Ok (disconnect p d)
          end
        else Ok d
      else if ph_CommandCode h =? 282 then
        if isRequest h then Ok (disconnect p d) else Ok d
      else if isRequest h then forwardRequest e p msg h d
      else forwardAnswer e p msg h d
  | _ => Ok (disconnect p d)
  end.

(** ** Steps *)

Inductive event : Type :=
| EAccept (p : peer_id) (addr : bytes)
| EMessage (p : peer_id) (msg : bytes) (e : env)
| EEnd (p : peer_id).

(** The keys of the registry in some order. *)
Definition registry_order (d : DRANode) (order : list bytes) : Prop :=
  order ≡ₚ (map_to_list (peers d)).*1.

(** A connection is accepted with a new [*Peer] and an address ([host:port],
    without the separator of the registry's keys) that no open connection
    has; a message or the end of the stream comes from an open
    connection. *)
Definition enabled (ev : event) (d : DRANode) : Prop :=
  match ev with
  | EAccept p addr =>
      objs d !! p = None /\ (Byte.x7c ∉ addr) /\
      forall q, q ∈ waiting d ∪ up d -> peer_RemoteAddr (obj d q) <> addr
  | EMessage p _ e =>
      p ∈ waiting d ∪ up d /\ registry_order d (order1 e) /\ registry_order d (order2 e)
  | EEnd p => p ∈ waiting d ∪ up d
  end.

Definition step (ev : event) (d : DRANode) : outcome unit DRANode :=
  match ev with
  | EAccept p addr => Ok (accept p addr d)
  | EMessage p msg e =>
      if decide (p ∈ up d) then main_message e p msg d else Ok (first_message e p msg d)
  | EEnd p => Ok (disconnect p d)
  end.

(** [k] counts the steps. *)
Inductive reachable (c : Config) : Z -> DRANode -> Prop :=
| reach_init : reachable c 0 (NewDRANode c)
| reach_step k d ev d' :
    reachable c k d -> enabled ev d -> step ev d = Ok d' -> reachable c (k + 1) d'.

(** ** Invariant

    The registry holds exactly the connections that are up, under the keys of
    their identities, and the pending table only waits for answers on behalf
    of connections that are up. *)

Record inv (c : Config) (d : DRANode) : Prop := {
  inv_cfg : cfg d = c;
  inv_peers k p : peers d !! k = Some p <-> p ∈ up d /\ k = registryKey (obj d p);
  inv_pending n e : pending d !! n = Some e -> origPeer e ∈ up d;
  inv_disjoint p : p ∈ waiting d -> p ∉ up d;
  inv_objs p : p ∈ waiting d ∪ up d -> is_Some (objs d !! p);
  inv_addr p : p ∈ waiting d ∪ up d -> Byte.x7c ∉ peer_RemoteAddr (obj d p);
  inv_addr_inj p q :
    p ∈ waiting d ∪ up d -> q ∈ waiting d ∪ up d ->
    peer_RemoteAddr (obj d p) = peer_RemoteAddr (obj d q) -> p = q }.

Lemma app_sep_inj (x : byte) (a a' b b' : bytes) :
  x ∉ b -> x ∉ b' -> a ++ [x] ++ b = a' ++ [x] ++ b' -> b = b'.
Proof.
  intros Hb Hb'. revert a'. induction a as [|y a IH]; intros [|y' a'] H; cbn in H; simplify_eq.
  - done.
  - destruct Hb. set_solver.
  - destruct Hb'. set_solver.
  - eauto.
Qed.

Lemma registryKey_inj c d p q :
  inv c d -> p ∈ waiting d ∪ up d -> q ∈ waiting d ∪ up d ->
  registryKey (obj d p) = registryKey (obj d q) -> p = q.
Proof.
  intros Hi Hp Hq H. apply (inv_addr_inj c d Hi); [done..|].
  apply (app_sep_inj Byte.x7c (peer_OriginHost (obj d p)) (peer_OriginHost (obj d q)));
    [by apply (inv_addr c d Hi)..|]. exact H.
Qed.

Lemma emit_inv c o d : inv c d -> inv c (emit o d).
Proof. intros []. by split. Qed.

Lemma Send_inv c b o d : inv c d -> inv c (Send b o d).1.
Proof. destruct b; [apply emit_inv|done]. Qed.

Lemma inv_rr c d i : inv c d -> inv c (d <| rrCounter := i |>).
Proof. intros []. by split. Qed.

Lemma inv_hbh c d i : inv c d -> inv c (d <| hbhSeq := i |>).
Proof. intros []. by split. Qed.

Lemma inv_pending_with c d m :
  inv c d -> (forall n e, m !! n = Some e -> origPeer e ∈ up d) -> inv c (d <| pending := m |>).
Proof. intros [] H. by split. Qed.

Lemma put_inv c n e d : inv c d -> origPeer e ∈ up d -> inv c (put n e d).
Proof.
  intros Hi He. apply inv_pending_with; [done|]. intros k e' Hk.
  apply lookup_insert_Some in Hk as [[_ <-]|[_ Hk]]; [done|by apply (inv_pending c d Hi) in Hk].
Qed.

Lemma take_inv c n d : inv c d -> inv c (take_ n d).1.
Proof.
  intros Hi. unfold take_. destruct (pending d !! n); [|done].
  apply inv_pending_with; [done|]. intros k e' Hk.
  apply lookup_delete_Some in Hk as [_ Hk]. by apply (inv_pending c d Hi) in Hk.
Qed.

Lemma disconnect_eq p d :
  let key := registryKey (obj d p) in
  disconnect p d =
    d <| peers := if decide (peers d !! key = Some p) then delete key (peers d) else peers d |>
      <| pending ::= filter (fun ke => ~ origPeer ke.2 = p) |>
      <| waiting ::= fun s => s ∖ {[ p ]} |> <| up ::= fun s => s ∖ {[ p ]} |>.
Proof.
  unfold disconnect, removePeer, forgetPeer. cbv zeta. destruct d. unfold set_field, obj. cbn.
  by case_decide.
Qed.

Lemma disconnect_inv c p d : inv c d -> p ∈ waiting d ∪ up d -> inv c (disconnect p d).
Proof.
  intros Hinv Hp. pose proof (registryKey_inj c d) as Hinj.
  pose proof Hinv as [Hc Hr Hpe Hdj Ho Ha Hai].
  rewrite disconnect_eq. set (key := registryKey (obj d p)). cbv zeta.
  split; rsimpl.
  - done.
  - intros k q. change (obj _ q) with (obj d q).
    rewrite elem_of_difference, elem_of_singleton. case_decide as Hk.
    + rewrite lookup_delete_Some, Hr. split.
      * intros [Hne [Hq ->]]. split; [|done]. split; [done|]. by intros ->.
      * intros [[Hq Hne] ->]. split; [|done]. intros Heq. apply Hne.
        symmetry. apply (Hinj p q Hinv); [done|set_solver|done].
    + rewrite Hr. split; [|tauto]. intros [Hq ->]. split; [|done]. split; [done|].
      intros ->. apply Hk. by apply Hr.
  - intros n e He. apply map_lookup_filter_Some in He as [He Hne].
    apply Hpe in He. cbn in Hne. set_solver.
  - set_solver.
  - intros q Hq. apply Ho. set_solver.
  - intros q Hq. apply Ha. set_solver.
  - intros q r Hq Hr'. apply Hai; set_solver.
Qed.

Lemma accept_inv c p addr d : enabled (EAccept p addr) d -> inv c d -> inv c (accept p addr d).
Proof.
  intros (Hn & Hsep & Hfresh) Hinv. pose proof Hinv as [Hc Hr Hpe Hdj Ho Ha Hai].
  assert (forall q, q ∈ waiting d ∪ up d -> q <> p) as Hne.
  { intros q Hq ->. destruct (Ho p Hq). congruence. }
  assert (forall q, q <> p -> obj (accept p addr d) q = obj d q) as Hobj.
  { intros q Hq. unfold obj, accept. rsimpl. by rewrite lookup_insert_ne. }
  assert (peer_RemoteAddr (obj (accept p addr d) p) = addr) as Hpa
    by (unfold obj, accept; rsimpl; by rewrite lookup_insert_eq).
  split; try done.
  - intros k q. change (peers (accept p addr d)) with (peers d).
    change (up (accept p addr d)) with (up d). rewrite Hr.
    split; intros [Hq ->]; (split; [done|]); by rewrite Hobj by (apply Hne; set_solver).
  - unfold accept. rsimpl. intros q. rewrite elem_of_union, elem_of_singleton.
    intros [Hq| ->]; [by apply Hdj|]. intros Hu. by apply (Hne p); [set_solver|].
  - unfold accept. rsimpl. intros q Hq. destruct (decide (q = p)) as [->|Hqp].
    + rewrite lookup_insert_eq. by eexists.
    + rewrite lookup_insert_ne by done. apply Ho. set_solver.
  - intros q Hq. destruct (decide (q = p)) as [->|Hqp]; [by rewrite Hpa|].
    rewrite Hobj by done. apply Ha. unfold accept in Hq. rsimpl_in Hq. set_solver.
  - intros q r Hq Hr'. unfold accept in Hq, Hr'. rsimpl_in Hq. rsimpl_in Hr'.
    destruct (decide (q = p)) as [->|Hqp], (decide (r = p)) as [->|Hrp]; [done| | |].
    + rewrite Hpa, Hobj by done. intros He. destruct (Hfresh r); [set_solver|done].
    + rewrite Hpa, Hobj by done. intros He. destruct (Hfresh q); [set_solver|done].
    + rewrite !Hobj by done. apply Hai; set_solver.
Qed.

(** The CER sets the identity of a connection that is not up yet. *)
Lemma set_obj_inv c p o d :
  inv c d -> p ∈ waiting d -> peer_RemoteAddr o = peer_RemoteAddr (obj d p) ->
  inv c (d <| objs ::= <[p := o]> |>).
Proof.
  intros Hinv Hp Haddr. pose proof Hinv as [Hc Hr Hpe Hdj Ho Ha Hai].
  set (d' := d <| objs ::= <[p := o]> |>).
  assert (forall q, q <> p -> obj d' q = obj d q) as Hobj.
  { intros q Hq. unfold obj, d'. rsimpl. by rewrite lookup_insert_ne. }
  assert (forall q, peer_RemoteAddr (obj d' q) = peer_RemoteAddr (obj d q)) as Haddr'.
  { intros q. destruct (decide (q = p)) as [->|]; [|by rewrite Hobj].
    unfold obj at 1, d'. rsimpl. by rewrite lookup_insert_eq. }
  split; try done.
  - intros k q. change (peers d') with (peers d). change (up d') with (up d). rewrite Hr.
    assert (q ∈ up d -> q <> p) by (intros Hq ->; by apply (Hdj p)).
    split; intros [Hq ->]; (split; [done|]); by rewrite Hobj by auto.
  - intros q Hq. unfold d'. rsimpl. apply lookup_insert_is_Some'. right. by apply Ho.
  - intros q Hq. rewrite Haddr'. by apply Ha.
  - intros q r. rewrite !Haddr'. apply Hai.
Qed.

Lemma registered_inv c p d :
  inv c d -> p ∈ waiting d ->
  inv c ((registerPeer p d) <| waiting ::= fun s => s ∖ {[ p ]} |> <| up ::= fun s => s ∪ {[ p ]} |>).
Proof.
  intros Hinv Hp. pose proof (registryKey_inj c d) as Hinj.
  pose proof Hinv as [Hc Hr Hpe Hdj Ho Ha Hai]. unfold registerPeer.
  set (key := registryKey (obj d p)).
  split; rsimpl.
  - done.
  - intros k q. change (obj _ q) with (obj d q).
    rewrite lookup_insert_Some, Hr, elem_of_union, elem_of_singleton. split.
    + intros [[<- <-]|[Hne [Hq ->]]]; [by split; [right|]|by split; [left|]].
    + intros [[Hq| ->] ->]; [|by left]. right. split; [|done].
      intros He. assert (p = q) as <- by (apply (Hinj p q Hinv); [set_solver..|done]).
      by apply (Hdj p).
  - intros n e He. apply Hpe in He. set_solver.
  - set_solver.
  - intros q Hq. apply Ho. set_solver.
  - intros q Hq. apply Ha. set_solver.
  - intros q r Hq Hr'. apply Hai; set_solver.
Qed.

(** ** Routing lemmas *)

Lemma elem_of_visited d order p :
  registry_order d order -> p ∈ visited d order <-> exists k, peers d !! k = Some p.
Proof.
  intros Ho. unfold visited. rewrite list_elem_of_omap. split.
  - intros (k & _ & Hk). by exists k.
  - intros [k Hk]. exists k. split; [|done]. rewrite Ho. apply list_elem_of_fmap.
    exists (k, p). split; [done|]. by apply elem_of_map_to_list.
Qed.

Lemma elem_of_visited_up c d order p :
  inv c d -> registry_order d order -> p ∈ visited d order <-> p ∈ up d.
Proof.
  intros Hi Ho. rewrite elem_of_visited by done. setoid_rewrite (inv_peers c d Hi). split.
  - by intros (k & ? & _).
  - intros Hp. by eexists.
Qed.

Lemma elem_of_filter_bool {A} (f : A -> bool) (l : list A) x :
  x ∈ List.filter f l <-> x ∈ l /\ f x = true.
Proof. rewrite !list_elem_of_In. apply filter_In. Qed.

(** The choice: a connection that is up, not the sender's, and of the
    destination. *)
Definition serves (d : DRANode) (rv : routingView) (p : peer_id) : Prop :=
  (DestinationHost rv <> [] /\ peer_OriginHost (obj d p) = DestinationHost rv) \/
  peer_OriginRealm (obj d p) = DestinationRealm rv.

Lemma len_zero_nil {A} (l : list A) : (len l =? 0) = true <-> l = [].
Proof. rewrite Z.eqb_eq. destruct l; [done|]. rewrite len_cons. pose proof (len_nonneg l). split; [lia|done]. Qed.

Lemma pickPeer_spec c o1 o2 rv from d d' to :
  inv c d -> registry_order d o1 -> registry_order d o2 ->
  pickPeer o1 o2 rv from d = (d', to) ->
  (exists i, d' = d <| rrCounter := i |>) /\
  match to with
  | Some p => p ∈ up d /\ p <> from /\ serves d rv p
  | None => forall p, p ∈ up d -> p <> from -> peer_OriginRealm (obj d p) <> DestinationRealm rv
  end.
Proof.
  intros Hi Ho1 Ho2. unfold pickPeer.
  set (filtered := List.filter _ (peersByRealm o2 (DestinationRealm rv) d)).
  assert (forall p, p ∈ filtered <->
    (p ∈ up d /\ peer_OriginRealm (obj d p) = DestinationRealm rv) /\ p <> from) as Hf.
  { intros p. unfold filtered, peersByRealm. rewrite !elem_of_filter_bool, !bool_decide_eq_true.
    by rewrite (elem_of_visited_up c) by done. }
  assert (forall r, (if len filtered =? 0 then (d, None)
    else (d <| rrCounter := to_u64 (rrCounter d + 1) |>,
          filtered !! Z.to_nat (to_u64 (rrCounter d + 1) mod len filtered))) = r ->
    (exists i, r.1 = d <| rrCounter := i |>) /\
    match r.2 with
    | Some p => p ∈ up d /\ p <> from /\ serves d rv p
    | None => forall p, p ∈ up d -> p <> from -> peer_OriginRealm (obj d p) <> DestinationRealm rv
    end) as Hrealm.
  { intros r <-. destruct (len filtered =? 0) eqn:E; cbn [fst snd].
    - split; [exists (rrCounter d); by destruct d|]. apply len_zero_nil in E.
      intros p Hp Hne Hr. assert (p ∈ filtered) as Hin by (by apply Hf). rewrite E in Hin. set_solver.
    - split; [by eexists|]. apply Z.eqb_neq in E. pose proof (len_nonneg filtered).
      set (k := to_u64 (rrCounter d + 1)).
      pose proof (Z.mod_pos_bound k (len filtered) ltac:(lia)).
      destruct (filtered !! Z.to_nat (k mod len filtered)) as [p|] eqn:Ep.
      + apply list_elem_of_lookup_2, Hf in Ep. unfold serves. tauto.
      + apply lookup_ge_None in Ep. unfold len in *. lia. }
  destruct (negb (len (DestinationHost rv) =? 0)) eqn:Eh; cbv zeta;
    [|intros H; apply Hrealm in H; exact H].
  destruct (peerByHost o1 (DestinationHost rv) d) as [p|] eqn:Ep;
    [|intros H; apply Hrealm in H; exact H].
  case_bool_decide as Hne; [|intros H; apply Hrealm in H; exact H].
  intros [= <- <-]. split; [exists (rrCounter d); by destruct d|].
  unfold peerByHost in Ep. apply head_Some_elem_of, elem_of_filter_bool in Ep as [Hp Hb].
  apply (elem_of_visited_up c) in Hp; [|done..]. apply bool_decide_eq_true in Hb.
  split; [done|]. split; [done|]. left. split; [|done].
  apply negb_true_iff in Eh. intros He. apply len_zero_nil in He. congruence.
Qed.

Lemma setHopByHop_fields m id :
  20 <= len m ->
  len (setHopByHop m id) = len m /\ slice (setHopByHop m id) 12 16 = be_put 4 id /\
  slice (setHopByHop m id) 0 12 = slice m 0 12 /\ slice (setHopByHop m id) 16 20 = slice m 16 20.
Proof.
  intros Hl. assert (20 <= length m)%nat as Hn by (unfold len in Hl; lia). clear Hl.
  unfold setHopByHop. split.
  { unfold len. rewrite !length_app, length_take, length_drop, be_put_length. lia. }
  byte_list 4%nat id. peel m. unfold slice. eval_to_nat. by cbn [take drop app].
Qed.

(** The forwarded message [m'] of [msg]: its header but for the length and
    the Hop-by-Hop identifier, which is [id]. *)
Definition forwarded (msg m' : bytes) (id : Z) : Prop :=
  slice m' 12 16 = be_put 4 id /\ slice m' 4 12 = slice msg 4 12 /\
  slice m' 16 20 = slice msg 16 20 /\ take 1 m' = take 1 msg /\
  (len m' < 2 ^ 24 -> be_get (slice m' 1 4) = len m').

Lemma slice_slice {A} (l : list A) i j a b :
  0 <= i -> 0 <= a <= b -> b <= j - i -> slice (slice l i j) a b = slice l (i + a) (i + b).
Proof.
  intros Hi Ha Hb. unfold slice. rewrite skipn_firstn_comm, take_take, drop_drop.
  f_equal; [lia|f_equal; lia].
Qed.

Lemma rewrite_forwarded msg nh nr m id :
  rewriteOriginHostRealm msg nh nr = Ok m -> forwarded msg (setHopByHop m id) id.
Proof.
  intros H. apply rewrite_header in H as (Hl & Hm & H1 & Hs & Hlen).
  destruct (setHopByHop_fields m id Hm) as (E1 & E2 & E3 & E4). split; [done|].
  assert (forall a b, 0 <= a <= b -> b <= 12 ->
    slice (setHopByHop m id) a b = slice m a b) as Hs12.
  { intros a b Ha Hb. rewrite <- (Z.add_0_l a), <- (Z.add_0_l b).
    rewrite <- !(slice_slice _ 0 12) by lia. by rewrite E3. }
  assert (forall a b, 0 <= a <= b -> b <= 16 -> slice m (4 + a) (4 + b) = slice msg (4 + a) (4 + b))
    as Hs4.
  { intros a b Ha Hb. rewrite <- !(slice_slice _ 4 20) by lia. by rewrite Hs. }
  split; [rewrite Hs12 by lia; by apply (Hs4 0 8); lia|].
  split; [rewrite E4; by apply (Hs4 12 16); lia|]. split.
  - rewrite <- H1. by apply (Hs12 0 1); lia.
  - rewrite E1, Hs12 by lia. done.
Qed.

(** ** Correlation of answers with requests *)

Definition req_id (o : output) : option Z :=
  match o with ORequest _ _ _ n _ => Some n | _ => None end.
Definition ans_id (o : output) : option Z :=
  match o with OAnswer _ _ n _ => Some n | _ => None end.
Definition req_ids (l : list output) : list Z := omap req_id l.
Definition ans_ids (l : list output) : list Z := omap ans_id l.

(** Every answer in [l] comes after the request it answers, and goes to where
    that came from. *)
Definition matched (l : list output) : Prop :=
  forall l1 l2 p orig n m, l = l1 ++ OAnswer p orig n m :: l2 ->
    exists to m', ORequest to p orig n m' ∈ l1.

Record corr (k : Z) (d : DRANode) : Prop := {
  corr_seq : 0 <= hbhSeq d <= k;
  corr_pending n e : pending d !! n = Some e ->
    n <= hbhSeq d /\ (n ∉ ans_ids (outputs d)) /\
    exists to m, ORequest to (origPeer e) (origHbH e) n m ∈ outputs d;
  corr_req : NoDup (req_ids (outputs d));
  corr_req_le n : n ∈ req_ids (outputs d) -> n <= hbhSeq d;
  corr_ans : NoDup (ans_ids (outputs d));
  corr_matched : matched (outputs d) }.

Lemma matched_snoc l o :
  matched l ->
  (forall p orig n m, o = OAnswer p orig n m -> exists to m', ORequest to p orig n m' ∈ l) ->
  matched (l ++ [o]).
Proof.
  intros Hm Ho l1 l2 p orig n m. destruct l2 as [|x l2 _] using rev_ind; intros He.
  - apply app_inj_tail in He as [<- ->]. eauto.
  - change (OAnswer p orig n m :: l2 ++ [x]) with ((OAnswer p orig n m :: l2) ++ [x]) in He.
    rewrite app_assoc in He. apply app_inj_tail in He as [-> _]. by eapply Hm.
Qed.

Definition neutral (o : output) : Prop := req_id o = None /\ ans_id o = None.

Lemma ids_snoc l o :
  req_ids (l ++ [o]) = req_ids l ++ match req_id o with Some n => [n] | None => [] end /\
  ans_ids (l ++ [o]) = ans_ids l ++ match ans_id o with Some n => [n] | None => [] end.
Proof.
  unfold req_ids, ans_ids. rewrite !omap_app. cbn. by destruct (req_id o), (ans_id o).
Qed.

(** At most one output is added, and it is neither a request nor an answer. *)
Definition adds_neutral (l l' : list output) : Prop :=
  l' = l \/ exists o, neutral o /\ l' = l ++ [o].

(** A step that adds a neutral output at most and removes pending entries. *)
Lemma corr_weaken k d d' :
  corr k d -> adds_neutral (outputs d) (outputs d') -> pending d' ⊆ pending d ->
  hbhSeq d <= hbhSeq d' <= k + 1 -> corr (k + 1) d'.
Proof.
  intros [Hsq Hp Hr Hrl Ha Hm] Ho Hsub Hs.
  assert (req_ids (outputs d') = req_ids (outputs d) /\ ans_ids (outputs d') = ans_ids (outputs d) /\
    matched (outputs d') /\ (forall o, o ∈ outputs d -> o ∈ outputs d')) as (E1 & E2 & E3 & E4).
  { destruct Ho as [->|(o & [Hno1 Hno2] & ->)]; [done|].
    destruct (ids_snoc (outputs d) o) as [-> ->]. rewrite Hno1, Hno2, !app_nil_r.
    split; [done|]. split; [done|]. split; [|set_solver].
    apply matched_snoc; [done|]. intros p orig n m ->. done. }
  split; rewrite ?E1, ?E2; try done; [lia| |].
  - intros n e He. eapply lookup_weaken in He; [|done].
    destruct (Hp n e He) as (H1 & H2 & to & m & H3). split; [lia|]. split; [done|].
    exists to, m. by apply E4.
  - intros n Hn. apply Hrl in Hn. lia.
Qed.

Lemma Send_neutral b o d : neutral o -> adds_neutral (outputs d) (outputs (Send b o d).1).
Proof. intros. destruct b; [right; by exists o|by left]. Qed.

Lemma Send_keeps b o d :
  pending (Send b o d).1 = pending d /\ hbhSeq (Send b o d).1 = hbhSeq d /\ cfg (Send b o d).1 = cfg d.
Proof. by destruct b. Qed.

Lemma take_subseteq n d : pending (take_ n d).1 ⊆ pending d.
Proof. unfold take_. destruct (pending d !! n); [|done]. apply delete_subseteq. Qed.

(** The identifier that a forwarded request gets is new while fewer than
    2^32 messages have been handled. *)
Lemma corr_next k d : corr k d -> k + 1 < 2 ^ 32 -> (nextHbH d).2 = hbhSeq d + 1.
Proof. intros Hc Hk. unfold nextHbH. cbn. apply to_u32_id. destruct (corr_seq k d Hc). unfold u32. lia. Qed.

Lemma corr_forwarded k d from to orig ee cmd m :
  corr k d -> k + 1 < 2 ^ 32 ->
  let n := hbhSeq d + 1 in
  corr (k + 1) (emit (ORequest to from orig n m)
    (put n {| origPeer := from; origHbH := orig; origEndToEnd := ee; cmdCode := cmd |}
      (d <| hbhSeq := n |>))).
Proof.
  intros [Hsq Hp Hr Hrl Ha Hm] Hk n. unfold emit, put.
  assert (n ∉ req_ids (outputs d)) as Hnr by (intros Hin; apply Hrl in Hin; unfold n in Hin; lia).
  assert (n ∉ ans_ids (outputs d)) as Hna.
  { unfold ans_ids. rewrite list_elem_of_omap. intros (o & Ho & Hid).
    destruct o as [| | | |p0 og0 n0 m0]; simplify_eq/=.
    apply list_elem_of_split in Ho as (l1 & l2 & He).
    destruct (Hm _ _ _ _ _ _ He) as (to' & m' & Hin). apply Hnr.
    unfold req_ids. apply list_elem_of_omap. exists (ORequest to' p0 og0 n m').
    split; [rewrite He; set_solver|done]. }
  split; rsimpl; rewrite ?(proj1 (ids_snoc _ _)), ?(proj2 (ids_snoc _ _)); cbn [req_id ans_id];
    rewrite ?app_nil_r.
  - unfold n. lia.
  - intros i e. rewrite lookup_insert_Some. intros [[<- <-]|[Hne He]].
    + split; [done|]. split; [done|]. exists to, m. set_solver.
    + destruct (Hp i e He) as (H1 & H2 & to' & m' & H3). split; [unfold n; lia|].
      split; [done|]. exists to', m'. set_solver.
  - apply NoDup_app. split; [done|]. split; [|apply NoDup_singleton].
    intros i Hi ->%list_elem_of_singleton. done.
  - intros i. rewrite elem_of_app, list_elem_of_singleton. intros [Hi| ->]; [|done].
    apply Hrl in Hi. unfold n. lia.
  - done.
  - apply matched_snoc; [done|]. done.
Qed.

Lemma corr_answered k d n e m :
  corr k d -> pending d !! n = Some e ->
  corr (k + 1) (emit (OAnswer (origPeer e) (origHbH e) n m) (d <| pending ::= delete n |>)).
Proof.
  intros [Hsq Hp Hr Hrl Ha Hm] He. unfold emit.
  destruct (Hp n e He) as (Hn & Hna & to & m' & Hin).
  split; rsimpl; rewrite ?(proj1 (ids_snoc _ _)), ?(proj2 (ids_snoc _ _)); cbn [req_id ans_id];
    rewrite ?app_nil_r; try done.
  - lia.
  - intros i e' Hi. apply lookup_delete_Some in Hi as [Hne Hi].
    destruct (Hp i e' Hi) as (H1 & H2 & to' & m2 & H3). split; [done|].
    split; [rewrite elem_of_app, list_elem_of_singleton; naive_solver|].
    exists to', m2. set_solver.
  - apply NoDup_app. split; [done|]. split; [|apply NoDup_singleton].
    by intros i Hi ->%list_elem_of_singleton.
  - apply matched_snoc; [done|]. intros p orig i m2 [= <- <- <- <-]. eauto.
Qed.

(** ** Every branch of [forwardRequest] and [forwardAnswer] *)

(** The request of [from] is answered with an error; what else may have
    happened is that counters went on. *)
Definition refused (e : env) (from : peer_id) (h : parsedHeader) (rc : Z) (d d' : DRANode) : Prop :=
  exists d1, d' = sendProtocolError (ok e from) from h rc d1 /\
    cfg d1 = cfg d /\ objs d1 = objs d /\ peers d1 = peers d /\ waiting d1 = waiting d /\
    up d1 = up d /\ outputs d1 = outputs d /\
    (pending d1 = pending d \/ pending d1 = delete (nextHbH d).2 (pending d)) /\
    (hbhSeq d1 = hbhSeq d \/ hbhSeq d1 = (nextHbH d).2).

(** The request of [from] goes to [to] as [m], and is remembered under [n]. *)
Definition relayed (from to : peer_id) (h : parsedHeader) (n : Z) (m : bytes) (d d' : DRANode) : Prop :=
  exists i,
    d' = emit (ORequest to from (ph_HopByHopID h) n m)
      (put n {| origPeer := from; origHbH := ph_HopByHopID h; origEndToEnd := ph_EndToEndID h;
                cmdCode := ph_CommandCode h |}
        (d <| hbhSeq := n |>)) <| rrCounter := i |>.

Lemma forwardRequest_cases c e from msg h d d' :
  inv c d -> registry_order d (order1 e) -> registry_order d (order2 e) ->
  forwardRequest e from msg h d = Ok d' ->
  ((extractRouting msg).2 <> Ok tt /\ refused e from h DIAMETER_INVALID_AVP_VALUE d d') \/
  ((extractRouting msg).2 = Ok tt /\ DestinationRealm (extractRouting msg).1 = [] /\
   refused e from h DIAMETER_REALM_NOT_SERVED d d') \/
  ((extractRouting msg).2 = Ok tt /\ DestinationRealm (extractRouting msg).1 <> [] /\
   (forall p, p ∈ up d -> p <> from ->
      peer_OriginRealm (obj d p) <> DestinationRealm (extractRouting msg).1) /\
   refused e from h DIAMETER_UNABLE_TO_DELIVER d d') \/
  ((extractRouting msg).2 = Ok tt /\ DestinationRealm (extractRouting msg).1 <> [] /\
   exists to, to ∈ up d /\ to <> from /\ serves d (extractRouting msg).1 to /\
   ((exists m, forwarded msg m (nextHbH d).2 /\ ok e to = true /\
       relayed from to h (nextHbH d).2 m d d') \/
    (ok e to = false /\ refused e from h DIAMETER_UNABLE_TO_DELIVER d d') \/
    ((exists er, rewriteOriginHostRealm msg (cfg_OriginHost c) (cfg_OriginRealm c) = Err er) /\
     refused e from h DIAMETER_UNABLE_TO_COMPLY d d'))).
Proof.
  intros Hi Ho1 Ho2. unfold forwardRequest.
  destruct (extractRouting msg) as [rv [[]|er|]] eqn:Ex; cbn [fst snd]; [|intros [= <-]; left|done].
  2:{ split; [done|]. exists d. by split_and!; try done; left. }
  destruct (len (DestinationRealm rv) =? 0) eqn:Er.
  { apply len_zero_nil in Er. intros [= <-]. right; left. split; [done|]. split; [done|].
    exists d. by split_and!; try done; left. }
  assert (DestinationRealm rv <> []) as Hr by (intros He; apply len_zero_nil in He; congruence).
  destruct (pickPeer _ _ rv from d) as [d1 to] eqn:Ep.
  apply (pickPeer_spec c) in Ep as [[i ->] Hto]; [|done..].
  destruct to as [to|].
  2:{ intros [= <-]. right; right; left. split_and!; [done..|].
      exists (d <| rrCounter := i |>). by split_and!; try done; left. }
  destruct Hto as (Hup & Hne & Hs). intros H. right; right; right.
  split; [done|]. split; [done|]. exists to. split_and!; try done. revert H.
  change (cfg (d <| rrCounter := i |>)) with (cfg d). rewrite (inv_cfg c d Hi).
  destruct (rewriteOriginHostRealm msg (cfg_OriginHost c) (cfg_OriginRealm c)) as [m|er|] eqn:Erw;
    [| |done].
  2:{ intros [= <-]. right; right. split; [by eexists|].
      exists (d <| rrCounter := i |>). by split_and!; try done; left. }
  unfold Send. destruct (ok e to); intros H; simplify_eq/=.
  - left. eexists. split; [by apply (rewrite_forwarded _ _ _ _ _ Erw)|]. split; [done|].
    exists i. by destruct d.
  - right; left. split; [done|]. eexists. split; [reflexivity|].
    unfold take_, put. rsimpl. rewrite lookup_insert_eq. cbn [fst]. rsimpl.
    split_and!; try done; right; [|done]. apply delete_insert_eq.
Qed.

Lemma forwardAnswer_cases e from msg h d d' :
  forwardAnswer e from msg h d = Ok d' ->
  (pending d !! ph_HopByHopID h = None /\ d' = d) \/
  (exists en, pending d !! ph_HopByHopID h = Some en /\
    (d' = d <| pending ::= delete (ph_HopByHopID h) |> \/
     exists m, forwarded msg m (origHbH en) /\ ok e (origPeer en) = true /\
       d' = emit (OAnswer (origPeer en) (origHbH en) (ph_HopByHopID h) m)
                 (d <| pending ::= delete (ph_HopByHopID h) |>))).
Proof.
  unfold forwardAnswer, take_. destruct (pending d !! ph_HopByHopID h) as [en|];
    [|intros [= <-]; by left].
  intros H. right. exists en. split; [done|]. revert H.
  destruct (rewriteOriginHostRealm _ _ _) as [m|er|] eqn:E; [|intros [= <-]; by left|done].
  intros [= <-]. unfold Send. destruct (ok e (origPeer en)); [|by left]. right.
  eexists. split; [by apply (rewrite_forwarded _ _ _ _ _ E)|done].
Qed.

(** ** The invariant of all reachable states *)

Lemma refused_subseteq d d1 :
  pending d1 = pending d \/ pending d1 = delete (nextHbH d).2 (pending d) -> pending d1 ⊆ pending d.
Proof. intros [->| ->]; [done|apply delete_subseteq]. Qed.

Lemma refused_inv c e from h rc d d' : inv c d -> refused e from h rc d d' -> inv c d'.
Proof.
  intros [Hc Hr Hpe Hdj Ho Ha Hai] (d1 & -> & E1 & E2 & E3 & E4 & E5 & _ & Hsub & _).
  apply Send_inv. assert (forall q, obj d1 q = obj d q) as Hobj by (intros; unfold obj; by rewrite E2).
  split; rewrite ?E1, ?E2, ?E3, ?E4, ?E5; try done.
  - intros k p. rewrite Hobj. apply Hr.
  - intros n en He. eapply Hpe, lookup_weaken; [done|by apply refused_subseteq].
  - intros p. rewrite Hobj. apply Ha.
  - intros p q. rewrite !Hobj. apply Hai.
Qed.

Lemma relayed_inv c from to h n m d d' : inv c d -> from ∈ up d -> relayed from to h n m d d' -> inv c d'.
Proof.
  intros Hi Hf [i ->]. apply emit_inv, inv_rr, put_inv; [by apply inv_hbh|done].
Qed.

Lemma handleDWR_cases e p msg d :
  (handleDWR e p msg d).1 = d \/ exists m, (handleDWR e p msg d).1 = emit (ODWA p m) d.
Proof.
  unfold handleDWR. destruct (DeviceWatchdogRequest.Unmarshal _ _) as [dwr [[]|er|]]; [|by left..].
  destruct (DeviceWatchdogAnswer.Marshal _).2; [|by left..].
  unfold Send. destruct (ok e p); [right; by eexists|by left].
Qed.

(** After [handleCER] the peer may have an identity; the CEA is the only
    thing that may have been sent. *)
Lemma handleCER_cases e p msg d :
  exists d1, (d1 = d \/ exists o, peer_RemoteAddr o = peer_RemoteAddr (obj d p) /\
                d1 = d <| objs ::= <[p := o]> |>) /\
  ((handleCER e p msg d).1 = d1 \/ exists m, (handleCER e p msg d).1 = emit (OCEA p m) d1).
Proof.
  unfold handleCER. destruct (CapabilitiesExchangeRequest.Unmarshal _ _) as [cer [[]|er|]];
    [|exists d; split; by left..].
  set (o := (obj d p) <| peer_OriginHost := _ |> <| peer_OriginRealm := _ |>).
  exists (d <| objs ::= <[p := o]> |>). split; [right; by exists o|].
  destruct (CapabilitiesExchangeAnswer.Marshal _).2; [|by left..].
  unfold Send. destruct (ok e p); [right; by eexists|by left].
Qed.

Lemma handleCER_inv c e p msg d : inv c d -> p ∈ waiting d ->
  inv c (handleCER e p msg d).1 /\ p ∈ waiting (handleCER e p msg d).1.
Proof.
  intros Hi Hp. destruct (handleCER_cases e p msg d) as (d1 & Hd1 & Hd').
  assert (inv c d1 /\ p ∈ waiting d1) as [Hi1 Hp1].
  { destruct Hd1 as [->|(o & Ho & ->)]; [done|]. by split; [apply set_obj_inv|]. }
  destruct Hd' as [->|[m ->]]; [done|]. by split; [apply emit_inv|].
Qed.

Lemma first_message_inv c e p msg d : inv c d -> p ∈ waiting d -> inv c (first_message e p msg d).
Proof.
  intros Hi Hp. unfold first_message.
  destruct (parseHeader msg) as [hdr|er|]; [|apply disconnect_inv; [done|set_solver]..].
  destruct (_ || _); [apply disconnect_inv; [done|set_solver]|].
  destruct (handleCER_inv c e p msg d Hi Hp) as [Hi' Hp'].
  destruct (handleCER e p msg d) as [d' []]; cbn in Hi', Hp'.
  - by apply registered_inv.
  - apply disconnect_inv; [done|set_solver].
Qed.

Lemma forwardAnswer_inv c e from msg h d d' : inv c d -> forwardAnswer e from msg h d = Ok d' -> inv c d'.
Proof.
  intros Hi H. apply forwardAnswer_cases in H as [[_ ->]|(en & He & H)]; [done|].
  assert (inv c (d <| pending ::= delete (ph_HopByHopID h) |>)) as Hi'.
  { pose proof (take_inv c (ph_HopByHopID h) d Hi) as Ht. unfold take_ in Ht. by rewrite He in Ht. }
  destruct H as [->|(m & _ & _ & ->)]; [done|]. by apply emit_inv.
Qed.

Lemma main_message_inv c e p msg d d' :
  inv c d -> p ∈ up d -> registry_order d (order1 e) -> registry_order d (order2 e) ->
  main_message e p msg d = Ok d' -> inv c d'.
Proof.
  intros Hi Hp Ho1 Ho2. unfold main_message.
  assert (inv c (disconnect p d)) as Hdis by (apply disconnect_inv; [done|set_solver]).
  destruct (parseHeader msg) as [h|er|]; [|by intros [= <-]..].
  destruct (ph_CommandCode h =? 280).
  { destruct (isRequest h); [|by intros [= <-]].
    pose proof (handleDWR_cases e p msg d) as Hd.
    destruct (handleDWR e p msg d) as [d1 b]. cbn in Hd.
    assert (inv c d1 /\ p ∈ up d1) as [Hi1 Hp1] by (destruct Hd as [->|[m ->]];
      [done|by split; [apply emit_inv|]]).
    destruct b; intros [= <-]; [done|]. apply disconnect_inv; [done|set_solver]. }
  destruct (ph_CommandCode h =? 282); [destruct (isRequest h); by intros [= <-]|].
  destruct (isRequest h); [|by apply forwardAnswer_inv].
  intros H. apply (forwardRequest_cases c) in H; [|done..].
  destruct H as [[_ H]|[(_ & _ & H)|[(_ & _ & _ & H)|
    (_ & _ & to & _ & _ & _ & [(m & _ & _ & H)|[(_ & H)|(_ & H)]])]]];
    first [exact (refused_inv _ _ _ _ _ _ _ Hi H) | exact (relayed_inv _ _ _ _ _ _ _ _ Hi Hp H)].
Qed.

Lemma step_inv c ev d d' : inv c d -> enabled ev d -> step ev d = Ok d' -> inv c d'.
Proof.
  destruct ev as [p addr|p msg e|p]; cbn [step].
  - intros Hi He [= <-]. by apply accept_inv.
  - intros Hi (Hp & Ho1 & Ho2). case_decide as Hu; [by apply main_message_inv|].
    intros [= <-]. apply first_message_inv; [done|set_solver].
  - intros Hi Hp [= <-]. by apply disconnect_inv.
Qed.

Lemma init_inv c : inv c (NewDRANode c).
Proof.
  split; cbn [peers pending up waiting objs cfg NewDRANode]; intros; try done.
  rewrite lookup_empty. set_solver.
Qed.

Lemma reachable_inv c k d : reachable c k d -> inv c d.
Proof. induction 1; [apply init_inv|by eapply step_inv]. Qed.

(** ** Correlation along runs *)

Lemma refused_corr c e k from h rc d d' :
  inv c d -> corr k d -> k + 1 < 2 ^ 32 -> refused e from h rc d d' -> corr (k + 1) d'.
Proof.
  intros Hi Hc Hk (d1 & -> & _ & _ & _ & _ & _ & Eo & Hsub & Hs).
  pose proof (corr_next k d Hc Hk) as Hn. pose proof (corr_seq k d Hc).
  unfold sendProtocolError. set (o := OError _ _ _).
  destruct (Send_keeps (ok e from) o d1) as (Ep & Eh & _).
  apply (corr_weaken k d); [done| | |].
  - rewrite <- Eo. by apply Send_neutral.
  - rewrite Ep. by apply refused_subseteq.
  - rewrite Eh. lia.
Qed.

Lemma corr_step c ev k d d' :
  inv c d -> corr k d -> k + 1 < 2 ^ 32 -> enabled ev d -> step ev d = Ok d' -> corr (k + 1) d'.
Proof.
  intros Hi Hc Hk Hen. pose proof (corr_seq k d Hc) as Hseq.
  assert (forall d1, adds_neutral (outputs d) (outputs d1) -> pending d1 ⊆ pending d ->
    hbhSeq d1 = hbhSeq d -> corr (k + 1) d1) as Hw.
  { intros d1 H1 H2 H3. apply (corr_weaken k d); [done..|lia]. }
  assert (forall p d1, adds_neutral (outputs d) (outputs d1) -> pending d1 ⊆ pending d ->
    hbhSeq d1 = hbhSeq d -> corr (k + 1) (disconnect p d1)) as Hdis.
  { intros p d1 H1 H2 H3. rewrite disconnect_eq. cbv zeta. apply Hw; rsimpl; [done| |done].
    etransitivity; [apply map_filter_subseteq|done]. }
  destruct ev as [p addr|p msg e|p]; cbn [step].
  - intros [= <-]. apply Hw; [by left|done|done].
  - destruct Hen as (Hp & Ho1 & Ho2). case_decide as Hu.
    + unfold main_message.
      destruct (parseHeader msg) as [h|er|]; [|intros [= <-]; apply Hdis; [by left|done|done]..].
      destruct (ph_CommandCode h =? 280).
      { destruct (isRequest h); [|intros [= <-]; apply Hw; [by left|done|done]].
        pose proof (handleDWR_cases e p msg d) as Hd.
        destruct (handleDWR e p msg d) as [d1 b]. cbn in Hd.
        assert (adds_neutral (outputs d) (outputs d1) /\ pending d1 = pending d /\
          hbhSeq d1 = hbhSeq d) as (H1 & H2 & H3).
        { destruct Hd as [->|[m ->]]; split_and!; try done;
            [by left|right; exists (ODWA p m); by repeat split]. }
        destruct b; intros [= <-]; [apply Hw|apply Hdis]; rewrite ?H2; done. }
      destruct (ph_CommandCode h =? 282).
      { destruct (isRequest h); intros [= <-]; [apply Hdis|apply Hw]; try done; by left. }
      destruct (isRequest h); intros H.
      * apply (forwardRequest_cases c) in H; [|done..].
        destruct H as [[_ H]|[(_ & _ & H)|[(_ & _ & _ & H)|
          (_ & _ & to & _ & _ & _ & [(m & _ & _ & H)|[(_ & H)|(_ & H)]])]]];
          try by eapply refused_corr.
        destruct H as [i ->]. rewrite (corr_next k d Hc Hk).
        destruct (corr_forwarded k d p to (ph_HopByHopID h) (ph_EndToEndID h) (ph_CommandCode h) m
          Hc Hk). by split.
      * apply forwardAnswer_cases in H as [[_ ->]|(en & He & [->|(m & _ & _ & ->)])].
        -- apply Hw; [by left|done|done].
        -- apply Hw; [by left|apply delete_subseteq|done].
        -- by apply corr_answered.
    + intros [= <-]. unfold first_message.
      destruct (parseHeader msg) as [hdr|er|]; [|apply Hdis; [by left|done|done]..].
      destruct (_ || _); [apply Hdis; [by left|done|done]|].
      destruct (handleCER_cases e p msg d) as (d1 & Hd1 & Hd').
      destruct (handleCER e p msg d) as [d2 b]. cbn in Hd'.
      assert (adds_neutral (outputs d) (outputs d2) /\ pending d2 = pending d /\
        hbhSeq d2 = hbhSeq d) as (H1 & H2 & H3).
      { destruct Hd1 as [->|(o & _ & ->)], Hd' as [->|[m ->]]; split_and!; try done;
          first [by left|right; exists (OCEA p m); by repeat split]. }
      destruct b; [apply Hw|apply Hdis]; first [exact H1 | exact H3 |
        change (pending d2 ⊆ pending d); by rewrite H2].
  - intros [= <-]. apply Hdis; [by left|done|done].
Qed.

Lemma reachable_corr c k d : reachable c k d -> k < 2 ^ 32 -> corr k d.
Proof.
  induction 1 as [|k d ev d' Hr IH He Hs]; intros Hk.
  - split; cbn; try done; try (by apply NoDup_nil_2); try set_solver.
    by intros [|? ?] l2 p orig n m He.
  - apply (corr_step c ev k d d'); [by eapply reachable_inv|apply IH; lia|done..].
Qed.
