(* ===== verification/DraTheorems.v ===== *)
(** * Properties of the routing agent

    What the runs of [DraNode] guarantee: who is in the registry and in the
    pending table, what becomes of each kind of message, and that answers go
    back where their requests came from.  [reachable c k d]: [k] messages,
    connections and disconnections lead from the initial state of a node with
    the configuration [c] to [d]. *)

From S2P Require Import Prelude Binary DataTypes Wire Message BaseMessages Framing DraAvp DraNode.

(** ** Stating outcomes *)

(** The sender [p] of a request [h] is told [rc], if the write succeeds, and
    nothing else changes. *)
Definition told (e : env) (p : peer_id) (h : parsedHeader) (rc : Z) (d d' : DRANode) : Prop :=
  outputs d' = outputs d ++
    (if ok e p
     then [OError p rc (protocolError (cfg_OriginHost (cfg d)) (cfg_OriginRealm (cfg d)) h rc)]
     else []) /\
  pending d' = pending d /\ peers d' = peers d /\ up d' = up d /\ waiting d' = waiting d.

(** [p] is in the registry under [key]. *)
Definition registered (d : DRANode) (key : bytes) (p : peer_id) : Prop :=
  p ∈ up d /\ key = registryKey (obj d p).

(** [d'] is [d] without the connection [p] and without the requests that [p]
    sent. *)
Record removed (p : peer_id) (d d' : DRANode) : Prop := {
  removed_peers key q : peers d' !! key = Some q <-> peers d !! key = Some q /\ q <> p;
  removed_up : up d' = up d ∖ {[ p ]};
  removed_waiting : waiting d' = waiting d ∖ {[ p ]};
  removed_pending n en : pending d' !! n = Some en <-> pending d !! n = Some en /\ origPeer en <> p;
  removed_outputs : outputs d' = outputs d }.

(** Requests go out under distinct identifiers, no identifier is answered
    twice, and what is returned was asked for before by the connection it is
    returned to, under the identifier it carries. *)
Definition correlated (l : list output) : Prop :=
  NoDup (req_ids l) /\ NoDup (ans_ids l) /\
  forall before after p orig n m, l = before ++ OAnswer p orig n m :: after ->
    exists to m', ORequest to p orig n m' ∈ before.

(** Application traffic: neither watchdog nor disconnection. *)
Definition application (h : parsedHeader) : Prop :=
  ph_CommandCode h <> 280 /\ ph_CommandCode h <> 282.

Definition entry_of (p : peer_id) (h : parsedHeader) : pendingEntry :=
  {| origPeer := p; origHbH := ph_HopByHopID h; origEndToEnd := ph_EndToEndID h;
     cmdCode := ph_CommandCode h |}.

Lemma step_application p msg e d h :
  p ∈ up d -> parseHeader msg = Ok h -> application h ->
  step (EMessage p msg e) d =
    if isRequest h then forwardRequest e p msg h d else forwardAnswer e p msg h d.
Proof.
  intros Hp Hh [H1 H2]. cbn [step]. rewrite decide_True by done. unfold main_message.
  rewrite Hh. by rewrite !(proj2 (Z.eqb_neq _ _)).
Qed.

Lemma refused_told c k d d' e p h rc :
  inv c d -> corr k d -> k + 1 < 2 ^ 32 -> refused e p h rc d d' -> told e p h rc d d'.
Proof.
  intros Hi Hc Hk (d1 & -> & E1 & E2 & E3 & E4 & E5 & E6 & Hp & _).
  assert (pending d1 = pending d) as Hp1.
  { destruct Hp as [->|Hp]; [done|]. rewrite Hp. apply delete_id.
    rewrite (corr_next k d Hc Hk). destruct (pending d !! (hbhSeq d + 1)) eqn:E; [|done].
    apply (corr_pending k d Hc) in E. lia. }
  unfold told, sendProtocolError, Send. rewrite <- E1, <- E3, <- E4, <- E5, <- E6, <- Hp1.
  destruct (ok e p); cbn [fst]; [done|]. by rewrite app_nil_r.
Qed.

(** ** Theorems *)

(** C8: the registry and the pending table.  In every reachable state the
    registry holds exactly the connections that completed the capabilities
    exchange and did not end, each under the key of its own identity; no two
    of them share a key; and every pending request has a sender that is still
    connected. *)
Theorem registry_exact c k d :
  reachable c k d ->
  (forall key p, peers d !! key = Some p <-> registered d key p) /\
  (forall key p q, registered d key p -> registered d key q -> p = q) /\
  (forall n en, pending d !! n = Some en -> origPeer en ∈ up d) /\
  up d ## waiting d.
Proof.
  intros H%reachable_inv. split; [apply (inv_peers c d H)|].
  split.
  { intros key p q [Hp ->] [Hq E]. apply (registryKey_inj c d p q); set_solver. }
  split; [apply (inv_pending c d H)|].
  intros p Hu Hw. by apply (inv_disjoint c d H p).
Qed.

(** C9: every outcome of a request.  A request to route is answered by the
    agent with exactly one error - INVALID_AVP_VALUE when its AVPs cannot be
    read, REALM_NOT_SERVED without a Destination-Realm, UNABLE_TO_DELIVER
    when no other connected peer is of the realm or the write fails - and
    leaves no pending entry; or it is sent to one connected peer, other than
    its sender, that is the destination host or of the destination realm, with
    its header kept but for its length and a fresh Hop-by-Hop identifier,
    under which the sender and its own identifier are remembered.  (That the
    rewrite fails, for which UNABLE_TO_COMPLY is foreseen, does not happen.) *)
Theorem request_outcome c k d e p msg h d' :
  reachable c k d -> k + 1 < 2 ^ 32 -> enabled (EMessage p msg e) d -> p ∈ up d ->
  parseHeader msg = Ok h -> application h -> isRequest h = true ->
  step (EMessage p msg e) d = Ok d' ->
  let rv := (extractRouting msg).1 in
  let readable := ((extractRouting msg).2 = Ok tt) in
  (~ readable /\ told e p h DIAMETER_INVALID_AVP_VALUE d d') \/
  (readable /\ DestinationRealm rv = [] /\ told e p h DIAMETER_REALM_NOT_SERVED d d') \/
  (readable /\ DestinationRealm rv <> [] /\
   (forall q, q ∈ up d -> q <> p -> peer_OriginRealm (obj d q) <> DestinationRealm rv) /\
   told e p h DIAMETER_UNABLE_TO_DELIVER d d') \/
  (readable /\ DestinationRealm rv <> [] /\
   exists to, to ∈ up d /\ to <> p /\ serves d rv to /\
   ((ok e to = false /\ told e p h DIAMETER_UNABLE_TO_DELIVER d d') \/
    (ok e to = true /\ exists n m, forwarded msg m n /\ pending d !! n = None /\
       (n ∉ req_ids (outputs d)) /\
       outputs d' = outputs d ++ [ORequest to p (ph_HopByHopID h) n m] /\
       pending d' = <[n := entry_of p h]> (pending d)))).
Proof.
  intros Hr Hk (_ & Ho1 & Ho2) Hp Hh Ha Hq Hs rv readable.
  rewrite (step_application p msg e d h), Hq in Hs by done.
  pose proof (reachable_inv c k d Hr) as Hi. pose proof (reachable_corr c k d Hr ltac:(lia)) as Hc.
  assert (forall rc, refused e p h rc d d' -> told e p h rc d d') as Ht
    by (intros; by eapply refused_told).
  apply (forwardRequest_cases c) in Hs; [|done..].
  destruct Hs as [[Hx H]|[(Hx & Hd & H)|[(Hx & Hd & Hn & H)|(Hx & Hd & to & Hu & Hne & Hsv & H)]]];
    [left; auto|right; left; auto|right; right; left; auto|right; right; right].
  split; [done|]. split; [done|]. exists to. split_and!; [done..|].
  destruct H as [(m & Hf & Hok & [i ->])|[(Hok & H)|([er Her] & H)]];
    [right|left; auto|by destruct (readable_rewrites _ _ _ _ Hx Her)].
  rewrite (corr_next k d Hc Hk) in Hf |- *. split; [done|]. exists (hbhSeq d + 1), m.
  split; [done|]. split.
  { destruct (pending d !! (hbhSeq d + 1)) eqn:E; [|done]. apply (corr_pending k d Hc) in E. lia. }
  split; [intros Hin; apply (corr_req_le k d Hc) in Hin; lia|]. done.
Qed.

(** ** Messages with padded AVPs *)

(** What the agent makes of the message with the header [hdr] and the AVPs
    [l]: its identity instead of the sender's, the new length, and the
    Hop-by-Hop identifier [n]. *)
Definition agent_body (c : Config) (l : list avp) : bytes :=
  concat (map marshal (map (rewrite_avp (cfg_OriginHost c) (cfg_OriginRealm c)) l ++
                       missing (cfg_OriginHost c) (cfg_OriginRealm c) l)).

Definition agent_copy (c : Config) (hdr : bytes) (l : list avp) (n : Z) : bytes :=
  take 1 hdr ++ be_put 3 (headerLen + len (agent_body c l)) ++ slice hdr 4 12 ++ be_put 4 n ++
  drop 16 hdr ++ agent_body c l.

(** A message that the agent can copy. *)
Record well_formed (c : Config) (hdr : bytes) (l : list avp) : Prop := {
  wfm_host : fits (cfg_OriginHost c);
  wfm_realm : fits (cfg_OriginRealm c);
  wfm_hdr : len hdr = headerLen;
  wfm_avps : Forall wf_avp l;
  wfm_len : headerLen + len (agent_body c l) < 2 ^ 24 }.

Lemma copy_exact c hdr l n :
  well_formed c hdr l ->
  exists m, rewriteOriginHostRealm (hdr ++ concat (map marshal l)) (cfg_OriginHost c)
              (cfg_OriginRealm c) = Ok m /\ setHopByHop m n = agent_copy c hdr l n.
Proof.
  intros [Hh Hr Hd Hl Hb]. pose proof (len_nonneg (agent_body c l)).
  rewrite rewriteOriginHostRealm_spec by done. eexists. split; [done|].
  fold (agent_body c l). rewrite to_u32_id by (unfold u32, headerLen in *; lia).
  unfold with_total, agent_copy. byte_list 3%nat (headerLen + len (agent_body c l)).
  assert (20 <= length hdr)%nat as Hn by (unfold len, headerLen in Hd; lia). clear Hd.
  peel hdr. unfold setHopByHop, slice. eval_to_nat. by cbn [take drop app].
Qed.

Lemma extract_padded hdr l :
  len hdr = headerLen -> Forall wf_avp l ->
  exists rv, extractRouting (hdr ++ concat (map marshal l)) = (rv, Ok tt) /\
    DestinationHost rv = last_value avpDestinationHost l /\
    DestinationRealm rv = last_value avpDestinationRealm l.
Proof.
  intros Hh Hl. unfold extractRouting. rewrite iterateAVPs_visit by done.
  destruct (visit_extract headerLen l zero_view) as (H & _ & _ & Hdh & Hdr).
  destruct (visit _ _ _ _) as [rv r]. cbn in H. subst r. by exists rv.
Qed.

(** C10: a request that can be delivered is.  A request whose AVPs are
    padded and whose Destination-Realm is the realm of some other connected
    peer is handled without a panic and sent to a peer of that realm or of
    the Destination-Host: byte for byte the original with the agent's
    identity in the Origin AVPs, its length, and the fresh Hop-by-Hop
    identifier. *)
Theorem request_forwarded c k d e p hdr l h q :
  let msg := hdr ++ concat (map marshal l) in
  reachable c k d -> k + 1 < 2 ^ 32 -> enabled (EMessage p msg e) d -> p ∈ up d ->
  (forall x, ok e x = true) -> well_formed c hdr l ->
  parseHeader msg = Ok h -> application h -> isRequest h = true ->
  last_value avpDestinationRealm l <> [] ->
  q ∈ up d -> q <> p -> peer_OriginRealm (obj d q) = last_value avpDestinationRealm l ->
  exists d' to n,
    step (EMessage p msg e) d = Ok d' /\ to ∈ up d /\ to <> p /\
    (peer_OriginHost (obj d to) = last_value avpDestinationHost l \/
     peer_OriginRealm (obj d to) = last_value avpDestinationRealm l) /\
    outputs d' = outputs d ++ [ORequest to p (ph_HopByHopID h) n (agent_copy c hdr l n)] /\
    pending d' = <[n := entry_of p h]> (pending d) /\ pending d !! n = None /\ up d' = up d.
Proof.
  intros msg Hr Hk (_ & Ho1 & Ho2) Hp Hok Hw Hh Ha Hq Hdr Hqu Hqp Hqr.
  rewrite (step_application p msg e d h), Hq by done.
  pose proof (reachable_inv c k d Hr) as Hi. pose proof (reachable_corr c k d Hr ltac:(lia)) as Hc.
  destruct (extract_padded hdr l (wfm_hdr _ _ _ Hw) (wfm_avps _ _ _ Hw)) as (rv & Ex & Eh & Er).
  unfold forwardRequest. unfold msg at 1. rewrite Ex.
  destruct (len (DestinationRealm rv) =? 0) eqn:E0; [apply len_zero_nil in E0; congruence|].
  destruct (pickPeer (order1 e) (order2 e) rv p d) as [d1 to] eqn:Ep.
  apply (pickPeer_spec c) in Ep as [[i ->] Hto]; [|done..].
  destruct to as [to|]; [|exfalso; apply (Hto q); congruence].
  destruct Hto as (Hup & Hne & Hs). pose proof (corr_next k d Hc Hk) as Hn.
  destruct (copy_exact c hdr l (hbhSeq d + 1) Hw) as (m & Em & Ec).
  change (cfg (d <| rrCounter := i |>)) with (cfg d). rewrite (inv_cfg c d Hi). fold msg in Em.
  rewrite Em. unfold nextHbH in *. cbn [snd] in Hn. cbv zeta.
  change (hbhSeq (d <| rrCounter := i |>)) with (hbhSeq d). rewrite Hn, Ec.
  unfold Send. rewrite Hok. eexists _, to, (hbhSeq d + 1). split; [done|].
  split; [done|]. split; [done|]. split.
  { destruct Hs as [[_ Hs]|Hs]; [left|right]; congruence. }
  split; [done|]. split; [done|]. split; [|done].
  destruct (pending d !! (hbhSeq d + 1)) eqn:E; [|done]. apply (corr_pending k d Hc) in E. lia.
Qed.

(** C11: an answer is returned.  An answer whose Hop-by-Hop identifier is
    pending goes, with the agent's identity in the Origin AVPs, to the
    connection that sent the request and carries the identifier which that
    connection used; the entry is removed even when the write fails.  An
    answer to an unknown identifier changes nothing. *)
Theorem answer_returned c k d e p hdr l h :
  let msg := hdr ++ concat (map marshal l) in
  reachable c k d -> p ∈ up d -> well_formed c hdr l ->
  parseHeader msg = Ok h -> application h -> isRequest h = false ->
  match pending d !! ph_HopByHopID h with
  | None => step (EMessage p msg e) d = Ok d
  | Some en =>
      exists d', step (EMessage p msg e) d = Ok d' /\
      pending d' = delete (ph_HopByHopID h) (pending d) /\
      peers d' = peers d /\ up d' = up d /\
      outputs d' = outputs d ++
        (if ok e (origPeer en)
         then [OAnswer (origPeer en) (origHbH en) (ph_HopByHopID h)
                 (agent_copy c hdr l (origHbH en))]
         else [])
  end.
Proof.
  intros msg Hr Hp Hw Hh Ha Hq. pose proof (reachable_inv c k d Hr) as Hi.
  rewrite (step_application p msg e d h), Hq by done. unfold forwardAnswer, take_.
  destruct (pending d !! ph_HopByHopID h) as [en|] eqn:En; [|done].
  destruct (copy_exact c hdr l (origHbH en) Hw) as (m & Em & Ec).
  change (cfg (d <| pending ::= _ |>)) with (cfg d). rewrite (inv_cfg c d Hi). fold msg in Em.
  rewrite Em, Ec. eexists. split; [done|]. unfold Send.
  destruct (ok e (origPeer en)); cbn [fst]; rsimpl; [done|]. by rewrite app_nil_r.
Qed.

(** C12: correlation.  As long as fewer than 2^32 steps were taken, the
    Hop-by-Hop identifiers under which requests were sent on are pairwise
    distinct, no identifier was answered twice, and every answer that was
    returned comes after a request that had been received from the very
    connection it was returned to, with the Hop-by-Hop identifier that it
    carries. *)
Theorem answers_correlated c k d :
  reachable c k d -> k < 2 ^ 32 -> correlated (outputs d).
Proof.
  intros Hr Hk. pose proof (reachable_corr c k d Hr Hk) as Hc.
  split; [by apply (corr_req k d)|]. split; [by apply (corr_ans k d)|].
  apply (corr_matched k d Hc).
Qed.

(** C13: the end of a connection.  When a connection ends, exactly it leaves
    the registry and exactly the requests that {e it} sent are forgotten.
    The requests that were sent {e to} it stay in the table: nothing removes
    them any more, for only an answer with their identifier or the end of
    their sender does. *)
Theorem disconnect_exact c k d p :
  reachable c k d -> p ∈ waiting d ∪ up d ->
  exists d', step (EEnd p) d = Ok d' /\ removed p d d'.
Proof.
  intros Hr Hp. pose proof (reachable_inv c k d Hr) as Hi.
  pose proof (disconnect_inv c p d Hi Hp) as Hi'.
  eexists. split; [done|]. split; try by rewrite disconnect_eq.
  - intros key q. rewrite (inv_peers _ _ Hi'), (inv_peers _ _ Hi), disconnect_eq. cbv zeta. rsimpl.
    change (obj _ q) with (obj d q). rewrite elem_of_difference, elem_of_singleton. tauto.
  - intros n en. rewrite disconnect_eq. cbv zeta. rsimpl.
    by rewrite map_lookup_filter_Some.
Qed.

(** One message stops the agent.  A request for a realm that some other
    peer serves, or an answer to a pending request, whose last AVP lacks its
    padding makes the goroutine that handles it panic - and nothing recovers,
    so the whole process ends. *)
Theorem unpadded_message_panics c k d e p hdr l a h :
  let msg := hdr ++ concat (map marshal l) ++ unpadded a in
  reachable c k d -> enabled (EMessage p msg e) d -> p ∈ up d ->
  fits (cfg_OriginHost c) -> fits (cfg_OriginRealm c) ->
  len hdr = headerLen -> Forall wf_avp l -> wf_avp a -> avp_total a mod 4 <> 0 ->
  is_avp avpOriginHost a = false -> is_avp avpOriginRealm a = false ->
  parseHeader msg = Ok h -> application h ->
  (if isRequest h
   then last_value avpDestinationRealm (l ++ [a]) <> [] /\
        exists q, q ∈ up d /\ q <> p /\
          peer_OriginRealm (obj d q) = last_value avpDestinationRealm (l ++ [a])
   else exists en, pending d !! ph_HopByHopID h = Some en) ->
  step (EMessage p msg e) d = Panic.
Proof.
  intros msg Hr (_ & Ho1 & Ho2) Hp Hfh Hfr Hd Hl Ha Hm Hnh Hnr Hh Hap H.
  pose proof (reachable_inv c k d Hr) as Hi. rewrite (step_application p msg e d h) by done.
  destruct (rewrite_unpadded (cfg_OriginHost c) (cfg_OriginRealm c) hdr l a) as (Ex & Er & Ep);
    [done..|]. fold msg in Ex, Er, Ep.
  destruct (isRequest h).
  - destruct H as (Hne & q & Hq & Hqp & Hqr). unfold forwardRequest.
    destruct (extractRouting msg) as [rv r]. cbn [fst snd] in Ex, Er. subst r.
    destruct (len (DestinationRealm rv) =? 0) eqn:E0; [apply len_zero_nil in E0; congruence|].
    destruct (pickPeer (order1 e) (order2 e) rv p d) as [d1 to] eqn:Epk.
    apply (pickPeer_spec c) in Epk as [[i ->] Hto]; [|done..].
    destruct to as [to|]; [|exfalso; apply (Hto q); congruence].
    change (cfg (d <| rrCounter := i |>)) with (cfg d). by rewrite (inv_cfg c d Hi), Ep.
  - destruct H as [en Hen]. unfold forwardAnswer, take_. rewrite Hen.
    change (cfg (d <| pending ::= _ |>)) with (cfg d). by rewrite (inv_cfg c d Hi), Ep.
Qed.

(** ** The capabilities exchange *)

(** A configuration with which a CEA can be encoded. *)
Record wf_config (c : Config) : Prop := {
  wfc_host : fits (cfg_OriginHost c) /\ cfg_OriginHost c <> [];
  wfc_realm : fits (cfg_OriginRealm c) /\ cfg_OriginRealm c <> [];
  wfc_ips : Forall fits_address (cfg_HostIPs c);
  wfc_vendor : u32 (cfg_VendorID c);
  wfc_product : fits (cfg_ProductName c);
  wfc_apps : Forall u32 (cfg_SupportedApps c) }.

Lemma build_CEA_wf c cer :
  wf_config c -> wf_header (CapabilitiesExchangeRequest.Header cer) ->
  CapabilitiesExchangeAnswer.wf (build_CEA c cer) /\
  wf_header (CapabilitiesExchangeAnswer.Header (build_CEA c cer)).
Proof.
  intros [[H1 _] [H2 _] H3 H4 H5 H6] (_ & _ & _ & _ & Hh & He). split.
  - by split_and!; cbn; try apply Forall_nil.
  - by split_and!.
Qed.

Lemma Validate_CEA c cer :
  wf_config c -> cfg_HostIPs c <> [] -> cfg_ProductName c <> [] ->
  CapabilitiesExchangeAnswer.Validate (build_CEA c cer) = None.
Proof.
  intros [[_ H1] [_ H2] _ _ _ _] H3 H4. unfold CapabilitiesExchangeAnswer.Validate. cbn.
  assert (forall A (l : list A), l <> [] -> (len l =? 0) = false) as Hn.
  { intros A l Hl. destruct (len l =? 0) eqn:E; [|done]. by apply len_zero_nil in E. }
  by rewrite !Hn.
Qed.

Lemma Validate_CEA_empty c cer :
  cfg_HostIPs c = [] \/ cfg_ProductName c = [] ->
  CapabilitiesExchangeAnswer.Validate (build_CEA c cer) <> None.
Proof.
  intros H. unfold CapabilitiesExchangeAnswer.Validate. cbn.
  destruct (_ =? 0); [done|]. destruct (_ =? 0); [done|].
  destruct H as [-> | ->]; [done|]. by destruct (_ =? 0).
Qed.

(** A CER that is sent by [Marshal] is read as a CER request. *)
Lemma CER_header cer cer' msg :
  wf_header (CapabilitiesExchangeRequest.Header cer) ->
  CommandCode (CapabilitiesExchangeRequest.Header cer) = 257 ->
  Request (Flags (CapabilitiesExchangeRequest.Header cer)) = true ->
  20 + len (CapabilitiesExchangeRequest.body cer) < 2 ^ 24 ->
  CapabilitiesExchangeRequest.Marshal cer = (cer', Ok msg) ->
  exists h, parseHeader msg = Ok h /\ ph_CommandCode h = 257 /\ isRequest h = true.
Proof.
  intros Hh Hc Hr Hs Hm. unfold CapabilitiesExchangeRequest.Marshal in Hm.
  destruct (CapabilitiesExchangeRequest.Validate cer); [done|]. cbv zeta in Hm.
  pose proof (len_nonneg (CapabilitiesExchangeRequest.body cer)) as Hn.
  rewrite to_u32_id in Hm by (unfold u32; lia).
  set (h := (CapabilitiesExchangeRequest.Header cer)
    <| Length := 20 + len (CapabilitiesExchangeRequest.body cer) |>) in Hm.
  assert (wf_header h) as Hw.
  { destruct Hh as (H1 & _ & H2). split; [exact H1|]. split; [|exact H2].
    unfold h, u24. rsimpl. lia. }
  injection Hm as _ <-. rsimpl.
  destruct (parseHeader_unmarshal _ h (unmarshal_marshalHeader h
    (CapabilitiesExchangeRequest.body (cer <| CapabilitiesExchangeRequest.Header := h |>)) Hw))
    as (ph & Hp & Eq & Ec & _).
  exists ph. rewrite Eq, Ec. done.
Qed.

(** What [handleCER] does with such a CER. *)
Lemma handleCER_exact c e p cer cer' msg d :
  inv c d -> wf_config c ->
  CapabilitiesExchangeRequest.wf cer -> wf_header (CapabilitiesExchangeRequest.Header cer) ->
  20 + len (CapabilitiesExchangeRequest.body cer) < 2 ^ 24 ->
  CapabilitiesExchangeRequest.Marshal cer = (cer', Ok msg) ->
  wf_header (CapabilitiesExchangeRequest.Header cer') /\
  HopByHopID (CapabilitiesExchangeRequest.Header cer') =
    HopByHopID (CapabilitiesExchangeRequest.Header cer) /\
  EndToEndID (CapabilitiesExchangeRequest.Header cer') =
    EndToEndID (CapabilitiesExchangeRequest.Header cer) /\
  handleCER e p msg d =
    (let d := d <| objs ::= <[p := (obj d p)
       <| peer_OriginHost := CapabilitiesExchangeRequest.OriginHost cer |>
       <| peer_OriginRealm := CapabilitiesExchangeRequest.OriginRealm cer |>]> |> in
     match (CapabilitiesExchangeAnswer.Marshal (build_CEA c cer')).2 with
     | Ok out => Send (ok e p) (OCEA p out) d
     | _ => (d, false)
     end).
Proof.
  intros Hi Hcf Hw Hh Hs Hm.
  assert (CapabilitiesExchangeRequest.Validate cer = None) as Hv.
  { unfold CapabilitiesExchangeRequest.Marshal in Hm.
    by destruct (CapabilitiesExchangeRequest.Validate cer). }
  destruct (CapabilitiesExchangeRequest.CER_roundtrip cer Hw Hh Hv Hs)
    as (m' & data & Hm' & Hhd & Hl & _ & Hu).
  rewrite Hm in Hm'. injection Hm' as <- <-. rewrite Hhd.
  pose proof (len_nonneg (CapabilitiesExchangeRequest.body cer)).
  split. { destruct Hh as (H1 & _ & H2). split; [exact H1|]. split; [|exact H2].
           unfold u24. rsimpl. lia. }
  split; [done|]. split; [done|]. unfold handleCER.
  assert (CapabilitiesExchangeRequest.Unmarshal msg CapabilitiesExchangeRequest.New = (cer', Ok tt))
    as ->.
  { revert Hu. unfold CapabilitiesExchangeRequest.Unmarshal.
    rewrite (proj2 (Z.ltb_ge _ _)) by lia. by destruct (read_header _). }
  assert (CapabilitiesExchangeRequest.OriginHost cer' = CapabilitiesExchangeRequest.OriginHost cer /\
    CapabilitiesExchangeRequest.OriginRealm cer' = CapabilitiesExchangeRequest.OriginRealm cer)
    as [-> ->].
  { unfold CapabilitiesExchangeRequest.Marshal in Hm. rewrite Hv in Hm. by injection Hm as <- _. }
  cbv zeta. change (cfg (d <| objs ::= _ |>)) with (cfg d). by rewrite (inv_cfg c d Hi).
Qed.

(** Admission.  A connection that starts with a valid CER is admitted if
    and only if the agent's configuration has a Host-IP-Address and a
    Product-Name; then it is registered with the Origin-Host and Origin-Realm
    of its CER, and gets a CEA that decodes to DIAMETER_SUCCESS, the agent's
    identity and applications, and the identifiers of the CER.  [StartNode]
    checks neither of the two, and with either empty every connection is
    closed without an answer. *)
Theorem cer_admission c k d e p cer cer' msg :
  reachable c k d -> p ∈ waiting d -> wf_config c ->
  CapabilitiesExchangeRequest.wf cer -> wf_header (CapabilitiesExchangeRequest.Header cer) ->
  CommandCode (CapabilitiesExchangeRequest.Header cer) = 257 ->
  Request (Flags (CapabilitiesExchangeRequest.Header cer)) = true ->
  20 + len (CapabilitiesExchangeRequest.body cer) < 2 ^ 24 ->
  (forall m, 20 + len (CapabilitiesExchangeAnswer.body (build_CEA c m)) < 2 ^ 24) ->
  CapabilitiesExchangeRequest.Marshal cer = (cer', Ok msg) -> ok e p = true ->
  exists d', step (EMessage p msg e) d = Ok d' /\
  if (len (cfg_HostIPs c) =? 0) || (len (cfg_ProductName c) =? 0)
  then (p ∉ waiting d' ∪ up d') /\ outputs d' = outputs d
  else
    p ∈ up d' /\
    peer_OriginHost (obj d' p) = CapabilitiesExchangeRequest.OriginHost cer /\
    peer_OriginRealm (obj d' p) = CapabilitiesExchangeRequest.OriginRealm cer /\
    exists out cea, outputs d' = outputs d ++ [OCEA p out] /\
      CapabilitiesExchangeAnswer.Unmarshal out CapabilitiesExchangeAnswer.zero = (cea, Ok tt) /\
      CapabilitiesExchangeAnswer.ResultCode cea = DIAMETER_SUCCESS /\
      CapabilitiesExchangeAnswer.OriginHost cea = cfg_OriginHost c /\
      CapabilitiesExchangeAnswer.AuthApplicationId cea = cfg_SupportedApps c /\
      HopByHopID (CapabilitiesExchangeAnswer.Header cea) =
        HopByHopID (CapabilitiesExchangeRequest.Header cer) /\
      EndToEndID (CapabilitiesExchangeAnswer.Header cea) =
        EndToEndID (CapabilitiesExchangeRequest.Header cer).
Proof.
  intros Hr Hp Hcf Hw Hh Hc Hq Hs Hsz Hm Hok. pose proof (reachable_inv c k d Hr) as Hi.
  cbn [step]. rewrite decide_False by (by apply (inv_disjoint c d Hi)).
  eexists. split; [done|]. unfold first_message.
  destruct (CER_header cer cer' msg Hh Hc Hq Hs Hm) as (h & -> & -> & ->).
  change (negb (257 =? 257) || negb true) with false. cbv iota.
  destruct (handleCER_exact c e p cer cer' msg d Hi Hcf Hw Hh Hs Hm) as (Hwh & Eh & Ee & ->).
  cbv zeta. set (d1 := d <| objs ::= _ |>).
  destruct ((len (cfg_HostIPs c) =? 0) || (len (cfg_ProductName c) =? 0)) eqn:E.
  - assert (CapabilitiesExchangeAnswer.Validate (build_CEA c cer') <> None) as Hv.
    { apply Validate_CEA_empty. apply orb_true_iff in E as [E|E]; apply len_zero_nil in E; auto. }
    unfold CapabilitiesExchangeAnswer.Marshal.
    destruct (CapabilitiesExchangeAnswer.Validate _); [|done]. cbn [snd].
    rewrite disconnect_eq. cbv zeta. rsimpl. split; [set_solver|done].
  - apply orb_false_iff in E as [E1 E2].
    destruct (build_CEA_wf c cer' Hcf Hwh) as [Hw' Hwh'].
    destruct (CapabilitiesExchangeAnswer.CEA_roundtrip (build_CEA c cer') Hw' Hwh') as
      (cea & out & Hma & Hhd & _ & _ & Hu); [|apply Hsz|].
    { apply Validate_CEA; [done|intros Hn; by rewrite Hn in E1|intros Hn; by rewrite Hn in E2]. }
    rewrite Hma. cbn [snd]. unfold Send. rewrite Hok. split; [set_solver|].
    assert (obj d1 p = (obj d p)
       <| peer_OriginHost := CapabilitiesExchangeRequest.OriginHost cer |>
       <| peer_OriginRealm := CapabilitiesExchangeRequest.OriginRealm cer |>) as Ho
      by (unfold obj at 1, d1; rsimpl; by rewrite lookup_insert_eq).
    change (obj _ p) with (obj d1 p). rewrite Ho. split; [done|]. split; [done|].
    exists out, cea. split; [done|]. split; [done|]. rewrite Hhd.
    assert (cea = (build_CEA c cer') <| CapabilitiesExchangeAnswer.Header :=
      CapabilitiesExchangeAnswer.Header cea |>) as ->.
    { unfold CapabilitiesExchangeAnswer.Marshal in Hma. case_match; [done|].
      injection Hma as <- _. done. }
    by rewrite <- Eh, <- Ee.
Qed.

(** ** A run: an MME and an HSS connect, a request goes through and is answered *)

Module Run.

Definition config : Config :=
  {| ListenAddr := gostr ":3868"; cfg_OriginHost := gostr "dra.epc"; cfg_OriginRealm := gostr "epc";
     cfg_ProductName := gostr "dra"; cfg_VendorID := 10415; cfg_HostIPs := [be_put 4 2130706433];
     cfg_SupportedApps := [16777251] |}.

Definition cer (host realm : string) (hbh : Z) : CapabilitiesExchangeRequest.t :=
  example_cer <| CapabilitiesExchangeRequest.Header :=
                   (new_header 257 0 true false) <| HopByHopID := hbh |> |>
              <| CapabilitiesExchangeRequest.OriginHost := gostr host |>
              <| CapabilitiesExchangeRequest.OriginRealm := gostr realm |>.

Definition cer_bytes (host realm : string) (hbh : Z) : bytes :=
  match (CapabilitiesExchangeRequest.Marshal (cer host realm hbh)).2 with
  | Ok b => b
  | _ => []
  end.

(** Every write succeeds, and [range] follows the map's own order. *)
Definition calm (d : DRANode) : env :=
  let order := (map_to_list (peers d)).*1 in
  {| ok := fun _ => true; order1 := order; order2 := order |}.

Definition after (d : DRANode) (ev : event) : DRANode :=
  match step ev d with Ok d' => d' | _ => d end.

Definition says (p : peer_id) (msg : bytes) (d : DRANode) : event := EMessage p msg (calm d).

Definition header (cmd : Z) (request : bool) (hbh : Z) : bytes :=
  marshalHeader ((new_header cmd 16777251 request true) <| HopByHopID := hbh |>
                                                        <| EndToEndID := 99 |>).

Definition ulr_avps : list avp :=
  [string_avp 263 (gostr "mme;1"); string_avp 264 (gostr "mme.epc");
   string_avp 283 (gostr "home")].
Definition ulr_header : bytes := header 316 true 7.
Definition ulr : bytes := ulr_header ++ concat (map marshal ulr_avps).

Definition ula_avps : list avp := [string_avp 263 (gostr "mme;1"); string_avp 264 (gostr "hss.home")].
Definition ula_header : bytes := header 316 false 1.
Definition ula : bytes := ula_header ++ concat (map marshal ula_avps).

Definition start : DRANode := NewDRANode config.
Definition one : DRANode := after start (EAccept 1 (gostr "10.0.0.1:1")).
Definition two : DRANode := after one (EAccept 2 (gostr "10.0.0.2:2")).
Definition mme_up : DRANode := after two (says 1 (cer_bytes "mme.epc" "epc" 5) two).
Definition both_up : DRANode := after mme_up (says 2 (cer_bytes "hss.home" "home" 6) mme_up).
Definition asked : DRANode := after both_up (says 1 ulr both_up).
Definition answered : DRANode := after asked (says 2 ula asked).

Lemma calm_orders d : registry_order d (order1 (calm d)) /\ registry_order d (order2 (calm d)).
Proof. by split; unfold registry_order. Qed.

Definition no_panic {E A} (r : outcome E A) : bool := match r with Panic => false | _ => true end.

Lemma reach_after k d ev :
  reachable config k d -> enabled ev d -> no_panic (step ev d) = true -> reachable config (k + 1) (after d ev).
Proof.
  intros Hr He Hs. apply (reach_step config k d ev); [done..|]. unfold after.
  destruct (step ev d) as [d'|[]|] eqn:E; [done| |done].
  exfalso. revert E. destruct ev as [|p msg e|]; cbn [step]; try done. case_decide; [|done].
  unfold main_message, forwardRequest, forwardAnswer. by repeat case_match.
Qed.

Lemma reach_says k d p msg :
  reachable config k d -> p ∈ waiting d ∪ up d -> no_panic (step (says p msg d) d) = true ->
  reachable config (k + 1) (after d (says p msg d)).
Proof. intros. apply reach_after; [done| |done]. split; [done|apply calm_orders]. Qed.

Lemma two_reachable : reachable config 2 two.
Proof.
  apply (reach_after 1 one); [apply (reach_after 0 start); [apply reach_init| |done]| |done].
  - split; [done|]. split; [by apply (bool_decide_unpack _); vm_compute|]. set_solver.
  - split; [done|]. split; [by apply (bool_decide_unpack _); vm_compute|].
    assert (waiting one ∪ up one = {[ 1%nat ]}) as -> by (by vm_compute).
    intros q ->%elem_of_singleton. by vm_compute.
Qed.

Ltac member := apply (bool_decide_unpack _); vm_compute; exact I.
Ltac runs := vm_compute; reflexivity.

Lemma both_up_reachable : reachable config 4 both_up.
Proof.
  apply (reach_says 3 mme_up); [apply (reach_says 2 two); [apply two_reachable|member|runs]|member|runs].
Qed.

Lemma asked_reachable : reachable config 5 asked.
Proof. apply (reach_says 4 both_up); [apply both_up_reachable|member|runs]. Qed.

Lemma answered_reachable : reachable config 6 answered.
Proof. apply (reach_says 5 asked); [apply asked_reachable|member|runs]. Qed.

End Run.

Definition header_of (msg : bytes) : parsedHeader :=
  match parseHeader msg with
  | Ok h => h
  | _ => {| ph_Version := 0; ph_Length := 0; ph_Flags := 0; ph_CommandCode := 0;
            ph_ApplicationID := 0; ph_HopByHopID := 0; ph_EndToEndID := 0 |}
  end.

Lemma registry_exact_witness :
  peers Run.both_up !! registryKey (obj Run.both_up 2) = Some 2%nat.
Proof.
  apply (proj1 (registry_exact Run.config 4 Run.both_up Run.both_up_reachable)).
  split; [Run.member|done].
Defined.

Lemma request_outcome_witness :
  length (outputs Run.asked) = S (length (outputs Run.both_up)).
Proof.
  destruct (request_outcome Run.config 4 Run.both_up (Run.calm Run.both_up) 1 Run.ulr
    (header_of Run.ulr) Run.asked) as
    [[_ [-> _]]|[(_ & _ & -> & _)|[(_ & _ & _ & -> & _)|(_ & _ & to & _ & _ & _ & H)]]].
  - apply Run.both_up_reachable.
  - by vm_compute.
  - split; [Run.member|apply Run.calm_orders].
  - Run.member.
  - Run.runs.
  - by vm_compute.
  - Run.runs.
  - Run.runs.
  - rewrite length_app. cbn. lia.
  - rewrite length_app. cbn. lia.
  - rewrite length_app. cbn. lia.
  - destruct H as [[H _]|(_ & n & m & _ & _ & _ & -> & _)]; [done|]. rewrite length_app. cbn. lia.
Defined.

Lemma well_formed_ulr : well_formed Run.config Run.ulr_header Run.ulr_avps.
Proof.
  split; [by vm_compute|by vm_compute|done| |by vm_compute]. repeat constructor; by vm_compute.
Qed.

Lemma well_formed_ula : well_formed Run.config Run.ula_header Run.ula_avps.
Proof.
  split; [by vm_compute|by vm_compute|done| |by vm_compute]. repeat constructor; by vm_compute.
Qed.

Lemma request_forwarded_witness :
  exists to n, outputs Run.asked = outputs Run.both_up ++
    [ORequest to 1 7 n (agent_copy Run.config Run.ulr_header Run.ulr_avps n)].
Proof.
  destruct (request_forwarded Run.config 4 Run.both_up (Run.calm Run.both_up) 1 Run.ulr_header
    Run.ulr_avps (header_of Run.ulr) 2) as (d' & to & n & Hs & _ & _ & _ & Ho & _).
  - apply Run.both_up_reachable.
  - by vm_compute.
  - split; [Run.member|apply Run.calm_orders].
  - Run.member.
  - done.
  - apply well_formed_ulr.
  - Run.runs.
  - by vm_compute.
  - Run.runs.
  - by vm_compute.
  - Run.member.
  - done.
  - Run.runs.
  - exists to, n. unfold Run.asked, Run.after, Run.says. fold Run.ulr in Hs. rewrite Hs. exact Ho.
Defined.

Lemma answer_returned_witness :
  outputs Run.answered = outputs Run.asked ++
    [OAnswer 1 7 1 (agent_copy Run.config Run.ula_header Run.ula_avps 7)].
Proof.
  pose proof (answer_returned Run.config 5 Run.asked (Run.calm Run.asked) 2 Run.ula_header
    Run.ula_avps (header_of Run.ula)) as H.
  assert (pending Run.asked !! ph_HopByHopID (header_of Run.ula) =
    Some (entry_of 1 (header_of Run.ulr))) as E by Run.runs.
  rewrite E in H. destruct H as (d' & Hs & _ & _ & _ & Ho).
  - apply Run.asked_reachable.
  - Run.member.
  - apply well_formed_ula.
  - Run.runs.
  - clear E; split; vm_compute; discriminate.
  - Run.runs.
  - unfold Run.answered, Run.after, Run.says. fold Run.ula in Hs. rewrite Hs, Ho. Run.runs.
Defined.

Lemma answers_correlated_witness :
  NoDup (ans_ids (outputs Run.answered)) /\ ans_ids (outputs Run.answered) = [1].
Proof.
  split; [|Run.runs].
  apply (answers_correlated Run.config 6 Run.answered Run.answered_reachable). by vm_compute.
Defined.

(** The HSS goes away: the request sent to it stays pending. *)
Lemma disconnect_exact_witness :
  exists d', step (EEnd 2) Run.asked = Ok d' /\
    pending d' !! 1 = Some (entry_of 1 (header_of Run.ulr)) /\ (2%nat ∉ up d').
Proof.
  destruct (disconnect_exact Run.config 5 Run.asked 2 Run.asked_reachable) as
    (d' & Hs & [_ Hu _ Hp _]); [Run.member|].
  exists d'. split; [exact Hs|]. split.
  - apply Hp. split; [Run.runs|clear; vm_compute; discriminate].
  - rewrite Hu. clear. intros [_ H]%elem_of_difference. apply H. by apply elem_of_singleton.
Defined.

Definition unpadded_ulr : bytes :=
  Run.ulr_header ++ concat (map marshal [string_avp 283 (gostr "home")]) ++
  unpadded (string_avp 263 (gostr "mme;1")).

Lemma unpadded_message_panics_witness :
  step (EMessage 1 unpadded_ulr (Run.calm Run.both_up)) Run.both_up = Panic.
Proof.
  apply (unpadded_message_panics Run.config 4 Run.both_up (Run.calm Run.both_up) 1 Run.ulr_header
    [string_avp 283 (gostr "home")] (string_avp 263 (gostr "mme;1")) (header_of unpadded_ulr)).
  - apply Run.both_up_reachable.
  - split; [Run.member|apply Run.calm_orders].
  - Run.member.
  - by vm_compute.
  - by vm_compute.
  - done.
  - repeat constructor; by vm_compute.
  - by vm_compute.
  - by vm_compute.
  - done.
  - done.
  - Run.runs.
  - by vm_compute.
  - assert (isRequest (header_of unpadded_ulr) = true) as -> by Run.runs.
    split; [by vm_compute|]. exists 2%nat. split; [Run.member|]. split; [done|Run.runs].
Defined.

Lemma cer_wf host realm hbh :
  fits (gostr host) -> fits (gostr realm) -> CapabilitiesExchangeRequest.wf (Run.cer host realm hbh).
Proof.
  intros Hh Hr. split_and!; try exact I; try done; try by repeat constructor.
Qed.

Lemma config_wf : wf_config Run.config.
Proof.
  split.
  - by split; vm_compute.
  - by split; vm_compute.
  - constructor; [|constructor]. split; [by left|by vm_compute].
  - by vm_compute.
  - by vm_compute.
  - by repeat constructor.
Qed.

Lemma cer_admission_witness :
  exists out cea d', step (EMessage 1 (Run.cer_bytes "mme.epc" "epc" 5) (Run.calm Run.two)) Run.two
      = Ok d' /\ outputs d' = outputs Run.two ++ [OCEA 1 out] /\
    CapabilitiesExchangeAnswer.Unmarshal out CapabilitiesExchangeAnswer.zero = (cea, Ok tt) /\
    CapabilitiesExchangeAnswer.ResultCode cea = 2001 /\
    HopByHopID (CapabilitiesExchangeAnswer.Header cea) = 5.
Proof.
  destruct (cer_admission Run.config 2 Run.two (Run.calm Run.two) 1 (Run.cer "mme.epc" "epc" 5)
    (CapabilitiesExchangeRequest.Marshal (Run.cer "mme.epc" "epc" 5)).1
    (Run.cer_bytes "mme.epc" "epc" 5)) as (d' & Hs & _ & _ & _ & out & cea & Ho & Hu & Hrc & _ & _ & Hh & _).
  - apply Run.two_reachable.
  - Run.member.
  - apply config_wf.
  - apply cer_wf; by vm_compute.
  - by vm_compute.
  - done.
  - done.
  - by vm_compute.
  - intros m. by vm_compute.
  - Run.runs.
  - done.
  - exists out, cea, d'. split_and!; assumption.
Defined.
