(* ===== verification/DraLife.v ===== *)
(** * The life of the routing agent, and its log ([dra/node.go], [StartNode])

    [StartNode] listens and accepts until its listener fails; [Stop] cancels
    the context, closes the listener if there is one, and closes the peers of
    the registry.  They run in different goroutines, next to those of the
    connections (DraNode): a step here is one of theirs, or [StartNode] or
    [Stop] going from one action on shared state to the next.  Calls of [Stop]
    follow one another. *)

From S2P Require Import Prelude Binary DataTypes Wire Message BaseMessages Framing DraAvp DraNode DraTheorems.

(** ** The log *)

Definition log (line : bytes) (logs : list bytes) : list bytes :=
  let logs := logs ++ [line] in
  if 512 <? len logs then drop (Z.to_nat (len logs - 512)) logs else logs.

Definition GetLogs (logs : list bytes) : bytes := foldl (fun out l => out ++ l ++ [Byte.x0a]) [] logs.

(** The last [n] elements. *)
Definition lastn {A} (n : nat) (l : list A) : list A := drop (length l - n) l.

Lemma lastn_all {A} n (l : list A) : (length l <= n)%nat -> lastn n l = l.
Proof. intros Hl. unfold lastn. by replace (length l - n)%nat with 0%nat by lia. Qed.

Lemma lastn_snoc {A} n (l : list A) x : (0 < n)%nat -> lastn n (lastn n l ++ [x]) = lastn n (l ++ [x]).
Proof.
  intros Hn. destruct (decide (length l <= n)%nat) as [Hl|Hl]; [by rewrite (lastn_all n l)|].
  unfold lastn. rewrite !length_app, length_drop. cbn [length].
  replace (length l - (length l - n) + 1 - n)%nat with 1%nat by lia.
  rewrite !drop_app_le by (rewrite ?length_drop; lia). rewrite drop_drop.
  by replace (length l + 1 - n)%nat with (length l - n + 1)%nat by lia.
Qed.

(** The log holds the last 512 lines, in order. *)
Theorem log_keeps_last lines : foldl (fun logs l => log l logs) [] lines = lastn 512 lines.
Proof.
  induction lines as [|line lines IH] using rev_ind; [done|]. rewrite foldl_app. cbn [foldl]. unfold log at 1. cbv zeta.
  rewrite IH, <- lastn_snoc by lia. generalize (lastn 512 lines ++ [line]) as l. intros l.
  unfold len, lastn. destruct (Z.ltb_spec 512 (Z.of_nat (length l))).
  - by replace (Z.to_nat (Z.of_nat (length l) - 512)) with (length l - 512)%nat by lia.
  - by replace (length l - 512)%nat with 0%nat by lia.
Qed.

Lemma GetLogs_lines logs : GetLogs logs = concat (map (fun l => l ++ [Byte.x0a]) logs).
Proof.
  assert (forall out, foldl (fun out l => out ++ l ++ [Byte.x0a]) out logs =
                      out ++ concat (map (fun l => l ++ [Byte.x0a]) logs)) as H; [|exact (H [])].
  induction logs as [|l logs IH]; intros out; cbn [foldl map concat]; [by rewrite app_nil_r|].
  rewrite IH. by rewrite <- !app_assoc.
Qed.

(** ** The node and its two calls *)

Inductive start_pc : Type :=
| NotStarted
| Listening_          (* past the checks, before [net.Listen] *)
| Accepting
| Returned (failed : bool).

Inductive listener_state : Type := NoListener | Open_ | Closed_.

Inductive stop_pc : Type := Idle | Cancelled | ListenerClosed.

(** [closed] are the peers whose socket the node has closed; [stopped] counts
    the calls of [Stop] that have returned. *)
Record Life := {
  node : DRANode;
  ctx_done : bool;
  listener : listener_state;
  start : start_pc;
  stop : stop_pc;
  stopped : nat;
  closed : gset peer_id }.

Definition NewLife (c : Config) : Life :=
  {| node := NewDRANode c; ctx_done := false; listener := NoListener; start := NotStarted; stop := Idle;
     stopped := 0; closed := ∅ |}.

(** The peers of the registry. *)
Definition registry (d : DRANode) : gset peer_id := list_to_set (map snd (map_to_list (peers d))).

Inductive life_event : Type :=
| EvStart
| EvListen (ok : bool)
| EvAccept (p : peer_id) (addr : bytes)
| EvAcceptFails
| EvMessage (p : peer_id) (msg : bytes) (e : env)
| EvEnd (p : peer_id)
| EvStop.

(** Every connection that a goroutine leaves is closed. *)
Definition with_node (s : Life) (d : DRANode) : Life :=
  s <| node := d |> <| closed ::= fun cl => cl ∪ ((waiting (node s) ∪ up (node s)) ∖ (waiting d ∪ up d)) |>.

(** [Stop], one action at a time. *)
Definition Stop (s : Life) : Life :=
  match stop s with
  | Idle => s <| ctx_done := true |> <| stop := Cancelled |>
  | Cancelled =>
      s <| listener ::= fun l => match l with NoListener => NoListener | _ => Closed_ end |>
        <| stop := ListenerClosed |>
  | ListenerClosed =>
      s <| closed ::= fun cl => cl ∪ registry (node s) |> <| node ::= fun d => d <| peers := ∅ |> |>
        <| stop := Idle |> <| stopped ::= S |>
  end.

(** A message may be read before its socket is closed and handled after. *)
Definition life_enabled (ev : life_event) (s : Life) : Prop :=
  match ev with
  | EvStart => start s = NotStarted
  | EvListen _ => start s = Listening_
  | EvAccept p addr => start s = Accepting /\ listener s = Open_ /\ enabled (EAccept p addr) (node s)
  | EvAcceptFails => start s = Accepting
  | EvMessage p msg e => enabled (EMessage p msg e) (node s)
  | EvEnd p => p ∈ waiting (node s) ∪ up (node s)
  | EvStop => True
  end.

Definition life_step (ev : life_event) (s : Life) : outcome unit Life :=
  match ev with
  | EvStart => Ok (s <| start := if StartNode_ok (cfg (node s)) then Listening_ else Returned true |>)
  | EvListen true => Ok (s <| listener := Open_ |> <| start := Accepting |>)
  | EvListen false => Ok (s <| start := Returned true |>)
  | EvAccept p addr => Ok (s <| node ::= accept p addr |>)
  | EvAcceptFails => Ok (s <| start := Returned (negb (ctx_done s)) |>)
  | EvMessage p msg e =>
      (try d <- DraNode.step (EMessage p msg e) (node s) ;; Ok (with_node s d))%outcome
  | EvEnd p => Ok (with_node s (disconnect p (node s)))
  | EvStop => Ok (Stop s)
  end.

Inductive life_run : Life -> list life_event -> Life -> Prop :=
| life_nil s : life_run s [] s
| life_cons s ev s1 l s2 :
    life_enabled ev s -> life_step ev s = Ok s1 -> life_run s1 l s2 -> life_run s (ev :: l) s2.

(** ** What [Stop] ends *)

Definition conns (d : DRANode) : gset peer_id := waiting d ∪ up d.

Lemma sendProtocolError_conns b to h rc d : conns (sendProtocolError b to h rc d) = conns d.
Proof. by destruct b. Qed.

Lemma pickPeer_conns o1 o2 rv from d : conns (pickPeer o1 o2 rv from d).1 = conns d.
Proof. unfold pickPeer. repeat case_match; done. Qed.

Lemma forwardRequest_conns e from msg h d d' : forwardRequest e from msg h d = Ok d' -> conns d' = conns d.
Proof.
  unfold forwardRequest. destruct (extractRouting msg) as [rv [u|er|]]; [|intros [= <-]; apply sendProtocolError_conns|done].
  destruct (_ =? 0); [intros [= <-]; apply sendProtocolError_conns|].
  pose proof (pickPeer_conns (order1 e) (order2 e) rv from d) as Hp.
  destruct (pickPeer _ _ _ _ _) as [d1 [to|]]; cbn [fst] in Hp;
    [|intros [= <-]; by rewrite sendProtocolError_conns].
  destruct (rewriteOriginHostRealm _ _ _) as [m|er|]; [|intros [= <-]; by rewrite sendProtocolError_conns|done].
  cbn [nextHbH]. destruct (ok e to); cbn [Send].
  - by intros [= <-].
  - intros [= <-]. rewrite sendProtocolError_conns. unfold take_. by destruct (pending _ !! _).
Qed.

Lemma forwardAnswer_conns e from msg h d d' : forwardAnswer e from msg h d = Ok d' -> conns d' = conns d.
Proof.
  unfold forwardAnswer, take_. destruct (pending d !! _) as [en|]; [|by intros [= <-]].
  destruct (rewriteOriginHostRealm _ _ _); [|by intros [= <-]|done]. intros [= <-]. by destruct (ok e _).
Qed.

Lemma disconnect_conns p d : conns (disconnect p d) ⊆ conns d.
Proof.
  rewrite disconnect_eq. unfold conns. cbv zeta. change (waiting (_ <| up ::= _ |>)) with (waiting d ∖ {[ p ]}).
  change (up (_ <| up ::= _ |>)) with (up d ∖ {[ p ]}). set_solver.
Qed.

Lemma handleCER_conns e p msg d : conns (handleCER e p msg d).1 = conns d.
Proof.
  unfold handleCER. destruct (CapabilitiesExchangeRequest.Unmarshal _ _) as [cer [u| |]]; [|done..].
  destruct (CapabilitiesExchangeAnswer.Marshal _) as [m [out| |]]; [|done..]. cbn [snd]. by destruct (ok e p).
Qed.

Lemma handleDWR_conns e p msg d : conns (handleDWR e p msg d).1 = conns d.
Proof.
  unfold handleDWR. destruct (DeviceWatchdogRequest.Unmarshal _ _) as [dwr [u| |]]; [|done..].
  destruct (DeviceWatchdogAnswer.Marshal _) as [m [out| |]]; [|done..]. cbn [snd]. by destruct (ok e p).
Qed.

Lemma first_message_conns e p msg d : p ∈ conns d -> conns (first_message e p msg d) ⊆ conns d.
Proof.
  intros Hp. unfold first_message. destruct (parseHeader msg) as [hdr| |]; [|apply disconnect_conns..].
  destruct (_ || _); [apply disconnect_conns|]. pose proof (handleCER_conns e p msg d) as Hc.
  destruct (handleCER e p msg d) as [d1 []]; cbn [fst] in Hc; [|rewrite <- Hc; apply disconnect_conns].
  unfold conns in *. change (waiting (_ <| up ::= _ |>)) with (waiting d1 ∖ {[ p ]}).
  change (up (_ <| up ::= _ |>)) with (up d1 ∪ {[ p ]}). set_solver.
Qed.

Lemma main_message_conns e p msg d d' : main_message e p msg d = Ok d' -> conns d' ⊆ conns d.
Proof.
  unfold main_message. destruct (parseHeader msg) as [h| |]; [|intros [= <-]; apply disconnect_conns..].
  destruct (_ =? 280).
  { destruct (isRequest h); [|by intros [= <-]]. pose proof (handleDWR_conns e p msg d) as Hd.
    destruct (handleDWR e p msg d) as [d1 []]; cbn [fst] in Hd; intros [= <-]; rewrite <- Hd; [done|apply disconnect_conns]. }
  destruct (_ =? 282); [destruct (isRequest h); intros [= <-]; [apply disconnect_conns|done]|].
  destruct (isRequest h); intros H; [apply forwardRequest_conns in H|apply forwardAnswer_conns in H]; by rewrite H.
Qed.

Lemma message_conns p msg e d d' : p ∈ conns d -> DraNode.step (EMessage p msg e) d = Ok d' -> conns d' ⊆ conns d.
Proof.
  intros Hp. cbn [DraNode.step]. case_decide; [apply main_message_conns|]. intros [= <-]. by apply first_message_conns.
Qed.

(** Before the first [Stop] has gone through the registry, the node is one of
    DraNode's. *)
Definition node_reachable (c : Config) (s : Life) : Prop :=
  stopped s = O -> exists k, reachable c k (node s).

Lemma life_node c ev s s' :
  life_enabled ev s -> life_step ev s = Ok s' -> node_reachable c s -> node_reachable c s'.
Proof.
  intros He Hs Hr. unfold node_reachable in *. destruct ev as [|b|p addr| |p msg e|p|]; cbn [life_step] in Hs.
  - injection Hs as <-. done.
  - destruct b; injection Hs as <-; done.
  - injection Hs as <-. intros H0. destruct (Hr H0) as [k Hk]. exists (k + 1).
    destruct He as (_ & _ & He). by eapply reach_step.
  - injection Hs as <-. done.
  - apply obind_Ok in Hs as (d & Hd & Hs). injection Hs as <-. intros H0. destruct (Hr H0) as [k Hk]. exists (k + 1).
    by apply (reach_step c k (node s) (EMessage p msg e)).
  - injection Hs as <-. intros H0. destruct (Hr H0) as [k Hk]. exists (k + 1). by apply (reach_step c k (node s) (EEnd p)).
  - injection Hs as <-. unfold Stop. by destruct (stop s).
Qed.

Lemma life_run_node c l s s' : life_run s l s' -> node_reachable c s -> node_reachable c s'.
Proof. induction 1 as [|s ev s1 l s2 He Hs _ IH]; [done|]. intros H. by eapply IH, life_node. Qed.

(** The listener exists only when [StartNode] has got to the loop. *)
Definition listens (s : Life) : Prop := listener s <> NoListener -> start s <> NotStarted /\ start s <> Listening_.

(** After [Stop] has closed a listener: no connection is new, and those that
    are open were waiting for their CER. *)
Record after_stop (W U : gset peer_id) (s : Life) : Prop := {
  as_closed : listener s = Closed_;
  as_start : start s <> NotStarted /\ start s <> Listening_;
  as_left : conns (node s) ∖ closed s ⊆ W;
  as_peers : U ⊆ closed s }.

Lemma life_after_stop W U ev s s' :
  life_enabled ev s -> life_step ev s = Ok s' -> after_stop W U s -> after_stop W U s'.
Proof.
  intros He Hs [H1 H2 H3 H4]. destruct ev as [|b|p addr| |p msg e|p|]; cbn [life_step life_enabled] in *.
  - naive_solver.
  - naive_solver.
  - destruct He as (_ & He & _). congruence.
  - injection Hs as <-. by split.
  - apply obind_Ok in Hs as (d & Hd & Hs). injection Hs as <-. destruct He as (Hp & _ & _).
    pose proof (message_conns p msg e (node s) d Hp Hd) as Hsub. split; [done|done|..];
      unfold with_node; rsimpl; fold (conns (node s)) (conns d); set_solver.
  - injection Hs as <-. pose proof (disconnect_conns p (node s)) as Hsub. split; [done|done|..];
      unfold with_node; rsimpl; fold (conns (node s)) (conns (disconnect p (node s))); set_solver.
  - injection Hs as <-. unfold Stop. destruct (stop s); split; rsimpl; try done.
    + by rewrite H1.
    + change (conns ((node s) <| peers := ∅ |>)) with (conns (node s)). set_solver.
    + set_solver.
Qed.

Lemma life_run_after_stop W U l s s' : life_run s l s' -> after_stop W U s -> after_stop W U s'.
Proof. induction 1 as [|s ev s1 l s2 He Hs _ IH]; [done|]. intros H. by eapply IH, life_after_stop. Qed.

Lemma life_listens ev s s' : life_enabled ev s -> life_step ev s = Ok s' -> listens s -> listens s'.
Proof.
  unfold listens. intros He Hs H. destruct ev as [|b|p addr| |p msg e|p|]; cbn [life_step life_enabled] in *.
  - injection Hs as <-. rsimpl. naive_solver.
  - destruct b; injection Hs as <-; by rsimpl.
  - by injection Hs as <-.
  - by injection Hs as <-.
  - apply obind_Ok in Hs as (d & _ & Hs). by injection Hs as <-.
  - by injection Hs as <-.
  - injection Hs as <-. unfold Stop. destruct (stop s); rsimpl; try done. destruct (listener s); naive_solver.
Qed.

Lemma life_run_listens l s s' : life_run s l s' -> listens s -> listens s'.
Proof. induction 1 as [|s ev s1 l s2 He Hs _ IH]; [done|]. intros H. by eapply IH, life_listens. Qed.

(** The registry is the set of the connections past their handshake. *)
Lemma registry_up c d : inv c d -> registry d = up d.
Proof.
  intros Hi. apply set_eq. intros p. unfold registry. rewrite elem_of_list_to_set, list_elem_of_fmap. split.
  - intros ([k q] & -> & Hq%elem_of_map_to_list). by apply (inv_peers c d Hi) in Hq as [? _].
  - intros Hp. exists (registryKey (obj d p), p). split; [done|]. apply elem_of_map_to_list.
    by apply (inv_peers c d Hi).
Qed.

(** C32: a [Stop] that finds a listener lets no connection in and closes every
    registered peer, for good; what is left open, however long the node goes
    on, are connections that were accepted and had not finished their
    handshake: nothing closes those. *)
Theorem Stop_leaves_handshakes c l s l' s' :
  life_run (NewLife c) l s -> stop s = ListenerClosed -> stopped s = O -> listener s = Closed_ ->
  life_run (Stop s) l' s' ->
  listener s' = Closed_ /\ (up (node s) ⊆ closed s') /\ (conns (node s') ∖ closed s' ⊆ waiting (node s)).
Proof.
  intros Hr Hpc H0 Hl Hr'.
  assert (node_reachable c s) as Hn.
  { apply (life_run_node c) in Hr; [done|]. intros _. exists 0. apply reach_init. }
  destruct (Hn H0) as [k Hk%reachable_inv].
  assert (listens s) as Hls by (apply (life_run_listens _ _ _ Hr); by intros []).
  apply (life_run_after_stop (waiting (node s)) (up (node s))) in Hr'; [by destruct Hr'|].
  unfold Stop. rewrite Hpc. split; rsimpl; [done|apply Hls; congruence|..];
    rewrite (registry_up c _ Hk); [|set_solver].
  unfold conns. change (waiting ((node s) <| peers := ∅ |>)) with (waiting (node s)).
  change (up ((node s) <| peers := ∅ |>)) with (up (node s)). set_solver.
Qed.

(** A [Stop] that comes before [net.Listen] is lost: the node then listens,
    accepts, and no later step of [Stop] is due. *)
Lemma early_Stop_lost c p addr :
  StartNode_ok c = true -> Byte.x7c ∉ addr ->
  exists s, life_run (NewLife c) [EvStart; EvStop; EvStop; EvStop; EvListen true; EvAccept p addr] s /\
    ctx_done s = true /\ stopped s = 1%nat /\ stop s = Idle /\ listener s = Open_ /\ start s = Accepting /\
    p ∈ conns (node s).
Proof.
  intros Hc Ha. eexists. split.
  - econstructor; [done|cbn [life_step]; change (cfg (node (NewLife c))) with c; by rewrite Hc|].
    do 4 (econstructor; [done|reflexivity|]).
    econstructor; [|reflexivity|constructor]. repeat split; try done.
  - repeat split; try done. unfold conns. cbn. set_solver.
Qed.

(** ** A run: two connections, one of them past its handshake when the agent stops *)
Module LifeRun.

Definition mme : bytes := Run.cer_bytes "mme.epc" "epc" 5.
Definition hss : bytes := Run.cer_bytes "hss.home" "home" 6.

Definition says (p : peer_id) (msg : bytes) (s : Life) : life_event := EvMessage p msg (Run.calm (node s)).

Definition after (s : Life) (ev : life_event) : Life :=
  match life_step ev s with Ok s' => s' | _ => s end.

Definition opened : Life :=
  foldl after (NewLife Run.config) [EvStart; EvListen true; EvAccept 1 (gostr "10.0.0.1:1"); EvAccept 2 (gostr "10.0.0.2:2")].
Definition admitted : Life := after opened (says 1 mme opened).
Definition stopping : Life := foldl after admitted [EvStop; EvStop].
Definition late : Life := after (Stop stopping) (says 2 hss (Stop stopping)).

Lemma run_opened :
  life_run (NewLife Run.config)
    [EvStart; EvListen true; EvAccept 1 (gostr "10.0.0.1:1"); EvAccept 2 (gostr "10.0.0.2:2")] opened.
Proof.
  do 2 (econstructor; [done|by vm_compute|]).
  econstructor; [split; [done|]; split; [done|]; split; [done|]; split;
                 [by apply (bool_decide_unpack _); vm_compute|set_solver]|by vm_compute|].
  econstructor; [|by vm_compute|constructor]. split; [done|]. split; [done|]. split; [done|].
  split; [by apply (bool_decide_unpack _); vm_compute|].
  match goal with |- forall q, q ∈ ?X -> _ => assert (X = {[ 1%nat ]}) as -> by (by vm_compute) end.
  intros q ->%elem_of_singleton. by vm_compute.
Qed.

Lemma life_run_app s l s1 l' s2 : life_run s l s1 -> life_run s1 l' s2 -> life_run s (l ++ l') s2.
Proof. induction 1; [done|]. intros. econstructor; eauto. Qed.

Lemma run_says s p msg s' :
  p ∈ conns (node s) -> life_step (says p msg s) s = Ok s' -> life_run s [says p msg s] s'.
Proof. intros. econstructor; [|done|constructor]. split; [done|]. apply Run.calm_orders. Qed.

Lemma run_stopping :
  life_run (NewLife Run.config)
    ([EvStart; EvListen true; EvAccept 1 (gostr "10.0.0.1:1"); EvAccept 2 (gostr "10.0.0.2:2")] ++
     [says 1 mme opened] ++ [EvStop; EvStop]) stopping.
Proof.
  eapply life_run_app; [apply run_opened|]. eapply life_run_app.
  - apply run_says; [by apply (bool_decide_unpack _); vm_compute|by vm_compute].
  - do 2 (econstructor; [done|by vm_compute|]). constructor.
Qed.

(** The second connection finishes its handshake after [Stop] has returned:
    it is registered and stays open. *)
Lemma Stop_leaves_handshakes_witness :
  2%nat ∈ up (node late) /\ (2%nat ∉ closed late) /\ stopped late = 1%nat /\
  (conns (node late) ∖ closed late ⊆ waiting (node stopping)).
Proof.
  split; [by apply (bool_decide_unpack _); vm_compute|]. split; [by apply (bool_decide_unpack _); vm_compute|].
  split; [by vm_compute|].
  apply (Stop_leaves_handshakes Run.config _ _ [says 2 hss (Stop stopping)] late run_stopping);
    [by vm_compute|by vm_compute|by vm_compute|].
  apply run_says; [by apply (bool_decide_unpack _); vm_compute|by vm_compute].
Defined.

End LifeRun.
