(* ===== verification/ConnPool.v ===== *)
(** * The connections to one agent ([client/connection_pool.go])

    A [ConnectionPool] spreads messages over its connections in round-robin
    order.  What it needs of a connection is the interface [ConnOps] with the
    laws [ConnLaws]; [ClientConn] gives the instance for [client.Connection].
    [pick] stands for the choice of a [select] between ready cases.  The
    tests of [IsActive] and the [Send] that follows are one step. *)

From S2P Require Import Prelude.

(** ** What the pool needs of a connection *)

Inductive conn_error : Type :=
| ErrConnectionClosed
| ErrContextDone
| ErrSendBufferFull.

Record conn_stats := {
  MessagesSent : Z;
  MessagesReceived : Z;
  BytesSent : Z;
  BytesReceived : Z;
  Reconnects : Z }.

Class ConnOps (C : Type) := {
  ID : C -> bytes;
  IsActive : C -> bool;
  conn_Send : bool -> bytes -> C -> C * option conn_error; (* [None] is the nil error *)
  conn_Close : C -> C;
  conn_GetStats : C -> conn_stats }.

Class ConnLaws (C : Type) `{ConnOps C} := {
  Send_inactive pick data c : IsActive c = false -> conn_Send pick data c = (c, Some ErrConnectionClosed);
  Send_IsActive pick data c : IsActive (conn_Send pick data c).1 = IsActive c;
  Send_ID pick data c : ID (conn_Send pick data c).1 = ID c;
  Close_inactive c : IsActive (conn_Close c) = false;
  Close_ID c : ID (conn_Close c) = ID c }.

(** ** The pool *)

Inductive pool_error : Type :=
| ErrPoolClosed
| ErrNoActiveConnections
| ErrConnectionNotFound
| ErrConn (e : conn_error).

Record PoolStats := {
  TotalConnections : Z;
  ActiveConnections : Z;
  TotalMessagesSent : Z;
  TotalMessagesRecv : Z;
  TotalBytesSent : Z;
  TotalBytesRecv : Z;
  TotalReconnects : Z }.

Section Pool.
Context {C : Type} `{ConnOps C}.

Record ConnectionPool := {
  connections : list C;
  nextConnIdx : Z; (* [atomic.Uint32] *)
  closed : bool }.

Abbreviation pool := ConnectionPool.

(** [NewConnectionPool], once [config.Validate] accepts: the connections it
    creates, at least one. *)
Definition NewConnectionPool (conns : list C) : pool :=
  {| connections := conns; nextConnIdx := 0; closed := false |}.

(** [conn.Send(data)] for the connection at an index. *)
Definition send_at (pick : Z -> bool) (i : Z) (data : bytes) (p : pool)
  : pool * outcome pool_error unit :=
  match connections p !! Z.to_nat i with
  | None => (p, Panic)
  | Some c =>
      let '(c', e) := conn_Send (pick i) data c in
      (p <| connections ::= <[Z.to_nat i := c']> |>,
       match e with None => Ok tt | Some e => Err (ErrConn e) end)
  end.

Definition active_at (p : pool) (i : Z) : bool :=
  match connections p !! Z.to_nat i with Some c => IsActive c | None => false end.

Definition count (p : pool) : Z := len (connections p).

(** [(startIdx + uint32(i)) % uint32(len(p.connections))]. *)
Definition rotate (n start i : Z) : Z := to_u32 (start + to_u32 i) mod to_u32 n.

Definition Send (pick : Z -> bool) (data : bytes) (p : pool) : pool * outcome pool_error unit :=
  if closed p then (p, Err ErrPoolClosed)
  else
    let p := p <| nextConnIdx ::= fun n => to_u32 (n + 1) |> in
    if to_u32 (count p) =? 0 then (p, Panic)
    else
      let startIdx := nextConnIdx p mod to_u32 (count p) in
      let idx i := rotate (count p) startIdx (Z.of_nat i) in
      match List.find (fun i => active_at p (idx i)) (seq 0 (length (connections p))) with
      | Some i => send_at pick (idx i) data p
      | None => (p, Err ErrNoActiveConnections)
      end.

Definition SendRoundRobin (pick : Z -> bool) (data : bytes) (p : pool)
  : pool * outcome pool_error unit :=
  if closed p then (p, Err ErrPoolClosed)
  else
    let p := p <| nextConnIdx ::= fun n => to_u32 (n + 1) |> in
    if to_u32 (count p) =? 0 then (p, Panic)
    else
      let idx := nextConnIdx p mod to_u32 (count p) in
      if negb (active_at p idx) then Send pick data p else send_at pick idx data p.

Definition SendToConnection (pick : Z -> bool) (connID data : bytes) (p : pool)
  : pool * outcome pool_error unit :=
  if closed p then (p, Err ErrPoolClosed)
  else
    match list_find (fun c => ID c = connID) (connections p) with
    | Some (i, _) => send_at pick (Z.of_nat i) data p
    | None => (p, Err ErrConnectionNotFound)
    end.

Definition GetActiveConnections (p : pool) : list C := List.filter IsActive (connections p).

Definition GetConnection (connID : bytes) (p : pool) : option C :=
  List.find (fun c => bool_decide (ID c = connID)) (connections p).

Definition IsHealthy (p : pool) : bool := existsb IsActive (connections p).

Definition countActiveLocked (p : pool) : Z :=
  foldl (fun active c => if IsActive c then active + 1 else active) 0 (connections p).

Definition add_stats (s : PoolStats) (c : C) : PoolStats :=
  let k := conn_GetStats c in
  s <| TotalMessagesSent ::= fun n => to_u64 (n + MessagesSent k) |>
    <| TotalMessagesRecv ::= fun n => to_u64 (n + MessagesReceived k) |>
    <| TotalBytesSent ::= fun n => to_u64 (n + BytesSent k) |>
    <| TotalBytesRecv ::= fun n => to_u64 (n + BytesReceived k) |>
    <| TotalReconnects ::= fun n => to_u32 (n + Reconnects k) |>.

Definition GetStats (p : pool) : PoolStats :=
  foldl add_stats
    {| TotalConnections := count p; ActiveConnections := countActiveLocked p;
       TotalMessagesSent := 0; TotalMessagesRecv := 0; TotalBytesSent := 0; TotalBytesRecv := 0;
       TotalReconnects := 0 |} (connections p).

Definition Close (p : pool) : pool :=
  if closed p then p
  else p <| closed := true |> <| connections ::= map conn_Close |>.

(** ** Lemmas *)

Definition small (p : pool) : Prop := 0 < count p < 2 ^ 31.

Lemma rotate_small n s i : 0 < n < 2 ^ 31 -> 0 <= s < n -> 0 <= i < n -> rotate n s i = (s + i) mod n.
Proof. intros Hn Hs Hi. unfold rotate. rewrite (to_u32_id i), !to_u32_id by (unfold u32; lia). done. Qed.

Lemma IsHealthy_spec p : IsHealthy p = true <-> exists c, c ∈ connections p /\ IsActive c = true.
Proof.
  unfold IsHealthy. rewrite existsb_exists. by setoid_rewrite <- list_elem_of_In.
Qed.

(** Rotation from any start visits every index. *)
Lemma rotate_onto n s j : 0 <= s < n -> 0 <= j < n ->
  exists i, 0 <= i < n /\ (s + i) mod n = j.
Proof.
  intros Hs Hj. destruct (Z_le_gt_dec s j).
  - exists (j - s). split; [lia|]. replace (s + (j - s)) with j by lia. apply Z.mod_small. lia.
  - exists (j - s + n). split; [lia|]. replace (s + (j - s + n)) with (j + 1 * n) by lia.
    rewrite Z.mod_add by lia. apply Z.mod_small. lia.
Qed.

Lemma find_first {A} (f : A -> bool) l a :
  List.find f l = Some a <->
  exists i, l !! i = Some a /\ f a = true /\ forall j b, (j < i)%nat -> l !! j = Some b -> f b = false.
Proof.
  induction l as [|x l IH]; cbn.
  - split; [done|]. by intros (i & Hi & _).
  - destruct (f x) eqn:E.
    + split.
      * intros [= <-]. exists 0%nat. split; [done|]. split; [done|]. lia.
      * intros (i & Hi & Hf & Hj). destruct i as [|i]; [by injection Hi as <-|].
        rewrite (Hj 0%nat x) in E by (done || lia). done.
    + rewrite IH. split.
      * intros (i & Hi & Hf & Hj). exists (S i). split; [done|]. split; [done|].
        intros [|j] b Hlt Hb; [by injection Hb as <-|]. apply (Hj j b); [lia|done].
      * intros (i & Hi & Hf & Hj). destruct i as [|i]; [injection Hi as <-; congruence|].
        exists i. split; [done|]. split; [done|]. intros j b Hlt Hb. apply (Hj (S j) b); [lia|done].
Qed.

(** A remainder once past the modulus. *)
Lemma mod_once n x : n <= x < 2 * n -> x mod n = x - n.
Proof. intros Hx. replace x with (x - n + 1 * n) at 1 by lia. rewrite Z.mod_add by lia. apply Z.mod_small. lia. Qed.

(** The connection that [Send] takes, when it takes one. *)
Definition target (p : pool) : option Z :=
  let n := count p in
  let start := to_u32 (nextConnIdx p + 1) mod n in
  option_map (fun i => (start + Z.of_nat i) mod n)
    (List.find (fun i => active_at p ((start + Z.of_nat i) mod n)) (seq 0 (length (connections p)))).

Definition bump (p : pool) : pool := p <| nextConnIdx ::= fun n => to_u32 (n + 1) |>.

Lemma find_ext_in {A} (f g : A -> bool) l :
  (forall a, a ∈ l -> f a = g a) -> List.find f l = List.find g l.
Proof.
  induction l as [|a l IH]; intros Hfg; [done|]. cbn. rewrite (Hfg a) by set_solver.
  destruct (g a); [done|]. apply IH. set_solver.
Qed.

Lemma Send_target pick data p :
  small p -> closed p = false ->
  Send pick data p =
    match target p with
    | Some i => send_at pick i data (bump p)
    | None => (bump p, Err ErrNoActiveConnections)
    end.
Proof.
  intros Hn Hc. unfold Send. rewrite Hc. fold (bump p). cbv zeta.
  change (count (bump p)) with (count p). change (connections (bump p)) with (connections p).
  change (nextConnIdx (bump p)) with (to_u32 (nextConnIdx p + 1)).
  unfold small in Hn. rewrite (to_u32_id (count p)) by (unfold u32; lia).
  rewrite (proj2 (Z.eqb_neq (count p) 0)) by lia. unfold target. cbv zeta.
  set (start := to_u32 (nextConnIdx p + 1) mod count p).
  assert (0 <= start < count p) as Hs by (apply Z.mod_pos_bound; lia).
  assert (forall i, i ∈ seq 0 (length (connections p)) ->
    rotate (count p) start (Z.of_nat i) = (start + Z.of_nat i) mod count p) as Hr.
  { intros i Hi%elem_of_seq. apply rotate_small; [done..|]. unfold count, len in *. lia. }
  rewrite (find_ext_in _ (fun i => active_at p ((start + Z.of_nat i) mod count p)))
    by (intros i Hi; by rewrite Hr).
  destruct (List.find _ _) as [i|] eqn:E; [|done]. cbn [option_map].
  apply List.find_some in E as [Hi _]. by rewrite Hr by (by apply list_elem_of_In).
Qed.

Lemma active_at_lookup p i :
  active_at p i = true <-> exists c, connections p !! Z.to_nat i = Some c /\ IsActive c = true.
Proof.
  unfold active_at. destruct (connections p !! Z.to_nat i) as [c|]; split; [by exists c|..].
  - by intros (c' & [= <-] & ?).
  - done.
  - by intros (? & ? & ?).
Qed.

(** The target is active, and the connections before it in the rotation are
    not. *)
Lemma target_Some p j :
  small p -> target p = Some j <->
  exists i, let start := to_u32 (nextConnIdx p + 1) mod count p in
    0 <= i < count p /\ j = (start + i) mod count p /\ active_at p j = true /\
    forall k, 0 <= k < i -> active_at p ((start + k) mod count p) = false.
Proof.
  intros Hn. unfold target. cbv zeta. set (start := to_u32 (nextConnIdx p + 1) mod count p).
  set (f := fun i : nat => active_at p ((start + Z.of_nat i) mod count p)). split.
  - destruct (List.find f _) as [i|] eqn:E; [|done]. intros [= <-].
    apply find_first in E as (k & Hk & Hf & Hb). apply lookup_seq in Hk as [-> Hk].
    exists (Z.of_nat (0 + k)). split; [unfold count, len; lia|]. split; [done|]. split; [exact Hf|].
    intros m Hm. specialize (Hb (Z.to_nat m) (Z.to_nat m)). unfold f in Hb.
    rewrite Z2Nat.id in Hb by lia. apply Hb; [lia|]. apply lookup_seq. split; lia.
  - intros (i & Hi & -> & Ha & Hb).
    assert (List.find f (seq 0 (length (connections p))) = Some (Z.to_nat i)) as ->.
    { apply find_first. exists (Z.to_nat i). unfold count, len in Hi. split; [apply lookup_seq; lia|].
      split; [unfold f; by rewrite Z2Nat.id by lia|].
      intros k b Hk Hl. apply lookup_seq in Hl as [-> _]. unfold f. apply Hb. lia. }
    cbn. by rewrite Z2Nat.id by lia.
Qed.

Lemma active_in_rotation p s j :
  0 <= s < count p -> 0 <= j < count p -> active_at p j = true ->
  exists i, i ∈ seq 0 (length (connections p)) /\ active_at p ((s + Z.of_nat i) mod count p) = true.
Proof.
  intros Hs Hj Ha. destruct (rotate_onto (count p) s j Hs Hj) as (i & Hi & <-).
  exists (Z.to_nat i). rewrite Z2Nat.id by lia. split; [|done].
  apply elem_of_seq. unfold count, len in Hi. lia.
Qed.

Lemma target_None p : small p -> target p = None <-> IsHealthy p = false.
Proof.
  intros Hn. unfold small in Hn. unfold target. cbv zeta.
  set (start := to_u32 (nextConnIdx p + 1) mod count p).
  assert (0 <= start < count p) as Hs by (apply Z.mod_pos_bound; lia).
  set (f := fun i : nat => active_at p ((start + Z.of_nat i) mod count p)).
  rewrite <- not_true_iff_false, IsHealthy_spec. split.
  - destruct (List.find f _) eqn:E; [done|]. intros _ (c & Hc & Ha).
    apply list_elem_of_lookup in Hc as [j Hj]. pose proof (lookup_lt_Some _ _ _ Hj) as Hlt.
    destruct (active_in_rotation p start (Z.of_nat j)) as (i & Hi & Hf).
    + done.
    + unfold count, len. lia.
    + apply active_at_lookup. exists c. by rewrite Nat2Z.id.
    + assert (f i = true) as Hf' by exact Hf.
      rewrite (List.find_none f _ E i) in Hf' by (by apply list_elem_of_In). done.
  - intros Hno. destruct (List.find f _) as [i|] eqn:E; [|done]. exfalso.
    apply List.find_some in E as [_ Hf]. apply active_at_lookup in Hf as (c & Hc & Ha).
    apply Hno. exists c. split; [by eapply list_elem_of_lookup_2|done].
Qed.

Lemma send_at_cases pick i data p :
  (exists c, connections p !! Z.to_nat i = Some c) ->
  (send_at pick i data p).2 <> Panic /\ count (send_at pick i data p).1 = count p /\
  closed (send_at pick i data p).1 = closed p.
Proof.
  intros [c Hc]. unfold send_at. rewrite Hc. destruct (conn_Send (pick i) data c) as [c' e].
  split; [by destruct e|]. split; [|done]. unfold count, len. cbn [fst]. rsimpl.
  by rewrite length_insert.
Qed.

(** [Send] does not panic and keeps the number of connections. *)
Lemma Send_small pick data p :
  small p -> (Send pick data p).2 <> Panic /\ small (Send pick data p).1.
Proof.
  intros Hn. destruct (closed p) eqn:Ec; [unfold Send; by rewrite Ec|].
  rewrite Send_target by done. destruct (target p) as [i|] eqn:Et; [|done].
  apply target_Some in Et as (k & _ & _ & Ha & _); [|done].
  apply active_at_lookup in Ha as (c & Hc & _).
  destruct (send_at_cases pick i data (bump p)) as (H1 & H2 & _); [by exists c|].
  split; [done|]. unfold small. by rewrite H2.
Qed.

(** ** Properties *)

Definition all_active (p : pool) : Prop := Forall (fun c => IsActive c = true) (connections p).

(** The calls [Send] of a sequence of messages hand them, one after the other,
    to the connections at these indices, each active at that time. *)
Fixpoint sends (pick : Z -> bool) (p : pool) (msgs : list bytes) (idxs : list Z) : Prop :=
  match msgs, idxs with
  | [], [] => True
  | data :: msgs, i :: idxs =>
      active_at p i = true /\ Send pick data p = send_at pick i data (bump p) /\
      sends pick (Send pick data p).1 msgs idxs
  | _, _ => False
  end.

Context `{!ConnLaws C}.

Lemma send_at_active pick i data p :
  all_active p -> all_active (send_at pick i data p).1.
Proof.
  unfold all_active, send_at. intros Ha. destruct (connections p !! Z.to_nat i) as [c|] eqn:Hc; [|done].
  pose proof (Send_IsActive (pick i) data c) as Hs. destruct (conn_Send (pick i) data c) as [c' e].
  cbn [fst] in *. rsimpl. apply Forall_insert; [done|]. rewrite Hs. by eapply Forall_lookup_1 in Ha.
Qed.

Lemma active_at_all p i : all_active p -> 0 <= i < count p -> active_at p i = true.
Proof.
  intros Ha Hi. apply active_at_lookup.
  destruct (lookup_lt_is_Some_2 (connections p) (Z.to_nat i)) as [c Hc]; [unfold count, len in Hi; lia|].
  exists c. split; [done|]. by eapply Forall_lookup_1 in Ha.
Qed.

Lemma target_all_active p :
  small p -> all_active p -> target p = Some (to_u32 (nextConnIdx p + 1) mod count p).
Proof.
  intros Hn Ha. unfold small in Hn.
  pose proof (Z.mod_pos_bound (to_u32 (nextConnIdx p + 1)) (count p) ltac:(lia)) as Hs.
  apply target_Some; [done|]. exists 0. cbv zeta. rewrite Z.add_0_r, Z.mod_mod by lia.
  split_and!; [lia|lia|done|by apply active_at_all|]. lia.
Qed.

Lemma Send_all_active pick data p :
  small p -> closed p = false -> all_active p ->
  let p' := (Send pick data p).1 in
  small p' /\ closed p' = false /\ all_active p' /\ count p' = count p /\
  nextConnIdx p' = to_u32 (nextConnIdx p + 1).
Proof.
  intros Hn Hc Ha. cbv zeta. split; [by apply Send_small|].
  rewrite Send_target, target_all_active by done. unfold small in Hn.
  pose proof (Z.mod_pos_bound (to_u32 (nextConnIdx p + 1)) (count p) ltac:(lia)) as Hs.
  destruct (send_at_cases pick (to_u32 (nextConnIdx p + 1) mod count p) data (bump p)) as (_ & H2 & H3).
  { eapply (active_at_all (bump p)) in Hs; [|done]. apply active_at_lookup in Hs as (c & Hc' & _). by exists c. }
  rewrite H2, H3. split; [done|]. split; [by apply send_at_active|]. split; [done|].
  unfold send_at. destruct (connections (bump p) !! _); [|done]. by destruct (conn_Send _ _ _).
Qed.

Lemma sends_in_turn pick msgs p :
  small p -> closed p = false -> all_active p -> 0 <= nextConnIdx p ->
  nextConnIdx p + len msgs < 2 ^ 32 ->
  sends pick p msgs (map (fun i => (nextConnIdx p + 1 + Z.of_nat i) mod count p) (seq 0 (length msgs))).
Proof.
  revert p. induction msgs as [|data msgs IH]; intros p Hn Hc Ha H0 Hlt; [done|].
  unfold len in Hlt. cbn [length] in Hlt. cbn [length seq map sends].
  destruct (Send_all_active pick data p Hn Hc Ha) as (Hn' & Hc' & Ha' & Hct & Hnx).
  rewrite to_u32_id in Hnx by (unfold u32; lia).
  specialize (IH (Send pick data p).1 Hn' Hc' Ha'). rewrite Hnx, Hct in IH.
  specialize (IH ltac:(lia) ltac:(unfold len; lia)).
  pose proof (target_all_active p Hn Ha) as Ht. rewrite to_u32_id in Ht by (unfold u32; lia).
  rewrite Z.add_0_r. unfold small in Hn.
  pose proof (Z.mod_pos_bound (nextConnIdx p + 1) (count p) ltac:(lia)) as Hs.
  split; [by apply active_at_all|]. split; [by rewrite Send_target, Ht|].
  rewrite <- seq_shift, map_map. erewrite map_ext; [exact IH|].
  intros i. cbv beta. f_equal. by rewrite Nat2Z.inj_succ, <- Z.add_1_l, Z.add_assoc.
Qed.

(** Round-robin.  While every connection is active and the counter does
    not wrap around 2^32, the calls of [Send] for as many messages as there
    are connections hand one message to each connection, in turn, whatever
    becomes of each of them. *)
Theorem round_robin_fair pick msgs p :
  small p -> closed p = false -> all_active p -> 0 <= nextConnIdx p ->
  nextConnIdx p + len msgs < 2 ^ 32 -> len msgs = count p ->
  exists idxs, sends pick p msgs idxs /\ idxs ≡ₚ map Z.of_nat (seq 0 (length (connections p))).
Proof.
  intros Hn Hc Ha H0 Hlt Hl. eexists. split; [by apply sends_in_turn|]. unfold small in Hn.
  set (s := (nextConnIdx p + 1) mod count p).
  assert (0 <= s < count p) as Hs by (apply Z.mod_pos_bound; lia).
  assert (length msgs = length (connections p)) as -> by (unfold count, len in Hl; lia).
  apply NoDup_Permutation.
  - apply NoDup_fmap_2_strong; [|apply NoDup_seq].
    intros i j Hi%elem_of_seq Hj%elem_of_seq He. unfold count, len in *.
    rewrite !(Z.add_mod (nextConnIdx p + 1)), !(Z.mod_small (Z.of_nat _)) in He by lia. fold s in He.
    destruct (Z.lt_ge_cases (s + Z.of_nat i) (Z.of_nat (length (connections p)))),
      (Z.lt_ge_cases (s + Z.of_nat j) (Z.of_nat (length (connections p)))).
    all: rewrite ?(Z.mod_small (s + Z.of_nat i)), ?(Z.mod_small (s + Z.of_nat j)) in He by lia.
    all: rewrite ?mod_once in He by lia; lia.
  - apply NoDup_fmap_2; [intros ???; lia|apply NoDup_seq].
  - intros x. rewrite !list_elem_of_fmap. split.
    + intros (i & -> & _). exists (Z.to_nat ((nextConnIdx p + 1 + Z.of_nat i) mod count p)).
      pose proof (Z.mod_pos_bound (nextConnIdx p + 1 + Z.of_nat i) (count p) ltac:(lia)) as Hb.
      rewrite Z2Nat.id by lia. split; [done|]. apply elem_of_seq. unfold count, len in *. lia.
    + intros (j & -> & Hj%elem_of_seq).
      destruct (rotate_onto (count p) s (Z.of_nat j) Hs) as (i & Hi & He); [unfold count, len; lia|].
      exists (Z.to_nat i). split; [|apply elem_of_seq; unfold count, len in *; lia].
      rewrite Z2Nat.id by lia. rewrite <- He. unfold s. by rewrite Zplus_mod_idemp_l.
Qed.

End Pool.
Arguments ConnectionPool C : clear implicits.
