(* ===== verification/DraPool.v ===== *)
(** * Routing to several agents by priority ([client/dra_pool.go])

    A [DRAPool] holds one [ConnectionPool] per agent.  Messages go round-robin
    to the agents of the active priority; a timer calls
    [checkAndUpdatePriority], which moves the active priority.  The order in
    which [sort.Slice] leaves agents that compare equal is an argument of
    [NewDRAPool]; [pick] is as in [ConnPool], for each agent's connections. *)

From Stdlib Require Floats.SpecFloat.
From S2P Require Import Prelude Wire ConnPool.

Record DRAServerConfig := {
  Name : bytes;
  Host : bytes;
  Port : Z;
  Priority : Z;
  Weight : Z }.

(** [time.Duration]s are nanoseconds; the backoff factor is a [float64]. *)
Record DRAPoolConfig := {
  pool_Name : bytes;
  DRAs : list DRAServerConfig;
  pool_LocalAddr : bytes;
  pool_LocalPortMin : Z;
  pool_LocalPortMax : Z;
  pool_OriginHost : bytes;
  pool_OriginRealm : bytes;
  pool_ProductName : bytes;
  pool_VendorID : Z;
  pool_AuthAppIDs : list Z;
  pool_AcctAppIDs : list Z;
  ConnectionsPerDRA : Z;
  pool_ConnectTimeout : Z;
  pool_CERTimeout : Z;
  pool_DWRInterval : Z;
  pool_DWRTimeout : Z;
  pool_MaxDWRFailures : Z;
  HealthCheckInterval : Z;
  pool_ReconnectInterval : Z;
  pool_MaxReconnectDelay : Z;
  pool_ReconnectBackoff : SpecFloat.spec_float;
  pool_SendBufferSize : Z;
  pool_RecvBufferSize : Z }.

Definition DefaultDRAPoolConfig : DRAPoolConfig :=
  let sec := 1000000000 in
  {| pool_Name := []; DRAs := []; pool_LocalAddr := []; pool_LocalPortMin := 0; pool_LocalPortMax := 0;
     pool_OriginHost := []; pool_OriginRealm := []; pool_ProductName := gostr "Diameter-GW-S13";
     pool_VendorID := 10415; pool_AuthAppIDs := []; pool_AcctAppIDs := []; ConnectionsPerDRA := 1;
     pool_ConnectTimeout := 10 * sec; pool_CERTimeout := 5 * sec; pool_DWRInterval := 30 * sec;
     pool_DWRTimeout := 10 * sec; pool_MaxDWRFailures := 3; HealthCheckInterval := 10 * sec;
     pool_ReconnectInterval := 5 * sec; pool_MaxReconnectDelay := 300 * sec;
     pool_ReconnectBackoff := SpecFloat.S754_finite false 6755399441055744 (-52); (* 1.5 *)
     pool_SendBufferSize := 100; pool_RecvBufferSize := 100 |}.

Inductive dra_pool_error : Type :=
| ErrNoDRAs
| ErrOriginHostRequired
| ErrOriginRealmRequired
| ErrConnectionsPerDRA
| ErrDuplicateName (name : bytes)
| ErrPriority (name : bytes)
| ErrCreatePool (name : bytes)
| ErrNoDRAsAtPriority (priority : Z)
| ErrSendFailed (priority : Z)
| ErrDRANotFound
| ErrDRANotHealthy
| ErrPool (e : pool_error).

#[export] Instance DRAServerConfig_eq_dec : EqDecision DRAServerConfig.
Proof. solve_decision. Defined.

(** The loop over [config.DRAs]; [names] are the names seen. *)
Fixpoint validate_DRAs (names : gset bytes) (l : list DRAServerConfig) : option dra_pool_error :=
  match l with
  | [] => None
  | dra :: l =>
      if decide (Name dra ∈ names) then Some (ErrDuplicateName (Name dra))
      else if Priority dra <=? 0 then Some (ErrPriority (Name dra))
      else validate_DRAs ({[ Name dra ]} ∪ names) l
  end.

Definition validateDRAPoolConfig (c : DRAPoolConfig) : option dra_pool_error :=
  if len (DRAs c) =? 0 then Some ErrNoDRAs
  else if len (pool_OriginHost c) =? 0 then Some ErrOriginHostRequired
  else if len (pool_OriginRealm c) =? 0 then Some ErrOriginRealmRequired
  else if ConnectionsPerDRA c <=? 0 then Some ErrConnectionsPerDRA
  else validate_DRAs ∅ (DRAs c).

(** The [less] of [sort.Slice]. *)
Definition less (a b : DRAServerConfig) : bool :=
  if Priority a =? Priority b then Weight b <? Weight a else Priority a <? Priority b.

(** What [sort.Slice] may return: a permutation in which no element is less
    than an earlier one. *)
Definition sorts (l sorted : list DRAServerConfig) : Prop :=
  sorted ≡ₚ l /\ StronglySorted (fun a b => less b a = false) sorted.

Record DRAPoolStats := {
  TotalDRAs : Z;
  ActiveDRAs : Z;
  CurrentPriority : Z;
  s_TotalConnections : Z;
  s_ActiveConnections : Z;
  s_TotalMessagesSent : Z;
  s_TotalMessagesRecv : Z;
  FailoverCount : Z }.

Section DRAPool.
Context {C : Type} `{ConnOps C}.



Record DRAPool := {
  draPools : gmap bytes (ConnectionPool C);
  draConfigs : list DRAServerConfig;
  priorityGroups : gmap Z (list DRAServerConfig);
  priorityRR : gmap Z Z;
  activePriority : Z;
  stats : DRAPoolStats }.

Definition group (d : DRAPool) (priority : Z) : list DRAServerConfig :=
  default [] (priorityGroups d !! priority).

Definition add_to_group (g : gmap Z (list DRAServerConfig)) (dra : DRAServerConfig)
  : gmap Z (list DRAServerConfig) :=
  <[Priority dra := default [] (g !! Priority dra) ++ [dra]]> g.

(** The loop that creates the connection pools; [create] yields what
    [NewConnectionPool] returns for an agent, [None] being an error. *)
Fixpoint create_pools (create : DRAServerConfig -> option (ConnectionPool C))
    (l : list DRAServerConfig) (m : gmap bytes (ConnectionPool C))
  : outcome dra_pool_error (gmap bytes (ConnectionPool C)) :=
  match l with
  | [] => Ok m
  | dra :: l =>
      match create dra with
      | None => Err (ErrCreatePool (Name dra))
      | Some p => create_pools create l (<[Name dra := p]> m)
      end
  end.

Definition zero_stats : DRAPoolStats := Build_DRAPoolStats 0 0 0 0 0 0 0 0.

Definition NewDRAPool (create : DRAServerConfig -> option (ConnectionPool C))
    (sortedDRAs : list DRAServerConfig) (c : DRAPoolConfig) : outcome dra_pool_error DRAPool :=
  match validateDRAPoolConfig c with
  | Some e => Err e
  | None =>
      let groups := foldl add_to_group ∅ sortedDRAs in
      match create_pools create sortedDRAs ∅ with
      | Ok pools =>
          Ok {| draPools := pools; draConfigs := sortedDRAs; priorityGroups := groups;
                priorityRR := (fun _ => 0) <$> groups;
                activePriority := match sortedDRAs with
                                  | [] => 0
                                  | dra :: _ => to_i32 (Priority dra)
                                  end;
                stats := zero_stats |}
      | Err e => Err e
      | Panic => Panic
      end
  end.

(** [p.draPools\[dra.Name\].IsHealthy()]; a nil pool panics, which cannot
    happen for the agents of the configuration: it counts as unhealthy here
    where only the health is used. *)
Definition healthy (d : DRAPool) (dra : DRAServerConfig) : bool :=
  match draPools d !! Name dra with Some p => IsHealthy p | None => false end.

(** The loop of [Send] over the agents in the order in which they are tried. *)
Fixpoint try_send (pick : bytes -> Z -> bool) (data : bytes) (l : list DRAServerConfig)
    (d : DRAPool) : DRAPool * outcome dra_pool_error bool :=
  match l with
  | [] => (d, Ok false)
  | dra :: l =>
      match draPools d !! Name dra with
      | None => (d, Panic)
      | Some p =>
          if IsHealthy p then
            let '(p', r) := Send (pick (Name dra)) data p in
            let d := d <| draPools ::= <[Name dra := p']> |> in
            match r with
            | Ok _ => (d, Ok true)
            | Err _ => try_send pick data l d
            | Panic => (d, Panic)
            end
          else try_send pick data l d
      end
  end.

(** [draList\[(start+i)%n\]] for [i] from 0 to [n - 1]. *)
Definition visit_order (start : Z) (draList : list DRAServerConfig) : list DRAServerConfig :=
  let n := len draList in
  omap (fun i => draList !! Z.to_nat (to_u32 (start + to_u32 (Z.of_nat i)) mod to_u32 n))
    (seq 0 (length draList)).

Definition dra_Send (pick : bytes -> Z -> bool) (data : bytes) (d : DRAPool)
  : DRAPool * outcome dra_pool_error unit :=
  let currentPriority := activePriority d in
  let draList := group d currentPriority in
  if to_u32 (len draList) =? 0 then (d, Err (ErrNoDRAsAtPriority currentPriority))
  else
    match priorityRR d !! currentPriority with
    | None => (d, Panic)
    | Some rr =>
        let start := to_u32 (rr + 1) in
        let d := d <| priorityRR ::= <[currentPriority := start]> |> in
        match try_send pick data (visit_order start draList) d with
        | (d, Ok true) => (d, Ok tt)
        | (d, Ok false) => (d, Err (ErrSendFailed currentPriority))
        | (d, Err e) => (d, Err e)
        | (d, Panic) => (d, Panic)
        end
    end.

Definition SendToDRA (pick : bytes -> Z -> bool) (draName data : bytes) (d : DRAPool)
  : DRAPool * outcome dra_pool_error unit :=
  match draPools d !! draName with
  | None => (d, Err ErrDRANotFound)
  | Some p =>
      if negb (IsHealthy p) then (d, Err ErrDRANotHealthy)
      else
        let '(p', r) := Send (pick draName) data p in
        (d <| draPools ::= <[draName := p']> |>, omap_err ErrPool r)
  end.

(** ** Priorities *)

Definition countHealthyDRAsAtPriority (d : DRAPool) (priority : Z) : Z :=
  foldl (fun count dra => if healthy d dra then count + 1 else count) 0 (group d priority).

(** [activePriority.Store(int32(priority))] and [FailoverCount.Add(1)]. *)
Definition switch (priority : Z) (d : DRAPool) : DRAPool :=
  d <| activePriority := to_i32 priority |>
    <| stats ::= fun s => s <| FailoverCount ::= fun n => to_u32 (n + 1) |> |>.

(** The first of the priorities [from, from + 1, ..., to] with a healthy agent. *)
Definition first_healthy (d : DRAPool) (from to : Z) : option Z :=
  List.find (fun priority => 0 <? countHealthyDRAsAtPriority d priority) (seqZ from (to - from + 1)).

Definition checkAndUpdatePriority (d : DRAPool) : DRAPool :=
  let currentPriority := activePriority d in
  if 0 <? countHealthyDRAsAtPriority d currentPriority then
    match first_healthy d 1 (currentPriority - 1) with
    | Some priority => switch priority d
    | None => d
    end
  else
    match first_healthy d (currentPriority + 1) 10 with
    | Some priority => switch priority d
    | None => d
    end.

(** ** Statistics and the rest *)

Definition add_pool_stats (d : DRAPool) (s : DRAPoolStats) (dra : DRAServerConfig)
  : outcome dra_pool_error DRAPoolStats :=
  match draPools d !! Name dra with
  | None => Panic
  | Some p =>
      let k := GetStats p in
      let s := s <| s_TotalConnections ::= fun n => to_i64 (n + TotalConnections k) |>
                 <| s_ActiveConnections ::= fun n => to_i64 (n + ActiveConnections k) |>
                 <| s_TotalMessagesSent ::= fun n => to_u64 (n + TotalMessagesSent k) |>
                 <| s_TotalMessagesRecv ::= fun n => to_u64 (n + TotalMessagesRecv k) |> in
      Ok (if IsHealthy p then s <| ActiveDRAs ::= fun n => n + 1 |> else s)
  end.

Definition updateStats (d : DRAPool) : outcome dra_pool_error DRAPool :=
  let s := (stats d) <| TotalDRAs := len (draConfigs d) |> <| CurrentPriority := activePriority d |>
                   <| ActiveDRAs := 0 |> <| s_TotalConnections := 0 |>
                   <| s_ActiveConnections := 0 |> <| s_TotalMessagesSent := 0 |>
                   <| s_TotalMessagesRecv := 0 |> in
  obind (fun s => Ok (d <| stats := s |>))
    (foldl (fun s dra => obind (fun s => add_pool_stats d s dra) s) (Ok s) (draConfigs d)).

Definition GetDRAsByPriority (d : DRAPool) (priority : Z) : list DRAServerConfig := group d priority.

(** [range p.draPools]: the answer does not depend on its order. *)
Definition dra_IsHealthy (d : DRAPool) : bool :=
  existsb (fun kp => IsHealthy kp.2) (map_to_list (draPools d)).

Definition dra_Close (d : DRAPool) : DRAPool := d <| draPools ::= fmap Close |>.

(** ** Lemmas *)

Definition health (p : ConnectionPool C) : bool := IsHealthy p.

Lemma count_healthy_spec d priority :
  countHealthyDRAsAtPriority d priority = len (List.filter (healthy d) (group d priority)).
Proof.
  unfold countHealthyDRAsAtPriority.
  assert (forall l n, foldl (fun count dra => if healthy d dra then count + 1 else count) n l =
    n + len (List.filter (healthy d) l)) as Hf; [|by rewrite Hf].
  induction l as [|dra l IH]; intros n; cbn; [unfold len; cbn; lia|].
  rewrite IH. destruct (healthy d dra); [rewrite len_cons|]; lia.
Qed.

(** Some agent of the priority is healthy. *)
Definition alive (d : DRAPool) (priority : Z) : Prop :=
  exists dra, dra ∈ group d priority /\ healthy d dra = true.

Lemma count_alive d priority : (0 <? countHealthyDRAsAtPriority d priority) = true <-> alive d priority.
Proof.
  rewrite count_healthy_spec, Z.ltb_lt. unfold alive. split.
  - destruct (List.filter _ _) as [|dra l] eqn:E; [done|]. intros _. exists dra.
    assert (dra ∈ List.filter (healthy d) (group d priority)) as Hin by (rewrite E; set_solver).
    by apply list_elem_of_In, filter_In in Hin as [Hin%list_elem_of_In ?].
  - intros (dra & Hin & Hh).
    assert (dra ∈ List.filter (healthy d) (group d priority)) as Hf
      by (apply list_elem_of_In, filter_In; by rewrite <- list_elem_of_In).
    destruct (List.filter _ _) as [|x l]; [set_solver|]. rewrite len_cons. pose proof (len_nonneg l). lia.
Qed.

Lemma alive_dec d priority : alive d priority \/ ~ alive d priority.
Proof.
  rewrite <- count_alive. destruct (_ <? _); [by left|by right].
Qed.

(** [first_healthy] is the least priority of the range that is alive. *)
Lemma first_healthy_spec d a b :
  match first_healthy d a b with
  | Some q => a <= q <= b /\ alive d q /\ forall p, a <= p < q -> ~ alive d p
  | None => forall p, a <= p <= b -> ~ alive d p
  end.
Proof.
  unfold first_healthy. destruct (List.find _ _) as [q|] eqn:E.
  - apply find_first in E as (i & Hi & Hf & Hb). apply lookup_seqZ in Hi as [-> Hi].
    split; [lia|]. split; [by apply count_alive|]. intros p Hp Ha.
    apply count_alive in Ha. rewrite (Hb (Z.to_nat (p - a)) p) in Ha; [done|lia|].
    apply lookup_seqZ. lia.
  - intros p Hp Ha. apply count_alive in Ha.
    rewrite (List.find_none _ _ E p) in Ha; [done|]. apply list_elem_of_In, elem_of_seqZ. lia.
Qed.

Lemma alive_switch q d priority : alive (switch q d) priority <-> alive d priority.
Proof. done. Qed.

(** What [NewDRAPool] establishes and the operations keep. *)
Record wf_pools (d : DRAPool) : Prop := {
  wf_pool dra : dra ∈ draConfigs d -> exists p, draPools d !! Name dra = Some p /\ small p;
  wf_names : NoDup (map Name (draConfigs d));
  wf_group priority :
    group d priority = List.filter (fun dra => Priority dra =? priority) (draConfigs d);
  wf_rr priority : group d priority <> [] -> exists rr, priorityRR d !! priority = Some rr /\ u32 rr }.

Lemma group_configs d priority dra :
  wf_pools d -> dra ∈ group d priority <-> dra ∈ draConfigs d /\ Priority dra = priority.
Proof.
  intros Hw. rewrite (wf_group d Hw), list_elem_of_In, filter_In, <- list_elem_of_In, Z.eqb_eq. done.
Qed.

Lemma NoDup_map_filter {A B} (f : A -> B) (g : A -> bool) l :
  NoDup (map f l) -> NoDup (map f (List.filter g l)).
Proof.
  induction l as [|a l IH]; [done|]. cbn. intros [Ha Hl]%NoDup_cons.
  destruct (g a); [|by apply IH]. cbn. apply NoDup_cons. split; [|by apply IH].
  intros (x & Hx & Hin)%list_elem_of_fmap. apply Ha. apply list_elem_of_fmap.
  exists x. split; [done|]. apply list_elem_of_In, filter_In in Hin as [Hin _]. by apply list_elem_of_In.
Qed.

Lemma group_NoDup d priority : wf_pools d -> NoDup (map Name (group d priority)).
Proof. intros Hw. rewrite (wf_group d Hw). apply NoDup_map_filter, (wf_names d Hw). Qed.

(** The agent is healthy and its pool's [Send] succeeds. *)
Definition deliverable (pick : bytes -> Z -> bool) (data : bytes) (d : DRAPool)
    (dra : DRAServerConfig) : Prop :=
  exists p p', draPools d !! Name dra = Some p /\ IsHealthy p = true /\
    Send (pick (Name dra)) data p = (p', Ok tt).

Definition set_pool (name : bytes) (p : ConnectionPool C) (d : DRAPool) : DRAPool :=
  d <| draPools ::= <[name := p]> |>.

Lemma deliverable_other pick data d name p dra :
  Name dra <> name -> deliverable pick data (set_pool name p d) dra <-> deliverable pick data d dra.
Proof.
  intros Hne. unfold deliverable, set_pool. rsimpl. by setoid_rewrite lookup_insert_ne.
Qed.

(** Each agent is tried at most once, in the order given, until one takes the
    message. *)
Lemma try_send_spec pick data l d :
  NoDup (map Name l) ->
  (forall dra, dra ∈ l -> exists p, draPools d !! Name dra = Some p /\ small p) ->
  match try_send pick data l d with
  | (d', Ok true) => exists pre dra post p p',
      l = pre ++ dra :: post /\ Forall (fun x => ~ deliverable pick data d x) pre /\
      draPools d !! Name dra = Some p /\ IsHealthy p = true /\
      Send (pick (Name dra)) data p = (p', Ok tt) /\ draPools d' !! Name dra = Some p' /\
      forall name, name ∉ map Name (pre ++ [dra]) -> draPools d' !! name = draPools d !! name
  | (_, Ok false) => Forall (fun x => ~ deliverable pick data d x) l
  | _ => False
  end.
Proof.
  revert d. induction l as [|dra l IH]; intros d Hnd Hp; [constructor|].
  cbn [map] in Hnd. apply NoDup_cons in Hnd as [Hn Hnd]. cbn [try_send].
  destruct (Hp dra) as (p & Hlk & Hs); [set_solver|]. rewrite Hlk.
  assert (forall x, x ∈ l -> Name x <> Name dra) as Hne.
  { intros x Hx He. apply Hn. rewrite <- He. apply list_elem_of_fmap. eauto. }
  (* the agent is passed over, in the state [d0] *)
  assert (forall d0, ~ deliverable pick data d dra ->
    (d0 = d \/ exists p', d0 = set_pool (Name dra) p' d) ->
    match try_send pick data l d0 with
    | (d', Ok true) => exists pre x post q q',
        dra :: l = pre ++ x :: post /\ Forall (fun x => ~ deliverable pick data d x) pre /\
        draPools d !! Name x = Some q /\ IsHealthy q = true /\
        Send (pick (Name x)) data q = (q', Ok tt) /\ draPools d' !! Name x = Some q' /\
        forall name, name ∉ map Name (pre ++ [x]) -> draPools d' !! name = draPools d !! name
    | (_, Ok false) => Forall (fun x => ~ deliverable pick data d x) (dra :: l)
    | _ => False
    end) as Hskip.
  { intros d0 Hnot Hd0.
    assert (forall name, name <> Name dra -> draPools d0 !! name = draPools d !! name) as Hsame.
    { intros name Hname. destruct Hd0 as [->|[p' ->]]; [done|]. unfold set_pool. rsimpl.
      by rewrite lookup_insert_ne. }
    assert (forall x, x ∈ l -> deliverable pick data d0 x <-> deliverable pick data d x) as Hdel.
    { intros x Hx. unfold deliverable. by rewrite Hsame by auto. }
    specialize (IH d0 Hnd). destruct (try_send pick data l d0) as [d' [[]|e|]].
    - destruct IH as (pre & x & post & q & q' & -> & Hpre & Hq & Hh & Hsd & Hq' & Hrest).
      { intros x Hx. rewrite Hsame by auto. apply Hp. set_solver. }
      exists (dra :: pre), x, post, q, q'. split; [done|]. split.
      { constructor; [done|]. rewrite Forall_forall in Hpre |- *. intros y Hy.
        rewrite <- Hdel by set_solver. auto. }
      rewrite <- Hsame by (apply Hne; set_solver). split; [done|]. split; [done|]. split; [done|].
      split; [done|]. intros name Hnm. rewrite Hrest by (cbn in Hnm; set_solver). apply Hsame.
      cbn in Hnm. set_solver.
    - constructor; [done|]. rewrite Forall_forall in IH |- *. intros x Hx. rewrite <- Hdel by done.
      apply IH; [|done]. intros y Hy. rewrite Hsame by auto. apply Hp. set_solver.
    - apply IH. intros y Hy. rewrite Hsame by auto. apply Hp. set_solver.
    - apply IH. intros y Hy. rewrite Hsame by auto. apply Hp. set_solver. }
  destruct (IsHealthy p) eqn:Eh.
  - destruct (Send (pick (Name dra)) data p) as [p' r] eqn:Es.
    pose proof (proj1 (Send_small (pick (Name dra)) data p Hs)) as Hpan. rewrite Es in Hpan. cbn in Hpan.
    destruct r as [[]|e|]; [| |done].
    + exists [], dra, l, p, p'. split; [done|]. split; [constructor|]. split; [done|].
      split; [done|]. split; [done|]. rsimpl. split; [by rewrite lookup_insert_eq|].
      intros name Hnm. rewrite lookup_insert_ne by set_solver. done.
    + apply Hskip; [|right; by exists p'].
      intros (q & q' & Hq & _ & Hsq). rewrite Hlk in Hq. injection Hq as <-. congruence.
  - apply Hskip; [|by left]. intros (q & q' & Hq & Hhq & _). rewrite Hlk in Hq. injection Hq as <-. congruence.
Qed.

(** ** The order in which the agents of a priority are tried *)

Lemma omap_seq_slice {A} (f : nat -> option A) (l : list A) a b k :
  (b + k <= length l)%nat -> (forall i, (i < k)%nat -> f (a + i)%nat = l !! (b + i)%nat) ->
  omap f (seq a k) = take k (drop b l).
Proof.
  revert a b. induction k as [|k IH]; intros a b Hb Hf; [done|].
  destruct (lookup_lt_is_Some_2 l b ltac:(lia)) as [x Hx].
  rewrite (drop_S l x b Hx). cbn. pose proof (Hf 0%nat ltac:(lia)) as H0.
  rewrite !Nat.add_0_r in H0. rewrite H0, Hx. f_equal. apply IH; [lia|].
  intros i Hi. rewrite Nat.add_succ_comm, (Hf (S i)) by lia. f_equal. lia.
Qed.

(** Without a wrap-around of the cursor it is the list rotated. *)
Lemma visit_order_rotation start (l : list DRAServerConfig) :
  l <> [] -> len l < 2 ^ 32 -> 0 <= start -> start + len l <= 2 ^ 32 ->
  let s := Z.to_nat (start mod len l) in visit_order start l = drop s l ++ take s l.
Proof.
  intros Hne Hl H0 Hw s. pose proof (len_nonneg l).
  assert (0 < len l) as Hpos by (unfold len in *; destruct l; [done|cbn in *; lia]).
  pose proof (Z.mod_pos_bound start (len l) Hpos) as Hs.
  assert (length l = (length l - s) + s)%nat as Hlen by (unfold s, len in *; lia).
  assert (forall i, (i < length l)%nat ->
    l !! Z.to_nat (to_u32 (start + to_u32 (Z.of_nat i)) mod to_u32 (len l)) =
    l !! Z.to_nat ((start mod len l + Z.of_nat i) mod len l)) as Hi.
  { intros i Hi. unfold len in *.
    rewrite (to_u32_id (Z.of_nat i)), (to_u32_id (start + _)), to_u32_id by (unfold u32; lia).
    by rewrite Z.add_mod_idemp_l by lia. }
  unfold visit_order. cbv zeta. rewrite Hlen, seq_app, omap_app. f_equal.
  - rewrite (omap_seq_slice _ l 0 s); [|lia|].
    + by rewrite take_ge by (rewrite length_drop; lia).
    + intros i Hlt. rewrite Hi by lia. rewrite Z.mod_small by (unfold len in *; lia). f_equal.
      unfold len in *. lia.
  - rewrite (omap_seq_slice _ l _ 0); [done|lia|].
    intros i Hlt. rewrite Hi by lia.
    replace (start mod len l + Z.of_nat (0 + (length l - s) + i)) with (Z.of_nat i + 1 * len l)
      by (unfold len in *; lia).
    rewrite Z.mod_add, Z.mod_small by (unfold len in *; lia). f_equal. lia.
Qed.

Lemma visit_order_perm start (l : list DRAServerConfig) :
  l <> [] -> len l < 2 ^ 32 -> 0 <= start -> start + len l <= 2 ^ 32 -> visit_order start l ≡ₚ l.
Proof.
  intros Hne Hl H0 Hw. rewrite visit_order_rotation by done. cbv zeta.
  rewrite Permutation_app_comm. by rewrite take_drop.
Qed.

(** ** Construction *)

Lemma lookup_add_groups l g priority :
  default [] (foldl add_to_group g l !! priority) =
  default [] (g !! priority) ++ List.filter (fun dra => Priority dra =? priority) l.
Proof.
  revert g. induction l as [|dra l IH]; intros g; cbn [foldl]; [by rewrite app_nil_r|].
  rewrite IH. unfold add_to_group. cbn [List.filter].
  destruct (Z.eqb_spec (Priority dra) priority) as [<-|Hne].
  - rewrite lookup_insert_eq. cbn [from_option id]. by rewrite <- app_assoc.
  - by rewrite lookup_insert_ne.
Qed.

Lemma validate_DRAs_spec names l :
  validate_DRAs names l = None ->
  NoDup (map Name l) /\ (forall dra, dra ∈ l -> (Name dra ∉ names) /\ 0 < Priority dra).
Proof.
  revert names. induction l as [|dra l IH]; intros names; cbn [validate_DRAs].
  - intros _. split; [constructor|set_solver].
  - case_decide as Hin; [done|]. destruct (Z.leb_spec (Priority dra) 0); [done|].
    intros [Hnd Hl]%IH. split.
    + cbn. apply NoDup_cons. split; [|done].
      intros (x & Hx & Hxl)%list_elem_of_fmap. apply Hl in Hxl as [Hxl _]. set_solver.
    + intros x [->|Hx]%elem_of_cons; [done|]. apply Hl in Hx as [Hx ?]. set_solver.
Qed.

Lemma create_pools_spec create l m m' :
  create_pools create l m = Ok m' -> NoDup (map Name l) ->
  (forall dra, dra ∈ l -> m' !! Name dra = create dra /\ is_Some (create dra)) /\
  (forall name, name ∉ map Name l -> m' !! name = m !! name).
Proof.
  revert m. induction l as [|dra l IH]; intros m; cbn [create_pools].
  - intros [= ->] _. split; [set_solver|done].
  - destruct (create dra) as [p|] eqn:E; [|done]. intros Hc Hnd.
    cbn [map] in Hnd. apply NoDup_cons in Hnd as [Hn Hnd].
    destruct (IH _ Hc Hnd) as [H1 H2]. split.
    + intros x [->|Hx]%elem_of_cons; [|by apply H1].
      rewrite H2 by done. rewrite lookup_insert_eq, E. by split; [|eexists].
    + intros name Hnm. cbn [map] in Hnm. apply not_elem_of_cons in Hnm as [Hne Hnm].
      rewrite H2 by done. by rewrite lookup_insert_ne.
Qed.

Lemma StronglySorted_filter {A} (R : A -> A -> Prop) (f : A -> bool) l :
  StronglySorted R l -> StronglySorted R (List.filter f l).
Proof.
  induction 1 as [|a l Hl IH Ha]; [constructor|]. cbn. destruct (f a); [|done].
  constructor; [done|]. rewrite Forall_forall in Ha |- *. intros x Hx. apply Ha.
  apply list_elem_of_In, filter_In in Hx as [Hx _]. by apply list_elem_of_In.
Qed.

(** Within a priority, [less] orders by weight. *)
Lemma weights_sorted sorted q :
  StronglySorted (fun a b => less b a = false) sorted ->
  StronglySorted (fun a b => Weight b <= Weight a)
    (List.filter (fun dra => Priority dra =? q) sorted).
Proof.
  intros Hsort. apply (StronglySorted_filter _ (fun dra => Priority dra =? q)) in Hsort.
  assert (Forall (fun dra => Priority dra = q) (List.filter (fun dra => Priority dra =? q) sorted))
    as Hq.
  { apply Forall_forall. intros x Hx%list_elem_of_In%filter_In. b2p. tauto. }
  revert Hq. induction Hsort as [|a l Hl IH Ha]; [constructor|].
  intros [Hqa Hql]%Forall_cons. constructor; [auto|].
  rewrite Forall_forall in Ha, Hql |- *. intros b Hb. specialize (Ha b Hb). specialize (Hql b Hb).
  unfold less in Ha. rewrite Hqa, Hql, Z.eqb_refl in Ha. b2p. lia.
Qed.

(** From an accepted configuration [NewDRAPool] makes a
    pool in which every agent has its connections, the group of a priority
    holds exactly the agents of that priority with the heavier ones first,
    and the active priority is the most important one configured. *)
Lemma NewDRAPool_spec create sorted c d :
  sorts (DRAs c) sorted -> (forall dra p, create dra = Some p -> small p) ->
  NewDRAPool create sorted c = Ok d ->
  wf_pools d /\
  (forall dra, dra ∈ DRAs c -> exists p, create dra = Some p /\ draPools d !! Name dra = Some p) /\
  (forall dra, dra ∈ group d (Priority dra) <-> dra ∈ DRAs c) /\
  (forall q, StronglySorted (fun a b => Weight b <= Weight a) (group d q)) /\
  exists dra, dra ∈ DRAs c /\ activePriority d = to_i32 (Priority dra) /\
    forall x, x ∈ DRAs c -> 0 < Priority dra <= Priority x.
Proof.
  intros [Hperm Hsort] Hsmall. unfold NewDRAPool, validateDRAPoolConfig.
  destruct (len (DRAs c) =? 0) eqn:E0; [done|]. destruct (len (pool_OriginHost c) =? 0); [done|].
  destruct (len (pool_OriginRealm c) =? 0); [done|].
  destruct (ConnectionsPerDRA c <=? 0); [done|].
  destruct (validate_DRAs ∅ (DRAs c)) eqn:Ev; [done|]. apply validate_DRAs_spec in Ev as [Hnd Hpos].
  assert (NoDup (map Name sorted)) as Hnds by (by rewrite Hperm).
  destruct (create_pools create sorted ∅) as [pools| |] eqn:Ec; [|done..].
  apply create_pools_spec in Ec as [Hcr _]; [|done]. intros [= <-].
  assert (forall q, group {| draPools := pools; draConfigs := sorted;
      priorityGroups := foldl add_to_group ∅ sorted;
      priorityRR := (fun _ => 0) <$> foldl add_to_group ∅ sorted;
      activePriority := match sorted with [] => 0 | dra :: _ => to_i32 (Priority dra) end;
      stats := zero_stats |} q = List.filter (fun dra => Priority dra =? q) sorted) as Hg.
  { intros q. unfold group. cbn [priorityGroups]. by rewrite lookup_add_groups, lookup_empty. }
  split_and!.
  - split; [| | |].
    + intros dra Hd. cbn in *. destruct (Hcr dra Hd) as [-> [p Hp]]. exists p. eauto.
    + done.
    + exact Hg.
    + intros q Hq. cbn [priorityRR]. unfold group in Hq. cbn [priorityGroups] in Hq.
      rewrite lookup_fmap. destruct (foldl add_to_group ∅ sorted !! q); [|done].
      exists 0. by split.
  - intros dra Hd. destruct (Hcr dra) as [He [p Hp]]; [by rewrite Hperm|].
    exists p. split; [done|]. cbn [draPools]. by rewrite He.
  - intros dra. rewrite Hg, list_elem_of_In, filter_In, <- list_elem_of_In, Z.eqb_eq, Hperm. tauto.
  - intros q. rewrite Hg. by apply weights_sorted.
  - destruct sorted as [|dra rest].
    { apply Permutation_nil_l in Hperm. rewrite <- Hperm in E0. done. }
    exists dra. split; [rewrite <- Hperm; set_solver|]. split; [done|].
    intros x Hx. split; [apply Hpos; rewrite <- Hperm; set_solver|].
    rewrite <- Hperm in Hx. apply elem_of_cons in Hx as [->|Hx]; [lia|].
    apply StronglySorted_inv in Hsort as [_ Hsort]. rewrite Forall_forall in Hsort.
    specialize (Hsort x Hx). unfold less in Hsort.
    destruct (Z.eqb_spec (Priority x) (Priority dra)); b2p; lia.
Qed.

(** ** Sending *)

Lemma group_pools d priority dra :
  wf_pools d -> dra ∈ group d priority -> exists p, draPools d !! Name dra = Some p /\ small p.
Proof. intros Hw Hd. apply (wf_pool d Hw). by apply (group_configs d priority dra Hw). Qed.

(** [dra_Send] once the cursor of the active priority has moved. *)
Lemma dra_Send_unfold pick data d rr :
  let q := activePriority d in
  0 < len (group d q) < 2 ^ 32 -> priorityRR d !! q = Some rr ->
  dra_Send pick data d =
    match try_send pick data (visit_order (to_u32 (rr + 1)) (group d q))
            (d <| priorityRR ::= <[q := to_u32 (rr + 1)]> |>) with
    | (d, Ok true) => (d, Ok tt)
    | (d, Ok false) => (d, Err (ErrSendFailed q))
    | (d, Err e) => (d, Err e)
    | (d, Panic) => (d, Panic)
    end.
Proof.
  intros q Hl Hrr. unfold dra_Send. fold q.
  rewrite to_u32_id by (unfold u32; lia). rewrite (proj2 (Z.eqb_neq _ 0)) by lia. by rewrite Hrr.
Qed.

(** C17: sending.  Unless the cursor of the active priority wraps around 2^32
    within the call, [Send] tries the agents of that priority once each,
    starting after the one it started with the last time; the first whose
    pool is healthy and takes the message gets it, and no agent after it is
    touched; the call fails exactly when none of them can take it. *)
Theorem dra_Send_exact pick data d rr :
  let q := activePriority d in
  let g := group d q in
  wf_pools d -> 0 < len g < 2 ^ 32 -> priorityRR d !! q = Some rr -> 0 <= rr ->
  rr + len g < 2 ^ 32 ->
  let k := Z.to_nat ((rr + 1) mod len g) in
  match dra_Send pick data d with
  | (d', Ok tt) => exists pre dra post p p',
      drop k g ++ take k g = pre ++ dra :: post /\
      Forall (fun x => ~ deliverable pick data d x) pre /\
      draPools d !! Name dra = Some p /\ IsHealthy p = true /\
      Send (pick (Name dra)) data p = (p', Ok tt) /\ draPools d' !! Name dra = Some p' /\
      forall name, name ∉ map Name (pre ++ [dra]) -> draPools d' !! name = draPools d !! name
  | (_, Err e) => e = ErrSendFailed q /\ forall dra, dra ∈ g -> ~ deliverable pick data d dra
  | (_, Panic) => False
  end.
Proof.
  intros q g Hw Hg Hrr H0 Hlt k.
  rewrite (dra_Send_unfold pick data d rr) by done. fold q g.
  assert (g <> []) as Hne by (intros E; unfold len in Hg; rewrite E in Hg; cbn in Hg; lia).
  rewrite to_u32_id by (unfold u32; lia).
  set (d0 := d <| priorityRR ::= _ |>).
  assert (visit_order (rr + 1) g ≡ₚ g) as Hperm by (apply visit_order_perm; [done|lia..]).
  assert (drop k g ++ take k g = visit_order (rr + 1) g) as ->
    by (symmetry; apply visit_order_rotation; [done|lia..]).
  assert (NoDup (map Name (visit_order (rr + 1) g))) as Hnd
    by (rewrite Hperm; by apply group_NoDup).
  pose proof (try_send_spec pick data (visit_order (rr + 1) g) d0 Hnd) as Ht.
  destruct (try_send _ _ _ _) as [d' r].
  assert (forall dra, dra ∈ visit_order (rr + 1) g ->
    exists p, draPools d !! Name dra = Some p /\ small p) as Hp.
  { intros dra Hd. rewrite Hperm in Hd. by apply (group_pools d q). }
  specialize (Ht Hp). destruct r as [[]|e|]; [exact Ht| |done..].
  split; [done|]. intros dra Hd. rewrite <- Hperm in Hd. rewrite Forall_forall in Ht. by apply Ht.
Qed.

Lemma try_send_down pick data l d :
  (forall x, x ∈ l -> exists p, draPools d !! Name x = Some p /\ IsHealthy p = false) ->
  try_send pick data l d = (d, Ok false).
Proof.
  induction l as [|x l IH]; intros Hl; [done|]. cbn [try_send].
  destruct (Hl x) as (p & -> & ->); [set_solver|]. apply IH. set_solver.
Qed.

(** The indices that a round from 2^32 - 1 visits: not the last one. *)
Lemma wrapped_index n i :
  0 < n < 2 ^ 32 -> 2 ^ 32 mod n <> 0 -> 0 <= i < n ->
  to_u32 (2 ^ 32 - 1 + to_u32 i) mod to_u32 n < n - 1.
Proof.
  intros Hn Hd Hi. rewrite (to_u32_id i), (to_u32_id n) by (unfold u32; lia).
  pose proof (Z.mod_pos_bound (to_u32 (2 ^ 32 - 1 + i)) n ltac:(lia)) as Hb.
  destruct (Z.eq_dec (to_u32 (2 ^ 32 - 1 + i) mod n) (n - 1)) as [E|]; [|lia]. exfalso.
  destruct (Z.eq_dec i 0) as [->|Hi0].
  - apply Hd. unfold to_u32 in E. rewrite (Z.mod_small _ (2 ^ 32)) in E by lia.
    replace (2 ^ 32) with ((2 ^ 32 - 1 + 0) + 1) by lia. rewrite Z.add_mod by lia. rewrite E.
    destruct (Z.eq_dec n 1) as [->|]; [by rewrite Z.mod_1_r|].
    rewrite (Z.mod_small 1 n) by lia. replace (n - 1 + 1) with n by lia. by apply Z.mod_same; lia.
  - assert (to_u32 (2 ^ 32 - 1 + i) = i - 1) as Hu.
    { unfold to_u32. replace (2 ^ 32 - 1 + i) with (i - 1 + 1 * 2 ^ 32) by lia.
      rewrite Z.mod_add by lia. apply Z.mod_small. lia. }
    rewrite Hu, Z.mod_small in E by lia. lia.
Qed.

(** The wrap-around.  When the cursor reaches 2^32 - 1 and the number of
    agents of the priority does not divide 2^32, the arithmetic of the index
    wraps in the middle of the round and the last agent of the group is not
    tried: if the others are down, [Send] fails although that agent may be
    healthy. *)
Theorem Send_wraparound_skips pick data d dra l :
  let q := activePriority d in
  wf_pools d -> priorityRR d !! q = Some (2 ^ 32 - 2) ->
  group d q = l ++ [dra] -> len (l ++ [dra]) < 2 ^ 32 -> 2 ^ 32 mod len (l ++ [dra]) <> 0 ->
  (forall x, x ∈ l -> healthy d x = false) ->
  (dra_Send pick data d).2 = Err (ErrSendFailed q).
Proof.
  intros q Hw Hrr Hg Hl Hdiv Hdown.
  assert (0 < len (l ++ [dra])) as Hpos
    by (unfold len; rewrite length_app; cbn [length]; lia).
  rewrite (dra_Send_unfold pick data d (2 ^ 32 - 2)) by (fold q; rewrite ?Hg; done). fold q. rewrite Hg.
  replace (to_u32 (2 ^ 32 - 2 + 1)) with (2 ^ 32 - 1) by done.
  rewrite try_send_down; [done|]. intros x Hx.
  assert (x ∈ l) as Hxl.
  { unfold visit_order in Hx. cbv zeta in Hx. apply list_elem_of_omap in Hx as (i & Hi%elem_of_seq & Hx).
    assert (0 <= Z.of_nat i < len (l ++ [dra])) as Hib by (unfold len; lia).
    pose proof (Z.mod_pos_bound (to_u32 (2 ^ 32 - 1 + to_u32 (Z.of_nat i)))
      (to_u32 (len (l ++ [dra]))) ltac:(rewrite to_u32_id by (unfold u32; lia); lia)) as Hge.
    pose proof (wrapped_index (len (l ++ [dra])) (Z.of_nat i) ltac:(done) Hdiv Hib) as Hlt.
    rewrite lookup_app_l in Hx; [by eapply list_elem_of_lookup_2|].
    assert (len (l ++ [dra]) - 1 = len l) as E by (unfold len; rewrite length_app; cbn [length]; lia).
    unfold len in *. lia. }
  destruct (group_pools d q x Hw) as (p & Hp & _); [rewrite Hg; set_solver|].
  exists p. split; [done|]. specialize (Hdown x Hxl). unfold healthy in Hdown. by rewrite Hp in Hdown.
Qed.

(** ** Priorities *)

(** The active priority.  While some agent of it is healthy,
    [checkAndUpdatePriority] moves to the least priority number below it that
    has a healthy agent, if there is one; when none is, to the least number
    above it, up to 10, that has one; and otherwise it stays.  The failover
    counter counts exactly the moves, and nothing else changes. *)
Theorem checkAndUpdatePriority_exact d :
  i32 (activePriority d) ->
  let q := activePriority d in
  let d' := checkAndUpdatePriority d in
  let q' := activePriority d' in
  (q' <> q -> alive d q') /\
  (alive d q -> alive d q' /\ q' <= q /\ forall p, 1 <= p < q' -> ~ alive d p) /\
  (~ alive d q -> q <= q' <= Z.max q 10 /\ (forall p, q < p < q' -> ~ alive d p) /\
     (q' = q -> forall p, q < p <= 10 -> ~ alive d p)) /\
  FailoverCount (stats d') =
    (if q' =? q then FailoverCount (stats d) else to_u32 (FailoverCount (stats d) + 1)) /\
  draPools d' = draPools d /\ priorityGroups d' = priorityGroups d /\ priorityRR d' = priorityRR d.
Proof.
  intros Hq q d' q'. unfold q', d', checkAndUpdatePriority. fold q.
  destruct (0 <? countHealthyDRAsAtPriority d q) eqn:Ec.
  - apply count_alive in Ec. pose proof (first_healthy_spec d 1 (q - 1)) as Hf.
    destruct (first_healthy d 1 (q - 1)) as [p|].
    + destruct Hf as (Hp & Ha & Hl). cbn [switch activePriority]. unfold switch. rsimpl.
      rewrite to_i32_id by (unfold i32, q in *; lia).
      rewrite (proj2 (Z.eqb_neq p q)) by lia.
      split; [done|]. split; [split; [done|]; split; [lia|done]|]. done.
    + split; [done|]. split; [split; [done|]; split; [lia|]|].
      * intros p Hp. apply Hf. fold q in Hp. lia.
      * fold q. rewrite Z.eqb_refl. done.
  - assert (~ alive d q) as Hn by (rewrite <- count_alive; by rewrite Ec).
    pose proof (first_healthy_spec d (q + 1) 10) as Hf.
    destruct (first_healthy d (q + 1) 10) as [p|].
    + destruct Hf as (Hp & Ha & Hl). unfold switch. rsimpl.
      rewrite to_i32_id by (unfold i32, q in *; lia). rewrite (proj2 (Z.eqb_neq p q)) by lia.
      split; [done|]. split; [done|]. split; [|done].
      intros _. split; [lia|]. split; [intros r Hr; apply Hl; lia|lia].
    + fold q. rewrite Z.eqb_refl. split; [done|]. split; [done|]. split; [|done].
      intros _. split; [lia|]. split; [lia|]. intros _ p Hp. apply Hf. lia.
Qed.

(** Stuck.  When no agent of the active priority is healthy and none of a
    larger priority number up to 10, the active priority never moves and every
    [Send] fails - although agents of a smaller number, the more important
    ones, or of a number beyond 10 may be healthy. *)
Theorem priority_stuck pick data d rr :
  let q := activePriority d in
  wf_pools d -> 0 < len (group d q) < 2 ^ 32 -> priorityRR d !! q = Some rr -> u32 rr ->
  ~ alive d q -> (forall p, q < p <= 10 -> ~ alive d p) ->
  checkAndUpdatePriority d = d /\ (dra_Send pick data d).2 = Err (ErrSendFailed q).
Proof.
  intros q Hw Hg Hrr Hu Hq Hp. split.
  - unfold checkAndUpdatePriority. fold q. destruct (0 <? _) eqn:Ec; [by apply count_alive in Ec|].
    pose proof (first_healthy_spec d (q + 1) 10) as Hf.
    destruct (first_healthy d (q + 1) 10) as [p|]; [|done].
    destruct Hf as (Hb & Ha & _). exfalso. apply (Hp p); [lia|done].
  - rewrite (dra_Send_unfold pick data d rr) by done. fold q.
    rewrite try_send_down; [done|]. intros x Hx.
    assert (x ∈ group d q) as Hxg.
    { unfold visit_order in Hx. apply list_elem_of_omap in Hx as (i & _ & Hx).
      by eapply list_elem_of_lookup_2. }
    destruct (group_pools d q x Hw Hxg) as (p & Hlk & _). exists p. split; [done|].
    destruct (IsHealthy p) eqn:Eh; [|done]. exfalso. apply Hq. exists x. split; [done|].
    unfold healthy. by rewrite Hlk.
Qed.

End DRAPool.
Arguments DRAPool C : clear implicits.

(** ** Dispatch of received messages *)

Definition HandleFunc {F} (cmd : Command) (handler : F) (handlers : gmap Command F) : gmap Command F :=
  <[cmd := handler]> handlers.

(** The functions that [dispatchReceived] calls, in order, for the header of
    a message ([None]: the message is nil). *)
Definition dispatchReceived {F} (handlers : gmap Command F) (middleware : list F)
    (header : option bytes) : list F :=
  match header with
  | None => []
  | Some header =>
      match ParseMessageHeader header with
      | Ok h =>
          match handlers !! {| Interface := mi_ApplicationID h; Code := mi_CommandCode h;
                               cmd_Request := IsRequest h |} with
          | Some fn => middleware ++ [fn]
          | None => []
          end
      | _ => []
      end
  end.
