(* ===== verification/Server.v ===== *)
(** * The Diameter server

    [server/server.go], [server/middleware.go] and the writing half of
    [pkg/connection/connection.go]: the accept loop, the loop that serves a
    connection, the dispatch to the registered handlers through the
    middlewares, the handlers of the base protocol that [NewServer] installs,
    and the three levels of counters.

    The server's goroutines are the accept loop, one [serve] for each
    connection, one for each handler that was started, and the timers: [step]
    lets any of them take one step.  A handler runs in one step: what it shares
    with the others are counters that it only adds to, and the connections it
    writes whole messages to, under their mutex.  A goroutine that panics
    without a [recover] of its own ends the process ([crashed]). *)

From S2P Require Import Prelude Binary DataTypes Wire Message BaseMessages Framing GoNet.

(** ** Counters *)

Record CommandStats := {
  cs_MessagesReceived : Z;
  cs_MessagesSent : Z;
  cs_BytesReceived : Z;
  cs_BytesSent : Z;
  cs_Errors : Z }.

Record InterfaceStats := {
  is_MessagesReceived : Z;
  is_MessagesSent : Z;
  is_BytesReceived : Z;
  is_BytesSent : Z;
  is_Errors : Z;
  is_CommandStats : gmap Z CommandStats }.

Record ServerStats := {
  TotalConnections : Z;
  ActiveConnections : Z;
  TotalMessages : Z;
  MessagesSent : Z;
  MessagesReceived : Z;
  TotalBytesSent : Z;
  TotalBytesReceived : Z;
  Errors : Z;
  ss_InterfaceStats : gmap Z InterfaceStats }.

Definition zero_command_stats : CommandStats := Build_CommandStats 0 0 0 0 0.
Definition zero_interface_stats : InterfaceStats := Build_InterfaceStats 0 0 0 0 0 ∅.
Definition zero_stats : ServerStats := Build_ServerStats 0 0 0 0 0 0 0 0 ∅.

(** [atomic.Uint64.Add]. *)
Definition add (d n : Z) : Z := to_u64 (n + d).

(** The two functions return a pointer into the map; [on_interface] and
    [on_command] are the writes through it. *)
Definition getOrCreateInterfaceStats (appID : Z) (st : ServerStats) : ServerStats :=
  match ss_InterfaceStats st !! appID with
  | Some _ => st
  | None => st <| ss_InterfaceStats ::= <[appID := zero_interface_stats]> |>
  end.
Definition getOrCreateCommandStats (cmdCode : Z) (i : InterfaceStats) : InterfaceStats :=
  match is_CommandStats i !! cmdCode with
  | Some _ => i
  | None => i <| is_CommandStats ::= <[cmdCode := zero_command_stats]> |>
  end.
Definition on_interface (appID : Z) (f : InterfaceStats -> InterfaceStats) (st : ServerStats)
  : ServerStats := st <| ss_InterfaceStats ::= alter f appID |>.
Definition on_command (cmdCode : Z) (f : CommandStats -> CommandStats) (i : InterfaceStats)
  : InterfaceStats := i <| is_CommandStats ::= alter f cmdCode |>.

(** The counters of a message of [n] bytes that was read ... *)
Definition count_received (cmd : Command) (n : Z) (st : ServerStats) : ServerStats :=
  on_interface (Interface cmd) (fun i =>
    on_command (Code cmd) (fun k =>
        k <| cs_MessagesReceived ::= add 1 |> <| cs_BytesReceived ::= add n |>)
      (getOrCreateCommandStats (Code cmd)
        (i <| is_MessagesReceived ::= add 1 |> <| is_BytesReceived ::= add n |>)))
    (getOrCreateInterfaceStats (Interface cmd) st).

(** ... and of one that was written. *)
Definition count_sent (cmd : Command) (n : Z) (st : ServerStats) : ServerStats :=
  on_interface (Interface cmd) (fun i =>
    on_command (Code cmd) (fun k =>
        k <| cs_MessagesSent ::= add 1 |> <| cs_BytesSent ::= add n |>)
      (getOrCreateCommandStats (Code cmd)
        (i <| is_MessagesSent ::= add 1 |> <| is_BytesSent ::= add n |>)))
    (getOrCreateInterfaceStats (Interface cmd) st).

(** *** Snapshots *)

Record CommandStatsSnapshot := { cmdsnap_CommandCode : Z; cmdsnap_counters : CommandStats }.
Record InterfaceStatsSnapshot := {
  ifsnap_ApplicationID : Z;
  ifsnap_MessagesReceived : Z;
  ifsnap_MessagesSent : Z;
  ifsnap_BytesReceived : Z;
  ifsnap_BytesSent : Z;
  ifsnap_Errors : Z;
  ifsnap_CommandStats : gmap Z CommandStatsSnapshot }.
Record ServerStatsSnapshot := {
  snap_TotalConnections : Z;
  snap_ActiveConnections : Z;
  snap_TotalMessages : Z;
  snap_MessagesSent : Z;
  snap_MessagesReceived : Z;
  snap_TotalBytesSent : Z;
  snap_TotalBytesReceived : Z;
  snap_Errors : Z;
  snap_InterfaceStats : gmap Z InterfaceStatsSnapshot }.

Definition command_snapshot (cmdCode : Z) (k : CommandStats) : CommandStatsSnapshot :=
  {| cmdsnap_CommandCode := cmdCode; cmdsnap_counters := k |}.
Definition interface_snapshot (appID : Z) (i : InterfaceStats) : InterfaceStatsSnapshot :=
  {| ifsnap_ApplicationID := appID;
     ifsnap_MessagesReceived := is_MessagesReceived i;
     ifsnap_MessagesSent := is_MessagesSent i;
     ifsnap_BytesReceived := is_BytesReceived i;
     ifsnap_BytesSent := is_BytesSent i;
     ifsnap_Errors := is_Errors i;
     ifsnap_CommandStats := map_imap (fun c k => Some (command_snapshot c k)) (is_CommandStats i) |}.

Definition GetStats (st : ServerStats) : ServerStatsSnapshot :=
  {| snap_TotalConnections := TotalConnections st;
     snap_ActiveConnections := ActiveConnections st;
     snap_TotalMessages := TotalMessages st;
     snap_MessagesSent := MessagesSent st;
     snap_MessagesReceived := MessagesReceived st;
     snap_TotalBytesSent := TotalBytesSent st;
     snap_TotalBytesReceived := TotalBytesReceived st;
     snap_Errors := Errors st;
     snap_InterfaceStats :=
       map_imap (fun a i => Some (interface_snapshot a i)) (ss_InterfaceStats st) |}.

Definition GetInterfaceStats (appID : Z) (st : ServerStats) : option InterfaceStatsSnapshot :=
  match ss_InterfaceStats st !! appID with
  | Some i => Some (interface_snapshot appID i)
  | None => None
  end.

Definition GetCommandStats (appID cmdCode : Z) (st : ServerStats) : option CommandStatsSnapshot :=
  match ss_InterfaceStats st !! appID with
  | Some i =>
      match is_CommandStats i !! cmdCode with
      | Some k => Some (command_snapshot cmdCode k)
      | None => None
      end
  | None => None
  end.

(** ** The connections

    A link is one accepted connection: what [conn] of [pkg/connection] keeps,
    what the peer will still send before it closes, and what it was sent.  The
    error of a [bufio.Writer] is sticky; the [Flush] after each message leaves
    its buffer empty, so that a message is one write on the socket. *)
Record Link := {
  remote_addr : bytes;
  unread : bytes;
  out : list bytes;
  writes : nat;
  broken : bool;
  rwc_closed : bool }.

Inductive status : Type :=
| Done
| Panicked   (* the panic unwinds the goroutine that called *)
| Crashed.   (* another goroutine panicked without a recover: the process is gone *)

Definition second : Z := 1000000000.

(** Of the configuration, what the server reads; its [ConnectionConfig] is not
    nil. *)
Record ConnectionConfig := {
  OriginHost : bytes;
  OriginRealm : bytes;
  ProductName : bytes }.

Record ServerConfig := {
  ListenAddress : bytes;
  MaxConnections : Z;
  srv_ConnectionConfig : ConnectionConfig }.

Definition DefaultServerConfig : ServerConfig :=
  {| ListenAddress := gostr "0.0.0.0:3868";
     MaxConnections := 1000;
     srv_ConnectionConfig :=
       {| OriginHost := gostr "diameter-server.example.com";
          OriginRealm := gostr "example.com";
          ProductName := gostr "Diameter Gateway" |} |}.

(** [net_ok c n]: the [n]-th write on the socket of connection [c] succeeds.
    [A] is the state of the application's own handlers and middlewares. *)
Section Server.
Context {A : Type} (net_ok : Z -> nat -> bool).

(** What a handler can reach.  [limiters] are the variables that the
    rate-limiting middlewares close over, [closers] the connections that a
    timer will close. *)
Record World := {
  stats : ServerStats;
  links : gmap Z Link;
  closers : list Z;
  clock : Z;
  limiters : gmap nat (Z * Z);
  app_state : A }.

Definition Handler : Type := Message -> Z -> World -> World * status.
Definition Middleware : Type := Handler -> Handler.

Definition on_stats (f : ServerStats -> ServerStats) (w : World) : World := w <| stats ::= f |>.
Definition count_error (st : ServerStats) : ServerStats := st <| Errors ::= add 1 |>.

(** [conn.Write] of [pkg/connection]: the number of bytes, or an error. *)
Definition link_Write (c : Z) (b : bytes) (l : Link) : Link * option Z :=
  if broken l then (l, None)
  else if len b =? 0 then (l, Some 0)
  else
    let ok := negb (rwc_closed l) && net_ok c (writes l) in
    let l := l <| writes ::= S |> in
    if ok then (l <| out ::= fun o => o ++ [b] |>, Some (len b))
    else (l <| broken := true |>, None).

Definition conn_Write (c : Z) (b : bytes) (w : World) : World * option Z :=
  match links w !! c with
  | Some l => let '(l, n) := link_Write c b l in (w <| links ::= <[c := l]> |>, n)
  | None => (w, None)
  end.

Definition conn_Close (c : Z) (w : World) : World :=
  w <| links ::= alter (fun l => l <| rwc_closed := true |>) c |>.

(** [response.Write]. *)
Definition response_Write (c : Z) (b : bytes) (w : World) : World * option Z :=
  match conn_Write c b w with
  | (w, None) => (on_stats count_error w, None)
  | (w, Some n) =>
      let w := on_stats (fun st => st <| MessagesSent ::= add 1 |> <| TotalBytesSent ::= add n |>) w in
      if 20 <=? len b then
        match ParseCommand (take 20 b) with
        | Ok cmd => (on_stats (count_sent cmd n) w, Some n)
        | _ => (w, Some n)
        end
      else (w, Some n)
  end.

(** ** Handlers of the base protocol

    [fullMsg] is a fresh slice: the header was made with a capacity of twenty
    bytes. *)
Definition fullMsg (msg : Message) : bytes := msg_Header msg ++ msg_Body msg.

(** [bytes, _ := m.Marshal()]: nothing when it fails. *)
Definition marshalled {M E} (r : M * outcome E bytes) : bytes :=
  match r.2 with Ok b => b | _ => [] end.

Definition cea_of (cfg : ServerConfig) (cer : CapabilitiesExchangeRequest.t)
  : CapabilitiesExchangeAnswer.t :=
  CapabilitiesExchangeAnswer.New
    <| CapabilitiesExchangeAnswer.ResultCode := 2001 |>
    <| CapabilitiesExchangeAnswer.OriginHost := OriginHost (srv_ConnectionConfig cfg) |>
    <| CapabilitiesExchangeAnswer.OriginRealm := OriginRealm (srv_ConnectionConfig cfg) |>
    <| CapabilitiesExchangeAnswer.HostIpAddress := [ParseIP (ListenAddress cfg)] |>
    <| CapabilitiesExchangeAnswer.VendorId := 10415 |>
    <| CapabilitiesExchangeAnswer.ProductName := ProductName (srv_ConnectionConfig cfg) |>
    <| CapabilitiesExchangeAnswer.Header ::= fun h =>
         h <| HopByHopID := HopByHopID (CapabilitiesExchangeRequest.Header cer) |>
           <| EndToEndID := EndToEndID (CapabilitiesExchangeRequest.Header cer) |> |>.

Definition handle_CER (cfg : ServerConfig) : Handler := fun msg c w =>
  match CapabilitiesExchangeRequest.Unmarshal (fullMsg msg) CapabilitiesExchangeRequest.zero with
  | (cer, Ok _) =>
      ((response_Write c (marshalled (CapabilitiesExchangeAnswer.Marshal (cea_of cfg cer))) w).1, Done)
  | (_, Err _) => (w, Done)
  | (_, Panic) => (w, Panicked)
  end.

Definition dwa_of (cfg : ServerConfig) (dwr : DeviceWatchdogRequest.t) : DeviceWatchdogAnswer.t :=
  DeviceWatchdogAnswer.New
    <| DeviceWatchdogAnswer.ResultCode := 2001 |>
    <| DeviceWatchdogAnswer.OriginHost := OriginHost (srv_ConnectionConfig cfg) |>
    <| DeviceWatchdogAnswer.OriginRealm := OriginRealm (srv_ConnectionConfig cfg) |>
    <| DeviceWatchdogAnswer.Header ::= fun h =>
         h <| HopByHopID := HopByHopID (DeviceWatchdogRequest.Header dwr) |>
           <| EndToEndID := EndToEndID (DeviceWatchdogRequest.Header dwr) |> |>.

Definition handle_DWR (cfg : ServerConfig) : Handler := fun msg c w =>
  match DeviceWatchdogRequest.Unmarshal (fullMsg msg) DeviceWatchdogRequest.zero with
  | (dwr, Ok _) =>
      ((response_Write c (marshalled (DeviceWatchdogAnswer.Marshal (dwa_of cfg dwr))) w).1, Done)
  | (_, Err _) => (w, Done)
  | (_, Panic) => (w, Panicked)
  end.

Definition dpa_of (cfg : ServerConfig) (dpr : DisconnectPeerRequest.t) : DisconnectPeerAnswer.t :=
  DisconnectPeerAnswer.New
    <| DisconnectPeerAnswer.ResultCode := 2001 |>
    <| DisconnectPeerAnswer.OriginHost := OriginHost (srv_ConnectionConfig cfg) |>
    <| DisconnectPeerAnswer.OriginRealm := OriginRealm (srv_ConnectionConfig cfg) |>
    <| DisconnectPeerAnswer.Header ::= fun h =>
         h <| HopByHopID := HopByHopID (DisconnectPeerRequest.Header dpr) |>
           <| EndToEndID := EndToEndID (DisconnectPeerRequest.Header dpr) |> |>.

Definition handle_DPR (cfg : ServerConfig) : Handler := fun msg c w =>
  match DisconnectPeerRequest.Unmarshal (fullMsg msg) DisconnectPeerRequest.zero with
  | (dpr, Ok _) =>
      let w := (response_Write c (marshalled (DisconnectPeerAnswer.Marshal (dpa_of cfg dpr))) w).1 in
      (w <| closers ::= fun l => l ++ [c] |>, Done)
  | (_, Err _) => (w, Done)
  | (_, Panic) => (w, Panicked)
  end.

(** ** Middlewares *)

(** Code after [next(msg, conn)] does not run when [next] panics; here it only
    logs. *)
Definition LoggingMiddleware : Middleware := fun next msg c w => next msg c w.
Definition MetricsMiddleware : Middleware := fun next msg c w => next msg c w.
Definition ContextMiddleware : Middleware := fun next msg c w => next msg c w.

Definition RecoveryMiddleware : Middleware := fun next msg c w =>
  match next msg c w with
  | (w, Panicked) => (on_stats count_error w, Done)
  | r => r
  end.

(** One request at time [now] against the counter of the current window: the
    new counter, and whether the request passes. *)
Definition limit_request (maxRequestsPerSecond now : Z) (l : Z * Z) : (Z * Z) * bool :=
  let '(lastReset, requestCount) := l in
  let '(lastReset, requestCount) :=
    if second <=? now - lastReset then (now, 0) else (lastReset, requestCount) in
  let requestCount := requestCount + 1 in
  ((lastReset, requestCount), negb (maxRequestsPerSecond <? requestCount)).

(** The constructor makes the variables, the result closes over them. *)
Definition RateLimitMiddleware (maxRequestsPerSecond : Z) (w : World) : World * Middleware :=
  let id := size (limiters w) in
  (w <| limiters ::= <[id := (clock w, 0)]> |>,
   fun next msg c w =>
     match limiters w !! id with
     | Some l =>
         let '(l, pass) := limit_request maxRequestsPerSecond (clock w) l in
         let w := w <| limiters ::= <[id := l]> |> in
         if pass then next msg c w else (w, Done)
     | None => (w, Panicked)
     end).

Definition ValidationMiddleware : Middleware := fun next msg c w =>
  if msg_Length msg <? 20 then (on_stats count_error w, Done)
  else if negb (len (msg_Header msg) =? 20) then (on_stats count_error w, Done)
  else match ParseCommand (msg_Header msg) with
       | Ok cmd => if Code cmd =? 0 then (on_stats count_error w, Done) else next msg c w
       | Err _ => (on_stats count_error w, Done)
       | Panic => (w, Panicked)
       end.

(** [next] runs in a goroutine of its own, to its end: a time-out only stops
    the waiting.  Nothing recovers a panic there. *)
Definition TimeoutMiddleware : Middleware := fun next msg c w =>
  match next msg c w with
  | (w, Panicked) => (w, Crashed)
  | r => r
  end.

(** A missing key of [allowedCommands] reads [false]. *)
Definition CommandFilterMiddleware (allowedCommands : gmap Z bool) : Middleware := fun next msg c w =>
  match ParseCommand (msg_Header msg) with
  | Ok cmd => if default false (allowedCommands !! Code cmd) then next msg c w else (w, Done)
  | Err _ => (w, Done)
  | Panic => (w, Panicked)
  end.

(** The loop from the last middleware to the first. *)
Definition ChainMiddleware (ms : list Middleware) : Middleware := fun next =>
  foldr (fun m next => m next) next ms.

Definition ConditionalMiddleware (condition : Message -> Z -> bool) (m : Middleware) : Middleware :=
  fun next msg c w => if condition msg c then m next msg c w else next msg c w.

Definition command_is (p : Command -> bool) (msg : Message) (c : Z) : bool :=
  match ParseCommand (msg_Header msg) with Ok cmd => p cmd | _ => false end.

Definition InterfaceSpecificMiddleware (interfaceID : Z) : Middleware -> Middleware :=
  ConditionalMiddleware (command_is (fun cmd => Interface cmd =? interfaceID)).
Definition CommandSpecificMiddleware (commandCode : Z) : Middleware -> Middleware :=
  ConditionalMiddleware (command_is (fun cmd => Code cmd =? commandCode)).
Definition RequestOnlyMiddleware : Middleware -> Middleware :=
  ConditionalMiddleware (command_is cmd_Request).
Definition AnswerOnlyMiddleware : Middleware -> Middleware :=
  ConditionalMiddleware (command_is (fun cmd => negb (cmd_Request cmd))).

(** ** The server *)

(** A goroutine of a handler.  [Application]: the outer one, whose [recover]
    only covers the [go] statement in it. *)
Inductive Task : Type :=
| Running (h : Handler) (msg : Message) (c : Z)
| Application (h : Handler) (msg : Message) (c : Z).

(** [connections] is the server's map from remote addresses, [serving] the
    connections whose [serve] has not returned; [listening] says that the accept
    loop runs. *)
Record Server := {
  srv_config : ServerConfig;
  HandlerMux : gmap Command Handler;
  middlewares : list Middleware;
  world : World;
  connections : gmap bytes Z;
  serving : list Z;
  next_conn : Z;
  tasks : list Task;
  listening : bool;
  listener_closed : bool;
  ctx_done : bool;
  receive_closed : bool;
  tempDelay : Z;
  crashed : bool }.

Definition on_world (f : World -> World) (s : Server) : Server := s <| world ::= f |>.

Definition HandleFunc (cmd : Command) (handler : Handler) (s : Server) : Server :=
  s <| HandlerMux ::= <[cmd := handler]> |>.
Definition Use (middleware : Middleware) (s : Server) : Server :=
  s <| middlewares ::= fun l => l ++ [middleware] |>.
Definition wrapHandler (handler : Handler) (s : Server) : Handler :=
  foldr (fun m wrapped => m wrapped) handler (middlewares s).
Definition getHandler (cmd : Command) (s : Server) : option Handler :=
  match HandlerMux s !! cmd with
  | Some handler => Some (wrapHandler handler s)
  | None => None
  end.

Definition base_command (code : Z) : Command :=
  {| Interface := 0; Code := code; cmd_Request := true |}.

Definition NewServer (config : option ServerConfig) (clk : Z) (a : A) : Server :=
  let config := default DefaultServerConfig config in
  let s :=
    {| srv_config := config; HandlerMux := ∅; middlewares := [];
       world := {| stats := zero_stats; links := ∅; closers := []; clock := clk;
                   limiters := ∅; app_state := a |};
       connections := ∅; serving := []; next_conn := 0; tasks := [];
       listening := false; listener_closed := false; ctx_done := false;
       receive_closed := false; tempDelay := 0; crashed := false |} in
  HandleFunc (base_command 282) (handle_DPR config)
    (HandleFunc (base_command 280) (handle_DWR config)
      (HandleFunc (base_command 257) (handle_CER config) s)).

(** *** The accept loop *)

Inductive accepted : Type :=
| Accepted (remote stream : bytes)
| AcceptTemporary
| AcceptError.

Definition millisecond : Z := 1000000.

(** [Start] has called [net.Listen]. *)
Definition Start (s : Server) : Server :=
  s <| listening := true |> <| listener_closed := false |> <| tempDelay := 0 |>.

(** One iteration of the loop; a closed listener accepts nothing. *)
Definition accept (a : accepted) (s : Server) : Server :=
  match (if listener_closed s then AcceptError else a) with
  | Accepted remote stream =>
      let s := s <| tempDelay := 0 |> in
      if MaxConnections (srv_config s) <=? to_i64 (ActiveConnections (stats (world s))) then
        on_world (on_stats count_error) s
      else
        let c := next_conn s in
        let l := {| remote_addr := remote; unread := stream; out := []; writes := 0;
                    broken := false; rwc_closed := false |} in
        (on_world (fun w => on_stats (fun st => st <| TotalConnections ::= add 1 |>
                                                   <| ActiveConnections ::= add 1 |>)
                             (w <| links ::= <[c := l]> |>)) s)
          <| next_conn := c + 1 |>
          <| connections ::= <[remote := c]> |>
          <| serving ::= cons c |>
  | AcceptTemporary =>
      if ctx_done s then s <| listening := false |>
      else
        let d := if tempDelay s =? 0 then 5 * millisecond else tempDelay s * 2 in
        s <| tempDelay := if second <? d then second else d |>
  | AcceptError => s <| listening := false |>
  end.

(** *** Serving a connection *)

(** The deferred function of [serve]; [Add(^uint64(0))] adds 2^64-1. *)
Definition serve_end (c : Z) (recovered : bool) (s : Server) : Server :=
  (on_world (fun w =>
     on_stats (fun st => st <| ActiveConnections ::= add (2 ^ 64 - 1) |>)
       (conn_Close c (if recovered then on_stats count_error w else w))) s)
    <| serving ::= filter (fun c' => c' <> c) |>.

(** What [c.readMessage()] returns: [net_error] is an error of the socket
    other than the end of the stream, as for every read once the server has
    closed it. *)
Definition serve_read (c : Z) (net_error : bool) (w : World)
  : World * outcome (option read_error) Message :=
  match links w !! c with
  | None => (w, Err None)
  | Some l =>
      if rwc_closed l || net_error then (w, Err None)
      else match ReadMessage None (unread l) with
           | (r, rest) => (w <| links ::= <[c := l <| unread := rest |>]> |>, omap_err Some r)
           end
  end.

(** One iteration of the loop of [serve]. *)
Definition serve (c : Z) (net_error : bool) (s : Server) : Server :=
  match serve_read c net_error (world s) with
  | (w, Err e) =>
      let s := s <| world := w |> in
      let s := match e with
               | Some ErrEOF | Some (ErrUnexpectedEOF _) => s
               | _ => on_world (on_stats count_error) s
               end in
      serve_end c false s
  | (w, Panic) => serve_end c true (s <| world := w |>)
  | (w, Ok m) =>
      let s := s <| world := w |> in
      let s := on_world (on_stats (fun st =>
                 st <| TotalMessages ::= add 1 |> <| MessagesReceived ::= add 1 |>
                    <| TotalBytesReceived ::= add (msg_Length m) |>)) s in
      match ParseCommand (msg_Header m) with
      | Err _ => on_world (on_stats count_error) s
      | Panic => serve_end c true s
      | Ok cmd =>
          let s := on_world (on_stats (count_received cmd (msg_Length m))) s in
          match getHandler cmd s with
          | None => s
          | Some handler =>
              if (Interface cmd =? 0) &&
                 ((Code cmd =? 257) || (Code cmd =? 280) || (Code cmd =? 282))
              then s <| tasks ::= fun l => l ++ [Running handler m c] |>
              else s <| tasks ::= fun l => l ++ [Application handler m c] |>
          end
      end
  end.

(** The [i]-th goroutine of a handler runs. *)
Definition run_task (i : nat) (s : Server) : Server :=
  match tasks s !! i with
  | None => s
  | Some t =>
      let s := s <| tasks ::= fun l => take i l ++ drop (S i) l |> in
      match t with
      | Application h m c => s <| tasks ::= fun l => l ++ [Running h m c] |>
      | Running h m c =>
          match h m c (world s) with
          | (w, Done) => s <| world := w |>
          | (w, Panicked) | (w, Crashed) => s <| world := w |> <| crashed := true |>
          end
      end
  end.

(** The timer of a DPR fires. *)
Definition run_closer (i : nat) (s : Server) : Server :=
  match closers (world s) !! i with
  | None => s
  | Some c => on_world (fun w => conn_Close c (w <| closers ::= fun l => take i l ++ drop (S i) l |>)) s
  end.

(** *** The other methods *)

(** [Broadcast]; the order in which Go ranges over the map does not matter to
    the result. *)
Definition broadcast_to (msg : bytes) (c : Z) (r : World * bool) : World * bool :=
  let '(w, lastErr) := r in
  match response_Write c msg w with
  | (w, None) => (on_stats count_error w, true)
  | (w, Some _) => (on_stats (fun st => st <| MessagesSent ::= add 1 |>) w, lastErr)
  end.
(** [true]: the last error is returned. *)
Definition Broadcast (msg : bytes) (s : Server) : Server * bool :=
  let '(w, lastErr) :=
    foldl (fun r c => broadcast_to msg c r) (world s, false) (map_to_list (connections s)).*2 in
  (s <| world := w |>, lastErr).

Definition GetConnection (addr : bytes) (s : Server) : option Z := connections s !! addr.
Definition GetAllConnections (s : Server) : list Z := (map_to_list (connections s)).*2.

(** Nothing is ever added to the wait group.  Closing the receive channel a
    second time panics. *)
Definition Stop (s : Server) : Server :=
  let s := s <| ctx_done := true |> <| listener_closed := true |> in
  let s := on_world (fun w => foldl (fun w c => conn_Close c w) w (GetAllConnections s)) s in
  if receive_closed s then s <| crashed := true |> else s <| receive_closed := true |>.

(** ** Runs *)

Inductive event : Type :=
| EvStart
| EvAccept (a : accepted)
| EvServe (c : Z) (net_error : bool)
| EvTask (i : nat)
| EvCloser (i : nat)
| EvClock (d : Z)
| EvHandleFunc (cmd : Command) (h : Handler)
| EvUse (m : Middleware)
| EvRateLimit (maxRequestsPerSecond : Z)
| EvBroadcast (msg : bytes)
| EvStop.

Definition step (e : event) (s : Server) : Server :=
  if crashed s then s
  else
    match e with
    | EvStart => Start s
    | EvAccept a => if listening s then accept a s else s
    | EvServe c net_error => if bool_decide (c ∈ serving s) then serve c net_error s else s
    | EvTask i => run_task i s
    | EvCloser i => run_closer i s
    | EvClock d => on_world (fun w => w <| clock ::= Z.add (Z.max 0 d) |>) s
    | EvHandleFunc cmd h => HandleFunc cmd h s
    | EvUse m => Use m s
    | EvRateLimit n =>
        let '(w, m) := RateLimitMiddleware n (world s) in Use m (s <| world := w |>)
    | EvBroadcast msg => (Broadcast msg s).1
    | EvStop => Stop s
    end.

Definition run (l : list event) (s : Server) : Server := foldl (fun s e => step e s) s l.
End Server.

Arguments World : clear implicits.
Arguments Handler : clear implicits.
Arguments Middleware : clear implicits.
Arguments Task : clear implicits.
Arguments Server : clear implicits.
Arguments event : clear implicits.
