(* ===== verification/ServerTheorems.v ===== *)
(** * Properties of the server

    Handlers and middlewares are the application's, and reach the server only
    through the connection they are given: [behaves] says so.  Under it, the
    counters of commands, interfaces and server agree, and the number of
    connections served stays within its limit; each message of a stream starts
    its handler; a panic of a handler stops at [RecoveryMiddleware]. *)

From stdpp Require Import relations.
From S2P Require Import Prelude Binary Wire Message BaseMessages Framing GoNet Server.
#[local] Open Scope Z_scope.

(** ** What handlers do *)

Section Actions.
Context {A : Type} (net_ok : Z -> nat -> bool).

Inductive action : World A -> World A -> Prop :=
| act_write c b w : action w (response_Write net_ok c b w).1
| act_close c w : action w (conn_Close c w)
| act_timer c w : action w (w <| closers ::= fun l => l ++ [c] |>)
| act_error w : action w (on_stats count_error w)
| act_limiter id l w : action w (w <| limiters ::= <[id := l]> |>)
| act_app a w : action w (w <| app_state := a |>).

(** A handler that only acts through the connection and on its own state. *)
Definition behaves (h : Handler A) : Prop := forall msg c w, rtc action w (h msg c w).1.
Definition behaving (m : Middleware A) : Prop := forall h, behaves h -> behaves (m h).

Lemma act_then w w' w'' : action w w' -> rtc action w' w'' -> rtc action w w''.
Proof. apply rtc_l. Qed.

Lemma base_behaves cfg :
  behaves (handle_CER net_ok cfg) /\ behaves (handle_DWR net_ok cfg) /\
  behaves (handle_DPR net_ok cfg).
Proof.
  split_and!; intros msg c w; unfold handle_CER, handle_DWR, handle_DPR;
    destruct (_ (fullMsg msg) _) as [m [| |]]; cbn [fst]; try done.
  - apply rtc_once, act_write.
  - apply rtc_once, act_write.
  - eapply act_then; [apply act_write|]. apply rtc_once, act_timer.
Qed.

Lemma behaves_if (b : bool) h h' :
  behaves h -> behaves h' -> behaves (fun msg c w => if b then h msg c w else h' msg c w).
Proof. by destruct b. Qed.

Lemma recovery_behaving : behaving RecoveryMiddleware.
Proof.
  intros h Hh msg c w. unfold RecoveryMiddleware. specialize (Hh msg c w).
  destruct (h msg c w) as [w' []]; cbn in *; try done.
  etransitivity; [exact Hh|]. apply rtc_once, act_error.
Qed.

Lemma validation_behaving : behaving ValidationMiddleware.
Proof.
  intros h Hh msg c w. unfold ValidationMiddleware.
  repeat case_match; cbn; auto using rtc_refl, rtc_once, act_error.
Qed.

Lemma timeout_behaving : behaving TimeoutMiddleware.
Proof.
  intros h Hh msg c w. unfold TimeoutMiddleware. specialize (Hh msg c w).
  by destruct (h msg c w) as [w' []].
Qed.

Lemma filter_behaving allowed : behaving (CommandFilterMiddleware allowed).
Proof.
  intros h Hh msg c w. unfold CommandFilterMiddleware. repeat case_match; cbn; auto using rtc_refl.
Qed.

Lemma conditional_behaving cond m : behaving m -> behaving (ConditionalMiddleware cond m).
Proof.
  intros Hm h Hh msg c w. unfold ConditionalMiddleware.
  case_match; [by apply (Hm h Hh)|by apply Hh].
Qed.

Lemma rate_limit_behaving n w0 : behaving (RateLimitMiddleware n w0).2.
Proof.
  intros h Hh msg c w. cbn. case_match; [|done]. case_match.
  eapply act_then; [apply act_limiter|]. case_match; [by apply Hh|done].
Qed.

Lemma chain_behaving ms : Forall behaving ms -> behaving (ChainMiddleware ms).
Proof.
  intros Hms h Hh. unfold ChainMiddleware. induction Hms as [|m ms Hm _ IH]; [done|].
  cbn [foldr]. by apply Hm.
Qed.

(** *** Servers and events whose handlers behave *)

Definition task_behaves (t : Task A) : Prop :=
  match t with Running h _ _ | Application h _ _ => behaves h end.

Definition server_behaves (s : Server A) : Prop :=
  map_Forall (fun _ h => behaves h) (HandlerMux s) /\ Forall behaving (middlewares s) /\
  Forall task_behaves (tasks s).

Definition event_behaves (e : event A) : Prop :=
  match e with
  | EvHandleFunc _ h => behaves h
  | EvUse m => behaving m
  | _ => True
  end.

Lemma NewServer_behaves config clk a : server_behaves (NewServer net_ok config clk a).
Proof.
  destruct (base_behaves (default DefaultServerConfig config)) as (H1 & H2 & H3).
  split; [|split; apply Forall_nil_2]. unfold NewServer, HandleFunc. rsimpl.
  by repeat apply map_Forall_insert_2.
Qed.

Lemma getHandler_behaves cmd s h : server_behaves s -> getHandler cmd s = Some h -> behaves h.
Proof.
  intros (Hm & Hw & _). unfold getHandler. case_match; [|done]. intros [= <-].
  apply (chain_behaving _ Hw). by apply (Hm cmd).
Qed.
End Actions.

(** Each event keeps that the handlers behave. *)
Section Steps.
Context {A : Type} (net_ok : Z -> nat -> bool).

Lemma serve_read_fields c ne (w : World A) :
  let w' := (serve_read c ne w).1 in
  stats w' = stats w /\ closers w' = closers w /\ limiters w' = limiters w.
Proof. unfold serve_read. repeat case_match; split_and!; done. Qed.

Lemma server_behaves_ext (s s' : Server A) :
  HandlerMux s' = HandlerMux s -> middlewares s' = middlewares s -> tasks s' = tasks s ->
  server_behaves net_ok s -> server_behaves net_ok s'.
Proof. unfold server_behaves. by intros -> -> ->. Qed.

Lemma serve_behaves c ne (s : Server A) :
  server_behaves net_ok s -> server_behaves net_ok (serve c ne s).
Proof.
  intros Hs. unfold serve, serve_end.
  destruct (serve_read c ne (world s)) as [w [m|e|]].
  - cbv zeta. case_match; [|by eapply server_behaves_ext..].
    case_match eqn:E; [|by eapply server_behaves_ext].
    assert (behaves net_ok h) as Hh.
    { eapply getHandler_behaves; [|exact E]. by eapply server_behaves_ext. }
    destruct Hs as (H1 & H2 & H3).
    case_match; (split_and!; [done|done|apply Forall_app; by split; [|constructor]]).
  - cbv zeta. repeat case_match; by eapply server_behaves_ext.
  - by eapply server_behaves_ext.
Qed.

Lemma run_task_behaves i (s : Server A) :
  server_behaves net_ok s -> server_behaves net_ok (run_task i s).
Proof.
  intros (H1 & H2 & H3). unfold run_task.
  destruct (tasks s !! i) as [t|] eqn:E; [|done].
  assert (task_behaves net_ok t) as Ht by (by eapply Forall_lookup_1).
  assert (Forall (task_behaves net_ok) (take i (tasks s) ++ drop (S i) (tasks s))) as Hr
    by (apply Forall_app; split; [by apply Forall_take|by apply Forall_drop]).
  cbv zeta. destruct t.
  - repeat case_match; by split_and!.
  - split_and!; [done|done|]. apply Forall_app. by split; [|constructor].
Qed.

Lemma step_behaves e (s : Server A) :
  event_behaves net_ok e -> server_behaves net_ok s -> server_behaves net_ok (step net_ok e s).
Proof.
  intros He Hs. unfold step. destruct (crashed s); [done|].
  destruct e; cbn in He.
  - by eapply server_behaves_ext.
  - case_match; [|done]. unfold accept. repeat case_match; by eapply server_behaves_ext.
  - case_bool_decide; [|done]. by apply serve_behaves.
  - by apply run_task_behaves.
  - unfold run_closer. case_match; [|done]. by eapply server_behaves_ext.
  - by eapply server_behaves_ext.
  - destruct Hs as (H1 & H2 & H3). split_and!; [by apply map_Forall_insert_2|done|done].
  - destruct Hs as (H1 & H2 & H3). split_and!; [done| |done].
    apply Forall_app. by split; [|constructor].
  - destruct Hs as (H1 & H2 & H3). split_and!; [done| |done].
    apply Forall_app. split; [done|]. constructor; [|constructor].
    apply (rate_limit_behaving net_ok).
  - unfold Broadcast. case_match. by eapply server_behaves_ext.
  - unfold Stop. case_match; by eapply server_behaves_ext.
Qed.
End Steps.

(** ** The counters agree *)

(** The counters of an interface are the sums of those of its commands, modulo
    2^64 as the counters themselves are; the error counters of interfaces and
    commands are never written. *)
Definition interface_ok (i : InterfaceStats) : Prop :=
  is_MessagesReceived i = to_u64 (total cs_MessagesReceived (is_CommandStats i)) /\
  is_MessagesSent i = to_u64 (total cs_MessagesSent (is_CommandStats i)) /\
  is_BytesReceived i = to_u64 (total cs_BytesReceived (is_CommandStats i)) /\
  is_BytesSent i = to_u64 (total cs_BytesSent (is_CommandStats i)) /\
  is_Errors i = 0 /\ map_Forall (fun _ k => cs_Errors k = 0) (is_CommandStats i).

Definition counters_agree (st : ServerStats) : Prop :=
  map_Forall (fun _ i => interface_ok i) (ss_InterfaceStats st) /\
  TotalMessages st = MessagesReceived st /\
  MessagesReceived st = to_u64 (total is_MessagesReceived (ss_InterfaceStats st)) /\
  TotalBytesReceived st = to_u64 (total is_BytesReceived (ss_InterfaceStats st)).

Lemma to_u64_add_l x n : to_u64 (to_u64 x + n) = to_u64 (x + n).
Proof. unfold to_u64. by rewrite Zplus_mod_idemp_l. Qed.

(** A sum whose summand [v] was replaced by [add n v]. *)
Lemma to_u64_bump x v n : to_u64 (x - v + add n v) = add n (to_u64 x).
Proof.
  unfold add. rewrite to_u64_add_l. unfold to_u64. rewrite Zplus_mod_idemp_r. f_equal. lia.
Qed.

Lemma to_u64_same x v : to_u64 (x - v + v) = to_u64 x.
Proof. f_equal. lia. Qed.

(** What the pair of get-or-create and the write through the pointer do. *)
Lemma total_set {V} (f : V -> Z) (z : V) k v m :
  f z = 0 -> total f (<[k := v]> m) = total f m - f (default z (m !! k)) + f v.
Proof.
  intros Hz. destruct (m !! k) as [u|] eqn:E; cbn.
  - rewrite (total_delete f k v) by apply lookup_insert_eq.
    rewrite (total_delete f k u m E), delete_insert_eq. lia.
  - rewrite total_insert by done. lia.
Qed.

Lemma alter_created {V} (z : V) (f : V -> V) k m :
  alter f k (match m !! k with Some _ => m | None => <[k := z]> m end) =
  <[k := f (default z (m !! k))]> (m : gmap Z V).
Proof.
  apply map_eq. intros b. destruct (m !! k) as [v|] eqn:E;
    (destruct (decide (k = b)) as [<-|]; [|by rewrite lookup_alter_ne, !lookup_insert_ne]);
    rewrite lookup_alter_eq, ?lookup_insert_eq, ?E; done.
Qed.

Lemma on_interface_created a f st :
  on_interface a f (getOrCreateInterfaceStats a st) =
  st <| ss_InterfaceStats ::= fun m => <[a := f (default zero_interface_stats (m !! a))]> m |>.
Proof.
  destruct st as [x1 x2 x3 x4 x5 x6 x7 x8 m]. unfold set_field. rewrite <- alter_created.
  unfold on_interface, getOrCreateInterfaceStats. cbn. by destruct (m !! a).
Qed.

Lemma on_command_created k f i :
  on_command k f (getOrCreateCommandStats k i) =
  i <| is_CommandStats ::= fun m => <[k := f (default zero_command_stats (m !! k))]> m |>.
Proof.
  destruct i as [x1 x2 x3 x4 x5 m]. unfold set_field. rewrite <- alter_created.
  unfold on_command, getOrCreateCommandStats. cbn. by destruct (m !! k).
Qed.

Lemma zero_interface_ok : interface_ok zero_interface_stats.
Proof. unfold interface_ok. cbn. rewrite !total_empty. split_and!; done. Qed.

Lemma errors_insert (m : gmap Z CommandStats) k v :
  map_Forall (fun _ k => cs_Errors k = 0) m ->
  cs_Errors v = cs_Errors (default zero_command_stats (m !! k)) ->
  map_Forall (fun _ k => cs_Errors k = 0) (<[k := v]> m).
Proof.
  intros Hm Hv. apply map_Forall_insert_2; [|done]. rewrite Hv.
  destruct (m !! k) as [c|] eqn:E; [by apply (Hm k)|done].
Qed.

(** The sums after one command's counters were written. *)
Ltac sums :=
  rewrite !(total_set _ zero_command_stats) by done; cbn;
  rewrite ?to_u64_bump, ?to_u64_same.

Lemma received_ok code n i :
  interface_ok i ->
  interface_ok (on_command code (fun k =>
      k <| cs_MessagesReceived ::= add 1 |> <| cs_BytesReceived ::= add n |>)
    (getOrCreateCommandStats code
      (i <| is_MessagesReceived ::= add 1 |> <| is_BytesReceived ::= add n |>))).
Proof.
  destruct i as [mr ms br bs er m]. unfold interface_ok. cbn. intros (H1 & H2 & H3 & H4 & H5 & H6).
  rewrite on_command_created. unfold set_field; cbn. sums.
  split_and!; try congruence. by apply errors_insert.
Qed.

Lemma sent_ok code n i :
  interface_ok i ->
  interface_ok (on_command code (fun k =>
      k <| cs_MessagesSent ::= add 1 |> <| cs_BytesSent ::= add n |>)
    (getOrCreateCommandStats code
      (i <| is_MessagesSent ::= add 1 |> <| is_BytesSent ::= add n |>))).
Proof.
  destruct i as [mr ms br bs er m]. unfold interface_ok. cbn. intros (H1 & H2 & H3 & H4 & H5 & H6).
  rewrite on_command_created. unfold set_field; cbn. sums.
  split_and!; try congruence. by apply errors_insert.
Qed.

Lemma interface_ok_default (m : gmap Z InterfaceStats) a :
  map_Forall (fun _ i => interface_ok i) m -> interface_ok (default zero_interface_stats (m !! a)).
Proof.
  intros Hm. destruct (m !! a) as [i|] eqn:E; [by apply (Hm a)|apply zero_interface_ok].
Qed.

Lemma counters_agree_ext st st' :
  ss_InterfaceStats st' = ss_InterfaceStats st -> TotalMessages st' = TotalMessages st ->
  MessagesReceived st' = MessagesReceived st -> TotalBytesReceived st' = TotalBytesReceived st ->
  counters_agree st -> counters_agree st'.
Proof. unfold counters_agree. by intros -> -> -> ->. Qed.

Lemma count_received_agree cmd n st :
  counters_agree st ->
  counters_agree (count_received cmd n
    (st <| TotalMessages ::= add 1 |> <| MessagesReceived ::= add 1 |>
        <| TotalBytesReceived ::= add n |>)).
Proof.
  destruct st as [x1 x2 x3 x4 x5 x6 x7 x8 m]. unfold counters_agree, count_received. cbn.
  intros (H1 & H2 & H3 & H4). rewrite on_interface_created. unfold set_field; cbn.
  split_and!.
  - apply map_Forall_insert_2; [|done]. by apply received_ok, interface_ok_default.
  - congruence.
  - rewrite (total_set _ zero_interface_stats), on_command_created by done.
    unfold set_field; cbn. rewrite to_u64_bump. congruence.
  - rewrite (total_set _ zero_interface_stats), on_command_created by done.
    unfold set_field; cbn. rewrite to_u64_bump. congruence.
Qed.

Lemma count_sent_agree cmd n st : counters_agree st -> counters_agree (count_sent cmd n st).
Proof.
  destruct st as [x1 x2 x3 x4 x5 x6 x7 x8 m]. unfold counters_agree, count_sent. cbn.
  intros (H1 & H2 & H3 & H4). rewrite on_interface_created. unfold set_field; cbn.
  split_and!; [|done|..].
  - apply map_Forall_insert_2; [|done]. by apply sent_ok, interface_ok_default.
  - rewrite (total_set _ zero_interface_stats), on_command_created by done.
    unfold set_field; cbn. by rewrite to_u64_same.
  - rewrite (total_set _ zero_interface_stats), on_command_created by done.
    unfold set_field; cbn. by rewrite to_u64_same.
Qed.

(** What an action of a handler, and the server itself when it answers, keep. *)
Definition keeps (st st' : ServerStats) : Prop :=
  (counters_agree st -> counters_agree st') /\ ActiveConnections st' = ActiveConnections st.

#[local] Instance keeps_preorder : PreOrder keeps.
Proof.
  split; [by split|]. intros a b c [H1 H2] [H3 H4]. split; [auto|congruence].
Qed.

Lemma keeps_ext st st' :
  ss_InterfaceStats st' = ss_InterfaceStats st -> TotalMessages st' = TotalMessages st ->
  MessagesReceived st' = MessagesReceived st -> TotalBytesReceived st' = TotalBytesReceived st ->
  ActiveConnections st' = ActiveConnections st -> keeps st st'.
Proof. intros. split; [by apply counters_agree_ext|done]. Qed.

Lemma keeps_sent cmd n st : keeps st (count_sent cmd n st).
Proof.
  split; [apply count_sent_agree|]. unfold count_sent. by rewrite on_interface_created.
Qed.

Lemma count_received_active cmd n st :
  ActiveConnections (count_received cmd n st) = ActiveConnections st.
Proof. unfold count_received. by rewrite on_interface_created. Qed.

Section Keeps.
Context {A : Type} (net_ok : Z -> nat -> bool).

Lemma conn_Write_stats c b (w : World A) : stats (conn_Write net_ok c b w).1 = stats w.
Proof. unfold conn_Write. case_match; [|done]. by case_match. Qed.

Lemma response_Write_keeps c b (w : World A) :
  keeps (stats w) (stats (response_Write net_ok c b w).1).
Proof.
  unfold response_Write. pose proof (conn_Write_stats c b w) as E.
  destruct (conn_Write net_ok c b w) as [w' [n|]]; cbn in E; rewrite <- E; clear E;
    [|by apply keeps_ext].
  set (w2 := on_stats _ w'). assert (keeps (stats w') (stats w2)) as H2 by (by apply keeps_ext).
  repeat case_match; cbn; try exact H2. etransitivity; [exact H2|]. apply keeps_sent.
Qed.

Lemma action_keeps (w w' : World A) : action net_ok w w' -> keeps (stats w) (stats w').
Proof.
  intros []; try by apply keeps_ext. apply response_Write_keeps.
Qed.

Lemma actions_keep (w w' : World A) : rtc (action net_ok) w w' -> keeps (stats w) (stats w').
Proof.
  induction 1 as [|w w1 w2 H _ IH]; [done|]. etransitivity; [|exact IH]. by apply action_keeps.
Qed.

Lemma Broadcast_keeps msg (s : Server A) :
  keeps (stats (world s)) (stats (world (Broadcast net_ok msg s).1)).
Proof.
  unfold Broadcast.
  assert (forall l (r : World A * bool), keeps (stats r.1)
    (stats (foldl (fun r c => broadcast_to net_ok msg c r) r l).1)) as H.
  { induction l as [|c l IH]; intros [w e]; [done|]. cbn [foldl fst].
    etransitivity; [|apply IH]. unfold broadcast_to.
    etransitivity; [apply (response_Write_keeps c msg)|].
    destruct (response_Write net_ok c msg w) as [w' [n|]]; by apply keeps_ext. }
  specialize (H (map_to_list (connections s)).*2 (world s, false)). by case_match.
Qed.

Lemma close_all_stats (l : list Z) (w : World A) :
  stats (foldl (fun w c => conn_Close c w) w l) = stats w.
Proof. revert w. induction l as [|c l IH]; intros w; [done|]. cbn [foldl]. by rewrite IH. Qed.
End Keeps.

(** ** The connections served *)

Section Invariant.
Context {A : Type} (net_ok : Z -> nat -> bool).

(** [ActiveConnections] counts the [serve] loops, and these stay within
    [MaxConnections], an [int]. *)
Definition active_ok (config : ServerConfig) (s : Server A) : Prop :=
  srv_config s = config /\ NoDup (serving s) /\ Forall (fun c => c < next_conn s) (serving s) /\
  ActiveConnections (stats (world s)) = len (serving s) /\
  len (serving s) <= Z.max 0 (MaxConnections config).

Definition server_inv (config : ServerConfig) (s : Server A) : Prop :=
  active_ok config s /\ counters_agree (stats (world s)).

Lemma server_inv_keeps config (s s' : Server A) :
  srv_config s' = srv_config s -> serving s' = serving s -> next_conn s' = next_conn s ->
  keeps (stats (world s)) (stats (world s')) -> server_inv config s -> server_inv config s'.
Proof.
  intros E1 E2 E3 [H1 H2] [(Hc & Hn & Hl & Ha & Hm) Hs]. split; [|by apply H1].
  unfold active_ok. rewrite E1, E2, E3, H2. done.
Qed.

Lemma server_inv_same config (s s' : Server A) :
  srv_config s' = srv_config s -> serving s' = serving s -> next_conn s' = next_conn s ->
  stats (world s') = stats (world s) -> server_inv config s -> server_inv config s'.
Proof. intros ??? E. apply server_inv_keeps; try done. by rewrite E. Qed.

Lemma NoDup_filter_ne (c : Z) l :
  NoDup l -> c ∈ l -> len (filter (fun c' => c' <> c) l) = len l - 1.
Proof.
  induction 1 as [|x l Hx Hl IH]; [by intros ?%elem_of_nil|].
  intros [<-|Hc]%elem_of_cons.
  - rewrite filter_cons_False by (intros H; by apply H). rewrite len_cons.
    assert (filter (fun c' => c' <> c) l = l) as ->; [|lia].
    clear IH Hl. induction l as [|y l IH]; [done|]. apply not_elem_of_cons in Hx as [? Hx].
    rewrite filter_cons_True by done. by rewrite IH.
  - rewrite filter_cons_True by (intros ->; done). rewrite !len_cons, IH by done. lia.
Qed.

Lemma len_filter_le (c : Z) l : len (filter (fun c' => c' <> c) l) <= len l.
Proof. unfold len. pose proof (length_filter (fun c' => c' <> c) l). lia. Qed.

(** The end of [serve]: the counter goes down with the loops. *)
Lemma serve_end_inv config c r (s : Server A) :
  MaxConnections config < 2 ^ 63 -> c ∈ serving s ->
  server_inv config s -> server_inv config (serve_end c r s).
Proof.
  intros Hmax Hc [(Hcfg & Hn & Hl & Ha & Hm) Hs]. unfold serve_end.
  assert (forall st, counters_agree st ->
    counters_agree (st <| ActiveConnections ::= add (2 ^ 64 - 1) |>)) as Hk
    by (intros st; by apply counters_agree_ext).
  assert (0 < len (serving s)) as Hpos.
  { destruct (serving s); [by apply elem_of_nil in Hc|]. rewrite len_cons. pose proof (len_nonneg l).
    lia. }
  assert (add (2 ^ 64 - 1) (ActiveConnections (stats (world s))) =
          len (filter (fun c' => c' <> c) (serving s))) as Hadd.
  { rewrite NoDup_filter_ne, Ha by done. unfold add, to_u64.
    replace (len (serving s) + (2 ^ 64 - 1)) with (len (serving s) - 1 + 1 * 2 ^ 64) by lia.
    rewrite Z_mod_plus_full. apply Z.mod_small. lia. }
  split.
  - split_and!; [exact Hcfg|by apply NoDup_filter| |by destruct r|].
    { apply Forall_forall. intros x Hx. apply list_elem_of_filter in Hx as [_ Hx].
      rewrite Forall_forall in Hl. by apply Hl. }
    etransitivity; [apply len_filter_le|exact Hm].
  - apply Hk. destruct r; [|exact Hs]. by apply counters_agree_ext with (stats (world s)).
Qed.

Lemma srv_accept_inv config a (s : Server A) :
  MaxConnections config < 2 ^ 63 -> server_inv config s -> server_inv config (accept a s).
Proof.
  intros Hmax Hi. unfold accept.
  destruct (if listener_closed s then AcceptError else a) as [remote stream| |].
  - cbv zeta. destruct (_ <=? _) eqn:E; [by apply server_inv_keeps with s; try apply keeps_ext|].
    apply Z.leb_gt in E. destruct Hi as [(Hc & Hn & Hl & Ha & Hm) Hs].
    change (to_i64 (ActiveConnections (stats (world s))) < MaxConnections (srv_config s)) in E.
    rewrite Ha, Hc in E. pose proof (len_nonneg (serving s)).
    rewrite to_i64_id in E by (unfold i64; lia).
    split; [|by apply counters_agree_ext with (stats (world s))].
    split_and!; [exact Hc| | | |].
    + apply NoDup_cons. split; [|done]. intros Hin.
      rewrite Forall_forall in Hl. exact (Z.lt_irrefl _ (Hl _ Hin)).
    + apply Forall_cons. split; [apply Z.lt_succ_diag_r|].
      eapply Forall_impl; [exact Hl|]. intros x Hx. apply Z.lt_lt_succ_r, Hx.
    + change (add 1 (ActiveConnections (stats (world s))) = len (next_conn s :: serving s)).
      rewrite Ha, len_cons. unfold add. rewrite to_u64_id by (unfold u64; lia). lia.
    + change (len (next_conn s :: serving s) <= Z.max 0 (MaxConnections config)).
      rewrite len_cons. lia.
  - case_match; by apply server_inv_same with s.
  - by apply server_inv_same with s.
Qed.

Lemma serve_read_header c ne (w w' : World A) m :
  serve_read c ne w = (w', Ok m) -> exists cmd, ParseCommand (msg_Header m) = Ok cmd.
Proof.
  unfold serve_read. case_match; [|done]. case_match; [done|].
  destruct (ReadMessage None (unread l)) as [[m'| |] rest] eqn:E; intros [= <- <-].
  apply ReadMessage_spec in E as (d & [Hd _] & _ & ->); [|done].
  rewrite ParseCommand_eq. unfold split_message. cbn [msg_Header].
  rewrite (proj2 (Z.ltb_ge _ _)); [by eexists|]. unfold len in *. rewrite length_take. lia.
Qed.

Lemma serve_inv config c ne (s : Server A) :
  MaxConnections config < 2 ^ 63 -> c ∈ serving s ->
  server_inv config s -> server_inv config (serve c ne s).
Proof.
  intros Hmax Hc Hi. unfold serve.
  pose proof (serve_read_fields c ne (world s)) as (Es & _).
  destruct (serve_read c ne (world s)) as [w r] eqn:E. cbn [fst] in Es.
  assert (server_inv config (s <| world := w |>)) as Hw by (by apply server_inv_same with s).
  destruct r as [m|e|].
  - apply serve_read_header in E as [cmd Hcmd]. cbv zeta. rewrite Hcmd.
    set (s1 := on_world (on_stats (count_received _ _)) _).
    assert (server_inv config s1) as H1.
    { apply server_inv_keeps with (s <| world := w |>); try done.
      split; [apply count_received_agree|exact (count_received_active _ _ _)]. }
    case_match; [|exact H1]. case_match; by apply server_inv_same with s1.
  - cbv zeta. apply serve_end_inv; [done|by repeat case_match|].
    repeat case_match; try exact Hw;
      by (apply server_inv_keeps with (s <| world := w |>); try done; apply keeps_ext).
  - by apply serve_end_inv.
Qed.

Lemma run_task_inv config i (s : Server A) :
  server_behaves net_ok s -> server_inv config s -> server_inv config (run_task i s).
Proof.
  intros (_ & _ & Ht) Hi. unfold run_task. destruct (tasks s !! i) as [t|] eqn:E; [|done].
  apply (Forall_lookup_1 _ _ _ _ Ht) in E. cbv zeta. destruct t as [h msg c|h msg c].
  - specialize (E msg c (world s)). apply actions_keep in E.
    change (world (s <| tasks ::= _ |>)) with (world s).
    destruct (h msg c (world s)) as [w []]; by apply server_inv_keeps with s.
  - by apply server_inv_same with s.
Qed.

Lemma srv_step_inv config e (s : Server A) :
  MaxConnections config < 2 ^ 63 -> server_behaves net_ok s ->
  server_inv config s -> server_inv config (step net_ok e s).
Proof.
  intros Hmax Hb Hi. unfold step. destruct (crashed s); [done|]. destruct e.
  - by apply server_inv_same with s.
  - case_match; [|done]. by apply srv_accept_inv.
  - case_bool_decide; [|done]. by apply serve_inv.
  - by apply run_task_inv.
  - unfold run_closer. case_match; [|done]. by apply server_inv_same with s.
  - by apply server_inv_same with s.
  - by apply server_inv_same with s.
  - by apply server_inv_same with s.
  - by apply server_inv_same with s.
  - pose proof (Broadcast_keeps net_ok msg s) as H. unfold Broadcast in *.
    destruct (foldl _ _ _) as [w b]. by apply server_inv_keeps with s.
  - unfold Stop. cbv zeta.
    assert (stats (world s) = stats (foldl (fun w c => conn_Close c w) (world s)
      (GetAllConnections s))) as E by (by rewrite close_all_stats).
    case_match; by apply server_inv_same with s.
Qed.

Lemma NewServer_inv config clk a :
  server_inv (default DefaultServerConfig config) (NewServer net_ok config clk a : Server A).
Proof.
  split.
  - split_and!; [done|apply NoDup_nil_2|apply Forall_nil_2|done|]. apply Z.le_max_l.
  - split_and!; [apply map_Forall_empty|done|..]; exact (eq_sym (f_equal to_u64 (total_empty _))).
Qed.

Lemma srv_run_inv config clk a l :
  MaxConnections (default DefaultServerConfig config) < 2 ^ 63 ->
  Forall (event_behaves net_ok) l ->
  server_inv (default DefaultServerConfig config)
    (run net_ok l (NewServer net_ok config clk a : Server A)).
Proof.
  intros Hmax Hl. unfold run.
  pose proof (NewServer_inv config clk a) as Hi. pose proof (NewServer_behaves net_ok config clk a) as Hb.
  revert Hi Hb. generalize (NewServer net_ok config clk a : Server A).
  induction Hl as [|e l He _ IH]; intros s Hi Hb; [done|]. cbn [foldl].
  apply IH; [by apply srv_step_inv|by apply step_behaves].
Qed.
End Invariant.

(** ** Panics *)

Section Panics.
Context {A : Type} (net_ok : Z -> nat -> bool).

(** A handler may panic, but not in a goroutine of its own. *)
Definition no_crash (h : Handler A) : Prop := forall msg c w, (h msg c w).2 <> Crashed.
Definition crash_free (m : Middleware A) : Prop := forall h, no_crash h -> no_crash (m h).
Definition returns (h : Handler A) : Prop := forall msg c w, (h msg c w).2 = Done.

Definition event_crash_free (e : event A) : Prop :=
  match e with
  | EvHandleFunc _ h => no_crash h
  | EvUse m => crash_free m
  | EvStop => False
  | _ => True
  end.

Lemma recovery_returns h : no_crash h -> returns (RecoveryMiddleware h).
Proof.
  intros Hh msg c w. unfold RecoveryMiddleware. specialize (Hh msg c w).
  by destruct (h msg c w) as [w' []].
Qed.

Lemma base_no_crash cfg :
  no_crash (handle_CER net_ok cfg) /\ no_crash (handle_DWR net_ok cfg) /\
  no_crash (handle_DPR net_ok cfg).
Proof.
  split_and!; intros msg c w; unfold handle_CER, handle_DWR, handle_DPR;
    by destruct (_ (fullMsg msg) _) as [m [| |]].
Qed.

Lemma rate_limit_crash_free n w0 : crash_free (RateLimitMiddleware n w0).2.
Proof. intros h Hh msg c w. cbn. by repeat case_match. Qed.

Lemma chain_crash_free ms : Forall crash_free ms -> crash_free (ChainMiddleware ms).
Proof.
  intros Hms h Hh. unfold ChainMiddleware. induction Hms as [|m ms Hm _ IH]; [done|].
  cbn [foldr]. by apply Hm.
Qed.

Definition task_returns (t : Task A) : Prop :=
  match t with Running h _ _ | Application h _ _ => returns h end.

(** Every handler runs under [RecoveryMiddleware]. *)
Definition protected (s : Server A) : Prop :=
  crashed s = false /\ Forall task_returns (tasks s) /\
  map_Forall (fun _ h => no_crash h) (HandlerMux s) /\
  exists ms, middlewares s = RecoveryMiddleware :: ms /\ Forall crash_free ms.

Lemma protected_ext (s s' : Server A) :
  crashed s' = crashed s -> tasks s' = tasks s -> HandlerMux s' = HandlerMux s ->
  middlewares s' = middlewares s -> protected s -> protected s'.
Proof. unfold protected. by intros -> -> -> ->. Qed.

Lemma getHandler_returns cmd s h : protected s -> getHandler cmd s = Some h -> returns h.
Proof.
  intros (_ & _ & Hm & ms & E & Hms). unfold getHandler, wrapHandler. rewrite E.
  case_match; [|done]. intros [= <-]. apply recovery_returns, (chain_crash_free ms Hms).
  by apply (Hm cmd).
Qed.

Lemma serve_protected c ne (s : Server A) : protected s -> protected (serve c ne s).
Proof.
  intros Hs. unfold serve, serve_end.
  destruct (serve_read c ne (world s)) as [w [m|e|]].
  - cbv zeta. case_match; [|by eapply protected_ext..].
    case_match eqn:E; [|by eapply protected_ext].
    assert (returns h) as Hh.
    { eapply getHandler_returns; [|exact E]. by eapply protected_ext. }
    destruct Hs as (H1 & H2 & H3 & H4).
    case_match; (split_and!; [done|apply Forall_app; by split; [|constructor]|done|done]).
  - cbv zeta. repeat case_match; by eapply protected_ext.
  - by eapply protected_ext.
Qed.

Lemma run_task_protected i (s : Server A) : protected s -> protected (run_task i s).
Proof.
  intros (H1 & H2 & H3 & H4). unfold run_task.
  destruct (tasks s !! i) as [t|] eqn:E; [|done].
  assert (task_returns t) as Ht by (by eapply Forall_lookup_1).
  assert (Forall task_returns (take i (tasks s) ++ drop (S i) (tasks s))) as Hr
    by (apply Forall_app; split; [by apply Forall_take|by apply Forall_drop]).
  cbv zeta. destruct t as [h msg c|h msg c].
  - specialize (Ht msg c (world s)). change (world (s <| tasks ::= _ |>)) with (world s).
    destruct (h msg c (world s)) as [w st]. cbn in Ht. subst st. by split_and!.
  - split_and!; [done| |done|done]. apply Forall_app. by split; [|constructor].
Qed.

Lemma step_protected e (s : Server A) :
  event_crash_free e -> protected s -> protected (step net_ok e s).
Proof.
  intros He Hs. unfold step. destruct (crashed s); [done|].
  assert (forall m, crash_free m -> protected (Use m s)) as Huse.
  { intros m Hm. destruct Hs as (H1 & H2 & H3 & ms & E & Hms). split_and!; [done..|].
    exists (ms ++ [m]). split; [unfold Use; rsimpl; by rewrite E|].
    apply Forall_app. by split; [|constructor]. }
  destruct e; cbn in He.
  - by eapply protected_ext.
  - case_match; [|done]. unfold accept. repeat case_match; by eapply protected_ext.
  - case_bool_decide; [|done]. by apply serve_protected.
  - by apply run_task_protected.
  - unfold run_closer. case_match; [|done]. by eapply protected_ext.
  - by eapply protected_ext.
  - destruct Hs as (H1 & H2 & H3 & H4). split_and!; [done|done|by apply map_Forall_insert_2|done].
  - by apply Huse.
  - specialize (Huse _ (rate_limit_crash_free maxRequestsPerSecond (world s))).
    by eapply protected_ext.
  - unfold Broadcast. case_match. by eapply protected_ext.
  - done.
Qed.
End Panics.

(** ** The rate limiter *)

(** The requests at the times [ts], in this order: which of them pass. *)
Fixpoint limit_requests (n : Z) (l : Z * Z) (ts : list Z) : list (Z * bool) :=
  match ts with
  | [] => []
  | t :: ts =>
      let '(l, pass) := limit_request n t l in
      (t, pass) :: limit_requests n l ts
  end.

(** How many pass in the second that begins at [t]. *)
Definition passed_in (t : Z) (r : list (Z * bool)) : Z :=
  len (filter (fun p : Z * bool => t <= p.1 < t + second /\ p.2 = true) r).

Lemma passed_cons t x b r :
  passed_in t ((x, b) :: r) =
  (if (t <=? x) && (x <? t + second) && b then 1 else 0) + passed_in t r.
Proof.
  unfold passed_in. rewrite filter_cons. cbn [fst snd].
  destruct (decide (t <= x < t + second /\ b = true)) as [[? ->]|H].
  - rewrite len_cons, (proj2 (Z.leb_le _ _)), (proj2 (Z.ltb_lt _ _)) by lia. done.
  - destruct (Z.leb_spec t x), (Z.ltb_spec x (t + second)), b; cbn; try done.
    exfalso. apply H. split; [lia|done].
Qed.

Lemma passed_nil t : passed_in t [] = 0.
Proof. done. Qed.

Lemma passed_late n t l ts :
  Forall (fun x => t + second <= x) ts -> passed_in t (limit_requests n l ts) = 0.
Proof.
  intros H. revert l. induction H as [|x ts Hx _ IH]; intros l; [done|].
  cbn [limit_requests]. destruct (limit_request n x l) as [l' pass].
  rewrite passed_cons, IH, (proj2 (Z.ltb_ge x _)) by lia. by rewrite andb_false_r.
Qed.

Lemma sorted_late t x ts :
  StronglySorted Z.le (x :: ts) -> t <= x -> Forall (fun y => t <= y) (x :: ts).
Proof.
  intros [_ H]%StronglySorted_inv Hx. constructor; [done|].
  eapply Forall_impl; [exact H|]. cbn. intros; lia.
Qed.

Lemma limit_request_cases n x r count :
  limit_request n x (r, count) =
  let '(r, count) := if second <=? x - r then (x, 0) else (r, count) in
  ((r, count + 1), count + 1 <=? n).
Proof.
  unfold limit_request. destruct (_ <=? _).
  - destruct (Z.ltb_spec n (0 + 1)), (Z.leb_spec (0 + 1) n); done || lia.
  - destruct (Z.ltb_spec n (count + 1)), (Z.leb_spec (count + 1) n); done || lia.
Qed.

(** No request of the second resets a counter that was reset in it. *)
Lemma limit_one_window n t r count ts :
  StronglySorted Z.le ts -> t <= r ->
  passed_in t (limit_requests n (r, count) ts) <= Z.max 0 (n - count).
Proof.
  intros Hs Hr. revert count. induction ts as [|x ts IH]; intros count.
  { cbn [limit_requests]. rewrite passed_nil. lia. }
  destruct (Z.le_gt_cases (t + second) x) as [Hx|Hx].
  { rewrite passed_late; [lia|]. by apply sorted_late. }
  cbn [limit_requests]. rewrite limit_request_cases, (proj2 (Z.leb_gt second (x - r))) by lia.
  apply StronglySorted_inv in Hs as [Hs _]. rewrite passed_cons.
  specialize (IH Hs (count + 1)). destruct (Z.leb_spec (count + 1) n); case_match; lia.
Qed.

(** From the first request of the second on, there is at most one reset. *)
Lemma limit_from_start n t r count ts :
  0 <= n -> StronglySorted Z.le ts -> Forall (fun x => t <= x) ts ->
  passed_in t (limit_requests n (r, count) ts) <= Z.max 0 (n - count) + n.
Proof.
  intros Hn Hs Ht. revert count. induction Ht as [|x ts Hx Ht IH]; intros count.
  { cbn [limit_requests]. rewrite passed_nil. lia. }
  apply StronglySorted_inv in Hs as [Hs _]. cbn [limit_requests].
  rewrite limit_request_cases. destruct (_ <=? _); cbv zeta beta iota; rewrite passed_cons.
  - pose proof (limit_one_window n t x 1 ts Hs Hx).
    change (0 + 1) with 1. destruct (Z.leb_spec 1 n); case_match; b2p; lia.
  - specialize (IH Hs (count + 1)). destruct (Z.leb_spec (count + 1) n); case_match; b2p; lia.
Qed.

Lemma limit_any_second n t r count ts :
  0 <= n -> 0 <= count -> StronglySorted Z.le ts ->
  passed_in t (limit_requests n (r, count) ts) <= 2 * n.
Proof.
  intros Hn Hc Hs. revert r count Hc. induction ts as [|x ts IH]; intros r count Hc.
  { cbn [limit_requests]. rewrite passed_nil. lia. }
  destruct (Z.le_gt_cases t x) as [Hx|Hx].
  { pose proof (limit_from_start n t r count _ Hn Hs (sorted_late _ _ _ Hs Hx)). lia. }
  apply StronglySorted_inv in Hs as [Hs _]. cbn [limit_requests]. rewrite limit_request_cases.
  destruct (_ <=? _); cbv zeta beta iota; rewrite passed_cons, (proj2 (Z.leb_gt t x)) by lia; cbn [andb];
    [specialize (IH Hs x (0 + 1))|specialize (IH Hs r (count + 1))]; lia.
Qed.

(** ** The serving loop *)

Section Serving.
Context {A : Type} (net_ok : Z -> nat -> bool).

(** The goroutine that a message starts. *)
Definition started (s : Server A) (c : Z) (msg : Message) : option (Task A) :=
  match ParseCommand (msg_Header msg) with
  | Ok cmd =>
      match getHandler cmd s with
      | Some h => Some (if (Interface cmd =? 0) &&
                           ((Code cmd =? 257) || (Code cmd =? 280) || (Code cmd =? 282))
                        then Running h msg c else Application h msg c)
      | None => None
      end
  | _ => None
  end.

(** The stream of connection [c]. *)
Definition stream_of (c : Z) (s : Server A) (stream : bytes) : Prop :=
  exists l, links (world s) !! c = Some l /\ rwc_closed l = false /\ unread l = stream.

Lemma started_ext (s s' : Server A) c msg :
  HandlerMux s' = HandlerMux s -> middlewares s' = middlewares s ->
  started s' c msg = started s c msg.
Proof. unfold started, getHandler, wrapHandler. by intros -> ->. Qed.

(** One message: its goroutine is started, and the loop goes on. *)
Lemma serve_one c l d rest (s : Server A) :
  framed d -> links (world s) !! c = Some l -> rwc_closed l = false -> unread l = d ++ rest ->
  let s' := serve c false s in
  links (world s') = <[c := l <| unread := rest |>]> (links (world s)) /\
  serving s' = serving s /\ crashed s' = crashed s /\
  HandlerMux s' = HandlerMux s /\ middlewares s' = middlewares s /\
  tasks s' = tasks s ++ option_list (started s c (split_message d)) /\
  Errors (stats (world s')) = Errors (stats (world s)) /\
  MessagesReceived (stats (world s')) = add 1 (MessagesReceived (stats (world s))).
Proof.
  intros Hd Hl Ho Hu.
  assert (ReadMessage None (unread l) = (Ok (split_message d), rest)) as Hr
    by (apply ReadMessage_spec; [done|]; exists d; by rewrite Hu).
  set (w := (world s) <| links ::= <[c := l <| unread := rest |>]> |>).
  assert (serve_read c false (world s) = (w, Ok (split_message d))) as E.
  { unfold serve_read. by rewrite Hl, Ho, Hr. }
  destruct (serve_read_header _ _ _ _ _ E) as [cmd Hcmd].
  unfold serve. rewrite E. cbv zeta. rewrite Hcmd.
  set (s1 := on_world (on_stats (count_received _ _)) _).
  assert (Errors (stats (world s1)) = Errors (stats (world s)) /\
    MessagesReceived (stats (world s1)) = add 1 (MessagesReceived (stats (world s)))) as [H1 H2].
  { unfold s1, on_world, on_stats. rsimpl. unfold count_received. by rewrite on_interface_created. }
  unfold started. rewrite Hcmd.
  change (getHandler cmd s1) with (getHandler cmd s).
  destruct (getHandler cmd s) as [h|]; [case_match|];
    (split_and!; [done|done|done|done|done| |exact H1|exact H2]); try done.
  by rewrite app_nil_r.
Qed.

(** The stream ends between two messages or inside a header: [serve] returns,
    and this is not an error. *)
Lemma serve_last c cut (s : Server A) :
  len cut < 20 -> stream_of c s cut ->
  let s' := serve c false s in
  serving s' = filter (fun c' => c' <> c) (serving s) /\ tasks s' = tasks s /\
  Errors (stats (world s')) = Errors (stats (world s)) /\
  MessagesReceived (stats (world s')) = MessagesReceived (stats (world s)) /\
  exists l, links (world s') !! c = Some l /\ rwc_closed l = true.
Proof.
  intros Hc (l & Hl & Ho & Hu).
  assert (exists e, ReadMessage None cut = (Err e, []) /\
    (e = ErrEOF \/ exists n, e = ErrUnexpectedEOF n)) as (e & Hr & He).
  { unfold ReadMessage, readHeader. rewrite (proj2 (Z.ltb_ge _ 20)) by done.
    unfold ReadFull. cbn [Z.eqb]. rewrite (proj2 (Z.ltb_lt _ _)) by done.
    destruct (len cut =? 0); eexists; split; eauto. }
  unfold serve, serve_read. rewrite Hl, Ho, Hu, Hr. cbn [orb omap_err]. cbv zeta beta iota.
  destruct He as [->|[n ->]];
    (split_and!; [done..|]; eexists; split;
      [unfold serve_end, conn_Close, on_world, on_stats; rsimpl;
       rewrite lookup_alter_eq, lookup_insert_eq; reflexivity|done]).
Qed.

Lemma step_serve c (s : Server A) :
  crashed s = false -> c ∈ serving s -> step net_ok (EvServe c false) s = serve c false s.
Proof. intros Hc Hin. unfold step. by rewrite Hc, bool_decide_eq_true_2. Qed.

Lemma serve_all c ms cut (s : Server A) :
  Forall framed ms -> len cut < 20 -> stream_of c s (concat ms ++ cut) ->
  crashed s = false -> c ∈ serving s ->
  let s' := run net_ok (repeat (EvServe c false) (S (length ms))) s in
  tasks s' = tasks s ++ omap (started s c) (map split_message ms) /\
  serving s' = filter (fun c' => c' <> c) (serving s) /\
  Errors (stats (world s')) = Errors (stats (world s)) /\
  to_u64 (MessagesReceived (stats (world s'))) =
    to_u64 (MessagesReceived (stats (world s)) + len ms) /\
  exists l, links (world s') !! c = Some l /\ rwc_closed l = true.
Proof.
  intros Hms Hcut. revert s. induction Hms as [|d ms Hd Hms IH]; intros s Hs Hc Hin.
  - cbn [length repeat run foldl concat map omap list_omap app] in *. unfold run. cbn [foldl].
    rewrite step_serve by done. destruct (serve_last c cut s Hcut Hs) as (H1 & H2 & H3 & H4 & H5).
    rewrite H4, len_nil, Z.add_0_r, app_nil_r. done.
  - cbn [length]. rewrite <- (Nat.add_1_l (S _)), repeat_app. cbn [repeat].
    unfold run. rewrite foldl_app. cbn [foldl]. rewrite (step_serve c s) by done.
    cbn [concat] in Hs. rewrite <- app_assoc in Hs.
    destruct Hs as (l0 & Hl0 & Ho & Hu).
    destruct (serve_one c l0 d _ s Hd Hl0 Ho Hu) as (H1' & H2 & H3 & H4 & H5 & H6 & H7 & H8).
    assert (stream_of c (serve c false s) (concat ms ++ cut)) as H1
      by (eexists; split; [rewrite H1'; apply lookup_insert_eq|done]).
    specialize (IH (serve c false s) H1). rewrite H2, H3 in IH. specialize (IH Hc Hin).
    destruct IH as (I1 & I2 & I3 & I4 & I5). split_and!.
    + etransitivity; [exact I1|]. rewrite H6. cbn [map omap list_omap].
      rewrite <- app_assoc. f_equal.
      rewrite (list_omap_ext (started (serve c false s) c) (started s c) _ (map split_message ms))
        by (apply Forall_Forall2_diag, Forall_true; intros; by apply started_ext).
      by destruct (started s c (split_message d)).
    + exact I2.
    + by rewrite <- H7.
    + etransitivity; [exact I4|]. rewrite H8, len_cons. unfold add. rewrite to_u64_add_l.
      f_equal. lia.
    + exact I5.
Qed.
End Serving.

(** The times at which a handler behind the middleware is called, for requests
    at the times [ts]: the handler [note_time] writes the clock into the
    application's state. *)
Definition note_time : Handler (list Z) := fun msg c w =>
  (w <| app_state ::= fun l => l ++ [clock w] |>, Done).

Definition request_at (m : Middleware (list Z)) (msg : Message) (c : Z) (w : World (list Z)) (t : Z)
  : World (list Z) := (m note_time msg c (w <| clock := t |>)).1.

Lemma request_at_spec n w0 msg c (w : World (list Z)) t l :
  limiters w !! size (limiters w0) = Some l ->
  let r := limit_request n t l in
  let w' := request_at (RateLimitMiddleware n w0).2 msg c w t in
  limiters w' !! size (limiters w0) = Some r.1 /\
  app_state w' = app_state w ++ (if r.2 then [t] else []).
Proof.
  intros Hl. unfold request_at. cbn [RateLimitMiddleware snd].
  change (limiters (w <| clock := t |>)) with (limiters w). rewrite Hl.
  change (clock (w <| clock := t |>)) with t.
  destruct (limit_request n t l) as [l' []]; cbn [fst snd note_time].
  - split; [apply lookup_insert_eq|done].
  - split; [apply lookup_insert_eq|by rewrite app_nil_r].
Qed.

Lemma limited_calls n w0 msg c ts (w : World (list Z)) l :
  limiters w !! size (limiters w0) = Some l ->
  app_state (foldl (request_at (RateLimitMiddleware n w0).2 msg c) w ts) =
  app_state w ++ (filter (fun p => p.2 = true) (limit_requests n l ts)).*1.
Proof.
  revert w l. induction ts as [|t ts IH]; intros w l Hl; cbn [foldl limit_requests].
  { by rewrite app_nil_r. }
  destruct (request_at_spec n w0 msg c w t l Hl) as [H1 H2].
  rewrite (IH _ _ H1), H2, <- app_assoc. f_equal.
  by destruct (limit_request n t l) as [l' []].
Qed.

Lemma passed_in_calls t r :
  len (filter (fun x => t <= x < t + second) (filter (fun p : Z * bool => p.2 = true) r).*1) =
  passed_in t r.
Proof.
  induction r as [|[x b] r IH]; [done|]. rewrite passed_cons. destruct b.
  - rewrite filter_cons_True by done. cbn [fmap list_fmap fst]. rewrite filter_cons.
    destruct (decide _), (Z.leb_spec t x), (Z.ltb_spec x (t + second)); cbn [andb];
      try (exfalso; lia); rewrite ?len_cons, IH; lia.
  - rewrite filter_cons_False by done. rewrite andb_false_r. exact IH.
Qed.

(** ** Theorems *)

(** C19: the three levels of counters of the server never disagree.  After any
    sequence of events - accepts, messages, handlers running, broadcasts,
    handlers and middlewares being registered - the counters of messages and
    bytes of every interface are the sums of those of its commands, both ways;
    the server's counters of received messages and bytes are the sums over the
    interfaces; [TotalMessages] counts what [MessagesReceived] counts; and the
    error counters of interfaces and commands stay zero. *)
Theorem server_counters_agree {A} net_ok config clk (a : A) l :
  MaxConnections (default DefaultServerConfig config) < 2 ^ 63 ->
  Forall (event_behaves net_ok) l ->
  counters_agree (stats (world (run net_ok l (NewServer net_ok config clk a)))).
Proof. intros Hm Hl. by apply srv_run_inv. Qed.

(** C20: the accept loop keeps its limit.  At any time [ActiveConnections] is
    the number of [serve] loops that have not returned, one for each
    connection, and there are never more than [MaxConnections] of them; the
    decrement by adding 2^64-1 never wraps below zero. *)
Theorem connections_bounded {A} net_ok config clk (a : A) l :
  MaxConnections (default DefaultServerConfig config) < 2 ^ 63 ->
  Forall (event_behaves net_ok) l ->
  let s := run net_ok l (NewServer net_ok config clk a) in
  NoDup (serving s) /\ ActiveConnections (stats (world s)) = len (serving s) /\
  len (serving s) <= Z.max 0 (MaxConnections (default DefaultServerConfig config)).
Proof.
  intros Hm Hl. destruct (srv_run_inv net_ok config clk a l Hm Hl) as [(_ & Hn & _ & Ha & Hb) _].
  done.
Qed.

(** [RecoveryMiddleware] protects the process.  When it is the first
    middleware, no panic of a handler or of another middleware ends the
    process, whatever is registered afterwards and in whatever order messages
    and handlers run, as long as no handler panics in a goroutine of its own
    (as [TimeoutMiddleware] would make it) and [Stop] is not called. *)
Theorem recovery_protects {A} net_ok config clk (a : A) l :
  Forall event_crash_free l ->
  crashed (run net_ok l (Use RecoveryMiddleware (NewServer net_ok config clk a))) = false.
Proof.
  intros Hl. enough (protected (run net_ok l (Use RecoveryMiddleware
    (NewServer net_ok config clk a)))) as [H _] by exact H.
  assert (protected (Use RecoveryMiddleware (NewServer net_ok config clk a))) as Hs.
  { destruct (base_no_crash (A := A) net_ok (default DefaultServerConfig config)) as (H1 & H2 & H3).
    split_and!; [done|by apply Forall_nil_2| |by exists []].
    by repeat apply map_Forall_insert_2. }
  revert Hs. generalize (Use RecoveryMiddleware (NewServer net_ok config clk a)).
  unfold run. induction Hl as [|e l He _ IH]; intros s Hs; [done|]. cbn [foldl].
  by apply IH, step_protected.
Qed.

(** A panic that no middleware recovers ends the process: the [recover] of
    [serve] covers only the statement that starts the handler. *)
Theorem unrecovered_panic_crashes {A} net_ok (s : Server A) i j h msg c :
  crashed s = false -> tasks s !! i = Some (Application h msg c) ->
  (forall w, (h msg c w).2 = Panicked) -> j = pred (length (tasks s)) ->
  crashed (run net_ok [EvTask i; EvTask j] s) = true.
Proof.
  intros Hc Hi Hh ->. unfold run. cbn [foldl]. unfold step at 2. rewrite Hc.
  unfold run_task. rewrite Hi. cbv zeta beta iota.
  set (l := take i (tasks s) ++ drop (S i) (tasks s)).
  change (tasks (s <| tasks ::= _ |> <| tasks ::= _ |>)) with (l ++ [Running h msg c]).
  assert (pred (length (tasks s)) = length l) as ->.
  { unfold l. rewrite length_app, length_take, length_drop. apply lookup_lt_Some in Hi. lia. }
  unfold step. change (crashed (s <| tasks ::= _ |> <| tasks ::= _ |>)) with (crashed s).
  rewrite Hc. unfold run_task.
  change (tasks (s <| tasks ::= _ |> <| tasks ::= _ |>)) with (l ++ [Running h msg c]).
  rewrite list_lookup_middle by done. cbv zeta beta iota.
  change (world (_ <| tasks ::= _ |>)) with (world s).
  specialize (Hh (world s)). destruct (h msg c (world s)) as [w st]. cbn in Hh. by subst st.
Qed.

(** The three ways to read the counters agree.  [GetInterfaceStats] is the
    entry of the interface in the snapshot of [GetStats], and
    [GetCommandStats] the entry of the command in that; each is absent exactly
    when the other is. *)
Theorem snapshots_agree appID cmdCode st :
  GetInterfaceStats appID st = snap_InterfaceStats (GetStats st) !! appID /\
  GetCommandStats appID cmdCode st =
    match GetInterfaceStats appID st with
    | Some i => ifsnap_CommandStats i !! cmdCode
    | None => None
    end.
Proof.
  unfold GetInterfaceStats, GetCommandStats. cbn [GetStats snap_InterfaceStats].
  rewrite map_lookup_imap. destruct (ss_InterfaceStats st !! appID) as [i|]; cbn; [|done].
  rewrite map_lookup_imap. by destruct (is_CommandStats i !! cmdCode).
Qed.

(** [Broadcast] counts each connection twice: [response.Write] has already
    counted the message or the error. *)
Definition counted (b : bool) (st st' : ServerStats) : Prop :=
  to_u64 (MessagesSent st') = to_u64 (MessagesSent st + (if b then 2 else 0)) /\
  to_u64 (Errors st') = to_u64 (Errors st + (if b then 0 else 2)).

Lemma count_sent_fields cmd n st :
  MessagesSent (count_sent cmd n st) = MessagesSent st /\ Errors (count_sent cmd n st) = Errors st.
Proof. unfold count_sent. by rewrite on_interface_created. Qed.

Lemma to_u64_idem x : to_u64 (to_u64 x) = to_u64 x.
Proof. unfold to_u64. by rewrite Z.mod_mod. Qed.

Lemma broadcast_one {A} net_ok msg c e (w : World A) :
  exists b, counted b (stats w) (stats (broadcast_to net_ok msg c (w, e)).1).
Proof.
  unfold broadcast_to, response_Write.
  pose proof (conn_Write_stats net_ok c msg w) as E.
  destruct (conn_Write net_ok c msg w) as [w' [n|]]; cbn [fst] in E; rewrite <- E;
    [exists true|exists false]; unfold counted.
  - set (w2 := on_stats _ w').
    assert (MessagesSent (stats w2) = add 1 (MessagesSent (stats w')) /\
            Errors (stats w2) = Errors (stats w')) as [H1 H2] by done. clearbody w2.
    assert (forall w3 : World A, MessagesSent (stats w3) = MessagesSent (stats w2) ->
      Errors (stats w3) = Errors (stats w2) ->
      let st' := stats (on_stats (fun st => st <| MessagesSent ::= add 1 |>) w3) in
      to_u64 (MessagesSent st') = to_u64 (MessagesSent (stats w') + 2) /\
      to_u64 (Errors st') = to_u64 (Errors (stats w') + 0)) as H3.
    { intros w3 E1 E2. unfold on_stats. cbv zeta. rsimpl. rewrite E1, E2, H1, H2. unfold add.
      rewrite to_u64_add_l, to_u64_idem. split; f_equal; lia. }
    destruct (20 <=? len msg); [destruct (ParseCommand (take 20 msg)) as [cmd| |]|];
      cbn [fst]; apply H3; try done; apply count_sent_fields.
  - cbn [fst]. unfold on_stats, count_error. rsimpl. unfold add.
    rewrite to_u64_add_l, to_u64_idem. split; f_equal; lia.
Qed.

Lemma Broadcast_counts_twice {A} net_ok msg (s : Server A) :
  exists ok, 0 <= ok <= Z.of_nat (size (connections s)) /\
    let st := stats (world s) in
    let st' := stats (world (Broadcast net_ok msg s).1) in
    to_u64 (MessagesSent st') = to_u64 (MessagesSent st + 2 * ok) /\
    to_u64 (Errors st') = to_u64 (Errors st + 2 * (Z.of_nat (size (connections s)) - ok)).
Proof.
  unfold Broadcast.
  assert (Z.of_nat (size (connections s)) = len (map_to_list (connections s)).*2) as ->
    by (unfold len; by rewrite length_fmap, length_map_to_list).
  generalize (map_to_list (connections s)).*2 as l. generalize false as e.
  generalize (world s) as w. intros w e l.
  enough (forall (w : World A) e, exists ok, 0 <= ok <= len l /\
    let st' := stats (foldl (fun r c => broadcast_to net_ok msg c r) (w, e) l).1 in
    to_u64 (MessagesSent st') = to_u64 (MessagesSent (stats w) + 2 * ok) /\
    to_u64 (Errors st') = to_u64 (Errors (stats w) + 2 * (len l - ok))) as H.
  { destruct (H w e) as (ok & Ho & H1). exists ok. split; [done|]. by case_match. }
  clear. induction l as [|c l IH]; intros w e.
  { exists 0. change (len (@nil Z)) with 0. cbn [foldl fst]. split; [lia|]. cbv zeta. split; f_equal; lia. }
  cbn [foldl]. destruct (broadcast_one net_ok msg c e w) as [b [B1 B2]].
  destruct (broadcast_to net_ok msg c (w, e)) as [w1 e1]. cbn [fst] in B1, B2.
  destruct (IH w1 e1) as (ok & Ho & H1 & H2). rewrite len_cons.
  exists (ok + if b then 1 else 0). split; [destruct b; lia|]. cbv zeta.
  rewrite H1, H2, <- (to_u64_add_l (MessagesSent (stats w1))), B1,
    <- (to_u64_add_l (Errors (stats w1))), B2, !to_u64_add_l.
  destruct b; split; f_equal; lia.
Qed.

(** The rate limiter lets at most twice its limit through in any second.
    For requests at any times in order, the handler behind
    [RateLimitMiddleware] is called at most [2 n] times at the times of an
    interval of one second, wherever it begins: the counter is reset by the
    first request a second after the last reset, so that the end of one window
    and the beginning of the next both fit in it. *)
Theorem rate_limit_bound n w0 msg c ts t :
  0 <= n -> StronglySorted Z.le ts ->
  let '(w, m) := RateLimitMiddleware n w0 in
  let w' := foldl (request_at m msg c) (w <| app_state := [] |>) ts in
  len (filter (fun x => t <= x < t + second) (app_state w')) <= 2 * n.
Proof.
  intros Hn Hs. destruct (RateLimitMiddleware n w0) as [w m] eqn:E. cbv zeta.
  assert (m = (RateLimitMiddleware n w0).2) as -> by (by rewrite E).
  rewrite (limited_calls n w0 msg c ts _ (clock w0, 0)).
  - cbn [app app_state]. change (app_state (w <| app_state := [] |>)) with (@nil Z).
    cbn [app]. rewrite passed_in_calls. by apply limit_any_second.
  - assert (w = (RateLimitMiddleware n w0).1) as -> by (by rewrite E). apply lookup_insert_eq.
Qed.

(** A connection's messages all reach their handlers.  For a stream of
    framed messages, which may end inside a header, the loop of [serve] starts
    for each message in order the goroutine of its handler, wrapped in the
    middlewares, when there is one; counts each message; and then returns,
    closes the connection and counts no error. *)
Theorem serve_starts_handlers {A} net_ok c ms cut (s : Server A) :
  Forall framed ms -> len cut < 20 -> stream_of c s (concat ms ++ cut) ->
  crashed s = false -> c ∈ serving s ->
  let s' := run net_ok (repeat (EvServe c false) (S (length ms))) s in
  tasks s' = tasks s ++ omap (started s c) (map split_message ms) /\
  serving s' = filter (fun c' => c' <> c) (serving s) /\
  Errors (stats (world s')) = Errors (stats (world s)) /\
  to_u64 (MessagesReceived (stats (world s'))) =
    to_u64 (MessagesReceived (stats (world s)) + len ms) /\
  exists l, links (world s') !! c = Some l /\ rwc_closed l = true.
Proof. apply serve_all. Qed.
