(* ===== verification/ClientConn.v ===== *)
(** * One connection of the client ([client/connection.go], [state.go], [config.go])

    A [Connection] is shared by its goroutines: the caller of [Start], the
    reconnect loop, one read loop per socket, the write loop, the watchdog,
    the waiters for a DWA and the health monitor.  A step is what one of them
    does between two points where it can wait; [connect] has such points while
    it dials, while it sends the CER and while it waits for the CEA ([pc]).
    A socket is named by the generation under which it was installed.  What
    the environment decides is an argument: the outcome of a dial (the local
    IP of the socket), of a write or of a read, elapsed times, random delays,
    and the choice of a [select] between ready cases ([pick]).  A goroutine
    blocked on a full [sendCh] has no step until there is room. *)

From Stdlib Require Import Floats.SpecFloat.
From S2P Require Import Prelude Binary DataTypes Wire Message BaseMessages Framing GoNet.

(** ** States ([state.go]) *)

Inductive ConnectionState : Type :=
| StateDisconnected
| StateConnecting
| StateCERSent
| StateOpen
| StateDWRSent
| StateFailed
| StateReconnecting
| StateClosed.

#[export] Instance ConnectionState_eq_dec : EqDecision ConnectionState.
Proof. solve_decision. Defined.

Definition state_IsActive (s : ConnectionState) : bool :=
  match s with StateOpen | StateDWRSent => true | _ => false end.

Definition CanReconnect (s : ConnectionState) : bool :=
  match s with StateFailed | StateDisconnected => true | _ => false end.

(** ** Configuration ([config.go]) *)

(** [time.Duration]s are nanoseconds; [AcquireLocalAddr] tells whether a port
    source is wired in. *)
Record DRAConfig := {
  Host : bytes;
  Port : Z;
  LocalAddr : bytes;
  LocalPortMin : Z;
  LocalPortMax : Z;
  cfg_OriginHost : bytes;
  cfg_OriginRealm : bytes;
  cfg_ProductName : bytes;
  cfg_VendorID : Z;
  ConnectionCount : Z;
  ConnectTimeout : Z;
  cfg_CERTimeout : Z;
  DWRInterval : Z;
  DWRTimeout : Z;
  MaxDWRFailures : Z;
  ReconnectInterval : Z;
  MaxReconnectDelay : Z;
  ReconnectBackoff : spec_float;
  SendBufferSize : Z;
  RecvBufferSize : Z;
  AuthAppIDs : list Z;
  AcctAppIDs : list Z;
  AcquireLocalAddr : bool }.

Definition one_second : Z := 1000000000.

(** [DefaultConfig]: 1.5 is [3 * 2^51 * 2^-52]. *)
Definition DefaultConfig : DRAConfig :=
  {| Host := []; Port := 3868; LocalAddr := []; LocalPortMin := 0; LocalPortMax := 0;
     cfg_OriginHost := []; cfg_OriginRealm := []; cfg_ProductName := gostr "Diameter-GW-S13";
     cfg_VendorID := 10415; ConnectionCount := 5; ConnectTimeout := 10 * one_second;
     cfg_CERTimeout := 5 * one_second; DWRInterval := 30 * one_second; DWRTimeout := 10 * one_second;
     MaxDWRFailures := 3; ReconnectInterval := 5 * one_second; MaxReconnectDelay := 300 * one_second;
     ReconnectBackoff := S754_finite false 6755399441055744 (-52); SendBufferSize := 1000;
     RecvBufferSize := 1000; AuthAppIDs := []; AcctAppIDs := []; AcquireLocalAddr := false |}.

(** [net.ParseIP(s) != nil]. *)
Definition valid_ip (s : bytes) : bool := negb (len (ParseIP s) =? 0).

(** [Validate]: the field of the [ErrInvalidConfig] it returns, if any. *)
Definition Validate (c : DRAConfig) : option bytes :=
  if len (Host c) =? 0 then Some (gostr "Host")
  else if (Port c <=? 0) || (65535 <? Port c) then Some (gostr "Port")
  else if len (cfg_OriginHost c) =? 0 then Some (gostr "OriginHost")
  else if len (cfg_OriginRealm c) =? 0 then Some (gostr "OriginRealm")
  else if len (cfg_ProductName c) =? 0 then Some (gostr "ProductName")
  else if ConnectionCount c <=? 0 then Some (gostr "ConnectionCount")
  else if DWRInterval c <=? 0 then Some (gostr "DWRInterval")
  else if DWRTimeout c <=? 0 then Some (gostr "DWRTimeout")
  else if DWRInterval c <=? DWRTimeout c then Some (gostr "DWRTimeout")
  else if MaxDWRFailures c <=? 0 then Some (gostr "MaxDWRFailures")
  else if negb (len (LocalAddr c) =? 0) && negb (valid_ip (LocalAddr c)) then Some (gostr "LocalAddr")
  else if negb (LocalPortMin c =? 0) || negb (LocalPortMax c =? 0) then
    if (LocalPortMin c <=? 0) || (LocalPortMax c <=? 0) then Some (gostr "LocalPortMin/Max")
    else if LocalPortMax c <? LocalPortMin c then Some (gostr "LocalPortMin")
    else if 65535 <? LocalPortMax c then Some (gostr "LocalPortMax")
    else None
  else None.

(** ** Backoff *)

(** Conversions between [int64] and [float64]; a value out of range becomes
    the least [int64], as on amd64. *)
Definition float64 (v : Z) : spec_float := binary_normalize 53 1024 v 0 false.

Definition int64_of (f : spec_float) : Z :=
  match f with
  | S754_zero _ => 0
  | S754_finite s m e =>
      let n := if 0 <=? e then Z.pos m * 2 ^ e else Z.pos m / 2 ^ (- e) in
      let v := if s then - n else n in
      if (- 2 ^ 63 <=? v) && (v <? 2 ^ 63) then v else - 2 ^ 63
  | _ => - 2 ^ 63
  end.

Definition initial_delay (c : DRAConfig) : Z :=
  if ReconnectInterval c <=? 0 then one_second else ReconnectInterval c.

Definition max_delay (c : DRAConfig) : Z :=
  if MaxReconnectDelay c <=? 0 then initial_delay c else MaxReconnectDelay c.

Definition backoff (c : DRAConfig) : spec_float :=
  if SFltb (ReconnectBackoff c) (float64 1) then float64 1 else ReconnectBackoff c.

(** The ceiling after one more failed attempt. *)
Definition next_ceiling (c : DRAConfig) (ceiling : Z) : Z :=
  let next := int64_of (SFmul 53 1024 (float64 ceiling) (backoff c)) in
  if (max_delay c <? next) || (next <=? 0) then max_delay c else next.

(** [rand.Int63n(int64(ceiling) + 1)] is one of these, or panics. *)
Definition delay_ok (ceiling delay : Z) : Prop := 0 <= delay < to_i64 (ceiling + 1).

(** ** The port source that a connection may be wired to *)

(** [E] is what the environment contributes to a call (the clock). *)
Class PortSource (E P : Type) := {
  acquire : E -> bytes -> P -> P * option Z;
  release : E -> Z -> P -> P;
  held : P -> gset Z;
  bounds : P -> Z -> bool; (* what it may ever hand out *)
  good : P -> Prop }.

Class PortSourceLaws (E P : Type) `{PortSource E P} := {
  acquire_good e o p : good p -> good (acquire e o p).1;
  release_good e a p : good p -> good (release e a p);
  acquire_bounds e o p : bounds (acquire e o p).1 = bounds p;
  release_bounds e a p : bounds (release e a p) = bounds p;
  held_bounds a p : good p -> a ∈ held p -> bounds p a = true;
  acquire_held e o p : good p ->
    match acquire e o p with
    | (p', Some a) => (a ∉ held p) /\ held p' = {[ a ]} ∪ held p
    | (p', None) => held p' = held p
    end;
  release_held e a p : good p -> held (release e a p) = held p ∖ {[ a ]} }.

(** ** The connection *)

(** Where a goroutine that runs [connect] is: dialling with an acquired
    address, sending the CER with an identifier, waiting for its CEA; for the
    reconnect loop also waiting out its delay. *)
Inductive pc : Type :=
| PIdle
| PDial (localAddr : option Z)
| PEnqueue (hopByHopID : Z) (cerData : bytes)
| PWait (hopByHopID : Z)
| PDelay.

Inductive who : Type := Starter | Reconnector.

Section Connection.
Context {E P : Type} `{PortSource E P}.

(** [conn] and the read loops name sockets by generation.  [pending] maps an
    identifier to its response channel, of capacity one.  [ports] is the port
    source, [written] what the write loop wrote, [onFailures] the number of
    calls of the failure callback. *)
Record Connection := {
  id : bytes;
  config : DRAConfig;
  conn : option Z;
  boundLocalAddr : option Z;
  state : ConnectionState;
  hopByHopID : Z;
  endToEndID : Z;
  dwrFailureCount : Z;
  dwrTicker : bool;
  sendCh : list bytes;
  recvCh : list Message;
  chans_closed : bool;
  pending : gmap Z (option bytes);
  ctx_done : bool;
  closing : bool; (* [Close] was called *)
  reconnectDisabled : bool;
  connGeneration : Z;
  reconnecting : bool;
  reconnectRequested : bool;
  MessagesSent : Z;
  BytesSent : Z;
  MessagesReceived : Z;
  BytesReceived : Z;
  Reconnects : Z;
  ReconnectAttempts : Z;
  ReconnectSuccesses : Z;
  ReconnectFailures : Z;
  Drops : Z;
  readLoops : list Z;
  watchdog : bool;
  healthLoop : bool;
  dwrWaiters : list (Z * Z); (* generation, identifier *)
  starter : pc;
  reconnector : pc;
  ceiling : Z;
  ports : P;
  written : list bytes;
  onFailures : Z }.

Definition NewConnection (id : bytes) (config : DRAConfig) (ports : P) : Connection :=
  {| id := id; config := config; conn := None; boundLocalAddr := None; state := StateDisconnected;
     hopByHopID := 0; endToEndID := 0; dwrFailureCount := 0; dwrTicker := false; sendCh := [];
     recvCh := []; chans_closed := false; pending := ∅; ctx_done := false; closing := false;
     reconnectDisabled := false; connGeneration := 0; reconnecting := false;
     reconnectRequested := false; MessagesSent := 0; BytesSent := 0; MessagesReceived := 0;
     BytesReceived := 0; Reconnects := 0; ReconnectAttempts := 0; ReconnectSuccesses := 0;
     ReconnectFailures := 0; Drops := 0; readLoops := []; watchdog := false; healthLoop := false;
     dwrWaiters := []; starter := PIdle; reconnector := PIdle; ceiling := 0; ports := ports;
     written := []; onFailures := 0 |}.

Definition DisableReconnect (c : Connection) : Connection := c <| reconnectDisabled := true |>.

Definition setState (s : ConnectionState) (c : Connection) : Connection :=
  if decide (state c = s) then c else c <| state := s |>.

Definition IsActive (c : Connection) : bool := state_IsActive (state c).

Definition nextHopByHopID (c : Connection) : Connection * Z :=
  let n := to_u32 (hopByHopID c + 1) in (c <| hopByHopID := n |>, n).
Definition nextEndToEndID (c : Connection) : Connection * Z :=
  let n := to_u32 (endToEndID c + 1) in (c <| endToEndID := n |>, n).

Definition registerPending (h : Z) (c : Connection) : Connection := c <| pending ::= <[h := None]> |>.
Definition unregisterPending (h : Z) (c : Connection) : Connection := c <| pending ::= delete h |>.

Definition isCurrentGeneration (g : Z) (c : Connection) : bool := connGeneration c =? g.

(** ** Channels *)

Definition send_room (c : Connection) : bool := len (sendCh c) <? SendBufferSize (config c).
Definition recv_room (c : Connection) : bool := len (recvCh c) <? RecvBufferSize (config c).

Inductive sent : Type := SentOk | SentCtx | SentFull | SentBlocked.

(** [select] of a send on [sendCh] against [ctx.Done()], with a [default] or
    without: [pick] chooses the send when both are ready; a send on the
    closed channel is always ready, and panics. *)
Definition select_send (pick has_default : bool) (data : bytes) (c : Connection)
  : outcome unit (Connection * sent) :=
  let ready := chans_closed c || send_room c in
  if ready && (pick || negb (ctx_done c)) then
    if chans_closed c then Panic else Ok (c <| sendCh ::= fun l => l ++ [data] |>, SentOk)
  else if ctx_done c then Ok (c, SentCtx)
  else if has_default then Ok (c, SentFull)
  else Ok (c, SentBlocked).

Definition select_recv (pick : bool) (m : Message) (c : Connection) : outcome unit Connection :=
  let ready := chans_closed c || recv_room c in
  if ready && (pick || negb (ctx_done c)) then
    if chans_closed c then Panic else Ok (c <| recvCh ::= fun l => l ++ [m] |>)
  else Ok c.

Inductive send_error : Type := ErrConnectionClosed | ErrContext | ErrSendBufferFull.

Definition Send (pick : bool) (data : bytes) (c : Connection)
  : outcome unit (Connection * option send_error) :=
  if negb (IsActive c) then Ok (c, Some ErrConnectionClosed)
  else
    match select_send pick true data c with
    | Ok (c, SentOk) => Ok (c, None)
    | Ok (c, SentCtx) => Ok (c, Some ErrContext)
    | Ok (c, _) => Ok (c, Some ErrSendBufferFull)
    | Err e => Err e
    | Panic => Panic
    end.

(** [SendWithContext]: [caller_done] tells whether the context of the call is
    done, [pick] which ready case is taken. *)
Inductive ctx_pick : Type := PickSend | PickCaller | PickConn.

Definition SendWithContext (pick : ctx_pick) (caller_done : bool) (data : bytes) (c : Connection)
  : outcome unit (Connection * option send_error) :=
  if negb (IsActive c) then Ok (c, Some ErrConnectionClosed)
  else
    let ready := chans_closed c || send_room c in
    let send := if chans_closed c then Panic
                else Ok (c <| sendCh ::= fun l => l ++ [data] |>, None) in
    match ready, caller_done, ctx_done c with
    | false, false, false => Ok (c, Some ErrSendBufferFull)
    | false, _, _ => Ok (c, Some ErrContext)
    | true, false, false => send
    | true, _, _ => match pick with PickSend => send | _ => Ok (c, Some ErrContext) end
    end.

(** ** Failure and reconnection *)

Definition startWatchdog (c : Connection) : Connection :=
  if dwrTicker c then c else c <| dwrTicker := true |> <| watchdog := true |>.

Definition stopWatchdog (c : Connection) : Connection :=
  if dwrTicker c then c <| dwrTicker := false |> <| watchdog := false |> else c.

Definition release_addr (e : E) (a : option Z) (c : Connection) : Connection :=
  match a with
  | Some a => if AcquireLocalAddr (config c) then c <| ports ::= release e a |> else c
  | None => c
  end.

Definition close (e : E) (c : Connection) : Connection :=
  let c := stopWatchdog c in
  let c := match conn c with
           | Some _ => c <| conn := None |> <| connGeneration ::= fun g => to_u64 (g + 1) |>
           | None => c
           end in
  let bound := boundLocalAddr c in
  release_addr e bound (c <| boundLocalAddr := None |>).

(** [go c.reconnect()]: the new goroutine counts itself and waits out its
    first delay. *)
Definition scheduleReconnect (c : Connection) : Connection :=
  if reconnecting c then c <| reconnectRequested := true |>
  else c <| reconnecting := true |> <| reconnector := PDelay |>
         <| ceiling := initial_delay (config c) |>
         <| Reconnects ::= fun n => to_u32 (n + 1) |>.

Definition handleFailure (e : E) (c : Connection) : Connection :=
  let s := state c in
  if ctx_done c || bool_decide (s = StateClosed) then c
  else
    let hasConn := bool_decide (conn c <> None) in
    if negb hasConn && bool_decide (s = StateFailed \/ s = StateReconnecting) then c
    else
      let reconnectEnabled := negb (reconnectDisabled c) in
      let c := close e (setState StateFailed c) in
      let c := c <| onFailures ::= fun n => n + 1 |> in
      if reconnectEnabled then scheduleReconnect c else c.

Definition finishReconnect (success : bool) (c : Connection) : Connection * bool :=
  if negb success || (IsActive c && negb (reconnectRequested c))
  then (c <| reconnecting := false |> <| reconnectRequested := false |>, true)
  else (c <| reconnectRequested := false |>, false).

(** ** [connect], between its waiting points *)

Inductive progress : Type := Continue (p : pc) | Failed | Connected.

(** Up to the dial. *)
Definition connect_begin (e : E) (c : Connection) : Connection * progress :=
  let c := setState StateConnecting c in
  if AcquireLocalAddr (config c) then
    match acquire e (id c) (ports c) with
    | (ps, Some la) => (c <| ports := ps |>, Continue (PDial (Some la)))
    | (ps, None) => (setState StateFailed (c <| ports := ps |>), Failed)
    end
  else (c, Continue (PDial None)).

Definition S13_APPLICATION_ID : Z := 16777252.

Definition build_CER (cfg : DRAConfig) (localIP : option bytes) (h ee : Z)
  : CapabilitiesExchangeRequest.t :=
  CapabilitiesExchangeRequest.New
    <| CapabilitiesExchangeRequest.OriginHost := cfg_OriginHost cfg |>
    <| CapabilitiesExchangeRequest.OriginRealm := cfg_OriginRealm cfg |>
    <| CapabilitiesExchangeRequest.ProductName := cfg_ProductName cfg |>
    <| CapabilitiesExchangeRequest.VendorId := cfg_VendorID cfg |>
    <| CapabilitiesExchangeRequest.HostIpAddress :=
         match localIP with Some ip => [ip] | None => [] end |>
    <| CapabilitiesExchangeRequest.AuthApplicationId :=
         if 0 <? len (AuthAppIDs cfg) then AuthAppIDs cfg else [S13_APPLICATION_ID] |>
    <| CapabilitiesExchangeRequest.AcctApplicationId :=
         if 0 <? len (AcctAppIDs cfg) then AcctAppIDs cfg else [] |>
    <| CapabilitiesExchangeRequest.Header ::=
         fun hd => hd <| HopByHopID := h |> <| EndToEndID := ee |> |>.

(** The error return of [connect] once the socket is installed. *)
Definition handshake_failed (e : E) (c : Connection) : Connection * progress :=
  (setState StateFailed (close e c), Failed).

(** The result of the dial: [None] is an error, [Some ip] a socket with this
    local address ([None] when it is not a TCP address).  Then
    [performHandshake] up to the CER. *)
Definition dial_result (e : E) (la : option Z) (dialled : option (option bytes)) (c : Connection)
  : Connection * progress :=
  match dialled with
  | None => (setState StateFailed (release_addr e la c), Failed)
  | Some localIP =>
      let generation := to_u64 (connGeneration c + 1) in
      let c := c <| conn := Some generation |> <| boundLocalAddr := la |>
                 <| connGeneration := generation |> <| readLoops ::= fun l => l ++ [generation] |> in
      let '(c, h) := nextHopByHopID c in
      let '(c, ee) := nextEndToEndID c in
      match (CapabilitiesExchangeRequest.Marshal (build_CER (config c) localIP h ee)).2 with
      | Ok cerData => (setState StateCERSent (registerPending h c), Continue (PEnqueue h cerData))
      | _ => handshake_failed e c
      end
  end.

(** The [select] that sends the CER. *)
Definition enqueue_CER (e : E) (pick : bool) (h : Z) (cerData : bytes) (c : Connection)
  : outcome unit (Connection * progress) :=
  match select_send pick false cerData c with
  | Ok (c, SentOk) => Ok (c, Continue (PWait h))
  | Ok (c, SentBlocked) => Ok (c, Continue (PEnqueue h cerData))
  | Ok (c, _) => Ok (handshake_failed e (unregisterPending h c))
  | Err e => Err e
  | Panic => Panic
  end.

Definition IsSuccess (resultCode : Z) : bool := (2000 <=? resultCode) && (resultCode <? 3000).

(** [true]: no error. *)
Definition handleCEA (data : bytes) : bool :=
  match CapabilitiesExchangeAnswer.Unmarshal data CapabilitiesExchangeAnswer.zero with
  | (cea, Ok _) => IsSuccess (CapabilitiesExchangeAnswer.ResultCode cea)
  | _ => false
  end.

Inductive wait_end : Type := GotCEA | CERTimeout | CtxDone.

(** The [select] that waits for the CEA ends; the deferred
    [unregisterPending] runs. *)
Definition CEA_result (e : E) (w : wait_end) (h : Z) (c : Connection) : Connection * progress :=
  let ok := match w, pending c !! h with
            | GotCEA, Some (Some data) => handleCEA data
            | _, _ => false
            end in
  let c := unregisterPending h c in
  if ok then (startWatchdog ((setState StateOpen c) <| dwrFailureCount := 0 |>), Connected)
  else handshake_failed e c.

(** What the caller of [connect] does with its result: [Start], and the loop
    of [reconnect]. *)
Definition resume (e : E) (w : who) (r : Connection * progress) : Connection :=
  match w, r with
  | Starter, (c, Continue p) => c <| starter := p |>
  | Starter, (c, Failed) => handleFailure e (c <| starter := PIdle |>)
  | Starter, (c, Connected) => c <| starter := PIdle |>
  | Reconnector, (c, Continue p) => c <| reconnector := p |>
  | Reconnector, (c, Failed) =>
      c <| reconnector := PDelay |> <| ceiling ::= next_ceiling (config c) |>
        <| ReconnectFailures ::= fun n => to_u64 (n + 1) |>
  | Reconnector, (c, Connected) =>
      match finishReconnect true (c <| ReconnectSuccesses ::= fun n => to_u64 (n + 1) |>) with
      | (c, true) => c <| reconnector := PIdle |>
      | (c, false) => c <| reconnector := PDelay |> <| ceiling := initial_delay (config c) |>
                        <| Reconnects ::= fun n => to_u32 (n + 1) |>
      end
  end.

Definition pc_of (w : who) (c : Connection) : pc :=
  match w with Starter => starter c | Reconnector => reconnector c end.

(** The delay of the reconnect loop ends: [pick] chooses the timer when the
    context is cancelled too. *)
Definition delay_end (e : E) (pick : bool) (c : Connection) : Connection :=
  if ctx_done c && negb pick then (finishReconnect false c).1 <| reconnector := PIdle |>
  else
    let c := setState StateReconnecting (c <| ReconnectAttempts ::= fun n => to_u64 (n + 1) |>) in
    resume e Reconnector (connect_begin e c).

(** [Start]: the write loop and the health monitor, then [connect]. *)
Definition Start (e : E) (c : Connection) : Connection :=
  resume e Starter (connect_begin e (c <| healthLoop := true |>)).

(** ** Watchdog *)

Definition build_DWR (cfg : DRAConfig) (h ee : Z) : DeviceWatchdogRequest.t :=
  DeviceWatchdogRequest.New
    <| DeviceWatchdogRequest.OriginHost := cfg_OriginHost cfg |>
    <| DeviceWatchdogRequest.OriginRealm := cfg_OriginRealm cfg |>
    <| DeviceWatchdogRequest.Header ::= fun hd => hd <| HopByHopID := h |> <| EndToEndID := ee |> |>.

(** A tick: [sendDWR], and on its error [handleFailure] and the end of the
    watchdog's goroutine. *)
Definition tick (e : E) (pick : bool) (c : Connection) : outcome unit Connection :=
  if negb (IsActive c) then Ok (handleFailure e (c <| watchdog := false |>))
  else
    let generation := connGeneration c in
    let '(c, h) := nextHopByHopID c in
    let '(c, ee) := nextEndToEndID c in
    match (DeviceWatchdogRequest.Marshal (build_DWR (config c) h ee)).2 with
    | Ok dwrData =>
        match select_send pick false dwrData (setState StateDWRSent (registerPending h c)) with
        | Ok (c, SentOk) => Ok (c <| dwrWaiters ::= fun l => l ++ [(generation, h)] |>)
        | Ok (c, _) => Ok (handleFailure e ((unregisterPending h c) <| watchdog := false |>))
        | Err e => Err e
        | Panic => Panic
        end
    | _ => Ok (handleFailure e (c <| watchdog := false |>))
    end.

Definition handleDWRFailure (e : E) (c : Connection) : Connection :=
  let c := c <| dwrFailureCount ::= fun n => to_i32 (n + 1) |> in
  if MaxDWRFailures (config c) <=? dwrFailureCount c then handleFailure e c else c.

Definition handleDWA (data : bytes) (c : Connection) : Connection * bool :=
  match DeviceWatchdogAnswer.Unmarshal data DeviceWatchdogAnswer.zero with
  | (dwa, Ok _) =>
      if IsSuccess (DeviceWatchdogAnswer.ResultCode dwa)
      then ((setState StateOpen c) <| dwrFailureCount := 0 |>, true)
      else (c, false)
  | _ => (c, false)
  end.

Inductive dwa_end : Type := GotDWA | DWATimeout | DWACtxDone.

(** A waiter for a DWA ends. *)
Definition DWA_result (e : E) (w : dwa_end) (generation h : Z) (c : Connection) : Connection :=
  let answer := pending c !! h in
  let c := c <| dwrWaiters ::= List.filter (fun gh => negb (bool_decide (gh = (generation, h)))) |> in
  unregisterPending h
    (match w, answer with
     | GotDWA, Some (Some data) =>
         if isCurrentGeneration generation c then
           match handleDWA data c with
           | (c, true) => c
           | (c, false) => handleDWRFailure e c
           end
         else c
     | DWATimeout, _ => if isCurrentGeneration generation c then handleDWRFailure e c else c
     | _, _ => c
     end).

(** A tick of the health monitor, [elapsed] since the last DWR failure. *)
Definition health_tick (e : E) (elapsed : Z) (c : Connection) : Connection :=
  if bool_decide (state c = StateDWRSent) && (MaxDWRFailures (config c) <=? dwrFailureCount c)
     && (DWRTimeout (config c) <? elapsed)
  then (handleFailure e c) <| healthLoop := false |>
  else c.

(** ** Received messages *)

Definition build_DWA (cfg : DRAConfig) (dwr : DeviceWatchdogRequest.t) : DeviceWatchdogAnswer.t :=
  let h := DeviceWatchdogRequest.Header dwr in
  DeviceWatchdogAnswer.New
    <| DeviceWatchdogAnswer.OriginHost := cfg_OriginHost cfg |>
    <| DeviceWatchdogAnswer.OriginRealm := cfg_OriginRealm cfg |>
    <| DeviceWatchdogAnswer.ResultCode := 2001 |>
    <| DeviceWatchdogAnswer.Header ::=
         fun hd => hd <| HopByHopID := HopByHopID h |> <| EndToEndID := EndToEndID h |> |>.

(** Its errors are only logged. *)
Definition handleDWR (pick : bool) (m : Message) (c : Connection) : outcome unit Connection :=
  match DeviceWatchdogRequest.Unmarshal (msg_Header m ++ msg_Body m) DeviceWatchdogRequest.zero with
  | (dwr, Ok _) =>
      match (DeviceWatchdogAnswer.Marshal (build_DWA (config c) dwr)).2 with
      | Ok dwaData =>
          match select_send pick false dwaData c with
          | Ok (c, _) => Ok c
          | Err e => Err e
          | Panic => Panic
          end
      | _ => Ok c
      end
  | _ => Ok c
  end.

Definition deliverResponse (h : Z) (m : Message) (c : Connection) : Connection :=
  match pending c !! h with
  | Some None => c <| pending ::= <[h := Some (msg_Header m ++ msg_Body m)]> |>
  | _ => c
  end.

Definition dispatchMessage (pick : bool) (m : Message) (c : Connection) : outcome unit Connection :=
  match ParseMessageHeader (msg_Header m) with
  | Ok info =>
      if IsBaseProtocol info && (mi_CommandCode info =? 257) && negb (IsRequest info) then
        Ok (deliverResponse (mi_HopByHopID info) m c)
      else if IsBaseProtocol info && (mi_CommandCode info =? 280) then
        if IsRequest info then handleDWR pick m c
        else Ok (deliverResponse (mi_HopByHopID info) m c)
      else select_recv pick m c
  | _ => Ok c
  end.

(** A read loop gets a message ([None]: its read fails, or it sees the
    cancelled context). *)
Definition read_loop (e : E) (pick : bool) (generation : Z) (read : option Message) (c : Connection)
  : outcome unit Connection :=
  let leave c := c <| readLoops ::= List.filter (fun g => negb (g =? generation)) |> in
  match read with
  | None =>
      if negb (ctx_done c) && isCurrentGeneration generation c then Ok (leave (handleFailure e c))
      else Ok (leave c)
  | Some m =>
      if negb (isCurrentGeneration generation c) then Ok (leave c)
      else
        dispatchMessage pick m
          (c <| MessagesReceived ::= fun n => to_u64 (n + 1) |>
             <| BytesReceived ::= fun n => to_u64 (n + msg_Length m) |>)
  end.

(** ** Writing *)

(** The write loop takes a message; [ok] tells whether the write succeeds. *)
Definition write_loop (e : E) (ok : bool) (c : Connection) : Connection :=
  match sendCh c with
  | [] => c
  | data :: rest =>
      let c := c <| sendCh := rest |> in
      match conn c with
      | None => c <| Drops ::= fun n => to_u64 (n + 1) |>
      | Some _ =>
          if ok then
            c <| written ::= fun l => l ++ [data] |>
              <| MessagesSent ::= fun n => to_u64 (n + 1) |>
              <| BytesSent ::= fun n => to_u64 (n + len data) |>
          else if ctx_done c then c else handleFailure e c
      end
  end.

(** ** Closing *)

(** [Close] up to [wg.Wait()], and after it. *)
Definition Close_begin (e : E) (c : Connection) : Connection :=
  let c := setState StateClosed c in
  let c := c <| ctx_done := true |> <| closing := true |> in
  (finishReconnect false (close e c)).1.

Definition Close_end (c : Connection) : Connection :=
  c <| chans_closed := true |> <| watchdog := false |> <| healthLoop := false |>.

(** ** Steps *)

Inductive event : Type :=
| EStart (e : E)
| EDial (e : E) (w : who) (dialled : option (option bytes))
| EEnqueue (e : E) (w : who) (pick : bool)
| EWait (e : E) (w : who) (r : wait_end)
| EDelay (e : E) (pick : bool) (delay : Z)
| ETick (e : E) (pick : bool)
| EDWA (e : E) (r : dwa_end) (generation h : Z)
| EHealth (e : E) (elapsed : Z)
| ERead (e : E) (pick : bool) (generation : Z) (read : option Message)
| EWrite (e : E) (ok : bool)
| ESend (pick : bool) (data : bytes)
| EDisableReconnect
| ECancel
| EClose (e : E)
| ECloseEnd.

Definition set_pc (w : who) (p : pc) (c : Connection) : Connection :=
  match w with Starter => c <| starter := p |> | Reconnector => c <| reconnector := p |> end.

(** A goroutine that blocks on [sendCh] without a [default] has no step. *)
Definition can_send (c : Connection) : Prop :=
  chans_closed c = true \/ send_room c = true \/ ctx_done c = true.

Definition is_DWR (m : Message) : bool :=
  match ParseMessageHeader (msg_Header m) with
  | Ok info => IsBaseProtocol info && (mi_CommandCode info =? 280) && IsRequest info
  | _ => false
  end.

(** [Start] is called once, and so is [Close]. *)
Definition enabled (ev : event) (c : Connection) : Prop :=
  match ev with
  | EStart _ => state c = StateDisconnected /\ starter c = PIdle
  | EDial _ w _ => exists la, pc_of w c = PDial la
  | EEnqueue _ w _ => exists h data, pc_of w c = PEnqueue h data
  | EWait _ w r => exists h, pc_of w c = PWait h /\
      match r with
      | GotCEA => exists data, pending c !! h = Some (Some data)
      | CERTimeout => True
      | CtxDone => ctx_done c = true
      end
  | EDelay _ _ delay => reconnector c = PDelay /\ (delay_ok (ceiling c) delay \/ ctx_done c = true)
  | ETick _ _ => watchdog c = true /\ can_send c
  | EDWA _ r g h => (g, h) ∈ dwrWaiters c /\
      match r with
      | GotDWA => exists data, pending c !! h = Some (Some data)
      | DWATimeout => True
      | DWACtxDone => ctx_done c = true
      end
  | EHealth _ _ => healthLoop c = true
  | ERead _ _ g r => g ∈ readLoops c /\
      match r with Some m => is_DWR m = true -> can_send c | None => True end
  | EWrite _ _ => sendCh c <> []
  | ESend _ _ | EDisableReconnect | ECancel => True
  | EClose _ => closing c = false
  | ECloseEnd => closing c = true /\ readLoops c = [] /\ chans_closed c = false
  end.

(** The step of a goroutine in [connect]: its place is taken, and [resume]
    gives it the next one. *)
Definition step (ev : event) (c : Connection) : outcome unit Connection :=
  match ev with
  | EStart e => Ok (Start e c)
  | EDial e w d =>
      match pc_of w c with
      | PDial la => Ok (resume e w (dial_result e la d (set_pc w PIdle c)))
      | _ => Ok c
      end
  | EEnqueue e w pick =>
      match pc_of w c with
      | PEnqueue h data =>
          match enqueue_CER e pick h data (set_pc w PIdle c) with
          | Ok r => Ok (resume e w r)
          | Err er => Err er
          | Panic => Panic
          end
      | _ => Ok c
      end
  | EWait e w r =>
      match pc_of w c with
      | PWait h => Ok (resume e w (CEA_result e r h (set_pc w PIdle c)))
      | _ => Ok c
      end
  | EDelay e pick _ => Ok (delay_end e pick c)
  | ETick e pick => tick e pick c
  | EDWA e r g h => Ok (DWA_result e r g h c)
  | EHealth e elapsed => Ok (health_tick e elapsed c)
  | ERead e pick g r => read_loop e pick g r c
  | EWrite e ok => Ok (write_loop e ok c)
  | ESend pick data =>
      match Send pick data c with
      | Ok (c, _) => Ok c
      | Err er => Err er
      | Panic => Panic
      end
  | EDisableReconnect => Ok (DisableReconnect c)
  | ECancel => Ok (c <| ctx_done := true |>)
  | EClose e => Ok (Close_begin e c)
  | ECloseEnd => Ok (Close_end c)
  end.

Inductive run : Connection -> list event -> Connection -> Prop :=
| run_nil c : run c [] c
| run_cons c ev c1 evs c2 :
    enabled ev c -> step ev c = Ok c1 -> run c1 evs c2 -> run c (ev :: evs) c2.

End Connection.

Arguments Connection P : clear implicits.
Arguments event E : clear implicits.
