(* ===== verification/ClientTheorems.v ===== *)
(** * Properties of the client connection

    Runs of [ClientConn]: what happens to the addresses of the port source. *)

From Stdlib Require Import Floats.SpecFloat.
From S2P Require Import Prelude Binary DataTypes Wire Message BaseMessages Framing ClientConn.

Section Properties.
Context {E P : Type} {PS : PortSource E P} {PL : PortSourceLaws E P}.
Abbreviation conn_t := (Connection P).
Abbreviation event_t := (ClientConn.event E).

(** ** Addresses *)

Definition addr (p : pc) : list Z := match p with PDial (Some a) => [a] | _ => [] end.

Definition own (c : conn_t) : list Z :=
  addr (starter c) ++ addr (reconnector c) ++
  match boundLocalAddr c with Some a => [a] | None => [] end.

Section Addresses.
Context (B : Z -> bool).

(** The addresses [hand] and those of the connection are distinct, held by the
    source, and none of those that others hold ([H0]), which stay held; [B] are
    the addresses that the source may hand out. *)
Record addr_inv (H0 : gset Z) (hand : list Z) (c : conn_t) : Prop := {
  ai_good : good (ports c);
  ai_bounds : bounds (ports c) = B;
  ai_nodup : NoDup (hand ++ own c);
  ai_held a : a ∈ hand ++ own c -> a ∈ held (ports c) /\ (a ∉ H0);
  ai_others : H0 ⊆ held (ports c) }.

Lemma NoDup_mono {A} (l k : list A) : l ⊆+ k -> NoDup k -> NoDup l.
Proof. intros [l' ->]%submseteq_Permutation (Hl & _ & _)%NoDup_app. done. Qed.

Lemma addr_inv_weaken H0 hand hand' c c' :
  addr_inv H0 hand c -> ports c' = ports c -> (hand' ++ own c') ⊆+ (hand ++ own c) ->
  addr_inv H0 hand' c'.
Proof.
  intros [Hg Hb Hn Hh Ho] Hp Hs. split; rewrite ?Hp; try done.
  - by eapply NoDup_mono.
  - intros a Ha. apply Hh. by eapply elem_of_submseteq.
Qed.

(** Steps that do not touch addresses. *)
Lemma addr_inv_same H0 hand c c' :
  addr_inv H0 hand c -> ports c' = ports c -> own c' = own c -> addr_inv H0 hand c'.
Proof. intros Hi Hp Ho. eapply addr_inv_weaken; [done..|]. by rewrite Ho. Qed.

Lemma release_inv H0 e a hand c :
  addr_inv H0 (a :: hand) c -> addr_inv H0 hand (release_addr e (Some a) c).
Proof.
  intros [Hg HB Hn Hh Ho]. unfold release_addr. cbn [app] in Hn, Hh.
  apply NoDup_cons in Hn as [Ha Hn].
  destruct (AcquireLocalAddr (config c)).
  - split; rsimpl; change (own (c <| ports ::= _ |>)) with (own c).
    + by apply release_good.
    + by rewrite release_bounds.
    + done.
    + intros b Hb. rewrite release_held by done.
      destruct (Hh b) as [H1 H2]; [set_solver|]. split; [|done].
      apply elem_of_difference. split; [done|]. rewrite elem_of_singleton. by intros ->.
    + rewrite release_held by done. destruct (Hh a) as [_ H2]; [set_solver|]. set_solver.
  - split; [done..| |done]. intros b Hb. apply Hh. set_solver.
Qed.

(** [fields c c']: nothing that [addr_inv] looks at changed. *)
Definition same_addr (c c' : conn_t) : Prop :=
  ports c' = ports c /\ boundLocalAddr c' = boundLocalAddr c /\ starter c' = starter c /\
  reconnector c' = reconnector c.

Lemma same_addr_inv H0 hand c c' : same_addr c c' -> addr_inv H0 hand c -> addr_inv H0 hand c'.
Proof.
  intros (Hp & Hb & Hs & Hr) Hi. apply (addr_inv_same H0 hand c); [done..|].
  unfold own. by rewrite Hb, Hs, Hr.
Qed.

Lemma setState_same s c : same_addr c (setState s c).
Proof. unfold setState. by case_decide. Qed.

Lemma close_inv H0 e hand c : addr_inv H0 hand c -> addr_inv H0 hand (close e c).
Proof.
  intros Hi. unfold close. cbv zeta.
  set (c1 := match conn (stopWatchdog c) with Some _ => _ | None => _ end).
  assert (same_addr c c1) as Hs.
  { unfold c1, stopWatchdog. destruct (dwrTicker c); rsimpl; by destruct (conn c). }
  apply (same_addr_inv H0 hand c c1 Hs) in Hi. clearbody c1. clear Hs.
  destruct (boundLocalAddr c1) as [a|] eqn:Eb.
  - apply release_inv. eapply addr_inv_weaken; [done..|]. unfold own. rsimpl. rewrite Eb.
    rewrite app_nil_r. cbn [app]. rewrite !app_assoc, (Permutation_app_comm _ [a]). done.
  - cbn [release_addr]. eapply addr_inv_weaken; [done..|]. unfold own. rsimpl. by rewrite Eb.
Qed.

Lemma scheduleReconnect_inv H0 hand c : addr_inv H0 hand c -> addr_inv H0 hand (scheduleReconnect c).
Proof.
  intros Hi. unfold scheduleReconnect. destruct (reconnecting c).
  - by apply (same_addr_inv H0 hand c).
  - eapply addr_inv_weaken; [done..|]. unfold own. rsimpl. cbn [addr app].
    apply submseteq_app; [done|]. apply submseteq_app; [done|]. by apply submseteq_inserts_l.
Qed.

Lemma handleFailure_inv H0 e hand c : addr_inv H0 hand c -> addr_inv H0 hand (handleFailure e c).
Proof.
  intros Hi. unfold handleFailure. destruct (_ || _); [done|]. destruct (_ && _); [done|].
  cbv zeta. set (c1 := close e _).
  assert (addr_inv H0 hand (c1 <| onFailures ::= fun n => n + 1 |>)) as Hc.
  { apply (same_addr_inv H0 hand c1); [done|]. apply close_inv.
    apply (same_addr_inv H0 hand c); [apply setState_same|done]. }
  destruct (negb _); [by apply scheduleReconnect_inv|done].
Qed.

Lemma set_pc_inv H0 w p c :
  addr_inv H0 (addr p) (set_pc w PIdle c) -> addr_inv H0 [] (set_pc w p c).
Proof.
  intros Hi. eapply addr_inv_weaken; [done|by destruct w|].
  destruct w; unfold own; cbn [set_pc]; rsimpl; cbn [addr app]; [done|].
  solve_submseteq.
Qed.

Lemma set_pc_idle_inv H0 w p c :
  pc_of w c = p -> addr_inv H0 [] c -> addr_inv H0 (addr p) (set_pc w PIdle c).
Proof.
  intros <- Hi. eapply addr_inv_weaken; [done|by destruct w|].
  destruct w; unfold own; cbn [set_pc pc_of]; rsimpl; cbn [addr app]; [done|].
  solve_submseteq.
Qed.

(** What [connect] hands over to its caller. *)
Definition hand_of (r : progress) : list Z := match r with Continue p => addr p | _ => [] end.

Definition handed (H0 : gset Z) (w : who) (r : conn_t * progress) : Prop :=
  addr_inv H0 (hand_of r.2) (set_pc w PIdle r.1).

Lemma own_set_pc w p c :
  own (set_pc w PIdle c) ⊆+ own (set_pc w p c) /\ (addr p = [] -> own (set_pc w p c) = own (set_pc w PIdle c)).
Proof.
  destruct w; unfold own; cbn [set_pc]; rsimpl; cbn [addr app]; (split; [|by intros ->]).
  - by apply submseteq_inserts_l.
  - apply submseteq_app; [done|]. by apply submseteq_inserts_l.
Qed.

Lemma resume_inv H0 e w r : handed H0 w r -> addr_inv H0 [] (resume e w r).
Proof.
  unfold handed. destruct r as [c [p| |]], w; cbn [fst snd hand_of resume set_pc]; intros Hi.
  - by apply (set_pc_inv H0 Starter).
  - by apply (set_pc_inv H0 Reconnector).
  - by apply handleFailure_inv.
  - eapply addr_inv_weaken; [done..|]. done.
  - done.
  - unfold finishReconnect. destruct (_ || _); eapply addr_inv_weaken; done.
Qed.

Lemma connect_begin_inv H0 e w c :
  addr_inv H0 [] (set_pc w PIdle c) -> handed H0 w (connect_begin e c).
Proof.
  intros Hi. unfold connect_begin. cbv zeta. set (c1 := setState StateConnecting c).
  assert (addr_inv H0 [] (set_pc w PIdle c1)) as Hi1.
  { apply (same_addr_inv H0 [] (set_pc w PIdle c)); [|done].
    unfold c1, setState. case_decide; by destruct w. }
  clearbody c1. destruct (AcquireLocalAddr (config c1)); [|done].
  destruct Hi1 as [Hg HB Hn Hh Ho].
  assert (ports (set_pc w PIdle c1) = ports c1) as Ep by (by destruct w). rewrite Ep in *.
  pose proof (acquire_held e (id c1) (ports c1) Hg) as Ha.
  pose proof (acquire_good e (id c1) (ports c1) Hg) as Hg'.
  pose proof (acquire_bounds e (id c1) (ports c1)) as HB'. rewrite HB in HB'.
  destruct (acquire e (id c1) (ports c1)) as [ps [a|]]; cbn [fst] in Hg', HB'.
  - destruct Ha as [Hn' Hh']. unfold handed. cbn [fst snd hand_of addr].
    assert (own (set_pc w PIdle (c1 <| ports := ps |>)) = own (set_pc w PIdle c1)) as Eo by (by destruct w).
    assert (ports (set_pc w PIdle (c1 <| ports := ps |>)) = ps) as Ep' by (by destruct w).
    split; rewrite ?Eo, ?Ep'; cbn [app] in *.
    + done.
    + done.
    + apply NoDup_cons. split; [|done]. intros Hin. apply Hh in Hin as [Hin _]. done.
    + intros b [->|Hb]%elem_of_cons; rewrite Hh'; [set_solver|]. destruct (Hh b Hb). set_solver.
    + rewrite Hh'. set_solver.
  - unfold handed. cbn [fst snd hand_of].
    assert (same_addr (set_pc w PIdle (c1 <| ports := ps |>))
      (set_pc w PIdle (setState StateFailed (c1 <| ports := ps |>)))) as Hs
      by (unfold setState; case_decide; by destruct w).
    apply (same_addr_inv H0 [] _ _ Hs).
    assert (own (set_pc w PIdle (c1 <| ports := ps |>)) = own (set_pc w PIdle c1)) as Eo by (by destruct w).
    assert (ports (set_pc w PIdle (c1 <| ports := ps |>)) = ps) as Ep' by (by destruct w).
    split; rewrite ?Eo, ?Ep', ?Ha; done.
Qed.

Lemma close_fields e c :
  ports (close e c) =
    match boundLocalAddr c with
    | Some a => if AcquireLocalAddr (config c) then release e a (ports c) else ports c
    | None => ports c
    end /\
  boundLocalAddr (close e c) = None /\ starter (close e c) = starter c /\
  reconnector (close e c) = reconnector c /\ config (close e c) = config c.
Proof.
  unfold close. cbv zeta. set (c1 := match conn (stopWatchdog c) with Some _ => _ | None => _ end).
  assert (ports c1 = ports c /\ boundLocalAddr c1 = boundLocalAddr c /\ starter c1 = starter c /\
    reconnector c1 = reconnector c /\ config c1 = config c) as (<- & <- & <- & <- & <-).
  { unfold c1, stopWatchdog. destruct (dwrTicker c); rsimpl; by destruct (conn c). }
  clearbody c1. unfold release_addr. destruct (boundLocalAddr c1); rsimpl; [|done].
  by destruct (AcquireLocalAddr (config c1)).
Qed.

Lemma handshake_failed_inv H0 e w c :
  addr_inv H0 [] (set_pc w PIdle c) -> handed H0 w (handshake_failed e c).
Proof.
  intros Hi. unfold handed, handshake_failed. cbn [fst snd hand_of].
  apply (close_inv H0 e) in Hi. apply (same_addr_inv H0 [] (close e (set_pc w PIdle c))); [|done].
  destruct (close_fields e (set_pc w PIdle c)) as (E1 & E2 & E3 & E4 & _).
  destruct (close_fields e c) as (F1 & F2 & F3 & F4 & _).
  destruct (setState_same StateFailed (close e c)) as (G1 & G2 & G3 & G4).
  unfold same_addr. rewrite E1, E2, E3, E4.
  destruct w; cbn [set_pc]; rsimpl; by rewrite ?G1, ?G2, ?G3, ?G4, ?F1, ?F2, ?F3, ?F4.
Qed.

Lemma release_addr_pc e a w p c :
  same_addr (release_addr e a (set_pc w p c)) (set_pc w p (release_addr e a c)).
Proof.
  unfold release_addr. destruct a as [a|]; [|done].
  destruct w; cbn [set_pc]; rsimpl; by destruct (AcquireLocalAddr (config c)).
Qed.

Lemma same_set_pc w p c c' : same_addr c c' -> same_addr (set_pc w p c) (set_pc w p c').
Proof. intros (? & ? & ? & ?). by destruct w. Qed.

Lemma dial_result_inv H0 e w la d c :
  addr_inv H0 (addr (PDial la)) (set_pc w PIdle c) -> handed H0 w (dial_result e la d c).
Proof.
  intros Hi. unfold dial_result. destruct d as [localIP|].
  - set (c0 := c <| conn := _ |> <| boundLocalAddr := _ |> <| connGeneration := _ |>
      <| readLoops ::= _ |>).
    assert (addr_inv H0 [] (set_pc w PIdle c0)) as Hi0.
    { eapply addr_inv_weaken; [done|by destruct w|].
      destruct w; unfold own, c0; cbn [set_pc]; rsimpl; cbn [addr app]; destruct la; solve_submseteq. }
    clearbody c0. unfold nextHopByHopID, nextEndToEndID.
    set (c1 := (c0 <| hopByHopID := _ |>) <| endToEndID := _ |>).
    assert (addr_inv H0 [] (set_pc w PIdle c1)) as Hi1
      by (apply (same_addr_inv H0 [] (set_pc w PIdle c0)); [by apply same_set_pc|done]).
    clearbody c1.
    destruct (CapabilitiesExchangeRequest.Marshal _).2; [|by apply handshake_failed_inv..].
    unfold handed. cbn [fst snd hand_of addr].
    apply (same_addr_inv H0 [] (set_pc w PIdle c1)); [|done]. apply same_set_pc.
    unfold setState. by case_decide.
  - unfold handed. cbn [fst snd hand_of].
    apply (same_addr_inv H0 [] (set_pc w PIdle (release_addr e la c))).
    { apply same_set_pc, setState_same. }
    apply (same_addr_inv H0 [] _ _ (release_addr_pc e la w PIdle c)).
    destruct la as [a|]; [by apply release_inv|done].
Qed.

Lemma select_send_same pick dflt data c c' r :
  select_send pick dflt data c = Ok (c', r) -> same_addr c c'.
Proof. unfold select_send. intros Hs. repeat case_match_in Hs; simplify_eq; done. Qed.

Lemma enqueue_CER_inv H0 e pick w h data c r :
  addr_inv H0 [] (set_pc w PIdle c) -> enqueue_CER e pick h data c = Ok r -> handed H0 w r.
Proof.
  intros Hi. unfold enqueue_CER. destruct (select_send pick false data c) as [[c' s]|er|] eqn:Es;
    [|done..].
  apply select_send_same in Es.
  assert (addr_inv H0 [] (set_pc w PIdle c')) as Hi'
    by (apply (same_addr_inv H0 [] (set_pc w PIdle c)); [by apply same_set_pc|done]).
  destruct s; intros [= <-]; try done; apply handshake_failed_inv;
    by apply (same_addr_inv H0 [] (set_pc w PIdle c')), Hi'; destruct w.
Qed.

Lemma CEA_result_inv H0 e w r h c :
  addr_inv H0 [] (set_pc w PIdle c) -> handed H0 w (CEA_result e r h c).
Proof.
  intros Hi. unfold CEA_result. cbv zeta.
  assert (addr_inv H0 [] (set_pc w PIdle (unregisterPending h c))) as Hi'
    by (apply (same_addr_inv H0 [] (set_pc w PIdle c)); [by destruct w|done]).
  destruct (match r with GotCEA => _ | _ => _ end); [|by apply handshake_failed_inv].
  unfold handed. cbn [fst snd hand_of].
  apply (same_addr_inv H0 [] (set_pc w PIdle (unregisterPending h c))); [|done].
  apply same_set_pc. unfold startWatchdog, setState.
  case_decide; rsimpl; by destruct (dwrTicker _).
Qed.

Lemma select_recv_same pick m c c' : select_recv pick m c = Ok c' -> same_addr c c'.
Proof. unfold select_recv. intros Hs. repeat case_match_in Hs; simplify_eq; done. Qed.

Lemma handleDWR_same pick m c c' : handleDWR pick m c = Ok c' -> same_addr c c'.
Proof.
  unfold handleDWR. intros Hs. repeat case_match_in Hs; simplify_eq; try done.
  by eapply select_send_same.
Qed.

Lemma dispatchMessage_same pick m c c' : dispatchMessage pick m c = Ok c' -> same_addr c c'.
Proof.
  unfold dispatchMessage, deliverResponse. intros Hs.
  destruct (ParseMessageHeader _) as [info|er|]; [|by injection Hs as <-|by injection Hs as <-].
  destruct (_ && _ && _); [injection Hs as <-; by repeat case_match|].
  destruct (_ && _); [|by apply select_recv_same in Hs].
  destruct (IsRequest info); [by apply handleDWR_same in Hs|]. injection Hs as <-. by repeat case_match.
Qed.

Lemma same_addr_trans c1 c2 c3 : same_addr c1 c2 -> same_addr c2 c3 -> same_addr c1 c3.
Proof. unfold same_addr. intros (?&?&?&?) (?&?&?&?). split_and!; congruence. Qed.

Lemma finishReconnect_same b c : same_addr c (finishReconnect b c).1.
Proof. unfold finishReconnect. by destruct (_ || _). Qed.

Lemma handleDWRFailure_inv H0 e c : addr_inv H0 [] c -> addr_inv H0 [] (handleDWRFailure e c).
Proof.
  intros Hi. unfold handleDWRFailure. cbv zeta. set (c1 := c <| dwrFailureCount ::= _ |>).
  assert (addr_inv H0 [] c1) by (by apply (same_addr_inv H0 [] c)).
  destruct (_ <=? _); [by apply handleFailure_inv|done].
Qed.

Lemma handleDWA_same data c : same_addr c (handleDWA data c).1.
Proof.
  unfold handleDWA. destruct (DeviceWatchdogAnswer.Unmarshal _ _) as [dwa [u|er|]]; [|done..].
  destruct (IsSuccess _); [|done]. cbn [fst]. unfold setState. by case_decide.
Qed.

Lemma DWA_result_inv H0 e r g h c : addr_inv H0 [] c -> addr_inv H0 [] (DWA_result e r g h c).
Proof.
  intros Hi. unfold DWA_result. cbv zeta. set (c1 := c <| dwrWaiters ::= _ |>).
  assert (addr_inv H0 [] c1) as Hi1 by (by apply (same_addr_inv H0 [] c)).
  assert (forall c2, addr_inv H0 [] c2 -> addr_inv H0 [] (unregisterPending h c2)) as Hu
    by (intros; by apply (same_addr_inv H0 [] c2)).
  apply Hu. destruct r.
  - destruct (pending c !! h) as [[data|]|]; [|done..]. destruct (isCurrentGeneration g c1); [|done].
    pose proof (handleDWA_same data c1) as Hs. destruct (handleDWA data c1) as [c2 []]; cbn [fst] in Hs.
    + by apply (same_addr_inv H0 [] c1).
    + apply handleDWRFailure_inv. by apply (same_addr_inv H0 [] c1).
  - destruct (isCurrentGeneration g c1); [by apply handleDWRFailure_inv|done].
  - done.
Qed.

Lemma tick_inv H0 e pick c c' : addr_inv H0 [] c -> tick e pick c = Ok c' -> addr_inv H0 [] c'.
Proof.
  intros Hi. unfold tick. destruct (negb (IsActive c)).
  { intros [= <-]. apply handleFailure_inv. by apply (same_addr_inv H0 [] c). }
  unfold nextHopByHopID, nextEndToEndID. set (c1 := (c <| hopByHopID := _ |>) <| endToEndID := _ |>).
  assert (addr_inv H0 [] c1) as Hi1 by (by apply (same_addr_inv H0 [] c)).
  clearbody c1. destruct (DeviceWatchdogRequest.Marshal _).2 as [data|er|];
    [|intros [= <-]; apply handleFailure_inv; by apply (same_addr_inv H0 [] c1)..].
  set (c2 := setState _ _).
  assert (addr_inv H0 [] c2) as Hi2.
  { apply (same_addr_inv H0 [] (registerPending (to_u32 (hopByHopID c + 1)) c1)); [apply setState_same|].
    by apply (same_addr_inv H0 [] c1). }
  clearbody c2. destruct (select_send pick false data c2) as [[c3 s]|er|] eqn:Es; [|done..].
  apply select_send_same in Es.
  assert (addr_inv H0 [] c3) by (by apply (same_addr_inv H0 [] c2)).
  destruct s; intros [= <-]; try (apply handleFailure_inv); by apply (same_addr_inv H0 [] c3).
Qed.

Lemma step_addr H0 ev c c' : addr_inv H0 [] c -> step ev c = Ok c' -> addr_inv H0 [] c'.
Proof.
  intros Hi. destruct ev as [e|e w d|e w pick|e w r|e pick delay|e pick|e r g h|e el|e pick g r|
    e ok|pick data| | |e|]; cbn [step].
  - intros [= <-]. apply resume_inv, connect_begin_inv.
    eapply addr_inv_weaken; [done|done|]. apply (own_set_pc Starter (starter c) c).
  - destruct (pc_of w c) eqn:Ep; intros [= <-]; try done. apply resume_inv, dial_result_inv.
    assert (addr_inv H0 (addr (PDial localAddr)) (set_pc w PIdle c)) as Hi1
      by (by apply set_pc_idle_inv).
    eapply addr_inv_weaken; [done|by destruct w|by destruct w].
  - destruct (pc_of w c) as [| |h data| |] eqn:Ep; try (intros [= <-]; done).
    destruct (enqueue_CER e pick h data (set_pc w PIdle c)) as [r|er|] eqn:Ee; [|done..].
    intros [= <-]. apply resume_inv. eapply enqueue_CER_inv; [|done].
    assert (addr_inv H0 (addr (PEnqueue h data)) (set_pc w PIdle c)) as Hi1
      by (by apply set_pc_idle_inv).
    eapply addr_inv_weaken; [done|by destruct w|by destruct w].
  - destruct (pc_of w c) as [| | |h|] eqn:Ep; intros [= <-]; try done.
    apply resume_inv, CEA_result_inv.
    assert (addr_inv H0 (addr (PWait h)) (set_pc w PIdle c)) as Hi1 by (by apply set_pc_idle_inv).
    eapply addr_inv_weaken; [done|by destruct w|by destruct w].
  - intros [= <-]. unfold delay_end. destruct (ctx_done c && negb pick).
    + assert (addr_inv H0 [] (finishReconnect false c).1) as Hf
        by (by apply (same_addr_inv H0 [] c), Hi; apply finishReconnect_same).
      eapply addr_inv_weaken; [done|done|]. apply (own_set_pc Reconnector (reconnector (finishReconnect false c).1)).
    + cbv zeta. apply resume_inv, connect_begin_inv. set (c1 := setState StateReconnecting _).
      assert (addr_inv H0 [] c1) as Hi1.
      { apply (same_addr_inv H0 [] (c <| ReconnectAttempts ::= fun n => to_u64 (n + 1) |>));
          [apply setState_same|by apply (same_addr_inv H0 [] c)]. }
      eapply addr_inv_weaken; [done|done|]. apply (own_set_pc Reconnector (reconnector c1) c1).
  - by apply tick_inv.
  - intros [= <-]. by apply DWA_result_inv.
  - intros [= <-]. unfold health_tick. destruct (_ && _ && _); [|done].
    apply (same_addr_inv H0 [] (handleFailure e c)); [done|by apply handleFailure_inv].
  - unfold read_loop. destruct r as [m|].
    + destruct (negb _); [intros [= <-]; by apply (same_addr_inv H0 [] c)|].
      intros Hd%dispatchMessage_same. eapply same_addr_inv; [done|]. by apply (same_addr_inv H0 [] c).
    + destruct (_ && _); intros [= <-].
      * apply (same_addr_inv H0 [] (handleFailure e c)); [done|by apply handleFailure_inv].
      * by apply (same_addr_inv H0 [] c).
  - intros [= <-]. unfold write_loop. destruct (sendCh c) as [|data rest]; [done|].
    set (c1 := c <| sendCh := rest |>).
    assert (addr_inv H0 [] c1) as Hi1 by (by apply (same_addr_inv H0 [] c)). clearbody c1.
    destruct (conn c1); [|by apply (same_addr_inv H0 [] c1)].
    destruct ok; [by apply (same_addr_inv H0 [] c1)|].
    destruct (ctx_done c1); [done|by apply handleFailure_inv].
  - unfold Send. destruct (negb _); [by intros [= <-]|].
    destruct (select_send pick true data c) as [[c1 s]|er|] eqn:Es; [|done..].
    apply select_send_same in Es. destruct s; intros [= <-]; by apply (same_addr_inv H0 [] c).
  - intros [= <-]. by apply (same_addr_inv H0 [] c).
  - intros [= <-]. by apply (same_addr_inv H0 [] c).
  - intros [= <-]. unfold Close_begin. cbv zeta.
    eapply same_addr_inv; [apply finishReconnect_same|]. apply close_inv.
    apply (same_addr_inv H0 [] (setState StateClosed c)); [done|].
    by apply (same_addr_inv H0 [] c), Hi; apply setState_same.
  - intros [= <-]. by apply (same_addr_inv H0 [] c).
Qed.

Lemma run_addr H0 c evs c' : run c evs c' -> addr_inv H0 [] c -> addr_inv H0 [] c'.
Proof. induction 1 as [|c ev c1 evs c2 He Hs Hr IH]; [done|]. intros Hi. by eapply IH, step_addr. Qed.

End Addresses.

(** The addresses of the port source.  In every run, whatever the other
    users of the source hold stays held; the addresses that the connection
    dials with or is bound to are pairwise distinct, held, and nobody
    else's: so no address is used twice, and whatever the connection
    releases is its own. *)
Theorem addresses_safe id cfg ps evs c :
  good ps -> run (NewConnection id cfg ps) evs c ->
  held ps ⊆ held (ports c) /\ NoDup (own c) /\
  forall a, a ∈ own c -> a ∈ held (ports c) /\ (a ∉ held ps).
Proof.
  intros Hg Hr. apply (run_addr (bounds ps) (held ps)) in Hr.
  - destruct Hr as [_ _ Hn Hh Ho]. split; [done|]. split; [done|]. exact Hh.
  - split; [done|done|constructor| |done]. cbn. set_solver.
Qed.

End Properties.
