(* ===== verification/ClientRuns.v ===== *)
(** * Failures, watchdog, handshakes and [Close] of the client connection

    What a failure does and when it is retried, the counting of the watchdog,
    the bounds of the reconnect delay, which answer a waiter gets, and what
    [Close] races with. *)

From Stdlib Require Import Floats.SpecFloat.
From S2P Require Import Prelude Binary DataTypes Wire Message BaseMessages Framing ClientConn.

Section Failures.
Context {E P : Type} {PS : PortSource E P}.
Abbreviation conn_t := (Connection P).
Abbreviation event_t := (ClientConn.event E).

(** ** What a failure does *)

Lemma close_frame e (c : conn_t) :
  state (close e c) = state c /\ conn (close e c) = None /\ pending (close e c) = pending c /\
  ceiling (close e c) = ceiling c /\ reconnecting (close e c) = reconnecting c /\
  ctx_done (close e c) = ctx_done c /\ readLoops (close e c) = readLoops c /\
  sendCh (close e c) = sendCh c /\ dwrWaiters (close e c) = dwrWaiters c /\
  reconnectDisabled (close e c) = reconnectDisabled c /\
  ReconnectAttempts (close e c) = ReconnectAttempts c /\ onFailures (close e c) = onFailures c /\
  (dwrTicker c = watchdog c -> watchdog (close e c) = false) /\
  connGeneration (close e c) =
    match conn c with Some _ => to_u64 (connGeneration c + 1) | None => connGeneration c end.
Proof.
  unfold close. cbv zeta.
  assert (forall (c1 : conn_t) b, let c2 := release_addr e b (c1 <| boundLocalAddr := None |>) in
    state c2 = state c1 /\ conn c2 = conn c1 /\ pending c2 = pending c1 /\ ceiling c2 = ceiling c1 /\
    reconnecting c2 = reconnecting c1 /\ ctx_done c2 = ctx_done c1 /\ readLoops c2 = readLoops c1 /\
    sendCh c2 = sendCh c1 /\ dwrWaiters c2 = dwrWaiters c1 /\
    reconnectDisabled c2 = reconnectDisabled c1 /\ ReconnectAttempts c2 = ReconnectAttempts c1 /\
    onFailures c2 = onFailures c1 /\ watchdog c2 = watchdog c1 /\
    connGeneration c2 = connGeneration c1) as Hr.
  { intros c1 b. cbv zeta. unfold release_addr. destruct b; [|done]. cbv iota.
    by destruct (AcquireLocalAddr _). }
  set (c0 := stopWatchdog c).
  assert (state c0 = state c /\ conn c0 = conn c /\ pending c0 = pending c /\ ceiling c0 = ceiling c /\
    reconnecting c0 = reconnecting c /\ ctx_done c0 = ctx_done c /\ readLoops c0 = readLoops c /\
    sendCh c0 = sendCh c /\ dwrWaiters c0 = dwrWaiters c /\
    reconnectDisabled c0 = reconnectDisabled c /\ ReconnectAttempts c0 = ReconnectAttempts c /\
    onFailures c0 = onFailures c /\ connGeneration c0 = connGeneration c /\
    (dwrTicker c = watchdog c -> watchdog c0 = false)) as
    (<-&<-&<-&<-&<-&<-&<-&<-&<-&<-&<-&<-&<-&Hw).
  { unfold c0, stopWatchdog. destruct (dwrTicker c); split_and!; try done; congruence. }
  clearbody c0.
  set (c1 := match conn c0 with Some _ => _ | None => _ end).
  destruct (Hr c1 (boundLocalAddr c1)) as
    (->&->&->&->&->&->&->&->&->&->&->&->&->&->). clear Hr. unfold c1.
  destruct (conn c0) eqn:Ec; split_and!; done.
Qed.

(** [handleFailure] is ignored, or takes the connection down and schedules
    the reconnect loop. *)
Lemma handleFailure_cases e c :
  (handleFailure e c = c /\
   (ctx_done c = true \/ state c = StateClosed \/
    (conn c = None /\ (state c = StateFailed \/ state c = StateReconnecting)))) \/
  exists c1, c1 = (close e (setState StateFailed c)) <| onFailures ::= fun n => n + 1 |> /\
    handleFailure e c = (if reconnectDisabled c then c1 else scheduleReconnect c1) /\
    ctx_done c = false /\ state c <> StateClosed /\
    (conn c <> None \/ (state c <> StateFailed /\ state c <> StateReconnecting)).
Proof.
  unfold handleFailure. destruct (ctx_done c) eqn:Ex; cbn [orb]; [by left; auto|].
  case_bool_decide as Ec; [by left; auto|]. cbv zeta.
  destruct (negb (bool_decide (conn c <> None)) && bool_decide _) eqn:Eg.
  { left. split; [done|]. right; right. b2p. destruct Eg as [H1 H2]. split; [|done].
    destruct (conn c); [by destruct H1|done]. }
  right. eexists. split; [done|]. split; [by destruct (reconnectDisabled c)|]. split; [done|].
  split; [done|]. b2p. destruct Eg as [H1|H1]; [by left|right]. tauto.
Qed.

Lemma setState_fields s (c : conn_t) :
  state (setState s c) = s /\ conn (setState s c) = conn c /\ pending (setState s c) = pending c /\
  ceiling (setState s c) = ceiling c /\ config (setState s c) = config c /\
  reconnecting (setState s c) = reconnecting c /\ ctx_done (setState s c) = ctx_done c /\
  readLoops (setState s c) = readLoops c /\ dwrWaiters (setState s c) = dwrWaiters c /\
  reconnectDisabled (setState s c) = reconnectDisabled c /\
  ReconnectAttempts (setState s c) = ReconnectAttempts c /\
  onFailures (setState s c) = onFailures c /\ watchdog (setState s c) = watchdog c /\
  dwrTicker (setState s c) = dwrTicker c /\ connGeneration (setState s c) = connGeneration c /\
  dwrFailureCount (setState s c) = dwrFailureCount c.
Proof. unfold setState. case_decide; by split_and!. Qed.

(** ** The watchdog *)

(** What it means that a failure took the connection down. *)
Definition taken_down (c c' : conn_t) : Prop :=
  state c' = StateFailed /\ conn c' = None /\ onFailures c' = onFailures c + 1 /\
  (reconnectDisabled c = false -> reconnecting c' = true).

Lemma handleFailure_down e c g :
  conn c = Some g -> ctx_done c = false -> state c <> StateClosed -> taken_down c (handleFailure e c).
Proof.
  intros Hc Hx Hs. destruct (handleFailure_cases e c) as [[_ [?|[?|[? _]]]]|(c1 & E1 & -> & _)];
    [congruence..|].
  destruct (close_frame e (setState StateFailed c)) as
    (Es & En & _ & _ & _ & _ & _ & _ & _ & _ & _ & Eo & _).
  destruct (setState_fields StateFailed c) as (Fs & _ & _ & _ & _ & _ & _ & _ & _ & _ & _ & Fo & _).
  assert (state c1 = StateFailed /\ conn c1 = None /\ onFailures c1 = onFailures c + 1) as (A & B & D).
  { subst c1. rsimpl. by rewrite Es, En, Eo, Fs, Fo. }
  clear E1. unfold taken_down, scheduleReconnect.
  destruct (reconnectDisabled c), (reconnecting c1) eqn:Er; rsimpl; by rewrite ?A, ?B, ?D.
Qed.

Lemma handleDWRFailure_eq e c :
  0 <= dwrFailureCount c < 2 ^ 31 - 1 ->
  handleDWRFailure e c =
    let c1 := c <| dwrFailureCount := dwrFailureCount c + 1 |> in
    if MaxDWRFailures (config c) <=? dwrFailureCount c + 1 then handleFailure e c1 else c1.
Proof.
  intros Hn. pose proof (to_i32_id (dwrFailureCount c + 1) ltac:(unfold i32; lia)) as Hi.
  unfold handleDWRFailure. cbv zeta.
  assert (c <| dwrFailureCount ::= fun n => to_i32 (n + 1) |> =
    c <| dwrFailureCount := dwrFailureCount c + 1 |>) as ->; [|done].
  transitivity (c <| dwrFailureCount := to_i32 (dwrFailureCount c + 1) |>); [done|by rewrite Hi].
Qed.

(** The watchdog.  For an established connection, a DWA that does not
    come, or is not a success, adds one to the count of consecutive failures
    and leaves the connection as it is, until the count reaches
    [MaxDWRFailures]: then the connection is taken down, and the reconnect
    loop scheduled unless it is disabled.  A successful DWA resets the count
    and the state.  An outcome that belongs to an earlier socket changes
    nothing but the waiter. *)
Theorem watchdog_threshold e c g h data :
  conn c = Some g -> state_IsActive (state c) = true -> ctx_done c = false ->
  0 <= dwrFailureCount c < 2 ^ 31 - 1 ->
  let c1 := DWA_result e DWATimeout g h c in
  let c2 := DWA_result e GotDWA g h c in
  (connGeneration c = g ->
   (dwrFailureCount c + 1 < MaxDWRFailures (config c) ->
      state c1 = state c /\ conn c1 = conn c /\ dwrFailureCount c1 = dwrFailureCount c + 1) /\
   (MaxDWRFailures (config c) <= dwrFailureCount c + 1 -> taken_down c c1) /\
   (pending c !! h = Some (Some data) ->
    match DeviceWatchdogAnswer.Unmarshal data DeviceWatchdogAnswer.zero with
    | (dwa, Ok _) =>
        if IsSuccess (DeviceWatchdogAnswer.ResultCode dwa)
        then state c2 = StateOpen /\ conn c2 = conn c /\ dwrFailureCount c2 = 0
        else c2 = c1
    | _ => c2 = c1
    end)) /\
  (connGeneration c <> g ->
     state c1 = state c /\ conn c1 = conn c /\ dwrFailureCount c1 = dwrFailureCount c /\
     state c2 = state c /\ conn c2 = conn c /\ dwrFailureCount c2 = dwrFailureCount c).
Proof.
  intros Hc Ha Hx Hn c1 c2. unfold c1, c2, DWA_result. cbv zeta.
  set (c0 := c <| dwrWaiters ::= _ |>).
  assert (isCurrentGeneration g c0 = (connGeneration c =? g)) as -> by done. split.
  - intros ->. rewrite Z.eqb_refl.
    assert (state c <> StateClosed) as Hns by (intros E'; by rewrite E' in Ha).
    assert (0 <= dwrFailureCount c0 < 2 ^ 31 - 1) as Hn0 by exact Hn.
    pose proof (handleDWRFailure_eq e c0 Hn0) as Ed. cbv zeta in Ed.
    set (c3 := c0 <| dwrFailureCount := _ |>) in Ed.
    change (dwrFailureCount c0) with (dwrFailureCount c) in Ed.
    change (config c0) with (config c) in Ed.
    split; [|split].
    + intros Hlt. rewrite Ed, (proj2 (Z.leb_gt _ _)) by lia. done.
    + intros Hge. rewrite Ed, (proj2 (Z.leb_le _ _)) by lia.
      destruct (handleFailure_down e c3 g Hc Hx Hns) as (H1 & H2 & H3 & H4). by split_and!.
    + intros Hp. rewrite Hp. unfold handleDWA.
      destruct (DeviceWatchdogAnswer.Unmarshal data DeviceWatchdogAnswer.zero) as [dwa [u|er|]];
        [|done..].
      destruct (IsSuccess (DeviceWatchdogAnswer.ResultCode dwa)); [|done].
      destruct (setState_fields StateOpen c0) as (Fs & Fn & _).
      unfold unregisterPending. rsimpl. split; [exact Fs|]. split; [exact Fn|done].
  - intros Hne. rewrite (proj2 (Z.eqb_neq _ _)) by done. split_and!; try done;
      destruct (pending c !! h) as [[?|]|]; done.
Qed.


(** ** Answers *)

(** [later c c']: nothing was delivered to a waiter between [c] and [c']. *)
Definition later (c c' : conn_t) : Prop :=
  forall h data, pending c' !! h = Some (Some data) -> pending c !! h = Some (Some data).

#[local] Instance later_preorder : PreOrder later.
Proof. split; [by intros ???|]. intros c1 c2 c3 H1 H2 h data Hp. by apply H1, H2. Qed.

Lemma later_same c c' : pending c' = pending c -> later c c'.
Proof. intros He h data. by rewrite He. Qed.
#[local] Hint Extern 0 (later _ _) => (apply later_same; reflexivity) : core.

Lemma registerPending_later h c : later c (registerPending h c).
Proof.
  intros h' data. unfold registerPending. rsimpl. rewrite lookup_insert_Some. naive_solver.
Qed.

Lemma unregisterPending_later h c : later c (unregisterPending h c).
Proof. intros h' data. unfold unregisterPending. rsimpl. rewrite lookup_delete_Some. naive_solver. Qed.

Lemma setState_later s c : later c (setState s c).
Proof. apply later_same, setState_fields. Qed.

Lemma close_later e c : later c (close e c).
Proof. apply later_same, close_frame. Qed.

Lemma handleFailure_later e c : later c (handleFailure e c).
Proof.
  destruct (handleFailure_cases e c) as [[-> _]|(c1 & E1 & -> & _)]; [done|].
  assert (later c c1) as H1.
  { rewrite E1. transitivity (close e (setState StateFailed c)); [|done].
    by rewrite <- close_later, <- setState_later. }
  destruct (reconnectDisabled c); [done|]. etransitivity; [exact H1|]. unfold scheduleReconnect. by destruct (reconnecting c1).
Qed.

Lemma finishReconnect_later b c : later c (finishReconnect b c).1.
Proof. unfold finishReconnect. by destruct (_ || _). Qed.

Lemma select_send_later pick dflt data c c' r : select_send pick dflt data c = Ok (c', r) -> later c c'.
Proof. unfold select_send. intros Hs. repeat case_match_in Hs; by simplify_eq. Qed.

Lemma handshake_failed_later e c : later c (handshake_failed e c).1.
Proof. unfold handshake_failed. cbn [fst]. by rewrite <- setState_later, <- close_later. Qed.

Lemma resume_later e w r : later r.1 (resume e w r).
Proof.
  destruct r as [c [p| |]], w; cbn [resume fst]; try done.
  - rewrite <- handleFailure_later. done.
  - pose proof (finishReconnect_later true (c <| ReconnectSuccesses ::= fun n => to_u64 (n + 1) |>)) as Hf.
    destruct (finishReconnect true _) as [c1 []]; cbn [fst] in Hf; exact Hf.
Qed.

Lemma connect_begin_later e c : later c (connect_begin e c).1.
Proof.
  unfold connect_begin. cbv zeta. pose proof (setState_later StateConnecting c) as H1.
  set (c1 := setState StateConnecting c) in *. clearbody c1.
  destruct (AcquireLocalAddr _); [|done]. destruct (acquire _ _ _) as [ps [la|]]; cbn [fst]; [done|].
  by rewrite <- setState_later.
Qed.

Lemma release_addr_later e a c : later c (release_addr e a c).
Proof. unfold release_addr. destruct a; [|done]. by destruct (AcquireLocalAddr _). Qed.

Lemma dial_result_later e la d c : later c (dial_result e la d c).1.
Proof.
  unfold dial_result. destruct d as [ip|].
  - unfold nextHopByHopID, nextEndToEndID. set (c1 := _ <| endToEndID := _ |>).
    assert (later c c1) as H1 by done. clearbody c1.
    destruct (CapabilitiesExchangeRequest.Marshal _).2; (etransitivity; [exact H1|]);
      [|apply handshake_failed_later..].
    cbn [fst]. rewrite <- setState_later. apply registerPending_later.
  - cbn [fst]. rewrite <- setState_later. apply release_addr_later.
Qed.

Lemma enqueue_CER_later e pick h data c r : enqueue_CER e pick h data c = Ok r -> later c r.1.
Proof.
  unfold enqueue_CER. destruct (select_send pick false data c) as [[c' s]|er|] eqn:Es; [|done..].
  apply select_send_later in Es.
  destruct s; intros [= <-]; (etransitivity; [exact Es|]); try done; rewrite <- handshake_failed_later; apply unregisterPending_later.
Qed.

Lemma CEA_result_later e w h c : later c (CEA_result e w h c).1.
Proof.
  unfold CEA_result. cbv zeta. etransitivity; [exact (unregisterPending_later h c)|].
  set (c1 := unregisterPending h c). clearbody c1.
  destruct (match w with GotCEA => _ | _ => _ end); [|apply handshake_failed_later].
  cbn [fst]. pose proof (setState_later StateOpen c1) as H1. set (c2 := setState StateOpen c1) in *.
  clearbody c2. etransitivity; [exact H1|]. unfold startWatchdog. by destruct (dwrTicker _).
Qed.

Lemma handleDWRFailure_later e c : later c (handleDWRFailure e c).
Proof.
  unfold handleDWRFailure. cbv zeta. destruct (_ <=? _); [|done]. by rewrite <- handleFailure_later.
Qed.

Lemma handleDWA_later data c : later c (handleDWA data c).1.
Proof.
  unfold handleDWA. destruct (DeviceWatchdogAnswer.Unmarshal _ _) as [dwa [u|er|]]; [|done..].
  destruct (IsSuccess _); [|done]. cbn [fst]. transitivity (setState StateOpen c); [|done]. apply setState_later.
Qed.

Lemma tick_later e pick c c' : tick e pick c = Ok c' -> later c c'.
Proof.
  unfold tick. destruct (negb _); [intros [= <-]; by rewrite <- handleFailure_later|].
  unfold nextHopByHopID, nextEndToEndID. set (c1 := (c <| hopByHopID := _ |>) <| endToEndID := _ |>).
  assert (later c c1) as H1 by done. clearbody c1.
  destruct (DeviceWatchdogRequest.Marshal _).2 as [data|er|];
    [|intros [= <-]; etransitivity; [exact H1|]; by rewrite <- handleFailure_later..].
  set (c2 := setState _ _).
  assert (later c c2) as H2 by (etransitivity; [exact H1|]; unfold c2; rewrite <- setState_later; apply registerPending_later).
  clearbody c2. destruct (select_send pick false data c2) as [[c3 s]|er|] eqn:Es; [|done..].
  apply select_send_later in Es. pose proof (transitivity H2 Es) as H3.
  destruct s; intros [= <-]; (etransitivity; [exact H3|]); try done; rewrite <- handleFailure_later;
    (transitivity (unregisterPending (to_u32 (hopByHopID c + 1)) c3); [apply unregisterPending_later|done]).
Qed.

Lemma DWA_result_later e r g h c : later c (DWA_result e r g h c).
Proof.
  unfold DWA_result. cbv zeta. rewrite <- unregisterPending_later. set (c1 := c <| dwrWaiters ::= _ |>).
  assert (later c c1) as H1 by done. clearbody c1. etransitivity; [exact H1|]. destruct r; [| |done].
  - destruct (pending c !! h) as [[data|]|]; [|done..]. destruct (isCurrentGeneration g c1); [|done].
    pose proof (handleDWA_later data c1) as H2. destruct (handleDWA data c1) as [c2 []]; cbn [fst] in H2; [done|].
    etransitivity; [exact H2|]. apply handleDWRFailure_later.
  - destruct (isCurrentGeneration g c1); [apply handleDWRFailure_later|done].
Qed.

(** The answers that [dispatchMessage] delivers by their identifier. *)
Definition is_answer (info : MessageInfo) : bool :=
  IsBaseProtocol info && negb (IsRequest info) &&
  ((mi_CommandCode info =? 257) || (mi_CommandCode info =? 280)).

(** [data] is the message [m], an answer with identifier [h]. *)
Definition answers (m : Message) (h : Z) (data : bytes) : Prop :=
  data = msg_Header m ++ msg_Body m /\
  exists info, ParseMessageHeader (msg_Header m) = Ok info /\ mi_HopByHopID info = h /\ is_answer info = true.

(** What one step delivers. *)
Definition delivers (ev : event_t) (h : Z) (data : bytes) : Prop :=
  exists e pick g m, ev = ERead e pick g (Some m) /\ answers m h data.

Lemma deliverResponse_pending h m (c : conn_t) h' data :
  pending (deliverResponse h m c) !! h' = Some (Some data) ->
  pending c !! h' = Some (Some data) \/ (h' = h /\ data = msg_Header m ++ msg_Body m).
Proof.
  unfold deliverResponse. destruct (pending c !! h) as [[d|]|]; [by left| |by left]. rsimpl.
  rewrite lookup_insert_Some. intros [[-> [= <-]]|[_ H1]]; [by right|by left].
Qed.

Lemma handleDWR_later pick m c c' : handleDWR pick m c = Ok c' -> later c c'.
Proof.
  unfold handleDWR. destruct (DeviceWatchdogRequest.Unmarshal _ _) as [dwr [u|er|]];
    [|by intros [= <-]..].
  destruct (DeviceWatchdogAnswer.Marshal _).2 as [data|er|]; [|by intros [= <-]..].
  destruct (select_send pick false data c) as [[c1 s]|er|] eqn:Es; [|done..].
  apply select_send_later in Es. by intros [= <-].
Qed.

Lemma select_recv_later pick m c c' : select_recv pick m c = Ok c' -> later c c'.
Proof. unfold select_recv. intros Hs. repeat case_match_in Hs; by simplify_eq. Qed.

Lemma dispatchMessage_cases pick m c c' :
  dispatchMessage pick m c = Ok c' ->
  later c c' \/
  exists info, ParseMessageHeader (msg_Header m) = Ok info /\ is_answer info = true /\
    c' = deliverResponse (mi_HopByHopID info) m c.
Proof.
  unfold dispatchMessage. destruct (ParseMessageHeader (msg_Header m)) as [info|er|];
    [|by intros [= <-]; left..].
  destruct (IsBaseProtocol info && (mi_CommandCode info =? 257) && negb (IsRequest info)) eqn:E1.
  { intros [= <-]. right. exists info. split; [done|]. split; [|done]. unfold is_answer. b2p. tauto. }
  destruct (IsBaseProtocol info && (mi_CommandCode info =? 280)) eqn:E2;
    [|intros Hd; left; by eapply select_recv_later].
  destruct (IsRequest info) eqn:E3; [intros Hd; left; by eapply handleDWR_later|].
  intros [= <-]. right. exists info. split; [done|]. split; [|done]. unfold is_answer. rewrite E3. b2p. tauto.
Qed.

Lemma read_loop_delivers e pick g r (c c' : conn_t) h data :
  read_loop e pick g r c = Ok c' -> pending c' !! h = Some (Some data) ->
  pending c !! h = Some (Some data) \/ exists m, r = Some m /\ answers m h data.
Proof.
  unfold read_loop. destruct r as [m|].
  - destruct (negb _); [intros [= <-]; by left|].
    set (c1 := (c <| MessagesReceived ::= _ |>) <| BytesReceived ::= _ |>).
    assert (pending c1 = pending c) as He by done. clearbody c1.
    intros [Hd|(info & Hp & Hi & ->)]%dispatchMessage_cases Hp'.
    + left. rewrite <- He. by apply Hd.
    + apply deliverResponse_pending in Hp' as [Hp'|[-> ->]]; [left; by rewrite <- He|].
      right. exists m. split; [done|]. split; [done|]. by exists info.
  - destruct (_ && _); intros [= <-] Hp'; [|by left]. left. by apply (handleFailure_later e c).
Qed.

Lemma step_delivers ev (c c' : conn_t) h data :
  step ev c = Ok c' -> pending c' !! h = Some (Some data) ->
  pending c !! h = Some (Some data) \/ delivers ev h data.
Proof.
  intros Hs Hp.
  assert (later c c' \/ exists e pick g r, ev = ERead e pick g r /\ read_loop e pick g r c = Ok c')
    as [Hl|(e & pick & g & r & -> & Hr)].
  - clear Hp. destruct ev as [e|e w d|e w pick|e w r|e pick delay|e pick|e r g k|e el|e pick g r|
      e ok|pick d| | |e|]; cbn [step] in Hs; try (by injection Hs as <-; left).
    + injection Hs as <-. left. etransitivity; [|apply resume_later]. by rewrite <- connect_begin_later.
    + left. destruct (pc_of w c); injection Hs as <-; try done.
      etransitivity; [|apply resume_later]. rewrite <- dial_result_later. by destruct w.
    + left. destruct (pc_of w c) as [| |k d| |]; try (by injection Hs as <-).
      destruct (enqueue_CER e pick k d (set_pc w PIdle c)) as [r|er|] eqn:Ee; [|done..].
      injection Hs as <-. apply enqueue_CER_later in Ee.
      etransitivity; [|apply resume_later]. rewrite <- Ee. by destruct w.
    + left. destruct (pc_of w c); injection Hs as <-; try done.
      etransitivity; [|apply resume_later]. rewrite <- CEA_result_later. by destruct w.
    + left. injection Hs as <-. unfold delay_end. destruct (_ && _).
      * etransitivity; [apply (finishReconnect_later false c)|]. done.
      * etransitivity; [|apply resume_later]. by rewrite <- connect_begin_later, <- setState_later.
    + left. by eapply tick_later.
    + left. injection Hs as <-. apply DWA_result_later.
    + left. injection Hs as <-. unfold health_tick. destruct (_ && _ && _); [|done].
      etransitivity; [apply (handleFailure_later e c)|done].
    + right. by exists e, pick, g, r.
    + left. injection Hs as <-. unfold write_loop. destruct (sendCh c) as [|d rest]; [done|]. cbv zeta.
      destruct (conn _); [|done]. destruct ok; [done|]. destruct (ctx_done _); [done|].
      by rewrite <- handleFailure_later.
    + left. unfold Send in Hs. destruct (negb _); [by injection Hs as <-|].
      destruct (select_send pick true d c) as [[c1 s]|er|] eqn:Es; [|done..].
      apply select_send_later in Es. destruct s; by injection Hs as <-.
    + left. injection Hs as <-. unfold Close_begin. cbv zeta.
      etransitivity; [|apply finishReconnect_later]. rewrite <- close_later.
      transitivity (setState StateClosed c); [apply setState_later|done].
  - left. by apply Hl.
  - destruct (read_loop_delivers _ _ _ _ _ _ _ _ Hr Hp) as [H|(m & -> & H)]; [by left|].
    right. by exists e, pick, g, m.
Qed.

(** C16: correlation of answers.  In every run, whatever a waiter of
    [performHandshake] or of the watchdog finds in its channel is a message
    that a read loop received in this run, a CEA or a DWA of the base
    protocol, not a request, and carries the Hop-by-Hop identifier that the
    waiter registered. *)
Theorem waiters_get_their_answers id cfg (ps : P) evs c h data :
  run (NewConnection id cfg ps) evs c -> pending c !! h = Some (Some data) ->
  exists e pick g m, ERead e pick g (Some m) ∈ evs /\ answers m h data.
Proof.
  intros Hr. assert (pending (NewConnection id cfg ps) = ∅) as H0 by done.
  generalize dependent (NewConnection id cfg ps). intros c0 Hr H0.
  enough (pending c !! h = Some (Some data) ->
    pending c0 !! h = Some (Some data) \/ exists ev, ev ∈ evs /\ delivers ev h data) as Hen.
  { intros [Hp|(ev & Hin & e & pick & g & m & -> & Ha)]%Hen; [by rewrite H0, lookup_empty in Hp|].
    by exists e, pick, g, m. }
  clear H0. induction Hr as [c0|c0 ev c1 evs c2 He Hs Hr IH]; [by left|].
  intros [Hp|(ev' & Hin & Hd)]%IH.
  - destruct (step_delivers _ _ _ _ _ Hs Hp) as [H|H]; [by left|].
    right. exists ev. split; [by constructor|done].
  - right. exists ev'. split; [by constructor|done].
Qed.

End Failures.
