(* ===== verification/ClientLife.v ===== *)
(** * The life cycle of a client connection, abstractly

    [Vitals] is what decides whether a connection comes up, stays up and is
    retried: its state and socket, who is connecting, the reconnect loop, the
    watchdog and the read loops.  [astep] is a specification of the life cycle
    on [Vitals] alone: no ports, no channels, no messages, no counters.
    [step_refines] shows that every step of [ClientConn] is one of its steps;
    the properties are proved on the specification. *)

From Stdlib Require Import Floats.SpecFloat.
From S2P Require Import Prelude Binary DataTypes Wire Message BaseMessages Framing ClientConn.

(** ** The abstract state and its operations *)

Record Vitals := {
  v_cfg : DRAConfig;
  v_state : ConnectionState;
  v_conn : option Z;
  v_gen : Z;
  v_starter : pc;
  v_reconnector : pc;
  v_ceiling : Z;
  v_reconnecting : bool;
  v_requested : bool;
  v_disabled : bool;
  v_ticker : bool;
  v_watchdog : bool;
  v_waiters : list (Z * Z);
  v_loops : list Z;
  v_ctx : bool;
  v_closing : bool;
  v_attempts : Z;
  v_failures : Z }.

Definition vset (s : ConnectionState) (v : Vitals) : Vitals := v <| v_state := s |>.

Definition vset_pc (w : who) (p : pc) (v : Vitals) : Vitals :=
  match w with Starter => v <| v_starter := p |> | Reconnector => v <| v_reconnector := p |> end.

Definition vpc (w : who) (v : Vitals) : pc :=
  match w with Starter => v_starter v | Reconnector => v_reconnector v end.

Definition vclose (v : Vitals) : Vitals :=
  v <| v_watchdog := if v_ticker v then false else v_watchdog v |> <| v_ticker := false |>
    <| v_gen := match v_conn v with Some _ => to_u64 (v_gen v + 1) | None => v_gen v end |>
    <| v_conn := None |>.

Definition vschedule (v : Vitals) : Vitals :=
  if v_reconnecting v then v <| v_requested := true |>
  else v <| v_reconnecting := true |> <| v_reconnector := PDelay |>
         <| v_ceiling := initial_delay (v_cfg v) |>.

Definition ignores_failure (v : Vitals) : bool :=
  v_ctx v || bool_decide (v_state v = StateClosed) ||
  (bool_decide (v_conn v = None) && bool_decide (v_state v = StateFailed \/ v_state v = StateReconnecting)).

Definition vfail (v : Vitals) : Vitals :=
  if ignores_failure v then v
  else
    let v1 := (vclose (vset StateFailed v)) <| v_failures ::= fun n => n + 1 |> in
    if v_disabled v then v1 else vschedule v1.

Definition vfinish (success : bool) (v : Vitals) : Vitals * bool :=
  if negb success || (state_IsActive (v_state v) && negb (v_requested v))
  then (v <| v_reconnecting := false |> <| v_requested := false |>, true)
  else (v <| v_requested := false |>, false).

(** A socket is installed. *)
Definition vinstall (v : Vitals) : Vitals :=
  let g := to_u64 (v_gen v + 1) in
  v <| v_conn := Some g |> <| v_gen := g |> <| v_loops ::= fun l => l ++ [g] |>.

Definition vopen (v : Vitals) : Vitals :=
  let v := vset StateOpen v in
  if v_ticker v then v else v <| v_ticker := true |> <| v_watchdog := true |>.

Definition vlost (v : Vitals) : Vitals := vset StateFailed (vclose v).

Definition vresume (w : who) (r : Vitals * progress) : Vitals :=
  match w, r with
  | _, (v, Continue p) => vset_pc w p v
  | Starter, (v, Failed) => vfail (v <| v_starter := PIdle |>)
  | Starter, (v, Connected) => v <| v_starter := PIdle |>
  | Reconnector, (v, Failed) =>
      v <| v_reconnector := PDelay |> <| v_ceiling ::= next_ceiling (v_cfg v) |>
  | Reconnector, (v, Connected) =>
      match vfinish true v with
      | (v, true) => v <| v_reconnector := PIdle |>
      | (v, false) => v <| v_reconnector := PDelay |> <| v_ceiling := initial_delay (v_cfg v) |>
      end
  end.

Definition vleave (g : Z) (v : Vitals) : Vitals :=
  v <| v_loops ::= List.filter (fun g' => negb (g' =? g)) |>.

Definition vserved (gh : Z * Z) (v : Vitals) : Vitals :=
  v <| v_waiters ::= List.filter (fun x => negb (bool_decide (x = gh))) |>.

(** ** The specification *)

(** How an attempt begins, and how it goes on from each of its waiting
    points. *)
Inductive begins (v : Vitals) : Vitals * progress -> Prop :=
| begins_dial la : begins v (vset StateConnecting v, Continue (PDial la))
| begins_no_port : begins v (vset StateFailed v, Failed).

Inductive goes_on : pc -> Vitals -> Vitals * progress -> Prop :=
| dial_refused la v : goes_on (PDial la) v (vset StateFailed v, Failed)
| dial_done la v h data : goes_on (PDial la) v (vset StateCERSent (vinstall v), Continue (PEnqueue h data))
| dial_lost la v : goes_on (PDial la) v (vlost (vinstall v), Failed)
| CER_waits h data v : goes_on (PEnqueue h data) v (v, Continue (PEnqueue h data))
| CER_queued h data v : goes_on (PEnqueue h data) v (v, Continue (PWait h))
| CER_lost h data v : goes_on (PEnqueue h data) v (vlost v, Failed)
| CEA_good h v : goes_on (PWait h) v (vopen v, Connected)
| CEA_bad h v : goes_on (PWait h) v (vlost v, Failed).

Inductive act : Type :=
| AStart | AAttempt (w : who) | ADelay | ATick | AWaiter | AHealth | ARecv | AReadFails | AWriteFails
| ATraffic | ADisable | ACancel | AClose.

#[export] Instance who_eq_dec : EqDecision who.
Proof. solve_decision. Defined.
#[export] Instance act_eq_dec : EqDecision act.
Proof. solve_decision. Defined.

Inductive astep : act -> Vitals -> Vitals -> Prop :=
| L_start v r :
    v_state v = StateDisconnected -> v_starter v = PIdle -> begins v r ->
    astep AStart v (vresume Starter r)
| L_attempt w v r :
    goes_on (vpc w v) (vset_pc w PIdle v) r -> astep (AAttempt w) v (vresume w r)
| L_delay v r :
    v_reconnector v = PDelay ->
    begins (v <| v_attempts ::= fun n => to_u64 (n + 1) |>) r ->
    astep ADelay v (vresume Reconnector r)
| L_delay_cancelled v :
    v_reconnector v = PDelay -> v_ctx v = true ->
    astep ADelay v ((vfinish false v).1 <| v_reconnector := PIdle |>)
| L_probe v h :
    v_watchdog v = true -> state_IsActive (v_state v) = true ->
    astep ATick v ((vset StateDWRSent v) <| v_waiters ::= fun l => l ++ [(v_gen v, h)] |>)
| L_probe_fails v s :
    v_watchdog v = true -> (s = v_state v \/ (s = StateDWRSent /\ state_IsActive (v_state v) = true)) ->
    astep ATick v (vfail ((vset s v) <| v_watchdog := false |>))
| L_waiter v gh : gh ∈ v_waiters v -> astep AWaiter v (vserved gh v)
| L_waiter_open v gh :
    gh ∈ v_waiters v -> gh.1 = v_gen v -> astep AWaiter v (vset StateOpen (vserved gh v))
| L_waiter_fails v gh :
    gh ∈ v_waiters v -> gh.1 = v_gen v -> astep AWaiter v (vfail (vserved gh v))
| L_health v : astep AHealth v v
| L_health_fails v : v_state v = StateDWRSent -> astep AHealth v (vfail v)
| L_recv v : astep ARecv v v
| L_recv_stale v g : g ∈ v_loops v -> g <> v_gen v -> astep ARecv v (vleave g v)
| L_leave v g :
    g ∈ v_loops v -> v_ctx v = true \/ g <> v_gen v -> astep AReadFails v (vleave g v)
| L_read_fails v g :
    g ∈ v_loops v -> g = v_gen v -> v_ctx v = false -> astep AReadFails v (vleave g (vfail v))
| L_write_fails v : v_conn v <> None -> v_ctx v = false -> astep AWriteFails v (vfail v)
| L_write_lost v : v_conn v = None \/ v_ctx v = true -> astep AWriteFails v v
| L_traffic v : astep ATraffic v v
| L_disable v : astep ADisable v (v <| v_disabled := true |>)
| L_cancel v : astep ACancel v (v <| v_ctx := true |>)
| L_close v :
    v_closing v = false ->
    astep AClose v
      (vfinish false (vclose ((vset StateClosed v) <| v_ctx := true |> <| v_closing := true |>))).1
| L_close_end v :
    v_closing v = true -> v_loops v = [] -> astep AClose v (v <| v_watchdog := false |>).

Inductive arun : Vitals -> list act -> Vitals -> Prop :=
| arun_nil v : arun v [] v
| arun_cons v a v1 acts v2 : astep a v v1 -> arun v1 acts v2 -> arun v (a :: acts) v2.

(** ** Invariants of the specification *)

Definition ceiling_bound (cfg : DRAConfig) : Z := Z.max (initial_delay cfg) (max_delay cfg).

(** One loop, one socket: a reconnect loop runs exactly while it is marked as
    running, the socket is of the current generation, and the loop's delay
    ceiling is in range. *)
Record life_inv (cfg : DRAConfig) (v : Vitals) : Prop := {
  li_cfg : v_cfg v = cfg;
  li_loop : v_closing v = false -> (v_reconnecting v = true <-> v_reconnector v <> PIdle);
  li_conn g : v_conn v = Some g -> v_gen v = g;
  li_ctx : v_closing v = true -> v_ctx v = true;
  li_ceiling : v_reconnector v = PDelay -> 0 < v_ceiling v <= ceiling_bound cfg }.

(** What the steps of an attempt do not touch. *)
Definition loop_of (v : Vitals) :=
  (v_cfg v, v_reconnecting v, v_closing v, v_ctx v, v_ceiling v).

Lemma initial_delay_pos cfg : 0 < initial_delay cfg.
Proof. unfold initial_delay, one_second. destruct (Z.leb_spec (ReconnectInterval cfg) 0); lia. Qed.

Lemma max_delay_pos cfg : 0 < max_delay cfg.
Proof.
  unfold max_delay. pose proof (initial_delay_pos cfg). destruct (Z.leb_spec (MaxReconnectDelay cfg) 0); lia.
Qed.

Lemma next_ceiling_range cfg ceiling : 0 < next_ceiling cfg ceiling <= max_delay cfg.
Proof.
  unfold next_ceiling. cbv zeta. pose proof (max_delay_pos cfg).
  set (next := int64_of _). clearbody next. destruct (_ || _) eqn:Hb; [lia|]. b2p. lia.
Qed.

Lemma begins_loop v r :
  begins v r -> loop_of r.1 = loop_of v /\ v_reconnector r.1 = v_reconnector v /\
  v_conn r.1 = v_conn v /\ v_gen r.1 = v_gen v.
Proof. by destruct 1. Qed.

Lemma goes_on_loop p v r :
  goes_on p v r -> loop_of r.1 = loop_of v /\ v_reconnector r.1 = v_reconnector v /\
  ((forall g, v_conn v = Some g -> v_gen v = g) -> forall g, v_conn r.1 = Some g -> v_gen r.1 = g).
Proof.
  destruct 1; cbn [fst]; unfold vlost, vopen; cbv zeta; try done.
  - split; [done|]. split; [done|]. intros _ g [= <-]. done.
  - by destruct (v_ticker _).
Qed.

Lemma goes_on_busy p v pr r : goes_on p v r -> r.2 = Continue pr -> pr <> PIdle /\ pr <> PDelay.
Proof. destruct 1; by intros [= <-]. Qed.

(** A change of fields that the invariant does not depend on. *)
Lemma life_inv_same cfg v v' :
  life_inv cfg v -> loop_of v' = loop_of v -> v_reconnector v' = v_reconnector v ->
  (forall g, v_conn v' = Some g -> v_gen v' = g) -> life_inv cfg v'.
Proof.
  unfold loop_of. intros [Ec Hl Hc Hx Hce] [= E1 E2 E3 E4 E5] Er Hg.
  split; by rewrite ?E1, ?E2, ?E3, ?E4, ?E5, ?Er.
Qed.

Lemma vfail_inv cfg v : life_inv cfg v -> life_inv cfg (vfail v).
Proof.
  intros [Ec Hl Hc Hx Hce]. unfold vfail. destruct (ignores_failure v) eqn:Hi; [done|].
  unfold ignores_failure in Hi. apply orb_false_iff in Hi as [[Hctx _]%orb_false_iff _].
  assert (v_closing v = false) as Hncl by (destruct (v_closing v) eqn:Hv; [by rewrite Hx in Hctx|done]).
  cbv zeta. set (v1 := (vclose (vset StateFailed v)) <| v_failures ::= _ |>).
  assert (life_inv cfg v1) as H1 by (by apply (life_inv_same cfg v)).
  destruct (v_disabled v); [done|]. assert (v_closing v1 = false) as Hncl1 by done.
  clearbody v1. clear -H1 Hncl1. destruct H1 as [Ec Hl Hc Hx Hce]. unfold vschedule.
  destruct (v_reconnecting v1) eqn:Hr; [by split; rsimpl; rewrite ?Hr|].
  split; rsimpl; try done. intros _. pose proof (initial_delay_pos cfg). unfold ceiling_bound. rewrite Ec. lia.
Qed.

Lemma vresume_starter_inv cfg v r :
  life_inv cfg v -> loop_of r.1 = loop_of v -> v_reconnector r.1 = v_reconnector v ->
  (forall g, v_conn r.1 = Some g -> v_gen r.1 = g) -> life_inv cfg (vresume Starter r).
Proof.
  intros Hi Hl Hr Hg. assert (life_inv cfg r.1) as H1 by (by eapply life_inv_same).
  destruct r as [v1 [p| |]]; cbn [fst vresume vset_pc] in *; [|apply vfail_inv|];
    by apply (life_inv_same cfg v1); [|..|apply H1].
Qed.

Lemma vresume_reconnector_inv cfg v r :
  life_inv cfg v -> v_reconnector v <> PIdle -> loop_of r.1 = loop_of v ->
  (forall g, v_conn r.1 = Some g -> v_gen r.1 = g) ->
  (forall p, r.2 = Continue p -> p <> PIdle /\ p <> PDelay) -> life_inv cfg (vresume Reconnector r).
Proof.
  intros [Ec Hl Hc Hx Hce] Hbusy Hloop Hg Hp. destruct r as [v1 pr]. unfold loop_of in Hloop. cbn [fst snd] in *.
  injection Hloop as E1 E2 E3 E4 E5.
  pose proof (next_ceiling_range cfg (v_ceiling v1)). pose proof (initial_delay_pos cfg).
  destruct pr as [p| |]; cbn [vresume vset_pc].
  - destruct (Hp p eq_refl) as [H1 H2]. split; rsimpl; rewrite ?E1, ?E2, ?E3, ?E4, ?E5; try done.
    intros H'. by rewrite (Hl H').
  - split; rsimpl; rewrite ?E1, ?E2, ?E3, ?E4, ?E5; try done.
    + intros H'. by rewrite (Hl H').
    + intros _. unfold ceiling_bound. rewrite Ec. rewrite E5 in *. lia.
  - unfold vfinish. destruct (_ || _); split; rsimpl; rewrite ?E1, ?E2, ?E3, ?E4, ?E5; try done.
    + intros H'. by rewrite (Hl H').
    + intros _. unfold ceiling_bound. rewrite Ec. lia.
Qed.

Lemma astep_inv cfg a v v' : life_inv cfg v -> astep a v v' -> life_inv cfg v'.
Proof.
  intros Hi Hs. pose proof (li_conn cfg v Hi) as Hg.
  destruct Hs as [v r Hst Hpc Hb|w v r Hgo|v r Hd Hb|v Hd Hx|v h Hw Ha|v s Hw Hss|v gh Hw|v gh Hw Hgh|
    v gh Hw Hgh|v|v Hst|v|v g Hin Hne|v g Hin Hne|v g Hin Hge Hx|v Hc Hx|v Hc|v|v|v|v Hc|v Hc Hl];
    try done; try (by apply (life_inv_same cfg v)); try (by apply vfail_inv).
  - apply begins_loop in Hb as (H1 & H2 & H3 & H4). apply (vresume_starter_inv cfg v); [done..|].
    by rewrite H3, H4.
  - pose proof (goes_on_loop _ _ _ Hgo) as (H1 & H2 & H3). destruct w; cbn [vset_pc vpc] in *.
    + by apply (vresume_starter_inv cfg v); [..|apply H3].
    + apply (vresume_reconnector_inv cfg v); [done| |done|by apply H3|].
      * intros He. rewrite He in Hgo. inversion Hgo.
      * intros p Hp. by eapply goes_on_busy.
  - pose proof (begins_loop _ _ Hb) as (H1 & H2 & H3 & H4). apply (vresume_reconnector_inv cfg v); [done|by rewrite Hd|done| |].
    + by rewrite H3, H4.
    + destruct Hb; by intros p [= <-].
  - destruct Hi as [Ec Hl Hc Hcx Hce]. unfold vfinish. cbn [negb orb fst]. by split; rsimpl.
  - apply vfail_inv. by apply (life_inv_same cfg v).
  - apply vfail_inv. by apply (life_inv_same cfg v).
  - assert (life_inv cfg (vfail v)) as Hf by by apply vfail_inv.
    apply (life_inv_same cfg (vfail v)); [done..|]. apply Hf.
  - destruct Hi as [Ec Hl Hc0 Hcx Hce]. unfold vfinish. cbn [negb orb fst]. split; rsimpl; try done.
  - destruct Hi as [Ec Hlo Hc0 Hcx Hce]. by split; rsimpl.
Qed.

Lemma arun_inv cfg acts v v' : arun v acts v' -> life_inv cfg v -> life_inv cfg v'.
Proof. induction 1 as [|v a v1 acts v2 Hs Hr IH]; [done|]. intros Hi. by eapply IH, astep_inv. Qed.

(** ** The first attempt *)

(** Nobody is left to bring the connection up: no socket, no goroutine in an
    attempt, no reconnect loop, no watchdog, only read loops of old sockets. *)
Record wedged (v : Vitals) : Prop := {
  wd_state : v_state v = StateFailed;
  wd_conn : v_conn v = None;
  wd_pcs : v_starter v = PIdle /\ v_reconnector v = PIdle;
  wd_watch : v_watchdog v = false /\ v_waiters v = [];
  wd_loops : Forall (fun g => g <> v_gen v) (v_loops v);
  wd_closing : v_closing v = false;
  wd_counts : v_attempts v = 0 /\ v_failures v = 0 }.

Lemma Forall_List_filter {A} (Q : A -> Prop) f (l : list A) : Forall Q l -> Forall Q (List.filter f l).
Proof. induction 1 as [|x l Hx Hl IH]; cbn; [done|]. destruct (f x); [by constructor|done]. Qed.

Lemma vfail_down v : v_conn v = None -> v_state v = StateFailed -> vfail v = v.
Proof.
  intros Hc Hs. unfold vfail, ignores_failure. rewrite Hc, Hs. cbn.
  by rewrite orb_true_r.
Qed.

Lemma wedged_step a v v' : wedged v -> astep a v v' -> a <> AClose -> wedged v'.
Proof.
  intros W Hs Hna. pose proof (vfail_down v (wd_conn v W) (wd_state v W)) as Hf.
  destruct W as [Ws Wc [Wp Wr] [Ww Wd] Wl Wx [W1 W2]].
  destruct Hs as [v r Hst Hpc Hb|w v r Hgo|v r Hd Hb|v Hd Hx|v h Hw Ha|v s Hw Hss|v gh Hw|v gh Hw Hgh|
    v gh Hw Hgh|v|v Hst|v|v g Hin Hne|v g Hin Hne|v g Hin Hge Hx|v Hc Hx|v Hc|v|v|v|v Hc|v Hc Hl];
    try congruence; try (rewrite Wd in Hw; by apply elem_of_nil in Hw); try by split.
  - destruct w; cbn [vpc] in Hgo; rewrite ?Wp, ?Wr in Hgo; inversion Hgo.
  - split; rsimpl; try done. by apply Forall_List_filter.
  - split; rsimpl; try done. by apply Forall_List_filter.
  - exfalso. rewrite Forall_forall in Wl. by apply (Wl g).
Qed.

Lemma wedged_run v acts v' : arun v acts v' -> wedged v -> (AClose ∉ acts) -> wedged v'.
Proof.
  induction 1 as [|v a v1 acts v2 Hs Hr IH]; [done|]. intros W Hn.
  apply not_elem_of_cons in Hn as [H1 H2]. apply IH; [|done]. eapply wedged_step; [done..|congruence].
Qed.

(** The stages of a first attempt to which nothing happens from outside. *)
Definition first_stage (v : Vitals) : Prop :=
  match v_state v with
  | StateDisconnected => v_starter v = PIdle /\ v_conn v = None /\ v_loops v = [] /\ v_gen v = 0
  | StateConnecting =>
      (exists la, v_starter v = PDial la) /\ v_conn v = None /\ v_loops v = [] /\ v_gen v = 0
  | StateCERSent =>
      (exists h, v_starter v = PWait h \/ exists data, v_starter v = PEnqueue h data) /\
      v_conn v = Some 1 /\ Forall (eq 1) (v_loops v) /\ v_gen v = 1
  | StateOpen => v_starter v = PIdle
  | StateFailed =>
      v_starter v = PIdle /\ v_conn v = None /\ Forall (fun g => g <> v_gen v) (v_loops v)
  | _ => False
  end.

Definition untouched (v : Vitals) : Prop :=
  v_reconnector v = PIdle /\ v_waiters v = [] /\ v_closing v = false /\ v_attempts v = 0 /\ v_failures v = 0.

Record first (v : Vitals) : Prop := {
  fi_stage : first_stage v;
  fi_rest : untouched v;
  fi_dog : v_state v <> StateOpen -> v_watchdog v = false /\ v_ticker v = false }.

Lemma first_wedged v : first v -> v_state v = StateFailed -> wedged v.
Proof.
  intros [Fs (F1 & F2 & F3 & F4 & F5) Fd] Hs. unfold first_stage in Fs. rewrite Hs in Fs.
  destruct Fs as (? & ? & ?). destruct Fd as [? ?]; [by rewrite Hs|]. by split.
Qed.

(** A failed attempt of [Start]: [handleFailure] finds the connection already
    failed, without a socket, and returns. *)
Lemma first_failed v :
  v_conn v = None -> Forall (fun g => g <> v_gen v) (v_loops v) -> untouched v ->
  v_watchdog v = false /\ v_ticker v = false -> first (vresume Starter (vset StateFailed v, Failed)).
Proof. intros Hc Hl Hu Hd. cbn [vresume]. rewrite vfail_down by done. by split. Qed.

Lemma first_begins v r :
  first v -> v_state v = StateDisconnected -> begins v r -> first (vresume Starter r).
Proof.
  intros [Fs Fu Fd] Hs Hb. unfold first_stage in Fs. rewrite Hs in Fs. destruct Fs as (S1 & S2 & S3 & S4).
  destruct Fd as [D1 D2]; [by rewrite Hs|]. destruct Hb.
  - split; [|done..]. unfold first_stage. cbn. split; [by exists la|done].
  - apply first_failed; try done. rewrite S3. constructor.
Qed.

Lemma first_goes_on v r :
  first v -> goes_on (v_starter v) (v <| v_starter := PIdle |>) r -> first (vresume Starter r).
Proof.
  intros [Fs Fu Fd] Hgo. unfold first_stage in Fs.
  assert (v_starter v <> PIdle) as Hb by (intros He; rewrite He in Hgo; inversion Hgo).
  assert (v_state v = StateConnecting \/ v_state v = StateCERSent) as Hs
    by (destruct (v_state v); try done; try (by left); try (by right); by destruct Fs).
  destruct Hs as [Hs|Hs]; rewrite Hs in Fs; (destruct Fd as [D1 D2]; [by rewrite Hs|]).
  - destruct Fs as ((la & Hp) & S2 & S3 & S4). rewrite Hp in Hgo. inversion Hgo; subst.
    + apply first_failed; try done. rsimpl. rewrite S3. constructor.
    + split; [|done..].
      assert ((exists h', PEnqueue h data = PWait h' \/ exists d, PEnqueue h data = PEnqueue h' d) /\
        Some (to_u64 (v_gen v + 1)) = Some 1 /\
        Forall (eq 1) (v_loops v ++ [to_u64 (v_gen v + 1)]) /\ to_u64 (v_gen v + 1) = 1) as H; [|exact H].
      rewrite S3, S4. split; [exists h; right; by exists data|]. split; [done|]. by repeat constructor.
    + assert (Forall (fun g => g <> to_u64 (to_u64 (v_gen v + 1) + 1)) (v_loops v ++ [to_u64 (v_gen v + 1)])) as H
        by (rewrite S3, S4; by repeat constructor).
      assert ((if v_ticker v then false else v_watchdog v) = false /\ false = false) as H'
        by (by rewrite D2).
      unfold vlost. by apply first_failed; [|exact H|exact Fu|exact H'].
  - destruct Fs as ((h & Hp) & S2 & S3 & S4).
    assert (first (vresume Starter (vlost (v <| v_starter := PIdle |>), Failed))) as Hlost.
    { unfold vlost. apply first_failed; try done; unfold vclose; rsimpl.
      - rewrite S2, S4. eapply Forall_impl; [exact S3|]. by intros g <-.
      - by rewrite D2. }
    destruct Hp as [Hp|[data Hp]]; rewrite Hp in Hgo; inversion Hgo; subst; try done.
    + unfold vopen, vset. cbv zeta. rsimpl. rewrite D2. by split.
    + split; [|done..]. unfold first_stage. cbn [vresume vset_pc]. rsimpl. rewrite Hs. split; [exists h; right; by exists data|done].
    + split; [|done..]. unfold first_stage. cbn [vresume vset_pc]. rsimpl. rewrite Hs. split; [exists h; by left|done].
Qed.

Definition attempt (a : act) : bool :=
  match a with AStart | AAttempt Starter | ARecv | ATraffic | ADisable => true | _ => false end.

Lemma first_step a v v' : first v -> astep a v v' -> attempt a = true -> first v'.
Proof.
  intros F Hs Ha.
  destruct Hs as [v r Hst Hpc Hb|w v r Hgo| | | | | | | | | |v|v g Hin Hne| | | | |v|v| | | ]; try done.
  - by eapply first_begins.
  - destruct w; [|done]. by eapply first_goes_on.
  - destruct F as [Fs Fu Fd]. split; [|done..]. unfold first_stage, vleave in *. rsimpl.
    destruct (v_state v); try done.
    + destruct Fs as (? & ? & -> & ?). done.
    + destruct Fs as (? & ? & -> & ?). done.
    + destruct Fs as (? & ? & ? & ?). split_and!; try done. by apply Forall_List_filter.
    + destruct Fs as (? & ? & ?). split_and!; try done. by apply Forall_List_filter.
  - destruct F as [Fs Fu Fd]. by split.
Qed.

Lemma first_run v acts v' : arun v acts v' -> first v -> forallb attempt acts = true -> first v'.
Proof.
  induction 1 as [|v a v1 acts v2 Hs Hr IH]; [done|]. cbn. intros F [H1 H2]%andb_true_iff.
  apply IH; [|done]. by eapply first_step.
Qed.

(** ** The refinement *)

Section Refinement.
Context {E P : Type} {PS : PortSource E P}.
Abbreviation conn_t := (Connection P).
Abbreviation event_t := (ClientConn.event E).

Definition vitals (c : conn_t) : Vitals :=
  {| v_cfg := config c; v_state := state c; v_conn := conn c; v_gen := connGeneration c;
     v_starter := starter c; v_reconnector := reconnector c; v_ceiling := ceiling c;
     v_reconnecting := reconnecting c; v_requested := reconnectRequested c;
     v_disabled := reconnectDisabled c; v_ticker := dwrTicker c; v_watchdog := watchdog c;
     v_waiters := dwrWaiters c; v_loops := readLoops c; v_ctx := ctx_done c;
     v_closing := closing c; v_attempts := ReconnectAttempts c; v_failures := onFailures c |}.

Definition act_of (ev : event_t) : act :=
  match ev with
  | EStart _ => AStart
  | EDial _ w _ | EEnqueue _ w _ | EWait _ w _ => AAttempt w
  | EDelay _ _ _ => ADelay
  | ETick _ _ => ATick
  | EDWA _ _ _ _ => AWaiter
  | EHealth _ _ => AHealth
  | ERead _ _ _ (Some _) => ARecv
  | ERead _ _ _ None => AReadFails
  | EWrite _ false => AWriteFails
  | EWrite _ true | ESend _ _ => ATraffic
  | EDisableReconnect => ADisable
  | ECancel => ACancel
  | EClose _ | ECloseEnd => AClose
  end.

Lemma vitals_setState s c : vitals (setState s c) = vset s (vitals c).
Proof. unfold setState. case_decide as Hd; [by rewrite <- Hd|done]. Qed.

Lemma vitals_release_addr e a c : vitals (release_addr e a c) = vitals c.
Proof. unfold release_addr. destruct a; [|done]. by destruct (AcquireLocalAddr _). Qed.

Lemma vitals_stopWatchdog c :
  vitals (stopWatchdog c) =
  (vitals c) <| v_watchdog := if dwrTicker c then false else watchdog c |> <| v_ticker := false |>.
Proof. unfold stopWatchdog. destruct (dwrTicker c) eqn:Et; [done|]. unfold vitals. by rewrite Et. Qed.

Lemma vitals_close e c : vitals (close e c) = vclose (vitals c).
Proof.
  unfold close. cbv zeta. rewrite vitals_release_addr.
  transitivity (let v := vitals (stopWatchdog c) in
    v <| v_gen := match v_conn v with Some _ => to_u64 (v_gen v + 1) | None => v_gen v end |>
      <| v_conn := None |>); [|by rewrite vitals_stopWatchdog].
  generalize (stopWatchdog c). intros c0. cbv zeta. change (v_conn (vitals c0)) with (conn c0).
  destruct (conn c0) eqn:Ec; [done|]. unfold vitals. rsimpl. by rewrite Ec.
Qed.

Lemma vitals_scheduleReconnect c : vitals (scheduleReconnect c) = vschedule (vitals c).
Proof. unfold scheduleReconnect, vschedule. cbn. by destruct (reconnecting c). Qed.

Lemma vitals_handleFailure e c : vitals (handleFailure e c) = vfail (vitals c).
Proof.
  unfold handleFailure, vfail, ignores_failure. cbn [vitals v_ctx v_state v_conn v_disabled].
  destruct (ctx_done c || _); [done|]. cbn [orb].
  assert (negb (bool_decide (conn c <> None)) = bool_decide (conn c = None)) as ->
    by (by destruct (conn c)).
  destruct (bool_decide (conn c = None) && _); [done|]. cbv zeta.
  assert (vitals ((close e (setState StateFailed c)) <| onFailures ::= fun n => n + 1 |>) =
    (vclose (vset StateFailed (vitals c))) <| v_failures ::= fun n => n + 1 |>) as Hc.
  { rewrite <- vitals_setState, <- vitals_close with (e := e). done. }
  destruct (reconnectDisabled c); cbn [negb]; [done|]. by rewrite vitals_scheduleReconnect, Hc.
Qed.

Lemma vitals_finishReconnect b c :
  (vitals (finishReconnect b c).1, (finishReconnect b c).2) = vfinish b (vitals c).
Proof. unfold finishReconnect, vfinish, IsActive. cbn. by destruct (_ || _). Qed.
Create Rewrite HintDb vitals.
#[local] Hint Rewrite vitals_setState vitals_release_addr vitals_close vitals_handleFailure : vitals.

Definition vprogress (r : conn_t * progress) : Vitals * progress := (vitals r.1, r.2).

Lemma vitals_resume e w r : vitals (resume e w r) = vresume w (vprogress r).
Proof.
  destruct r as [c pr]. unfold vprogress. cbn [fst snd].
  destruct w, pr; cbn [resume vresume vset_pc]; try done.
  - by rewrite vitals_handleFailure.
  - change (vitals c) with (vitals (c <| ReconnectSuccesses ::= fun n => to_u64 (n + 1) |>)).
    rewrite <- vitals_finishReconnect. destruct (finishReconnect true _) as [c' []]; done.
Qed.

Lemma vitals_handshake_failed e c : vprogress (handshake_failed e c) = (vlost (vitals c), Failed).
Proof. unfold vprogress, handshake_failed, vlost. cbn [fst snd]. by autorewrite with vitals. Qed.

Lemma connect_begin_begins e c : begins (vitals c) (vprogress (connect_begin e c)).
Proof.
  unfold connect_begin. cbv zeta. set (c1 := setState StateConnecting c).
  assert (vitals c1 = vset StateConnecting (vitals c)) as Hv by apply vitals_setState.
  clearbody c1. unfold vprogress. destruct (AcquireLocalAddr _).
  - destruct (acquire _ _ _) as [ps [la|]]; cbn [fst snd].
    + change (vitals (c1 <| ports := ps |>)) with (vitals c1). rewrite Hv. constructor.
    + rewrite vitals_setState. change (vitals (c1 <| ports := ps |>)) with (vitals c1). rewrite Hv.
      change (vset StateFailed (vset StateConnecting (vitals c))) with (vset StateFailed (vitals c)). constructor.
  - cbn [fst snd]. rewrite Hv. constructor.
Qed.

Lemma vitals_set_pc w p c : vitals (set_pc w p c) = vset_pc w p (vitals c).
Proof. by destruct w. Qed.

Lemma vpc_vitals w c : vpc w (vitals c) = pc_of w c.
Proof. by destruct w. Qed.

Lemma select_send_vitals pick dflt data c c' r :
  select_send pick dflt data c = Ok (c', r) -> vitals c' = vitals c.
Proof. unfold select_send. intros Hs. repeat case_match_in Hs; by simplify_eq. Qed.

Lemma dispatchMessage_vitals pick m c c' : dispatchMessage pick m c = Ok c' -> vitals c' = vitals c.
Proof.
  unfold dispatchMessage, handleDWR, select_recv, deliverResponse. intros Hs.
  repeat case_match_in Hs; simplify_eq; try done; by eapply select_send_vitals.
Qed.

Lemma Send_vitals pick data c c' r : Send pick data c = Ok (c', r) -> vitals c' = vitals c.
Proof.
  unfold Send. intros Hs. destruct (negb _); [by simplify_eq|].
  destruct (select_send pick true data c) as [[c1 s]|?|] eqn:Es; [|done..].
  apply select_send_vitals in Es. destruct s; by injection Hs as <- <-.
Qed.

Lemma dial_result_goes_on e la d c : goes_on (PDial la) (vitals c) (vprogress (dial_result e la d c)).
Proof.
  unfold dial_result. destruct d as [ip|].
  - unfold nextHopByHopID, nextEndToEndID. set (c1 := _ <| endToEndID := _ |>).
    assert (vitals c1 = vinstall (vitals c)) as Hv by done. clearbody c1.
    destruct (CapabilitiesExchangeRequest.Marshal _).2;
      [|rewrite vitals_handshake_failed, Hv; constructor..].
    unfold vprogress. cbn [fst snd]. rewrite vitals_setState.
    change (vitals (registerPending ?h c1)) with (vitals c1). rewrite Hv. constructor.
  - unfold vprogress. cbn [fst snd]. autorewrite with vitals. constructor.
Qed.

Lemma enqueue_CER_goes_on e pick h data c r :
  enqueue_CER e pick h data c = Ok r -> goes_on (PEnqueue h data) (vitals c) (vprogress r).
Proof.
  unfold enqueue_CER. destruct (select_send pick false data c) as [[c' s]|er|] eqn:Es; [|done..].
  apply select_send_vitals in Es. rewrite <- Es.
  destruct s; intros [= <-]; try constructor; rewrite vitals_handshake_failed; constructor.
Qed.

Lemma CEA_result_goes_on e w h c : goes_on (PWait h) (vitals c) (vprogress (CEA_result e w h c)).
Proof.
  unfold CEA_result. cbv zeta. destruct (match w with GotCEA => _ | _ => _ end).
  - unfold vprogress. cbn [fst snd]. set (c1 := unregisterPending h c).
    pose proof (vitals_setState StateOpen c1) as Hs. change (vitals c1) with (vitals c) in Hs.
    generalize dependent (setState StateOpen c1). intros c2 Hs.
    assert (vitals (startWatchdog (c2 <| dwrFailureCount := 0 |>)) = vopen (vitals c)) as ->; [|constructor].
    unfold startWatchdog, vopen. rewrite <- Hs. cbv zeta. cbn [vitals v_ticker]. rsimpl.
    by destruct (dwrTicker c2).
  - rewrite vitals_handshake_failed. constructor.
Qed.

Lemma tick_refines e pick c c' :
  watchdog c = true -> tick e pick c = Ok c' -> astep ATick (vitals c) (vitals c').
Proof.
  intros Hw. unfold tick. destruct (IsActive c) eqn:Ha; cbn [negb].
  2: { intros [= <-]. rewrite vitals_handleFailure. by apply (L_probe_fails (vitals c) (state c)); [|left]. }
  unfold nextHopByHopID, nextEndToEndID. set (c1 := (c <| hopByHopID := _ |>) <| endToEndID := _ |>).
  assert (vitals c1 = vitals c) as Hv by done. clearbody c1.
  destruct (DeviceWatchdogRequest.Marshal _).2 as [data|er|].
  2-3: intros [= <-]; rewrite vitals_handleFailure;
    change (vitals (c1 <| watchdog := false |>)) with ((vitals c1) <| v_watchdog := false |>);
    rewrite Hv; by apply (L_probe_fails (vitals c) (state c)); [|left].
  set (h := to_u32 _). set (c2 := setState _ _).
  assert (vitals c2 = vset StateDWRSent (vitals c)) as Hv2.
  { unfold c2. rewrite vitals_setState. by change (vitals (registerPending h c1)) with (vitals c1); rewrite Hv. }
  clearbody c2. destruct (select_send pick false data c2) as [[c3 s]|er|] eqn:Es; [|done..].
  apply select_send_vitals in Es. rewrite Hv2 in Es.
  assert (forall c4, vitals c4 = (vset StateDWRSent (vitals c)) <| v_watchdog := false |> ->
    astep ATick (vitals c) (vitals (handleFailure e c4))) as Hf.
  { intros c4 Hc. rewrite vitals_handleFailure, Hc. apply (L_probe_fails (vitals c) StateDWRSent); [done|by right]. }
  destruct s; intros [= <-]; try (apply Hf; unfold unregisterPending; rewrite <- Es; done).
  change (vitals (c3 <| dwrWaiters ::= ?f |>)) with ((vitals c3) <| v_waiters ::= f |>).
  rewrite Es. by apply (L_probe (vitals c) h).
Qed.

Lemma vitals_handleDWRFailure e c :
  vitals (handleDWRFailure e c) = vitals c \/ vitals (handleDWRFailure e c) = vfail (vitals c).
Proof.
  unfold handleDWRFailure. cbv zeta. destruct (_ <=? _); [right|by left]. by rewrite vitals_handleFailure.
Qed.

Lemma vitals_handleDWA data c :
  vitals (handleDWA data c).1 = (if (handleDWA data c).2 then vset StateOpen (vitals c) else vitals c).
Proof.
  unfold handleDWA. destruct (DeviceWatchdogAnswer.Unmarshal _ _) as [dwa [u|er|]]; [|done..].
  destruct (IsSuccess _); [|done]. cbn [fst snd]. by rewrite <- vitals_setState.
Qed.

Lemma DWA_result_refines e r g h c :
  (g, h) ∈ dwrWaiters c -> astep AWaiter (vitals c) (vitals (DWA_result e r g h c)).
Proof.
  intros Hin. unfold DWA_result. cbv zeta. set (c1 := c <| dwrWaiters ::= _ |>).
  assert (vitals c1 = vserved (g, h) (vitals c)) as Hv by done.
  assert (isCurrentGeneration g c1 = true -> g = v_gen (vitals c)) as Hg
    by (intros He%Z.eqb_eq; symmetry; exact He).
  generalize dependent c1. intros c1 Hv Hg.
  change (vitals (unregisterPending h ?x)) with (vitals x).
  assert (forall c2, vitals c2 = vitals c1 -> isCurrentGeneration g c1 = true ->
    astep AWaiter (vitals c) (vitals (handleDWRFailure e c2))) as Hf.
  { intros c2 E2 H. destruct (vitals_handleDWRFailure e c2) as [->| ->]; rewrite E2, Hv;
      [by apply (L_waiter _ (g, h))|apply (L_waiter_fails _ (g, h)); [done|by apply Hg]]. }
  assert (astep AWaiter (vitals c) (vitals c1)) as H0 by (rewrite Hv; by apply (L_waiter _ (g, h))).
  destruct r.
  - destruct (pending c !! h) as [[data|]|]; [|done..].
    destruct (isCurrentGeneration g c1) eqn:Hcur; [|done].
    pose proof (vitals_handleDWA data c1) as Hs. destruct (handleDWA data c1) as [c2 []]; cbn [fst snd] in Hs.
    + rewrite Hs, Hv. apply (L_waiter_open _ (g, h)); [done|by apply Hg].
    + by apply Hf.
  - destruct (isCurrentGeneration g c1) eqn:Hcur; [by apply Hf|done].
  - done.
Qed.

Lemma read_loop_refines e pick g r c c' :
  g ∈ readLoops c -> read_loop e pick g r c = Ok c' ->
  astep (match r with Some _ => ARecv | None => AReadFails end) (vitals c) (vitals c').
Proof.
  intros Hin. unfold read_loop. unfold isCurrentGeneration. destruct r as [m|].
  - destruct (connGeneration c =? g) eqn:Hg; cbn [negb].
    + intros Hd%dispatchMessage_vitals. rewrite Hd. apply (L_recv (vitals c)).
    + intros [= <-]. apply Z.eqb_neq in Hg. by apply (L_recv_stale (vitals c) g); [|apply not_eq_sym].
  - destruct (negb (ctx_done c) && (connGeneration c =? g)) eqn:Hb; intros [= <-].
    + b2p. destruct Hb as [H1 H2].
      change (vitals (?x <| readLoops ::= ?f |>)) with ((vitals x) <| v_loops ::= f |>).
      rewrite vitals_handleFailure. by apply (L_read_fails (vitals c) g).
    + apply (L_leave (vitals c) g); [done|]. cbn [vitals v_ctx v_gen]. b2p.
      destruct Hb as [Hb|Hb]; [left|right; congruence]. by destruct (ctx_done c).
Qed.

Lemma begins_set s v r : begins (vset s v) r -> begins v r.
Proof.
  intros Hb. destruct Hb.
  - change (vset StateConnecting (vset s v)) with (vset StateConnecting v). apply begins_dial.
  - change (vset StateFailed (vset s v)) with (vset StateFailed v). apply begins_no_port.
Qed.

(** Every step of a connection is a step of the specification. *)
Lemma step_refines ev c c' :
  enabled ev c -> step ev c = Ok c' -> astep (act_of ev) (vitals c) (vitals c').
Proof.
  destruct ev as [e|e w d|e w pick|e w r|e pick delay|e pick|e r g h|e el|e pick g r|
    e ok|pick data| | |e|]; cbn [enabled step act_of]; intros He Hs.
  - injection Hs as <-. destruct He as [H1 H2]. unfold Start. rewrite vitals_resume.
    apply L_start; [done..|].
    change (vitals c) with (vitals (c <| healthLoop := true |>)). apply connect_begin_begins.
  - destruct He as [la Hp]. rewrite Hp in Hs. injection Hs as <-. rewrite vitals_resume.
    apply L_attempt. rewrite vpc_vitals, Hp, <- vitals_set_pc. apply dial_result_goes_on.
  - destruct He as (h & data & Hp). rewrite Hp in Hs.
    destruct (enqueue_CER e pick h data (set_pc w PIdle c)) as [r|er|] eqn:Ee; [|done..].
    injection Hs as <-. rewrite vitals_resume.
    apply L_attempt. rewrite vpc_vitals, Hp, <- vitals_set_pc. by eapply enqueue_CER_goes_on.
  - destruct He as (h & Hp & _). rewrite Hp in Hs. injection Hs as <-. rewrite vitals_resume.
    apply L_attempt. rewrite vpc_vitals, Hp, <- vitals_set_pc. apply CEA_result_goes_on.
  - injection Hs as <-. destruct He as [Hp _]. unfold delay_end. cbv zeta.
    destruct (ctx_done c && negb pick) eqn:Hx.
    + apply andb_true_iff in Hx as [Hx _].
      pose proof (vitals_finishReconnect false c) as Hf. apply (f_equal fst) in Hf. cbn [fst] in Hf.
      change (vitals (?x <| reconnector := PIdle |>)) with ((vitals x) <| v_reconnector := PIdle |>).
      rewrite Hf. by apply L_delay_cancelled.
    + rewrite vitals_resume. apply L_delay; [done|].
      set (c1 := setState StateReconnecting _).
      pose proof (connect_begin_begins e c1) as Hb. unfold c1 in Hb at 1. rewrite vitals_setState in Hb.
      by apply begins_set in Hb.
  - destruct He as [Hw _]. by eapply tick_refines.
  - destruct He as [Hw _]. injection Hs as <-. by apply DWA_result_refines.
  - injection Hs as <-. unfold health_tick. destruct (_ && _ && _) eqn:Hb; [|apply L_health].
    b2p. change (vitals (?x <| healthLoop := false |>)) with (vitals x). rewrite vitals_handleFailure.
    apply L_health_fails. apply Hb.
  - destruct He as [Hg _]. pose proof (read_loop_refines e pick g r c c' Hg Hs) as H. by destruct r.
  - injection Hs as <-. unfold write_loop. destruct (sendCh c) as [|data rest]; [done|]. cbv zeta.
    set (c1 := c <| sendCh := rest |>). assert (vitals c1 = vitals c) as Hv by done. clearbody c1.
    rewrite <- Hv. change (conn c1) with (v_conn (vitals c1)). change (ctx_done c1) with (v_ctx (vitals c1)).
    destruct (v_conn (vitals c1)) eqn:Ec.
    + destruct ok; [apply (L_traffic (vitals c1))|]. destruct (v_ctx (vitals c1)) eqn:Ex.
      * apply (L_write_lost (vitals c1)). by right.
      * rewrite vitals_handleFailure. apply L_write_fails; [by rewrite Ec|done].
    + destruct ok; [apply (L_traffic (vitals c1))|]. apply (L_write_lost (vitals c1)). by left.
  - destruct (Send pick data c) as [[c1 s]|er|] eqn:Es; [|done..]. injection Hs as <-.
    apply Send_vitals in Es. rewrite Es. apply L_traffic.
  - injection Hs as <-. apply L_disable.
  - injection Hs as <-. apply L_cancel.
  - injection Hs as <-. unfold Close_begin. cbv zeta.
    set (c1 := setState StateClosed c <| ctx_done := true |> <| closing := true |>).
    match goal with |- context [finishReconnect false ?x] => pose proof (vitals_finishReconnect false x) as Hf end.
    apply (f_equal fst) in Hf. cbn [fst] in Hf. rewrite Hf. rewrite vitals_close.
    change (vitals (?x <| ctx_done := true |> <| closing := true |>))
      with ((vitals x) <| v_ctx := true |> <| v_closing := true |>).
    rewrite vitals_setState. by apply L_close.
  - injection Hs as <-. destruct He as (H1 & H2 & _). by apply L_close_end.
Qed.

(** ** Properties of connections *)

Lemma run_arun evs c c' : run c evs c' -> arun (vitals c) (map act_of evs) (vitals c').
Proof.
  induction 1 as [|c ev c1 evs c2 He Hs Hr IH]; [constructor|]. cbn [map].
  econstructor; [by eapply step_refines|done].
Qed.

Lemma NewConnection_inv id cfg ps : life_inv cfg (vitals (NewConnection id cfg ps)).
Proof. by split. Qed.

Lemma NewConnection_first id cfg ps : first (vitals (NewConnection id cfg ps)).
Proof. by split. Qed.

Lemma run_life_inv id cfg ps evs c : run (NewConnection id cfg ps) evs c -> life_inv cfg (vitals c).
Proof. intros Hr%run_arun. eapply arun_inv; [exact Hr|apply NewConnection_inv]. Qed.

(** C14: refinement.  Every run of a connection, with its sockets, ports,
    channels, messages and pending tables, is step for step a run of the
    life-cycle specification on the vitals, in which dials, handshakes, the
    watchdog, the read and write loops, the reconnect loop and [Close] are
    abstract actions. *)
Theorem lifecycle_refines id cfg ps evs c :
  run (NewConnection id cfg ps) evs c ->
  arun (vitals (NewConnection id cfg ps)) (map act_of evs) (vitals c).
Proof. apply run_arun. Qed.

(** A reconnect loop dials, waits for its handshake or waits out its delay. *)
Definition loop_running (c : conn_t) : bool :=
  match reconnector c with PIdle => false | _ => true end.

(** C15: one reconnect loop, one socket.  In every run, until [Close], a
    reconnect loop is running exactly while the connection is marked as
    reconnecting, so [scheduleReconnect] never starts a second one beside a
    loop that dials, waits for its handshake or waits out its delay; and the
    installed socket is always the one of the current generation, so that the
    read loops and watchdogs of earlier sockets are recognised as stale. *)
Theorem one_reconnect_loop id cfg ps evs c :
  run (NewConnection id cfg ps) evs c ->
  (closing c = false -> reconnecting c = loop_running c) /\
  (forall g, conn c = Some g -> forall g', isCurrentGeneration g' c = true <-> g' = g).
Proof.
  intros Hr%run_life_inv. split.
  { intros Hc. pose proof (li_loop _ _ Hr Hc) as Hl. cbn in Hl. unfold loop_running.
    destruct (reconnecting c), (reconnector c); try done; [by destruct Hl as [[] _]|by apply Hl..]. } intros g Hg g'. pose proof (li_conn _ _ Hr g Hg) as Hgen.
  cbn in Hgen. unfold isCurrentGeneration. rewrite Hgen, Z.eqb_eq. by split.
Qed.

(** The reconnect delay.  Whatever the configured durations and backoff
    factor, the [float64] product of the ceiling included, in every run the
    loop that waits has a positive ceiling, at most the larger of the initial
    and the maximal delay; so, unless a duration is the largest [int64],
    [rand.Int63n] does not panic and the delay lies between zero and the
    ceiling. *)
Theorem backoff_bounded id cfg ps evs c :
  ReconnectInterval cfg < 2 ^ 63 - 1 -> MaxReconnectDelay cfg < 2 ^ 63 - 1 ->
  run (NewConnection id cfg ps) evs c -> reconnector c = PDelay ->
  0 < ceiling c <= ceiling_bound cfg /\
  0 < to_i64 (ceiling c + 1) /\
  (forall delay, delay_ok (ceiling c) delay <-> 0 <= delay <= ceiling c).
Proof.
  intros Hi Hm Hr%run_life_inv Hp. pose proof (li_ceiling _ _ Hr Hp) as Hc. cbn [vitals v_ceiling] in Hc.
  assert (ceiling_bound cfg < 2 ^ 63 - 1) as Hmax.
  { unfold ceiling_bound, max_delay, initial_delay, one_second.
    destruct (Z.leb_spec (ReconnectInterval cfg) 0), (Z.leb_spec (MaxReconnectDelay cfg) 0); lia. }
  assert (to_i64 (ceiling c + 1) = ceiling c + 1) as He by (apply to_i64_id; unfold i64; lia).
  unfold delay_ok. rewrite He. split; [done|]. split; [lia|]. intros delay. lia.
Qed.

(** A connection whose first attempt has failed is never retried. *)
Lemma never_retried id cfg ps acts1 v acts2 v' :
  arun (vitals (NewConnection id cfg ps)) acts1 v -> forallb attempt acts1 = true ->
  v_state v = StateFailed -> arun v acts2 v' -> (AClose ∉ acts2) ->
  v_state v' = StateFailed /\ v_conn v' = None /\ v_reconnecting v' = false /\
  v_attempts v' = 0 /\ v_failures v' = 0.
Proof.
  intros Hr1 Ha Hs Hr2 Hn. pose proof (arun_inv _ _ _ _ Hr1 (NewConnection_inv id cfg ps)) as Hi1.
  assert (wedged v') as W.
  { eapply wedged_run; [done| |done]. apply first_wedged; [|done].
    by eapply first_run; [|apply NewConnection_first|]. }
  pose proof (arun_inv _ _ _ _ Hr2 Hi1) as Hi2.
  destruct W as [W1 W2 [_ W3] _ _ W4 [W5 W6]]. split_and!; try done.
  destruct (v_reconnecting v') eqn:Hre; [|done]. by apply (li_loop _ _ Hi2 W4) in Hre.
Qed.

(** A failed first attempt is final.  Whether the port source, the dial or
    the handshake fails, [Start] leaves a connection that no goroutine will
    bring up: [handleFailure] finds it already failed and without a socket
    and returns, so until [Close] it stays failed, no reconnection is ever
    attempted and the failure callback is not called, although [Start] calls
    [handleFailure] to have the attempt retried. *)
Theorem initial_failure_is_final id cfg ps first_evs c evs c' :
  run (NewConnection id cfg ps) first_evs c ->
  forallb attempt (map act_of first_evs) = true -> state c = StateFailed ->
  run c evs c' -> (AClose ∉ map act_of evs) ->
  state c' = StateFailed /\ conn c' = None /\ reconnecting c' = false /\
  ReconnectAttempts c' = 0 /\ onFailures c' = 0.
Proof.
  intros Hr1%run_arun Ha Hs Hr2%run_arun Hn. by apply (never_retried _ _ _ _ _ _ _ Hr1 Ha Hs Hr2).
Qed.

End Refinement.
