(* ===== verification/ClientPool.v ===== *)
(** * The client put together

    [portpool.Pool] as the port source of connections, connections as what
    the connection pools manage, and concrete runs of a connection. *)

From Stdlib Require Import Floats.SpecFloat.
From S2P Require Import Prelude Binary DataTypes Wire Message BaseMessages Framing.
From S2P Require PortPool.
From S2P Require Import ConnPool DraPool.
From S2P Require Import ClientConn ClientTheorems ClientRuns ClientLife.

(** ** The port pool as a port source

    The environment contributes the clock; the quarantine map is visited in
    the order of [map_to_list]. *)

Definition sweep_order (p : PortPool.Pool) : list Z := (map_to_list (PortPool.quarantine p)).*1.

#[export] Instance pool_source : PortSource Z PortPool.Pool :=
  {| acquire now owner p :=
       match PortPool.Acquire owner (sweep_order p) now p with
       | (p', Ok a) => (p', Some a)
       | (p', _) => (p', None)
       end;
     release now a p := PortPool.Release a now p;
     held p := dom (PortPool.inUse p);
     bounds := PortPool.Contains;
     good := PortPool.wf |}.

Lemma sweep_order_ok p : PortPool.range_order (PortPool.quarantine p) (sweep_order p).
Proof. by unfold PortPool.range_order. Qed.

Lemma Release_inUse a now p : PortPool.inUse (PortPool.Release a now p) = delete a (PortPool.inUse p).
Proof.
  unfold PortPool.Release. destruct (PortPool.inUse p !! a) eqn:E; [|by rewrite delete_id].
  cbv zeta. by destruct (0 <? _).
Qed.

(** No operation changes the configured range. *)
Lemma sweep_cfg order now p : PortPool.cfg (PortPool.sweepQuarantineLocked order now p) = PortPool.cfg p.
Proof.
  unfold PortPool.sweepQuarantineLocked. destruct (Nat.eqb _ 0); [done|].
  revert p. induction order as [|port order IH]; intros p; [done|]. cbn. rewrite IH.
  unfold PortPool.sweep1. destruct (PortPool.quarantine p !! port); [|done]. by destruct (negb _).
Qed.

Lemma Acquire_cfg owner order now p :
  PortPool.cfg (PortPool.Acquire owner order now p).1 = PortPool.cfg p.
Proof.
  rewrite <- (sweep_cfg order now p). unfold PortPool.Acquire. by destruct (PortPool.free _).
Qed.

Lemma Release_cfg a now p : PortPool.cfg (PortPool.Release a now p) = PortPool.cfg p.
Proof.
  unfold PortPool.Release. destruct (PortPool.inUse p !! a); [|done]. cbv zeta. by destruct (0 <? _).
Qed.

Lemma Contains_cfg p p' : PortPool.cfg p' = PortPool.cfg p -> PortPool.Contains p' = PortPool.Contains p.
Proof. intros H. unfold PortPool.Contains. by rewrite H. Qed.

Lemma sweep_inUse order now p : PortPool.range_order (PortPool.quarantine p) order ->
  PortPool.inUse (PortPool.sweepQuarantineLocked order now p) = PortPool.inUse p.
Proof. intros Ho. apply (PortPool.sweep_spec order now p Ho). Qed.

#[export] Instance pool_source_laws : PortSourceLaws Z PortPool.Pool.
Proof.
  split.
  - intros now owner p Hg. pose proof (PortPool.Acquire_wf owner _ now p (sweep_order_ok p) Hg) as Hw.
    cbn [acquire pool_source]. by destruct (PortPool.Acquire _ _ _ _) as [p' [a|er|]].
  - intros now a p Hg. by apply PortPool.Release_wf.
  - intros now owner p. apply Contains_cfg. rewrite <- (Acquire_cfg owner (sweep_order p) now p).
    cbn [acquire pool_source]. by destruct (PortPool.Acquire _ _ _ _) as [p' [a|er|]].
  - intros now a p. apply Contains_cfg, Release_cfg.
  - intros a p Hg Ha. cbn [held pool_source] in Ha. apply elem_of_dom in Ha. apply (PortPool.wf_range p Hg). by right; left.
  - intros now owner p Hg. cbn [acquire held pool_source good] in *.
    destruct (PortPool.Acquire owner (sweep_order p) now p) as [p' r] eqn:E.
    destruct (PortPool.Acquire_cases _ _ _ _ _ _ (sweep_order_ok p) E)
      as [(port & -> & Hi & Hf & _)|(-> & Hi & _)]; [|by rewrite Hi].
    destruct (PortPool.sweep_spec (sweep_order p) now p (sweep_order_ok p)) as (Hw & _).
    pose proof (PortPool.wf_free_inUse _ (Hw Hg) port Hf) as Hn.
    rewrite sweep_inUse in Hn by apply sweep_order_ok.
    rewrite Hi, dom_insert_L, not_elem_of_dom. done.
  - intros now a p Hg. cbn [held release pool_source]. by rewrite Release_inUse, dom_delete_L.
Qed.

(** ** Connections as what a pool manages *)

Section Managed.
Context {E P : Type} `{PortSource E P}.
Variable e0 : E. (* the clock of [Close] *)

(** Once its channels are closed, a connection is not active. *)
Definition sane (c : Connection P) : bool := negb (chans_closed c && ClientConn.IsActive c).

Record managed := { mc : Connection P; mc_sane : sane mc = true }.

Lemma managed_eq (m1 m2 : managed) : mc m1 = mc m2 -> m1 = m2.
Proof.
  destruct m1 as [c1 H1], m2 as [c2 H2]. cbn. intros <-. f_equal. apply proof_irrel.
Qed.

Definition conn_error_of (r : option ClientConn.send_error) : option conn_error :=
  match r with
  | None => None
  | Some ClientConn.ErrConnectionClosed => Some ConnPool.ErrConnectionClosed
  | Some ClientConn.ErrContext => Some ConnPool.ErrContextDone
  | Some ClientConn.ErrSendBufferFull => Some ConnPool.ErrSendBufferFull
  end.

(** [Send] on a managed connection does not panic. *)
Lemma Send_sane pick data (c : Connection P) :
  sane c = true -> exists c' r, ClientConn.Send pick data c = Ok (c', r) /\ sane c' = true /\
    ClientConn.IsActive c' = ClientConn.IsActive c /\ id c' = id c /\
    (ClientConn.IsActive c = false -> c' = c /\ r = Some ClientConn.ErrConnectionClosed).
Proof.
  unfold sane, ClientConn.Send, select_send. intros Hs. destruct (ClientConn.IsActive c) eqn:Ha; cbn [negb].
  - rewrite andb_true_r in Hs. apply negb_true_iff in Hs. rewrite Hs. cbn [orb].
    repeat case_match; try done; simplify_eq; eexists _, _; (split; [done|]); rsimpl; by rewrite ?Hs, ?Ha.
  - eexists c, _. split; [done|]. rewrite Ha. by rewrite andb_false_r.
Qed.

Definition send_managed (pick : bool) (data : bytes) (m : managed) : managed * option conn_error :=
  match ClientConn.Send pick data (mc m) with
  | Ok (c', r) =>
      match decide (sane c' = true) with
      | left Hs => ({| mc := c'; mc_sane := Hs |}, conn_error_of r)
      | right _ => (m, None) (* never *)
      end
  | _ => (m, None) (* never *)
  end.

Lemma send_managed_spec pick data m :
  exists r, ClientConn.Send pick data (mc m) = Ok (mc (send_managed pick data m).1, r) /\
    (send_managed pick data m).2 = conn_error_of r.
Proof.
  destruct (Send_sane pick data (mc m) (mc_sane m)) as (c' & r & Hs & Hok & _).
  unfold send_managed. rewrite Hs. destruct (decide _); [by exists r|done].
Qed.

(** [Close]: the read loops leave while it waits for them. *)
Definition closed_conn (c : Connection P) : Connection P :=
  Close_end ((Close_begin e0 c) <| readLoops := [] |>).

Lemma release_addr_id e a (c : Connection P) : id (release_addr e a c) = id c.
Proof. unfold release_addr. destruct a; [|done]. by destruct (AcquireLocalAddr _). Qed.

Lemma stopWatchdog_id (c : Connection P) : id (stopWatchdog c) = id c.
Proof. unfold stopWatchdog. by destruct (dwrTicker c). Qed.

Lemma close_id e (c : Connection P) : id (close e c) = id c.
Proof.
  unfold close. cbv zeta. rewrite release_addr_id, <- (stopWatchdog_id c).
  set (c1 := stopWatchdog c). clearbody c1. by destruct (conn c1).
Qed.

Lemma finishReconnect_fields b (c : Connection P) :
  state (finishReconnect b c).1 = state c /\ id (finishReconnect b c).1 = id c.
Proof. unfold finishReconnect. by destruct (_ || _). Qed.

Lemma Close_begin_fields e (c : Connection P) :
  state (Close_begin e c) = StateClosed /\ id (Close_begin e c) = id c.
Proof.
  unfold Close_begin. cbv zeta. set (c1 := ((setState StateClosed c) <| ctx_done := true |>) <| closing := true |>).
  assert (state c1 = StateClosed /\ id c1 = id c) as [H1 H2]
    by (unfold c1, setState; case_decide; by split).
  clearbody c1. destruct (finishReconnect_fields false (close e c1)) as [-> ->].
  rewrite close_id. destruct (close_frame e c1) as [-> _]. done.
Qed.

Lemma closed_conn_spec c :
  state (closed_conn c) = StateClosed /\ id (closed_conn c) = id c /\ chans_closed (closed_conn c) = true.
Proof.
  unfold closed_conn. destruct (Close_begin_fields e0 c) as [H1 H2].
  generalize dependent (Close_begin e0 c). intros c1 H1 H2. by split_and!.
Qed.

Definition close_managed (m : managed) : managed :=
  match decide (sane (closed_conn (mc m)) = true) with
  | left Hs => {| mc := closed_conn (mc m); mc_sane := Hs |}
  | right _ => m (* never *)
  end.

Lemma close_managed_spec m : mc (close_managed m) = closed_conn (mc m).
Proof.
  unfold close_managed. destruct (decide _) as [|Hn]; [done|]. destruct Hn. unfold sane, ClientConn.IsActive.
  destruct (closed_conn_spec (mc m)) as [-> _]. by rewrite andb_false_r.
Qed.

Definition stats_of (c : Connection P) : conn_stats :=
  {| ConnPool.MessagesSent := ClientConn.MessagesSent c;
     ConnPool.MessagesReceived := ClientConn.MessagesReceived c;
     ConnPool.BytesSent := ClientConn.BytesSent c;
     ConnPool.BytesReceived := ClientConn.BytesReceived c;
     ConnPool.Reconnects := ClientConn.Reconnects c |}.

#[export] Instance managed_ops : ConnOps managed :=
  {| ID m := id (mc m);
     ConnPool.IsActive m := ClientConn.IsActive (mc m);
     conn_Send := send_managed;
     conn_Close := close_managed;
     conn_GetStats m := stats_of (mc m) |}.

#[export] Instance managed_laws : ConnLaws managed.
Proof.
  split.
  - intros pick data m Ha. cbn in *. destruct (Send_sane pick data (mc m) (mc_sane m)) as (c' & r & Hs & _ & _ & _ & Hi).
    destruct (send_managed_spec pick data m) as (r' & Hs' & Hr'). rewrite Hs in Hs'. injection Hs' as H1 H2.
    destruct (Hi Ha) as [H3 H4]. subst r' r. destruct (send_managed pick data m) as [m' r']. cbn in *. subst r'.
    f_equal. apply managed_eq. congruence.
  - intros pick data m. cbn. destruct (Send_sane pick data (mc m) (mc_sane m)) as (c' & r & Hs & _ & Ha & _).
    destruct (send_managed_spec pick data m) as (r' & Hs' & _). rewrite Hs in Hs'. injection Hs' as <- _. done.
  - intros pick data m. cbn. destruct (Send_sane pick data (mc m) (mc_sane m)) as (c' & r & Hs & _ & _ & Hi & _).
    destruct (send_managed_spec pick data m) as (r' & Hs' & _). rewrite Hs in Hs'. injection Hs' as <- _. done.
  - intros m. cbn. rewrite close_managed_spec. unfold ClientConn.IsActive.
    by destruct (closed_conn_spec (mc m)) as [-> _].
  - intros m. cbn. rewrite close_managed_spec. apply closed_conn_spec.
Qed.

End Managed.

(** ** Executing a run *)

Section Exec.
Context {E P : Type} `{PortSource E P}.

Definition can_sendb (c : Connection P) : bool := chans_closed c || send_room c || ctx_done c.

Definition enabledb (ev : ClientConn.event E) (c : Connection P) : bool :=
  match ev with
  | EStart _ => bool_decide (state c = StateDisconnected) && match starter c with PIdle => true | _ => false end
  | EDial _ w _ => match pc_of w c with PDial _ => true | _ => false end
  | EEnqueue _ w _ => match pc_of w c with PEnqueue _ _ => true | _ => false end
  | EWait _ w r =>
      match pc_of w c with
      | PWait h =>
          match r with
          | GotCEA => match pending c !! h with Some (Some _) => true | _ => false end
          | CERTimeout => true
          | CtxDone => ctx_done c
          end
      | _ => false
      end
  | EDelay _ _ delay =>
      match reconnector c with
      | PDelay => ((0 <=? delay) && (delay <? to_i64 (ceiling c + 1))) || ctx_done c
      | _ => false
      end
  | ETick _ _ => watchdog c && can_sendb c
  | EDWA _ r g h =>
      bool_decide ((g, h) ∈ dwrWaiters c) &&
      match r with
      | GotDWA => match pending c !! h with Some (Some _) => true | _ => false end
      | DWATimeout => true
      | DWACtxDone => ctx_done c
      end
  | EHealth _ _ => healthLoop c
  | ERead _ _ g r =>
      bool_decide (g ∈ readLoops c) &&
      match r with Some m => negb (is_DWR m) || can_sendb c | None => true end
  | EWrite _ _ => match sendCh c with [] => false | _ => true end
  | ESend _ _ | EDisableReconnect | ECancel => true
  | EClose _ => negb (closing c)
  | ECloseEnd => closing c && bool_decide (readLoops c = []) && negb (chans_closed c)
  end.

Lemma can_sendb_ok c : can_sendb c = true -> can_send c.
Proof. unfold can_sendb, can_send. destruct (chans_closed c), (send_room c), (ctx_done c); cbn; naive_solver. Qed.

Lemma enabledb_ok ev c : enabledb ev c = true -> enabled ev c.
Proof.
  destruct ev as [e|e w d|e w pick|e w r|e pick delay|e pick|e r g h|e el|e pick g r|
    e ok|pick data| | |e|]; cbn [enabledb enabled]; intros Hb; try done.
  - apply andb_true_iff in Hb as [H1 H2]. apply bool_decide_eq_true in H1. split; [done|]. by destruct (starter c).
  - destruct (pc_of w c); try done; by eexists.
  - destruct (pc_of w c); try done; by do 2 eexists.
  - destruct (pc_of w c) as [| | |h|]; try done. exists h. split; [done|]. destruct r; try done.
    destruct (pending c !! h) as [[d|]|]; try done. by exists d.
  - destruct (reconnector c); try done. split; [done|]. unfold delay_ok.
    destruct (ctx_done c); [right; done|left]. rewrite orb_false_r in Hb. b2p. lia.
  - apply andb_true_iff in Hb as [H1 H2]. split; [done|by apply can_sendb_ok].
  - apply andb_true_iff in Hb as [H1%bool_decide_eq_true H2]. split; [done|]. destruct r; try done.
    destruct (pending c !! h) as [[d|]|]; try done. by exists d.
  - apply andb_true_iff in Hb as [H1%bool_decide_eq_true H2]. split; [done|]. destruct r as [m|]; [|done].
    intros Hd. rewrite Hd in H2. by apply can_sendb_ok.
  - by destruct (sendCh c).
  - by apply negb_true_iff.
  - apply andb_true_iff in Hb as [[H1 H2%bool_decide_eq_true]%andb_true_iff H3%negb_true_iff]. done.
Qed.

(** The state after a sequence of steps, if each is enabled and none panics. *)
Fixpoint exec (evs : list (ClientConn.event E)) (c : Connection P) : option (Connection P) :=
  match evs with
  | [] => Some c
  | ev :: evs =>
      if enabledb ev c then
        match step ev c with
        | Ok c1 => exec evs c1
        | _ => None
        end
      else None
  end.

Definition after (evs : list (ClientConn.event E)) (c : Connection P) : Connection P :=
  default c (exec evs c).

Lemma exec_run evs c c' : exec evs c = Some c' -> run c evs c'.
Proof.
  revert c. induction evs as [|ev evs IH]; intros c; cbn [exec]; [intros [= <-]; constructor|].
  destruct (enabledb ev c) eqn:Hb; [|done]. destruct (step ev c) as [c1|er|] eqn:Hs; [|done..].
  intros Hx. econstructor; [by apply enabledb_ok|done|by apply IH].
Qed.

Lemma run_after evs c : bool_decide (is_Some (exec evs c)) = true -> run c evs (after evs c).
Proof. intros [c' Hc]%bool_decide_eq_true. unfold after. rewrite Hc. by apply exec_run. Qed.

End Exec.
