(* ===== verification/ClientSetup.v ===== *)
(** * Building the client's pools ([client/connection_pool.go], [client/dra_pool.go])

    The connections that [NewConnectionPool] makes from a configuration, the
    configuration that [NewDRAPool] makes for each agent, and
    [dialWithLocalBind], which looks for a free source port. *)

From Stdlib Require Import Floats.SpecFloat.
From stdpp Require Import pretty.
From S2P Require Import Prelude ConnPool DraPool ClientConn ClientPool.

(** [%d]. *)
Definition dec (v : Z) : bytes := gostr (pretty v).

(** ** Pools *)

Section Setup.
Context {E P : Type} `{PortSource E P}.
Variable e0 : E.

#[local] Instance ops : ConnOps managed := managed_ops e0.

Definition connID (cfg : DRAConfig) (i : nat) : bytes :=
  ClientConn.Host cfg ++ gostr ":" ++ dec (ClientConn.Port cfg) ++ gostr "-conn" ++ dec (Z.of_nat i).

Lemma NewConnection_sane id cfg (ps : P) : sane (NewConnection id cfg ps) = true.
Proof. done. Qed.

Definition new_managed (id : bytes) (cfg : DRAConfig) (ps : P) : managed :=
  {| mc := NewConnection id cfg ps; mc_sane := NewConnection_sane id cfg ps |}.

Definition make_pool (cfg : DRAConfig) (ps : P) : option (ConnectionPool managed) :=
  match Validate cfg with
  | Some _ => None
  | None =>
      Some (NewConnectionPool
        (map (fun i => new_managed (connID cfg i) cfg ps) (seq 0 (Z.to_nat (ConnectionCount cfg)))))
  end.

Definition pool_config (c : DRAPoolConfig) (dra : DRAServerConfig) : DRAConfig :=
  {| ClientConn.Host := DraPool.Host dra; ClientConn.Port := DraPool.Port dra; LocalAddr := pool_LocalAddr c;
     LocalPortMin := pool_LocalPortMin c; LocalPortMax := pool_LocalPortMax c;
     cfg_OriginHost := pool_OriginHost c; cfg_OriginRealm := pool_OriginRealm c;
     cfg_ProductName := pool_ProductName c; cfg_VendorID := pool_VendorID c;
     ConnectionCount := ConnectionsPerDRA c; ConnectTimeout := pool_ConnectTimeout c;
     cfg_CERTimeout := pool_CERTimeout c; DWRInterval := pool_DWRInterval c;
     DWRTimeout := pool_DWRTimeout c; MaxDWRFailures := pool_MaxDWRFailures c;
     ReconnectInterval := pool_ReconnectInterval c; MaxReconnectDelay := pool_MaxReconnectDelay c;
     ReconnectBackoff := pool_ReconnectBackoff c; SendBufferSize := pool_SendBufferSize c;
     RecvBufferSize := pool_RecvBufferSize c; AuthAppIDs := pool_AuthAppIDs c;
     AcctAppIDs := pool_AcctAppIDs c; AcquireLocalAddr := false |}.

(** [NewDRAPool] with these connection pools. *)
Definition make_dra_pool (sorted : list DRAServerConfig) (c : DRAPoolConfig) (ps : P)
  : outcome dra_pool_error (DRAPool managed) :=
  NewDRAPool (fun dra => make_pool (pool_config c dra) ps) sorted c.

Definition GetAllConnections (p : ConnectionPool (managed (P := P))) : list managed := connections p.

Definition GetConnectionStates (p : ConnectionPool (managed (P := P))) : gmap bytes ConnectionState :=
  foldl (fun states m => <[id (mc m) := state (mc m)]> states) ∅ (connections p).

(** *** A new pool *)

Lemma dec_inj v1 v2 : dec v1 = dec v2 -> v1 = v2.
Proof. intros He%gostr_inj. by apply (inj pretty). Qed.

Lemma connID_inj cfg i j : connID cfg i = connID cfg j -> i = j.
Proof. unfold connID. intros He. do 4 apply app_inv_head in He. apply dec_inj in He. lia. Qed.

Lemma make_pool_spec cfg ps p :
  make_pool cfg ps = Some p ->
  Validate cfg = None /\ count p = ConnectionCount cfg /\ closed p = false /\
  NoDup (map ID (connections p)) /\ Forall (fun m => ConnPool.IsActive m = false) (connections p).
Proof.
  unfold make_pool. destruct (Validate cfg) eqn:Ev; [done|]. intros [= <-].
  assert (0 < ConnectionCount cfg) as Hpos.
  { unfold Validate in Ev. repeat case_match_in Ev; try done; b2p; lia. }
  split; [done|]. split; [|split; [done|split]].
  - unfold count, len. cbn [connections NewConnectionPool]. rewrite length_map, length_seq. lia.
  - cbn [connections NewConnectionPool]. rewrite map_map. apply NoDup_fmap_2; [|apply NoDup_seq].
    intros i j Hij. by apply (connID_inj cfg).
  - cbn [connections NewConnectionPool]. rewrite Forall_map. by apply Forall_true.
Qed.

(** Construction.  From an accepted configuration [NewDRAPool] makes a
    pool in which every agent has the configured number of connections, under
    distinct identifiers and none of them active; the group of a priority
    holds exactly the agents of that priority with the heavier ones first,
    and the active priority is the most important one configured. *)
Theorem make_dra_pool_correct sorted c ps d :
  sorts (DRAs c) sorted -> ConnectionsPerDRA c < 2 ^ 31 -> make_dra_pool sorted c ps = Ok d ->
  wf_pools d /\
  (forall dra, dra ∈ DRAs c -> exists p, draPools d !! Name dra = Some p /\
    count p = ConnectionsPerDRA c /\ NoDup (map ID (connections p)) /\
    Forall (fun m => ConnPool.IsActive m = false) (connections p)) /\
  (forall dra, dra ∈ group d (Priority dra) <-> dra ∈ DRAs c) /\
  (forall q, StronglySorted (fun a b => Weight b <= Weight a) (group d q)) /\
  exists dra, dra ∈ DRAs c /\ activePriority d = to_i32 (Priority dra) /\
    forall x, x ∈ DRAs c -> 0 < Priority dra <= Priority x.
Proof.
  intros Hs Hn Hd. unfold make_dra_pool in Hd.
  destruct (NewDRAPool_spec (fun dra => make_pool (pool_config c dra) ps) sorted c d Hs) as (Hw & Hp & Hg);
    [|done|split; [done|split; [|done]]].
  - intros dra p Hp. apply make_pool_spec in Hp as (Hv & Hc & _). unfold small. rewrite Hc. cbn.
    unfold Validate in Hv. repeat case_match_in Hv; try done; b2p; cbn in *; lia.
  - intros dra Hin. destruct (Hp dra Hin) as (p & Hcr & Hlk).
    exists p. apply make_pool_spec in Hcr as (_ & Hc & _ & Hnd & Hi). done.
Qed.

End Setup.

(** ** [dialWithLocalBind] *)

(** What [DialContext] yields for a source port. *)
Inductive dial_outcome (S : Type) : Type :=
| Dialled (sock : S)
| AddrInUse
| DialError.
Arguments Dialled {S} sock.
Arguments AddrInUse {S}.
Arguments DialError {S}.

Inductive bind_error : Type := ErrLocalAddr | ErrDial | ErrNoPort.

Section Bind.
Context {S : Type} (dial : Z -> dial_outcome S).

(** The loop over the ports in the order of the scan; [0] lets the system
    choose. *)
Fixpoint scan_ports (ports : list Z) : outcome bind_error S :=
  match ports with
  | [] => Err ErrNoPort
  | port :: ports =>
      match dial port with
      | Dialled s => Ok s
      | AddrInUse => scan_ports ports
      | DialError => Err ErrDial
      end
  end.

Definition scan_order (cfg : DRAConfig) (portScanStart : Z) : list Z :=
  let count := LocalPortMax cfg - LocalPortMin cfg + 1 in
  let startOff := Z.rem portScanStart count in
  map (fun i => LocalPortMin cfg + Z.rem (startOff + Z.of_nat i) count) (seq 0 (Z.to_nat count)).

(** The state is the counter [portScanStart]. *)
Definition dialWithLocalBind (cfg : DRAConfig) (portScanStart : Z) : Z * outcome bind_error S :=
  if negb (len (LocalAddr cfg) =? 0) && negb (valid_ip (LocalAddr cfg)) then (portScanStart, Err ErrLocalAddr)
  else if (LocalPortMin cfg <=? 0) || (LocalPortMax cfg <=? 0) then
    (portScanStart, match dial 0 with Dialled s => Ok s | _ => Err ErrDial end)
  else
    let portScanStart := to_u32 (portScanStart + 1) in
    if LocalPortMax cfg - LocalPortMin cfg + 1 =? 0 then (portScanStart, Panic)
    else (portScanStart, scan_ports (scan_order cfg portScanStart)).

Lemma scan_order_perm cfg k :
  0 <= k -> LocalPortMin cfg <= LocalPortMax cfg ->
  scan_order cfg k ≡ₚ map (fun i => LocalPortMin cfg + Z.of_nat i)
    (seq 0 (Z.to_nat (LocalPortMax cfg - LocalPortMin cfg + 1))).
Proof.
  intros Hk Hle. unfold scan_order. cbv zeta. set (n := LocalPortMax cfg - LocalPortMin cfg + 1).
  assert (0 < n) as Hn by lia. rewrite Z.rem_mod_nonneg by lia.
  pose proof (Z.mod_pos_bound k n Hn) as Hs. set (s := k mod n) in *. clearbody s. clear Hk k.
  assert (forall i : nat, Z.rem (s + Z.of_nat i) n = (s + Z.of_nat i) mod n) as Hrem
    by (intros; apply Z.rem_mod_nonneg; lia).
  apply NoDup_Permutation.
  - apply NoDup_fmap_2_strong; [|apply NoDup_seq].
    intros i j Hi%elem_of_seq Hj%elem_of_seq He. rewrite !Hrem in He.
    destruct (Z.lt_ge_cases (s + Z.of_nat i) n), (Z.lt_ge_cases (s + Z.of_nat j) n).
    all: rewrite ?(Z.mod_small (s + Z.of_nat i)), ?(Z.mod_small (s + Z.of_nat j)) in He by lia.
    all: rewrite ?mod_once in He by lia; lia.
  - apply NoDup_fmap_2; [intros ???; lia|apply NoDup_seq].
  - intros x. rewrite !list_elem_of_fmap. split.
    + intros (i & -> & _). rewrite Hrem. pose proof (Z.mod_pos_bound (s + Z.of_nat i) n Hn) as Hb.
      exists (Z.to_nat ((s + Z.of_nat i) mod n)). rewrite Z2Nat.id by lia. split; [done|]. apply elem_of_seq. lia.
    + intros (j & -> & Hj%elem_of_seq). destruct (rotate_onto n s (Z.of_nat j) Hs) as (i & Hi & He); [lia|].
      exists (Z.to_nat i). rewrite Hrem, Z2Nat.id by lia. split; [lia|]. apply elem_of_seq. lia.
Qed.

Lemma scan_ports_spec ports :
  match scan_ports ports with
  | Ok s => exists pre p post, ports = pre ++ p :: post /\ dial p = Dialled s /\ Forall (fun q => dial q = AddrInUse) pre
  | Err ErrNoPort => Forall (fun q => dial q = AddrInUse) ports
  | Err ErrDial => exists p, p ∈ ports /\ dial p = DialError
  | Err ErrLocalAddr | Panic => False
  end.
Proof.
  induction ports as [|p ports IH]; cbn [scan_ports]; [constructor|].
  destruct (dial p) as [s| |] eqn:Ed.
  - exists [], p, ports. split; [done|]. split; [done|constructor].
  - destruct (scan_ports ports) as [s|[| |]|].
    + destruct IH as (pre & q & post & -> & Hq & Hf). exists (p :: pre), q, post. split; [done|].
      split; [done|by constructor].
    + done.
    + destruct IH as (q & Hq & He). exists q. split; [by constructor|done].
    + by constructor.
    + done.
  - exists p. split; [constructor|done].
Qed.

(** The source port of a dial.  With a configured port range
    [dialWithLocalBind] never panics and never leaves the range; it fails for
    want of a port only when every port of the range is in use, and each is
    tried at most once. *)
Theorem dialWithLocalBind_exact cfg k :
  Validate cfg = None -> 0 < LocalPortMin cfg -> u32 k ->
  exists order, NoDup order /\
    (forall port, port ∈ order <-> LocalPortMin cfg <= port <= LocalPortMax cfg) /\
    match dialWithLocalBind cfg k with
    | (k', Ok s) => k' = to_u32 (k + 1) /\ exists pre port post, order = pre ++ port :: post /\
        dial port = Dialled s /\ Forall (fun q => dial q = AddrInUse) pre
    | (_, Err ErrNoPort) => forall port, LocalPortMin cfg <= port <= LocalPortMax cfg -> dial port = AddrInUse
    | (_, Err ErrDial) => exists port, port ∈ order /\ dial port = DialError
    | (_, Err ErrLocalAddr) | (_, Panic) => False
    end.
Proof.
  intros Hv Hmin Hk.
  assert (LocalPortMin cfg <= LocalPortMax cfg /\
    negb (len (LocalAddr cfg) =? 0) && negb (valid_ip (LocalAddr cfg)) = false) as [Hle Hip].
  { unfold Validate in Hv. repeat case_match_in Hv; try done; b2p; split; try done; lia. }
  pose proof (scan_order_perm cfg (to_u32 (k + 1)) ltac:(pose proof (to_u32_u32 (k + 1)); unfold u32 in *; lia) Hle)
    as Hperm.
  assert (forall port, port ∈ scan_order cfg (to_u32 (k + 1)) <-> LocalPortMin cfg <= port <= LocalPortMax cfg) as Hin.
  { intros port. rewrite Hperm, list_elem_of_fmap. split.
    - intros (i & -> & Hi%elem_of_seq). lia.
    - intros Hp. exists (Z.to_nat (port - LocalPortMin cfg)). split; [lia|]. apply elem_of_seq. lia. }
  exists (scan_order cfg (to_u32 (k + 1))). split.
  { rewrite Hperm. apply NoDup_fmap_2; [intros ???; lia|apply NoDup_seq]. }
  split; [done|]. unfold dialWithLocalBind. rewrite Hip.
  rewrite (proj2 (Z.leb_gt (LocalPortMin cfg) 0)), (proj2 (Z.leb_gt (LocalPortMax cfg) 0)) by lia. cbn [orb]. cbv zeta.
  rewrite (proj2 (Z.eqb_neq (LocalPortMax cfg - LocalPortMin cfg + 1) 0)) by lia.
  pose proof (scan_ports_spec (scan_order cfg (to_u32 (k + 1)))) as Hs. destruct (scan_ports _) as [s|[| |]|].
  - split; [done|]. exact Hs.
  - done.
  - exact Hs.
  - rewrite Forall_forall in Hs. intros port Hp. by apply Hs, Hin.
  - done.
Qed.

End Bind.
