(* ===== verification/Client.v ===== *)
(** * A client with a request-response interface ([client/client.go])

    [SendWithTimeout] sends a message on the connection pool and takes the next
    message that the pool received as its response.  Calls run in goroutines
    of their own: a step is one of them going from one point where it can be
    overtaken to the next, the pool's aggregator passing a message on, or
    [Stop].  The types of the counters are those of Server: the two packages
    declare them alike.  The handlers of [HandleFunc] are never called. *)

From Stdlib Require Import Floats.SpecFloat.
From S2P Require Import Prelude Binary Wire Framing ConnPool ClientConn ClientPool ClientSetup ServerTheorems.
From S2P Require Import Server.

(** ** Configuration *)

(** [TLSConfig], which nothing reads, is left out. *)
Record ClientConfig := {
  ServerAddress : bytes;
  PoolSize : Z;
  MinPoolSize : Z;
  cc_ConnectTimeout : Z;
  RequestTimeout : Z;
  HealthCheckInterval : Z;
  MaxRetries : Z;
  cc_OriginHost : bytes;
  cc_OriginRealm : bytes;
  cc_ProductName : bytes;
  VendorId : Z;
  cc_DWRInterval : Z;
  cc_DWRTimeout : Z;
  cc_MaxDWRFailures : Z;
  cc_AuthAppIDs : list Z;
  cc_AcctAppIDs : list Z }.

Definition DefaultClientConfig : ClientConfig :=
  {| ServerAddress := []; PoolSize := 5; MinPoolSize := 1; cc_ConnectTimeout := 10 * one_second;
     RequestTimeout := 30 * one_second; HealthCheckInterval := 10 * one_second; MaxRetries := 3;
     cc_OriginHost := []; cc_OriginRealm := []; cc_ProductName := gostr "Diameter-GW-Client"; VendorId := 10415;
     cc_DWRInterval := 30 * one_second; cc_DWRTimeout := 10 * one_second; cc_MaxDWRFailures := 3;
     cc_AuthAppIDs := []; cc_AcctAppIDs := [] |}.

Inductive client_error : Type :=
| ErrNilConfig
| ErrInvalidConfig (reason : bytes)
| ErrCreatePool
| ErrSend (e : pool_error)
| ErrTimeout
| ErrCancelled.

(** [if v <= 0 { v = d }]. *)
Definition or_default (d v : Z) : Z := if v <=? 0 then d else v.

(** The checks, then the defaults, which it writes into the configuration. *)
Definition validateClientConfig (c : ClientConfig) : outcome client_error ClientConfig :=
  let invalid s := Err (ErrInvalidConfig (gostr s)) in
  if len (ServerAddress c) =? 0 then invalid "ServerAddress is required"%string
  else if len (cc_OriginHost c) =? 0 then invalid "OriginHost is required"%string
  else if len (cc_OriginRealm c) =? 0 then invalid "OriginRealm is required"%string
  else if PoolSize c <=? 0 then invalid "PoolSize must be greater than 0"%string
  else if MinPoolSize c <? 0 then invalid "MinPoolSize cannot be negative"%string
  else if PoolSize c <? MinPoolSize c then invalid "MinPoolSize cannot be greater than PoolSize"%string
  else
    Ok (c <| cc_ConnectTimeout ::= or_default (10 * one_second) |>
          <| RequestTimeout ::= or_default (30 * one_second) |>
          <| HealthCheckInterval ::= or_default (10 * one_second) |>
          <| cc_DWRInterval ::= or_default (30 * one_second) |>
          <| cc_DWRTimeout ::= or_default (10 * one_second) |>
          <| cc_MaxDWRFailures ::= or_default 3 |>).

(** The configuration of the connections; what [NewClient] does not set is
    zero. *)
Definition poolConfig (c : ClientConfig) : DRAConfig :=
  {| ClientConn.Host := ServerAddress c; ClientConn.Port := 3868; LocalAddr := []; LocalPortMin := 0; LocalPortMax := 0;
     cfg_OriginHost := cc_OriginHost c; cfg_OriginRealm := cc_OriginRealm c; cfg_ProductName := cc_ProductName c;
     cfg_VendorID := VendorId c; ConnectionCount := PoolSize c; ConnectTimeout := cc_ConnectTimeout c;
     cfg_CERTimeout := 0; DWRInterval := cc_DWRInterval c; DWRTimeout := cc_DWRTimeout c;
     MaxDWRFailures := cc_MaxDWRFailures c; ReconnectInterval := 5 * one_second;
     MaxReconnectDelay := 300 * one_second; ReconnectBackoff := S754_finite false 6755399441055744 (-52);
     SendBufferSize := 100; RecvBufferSize := 100; AuthAppIDs := cc_AuthAppIDs c; AcctAppIDs := cc_AcctAppIDs c;
     AcquireLocalAddr := false |}.

(** ** State *)

Record ClientStats := {
  TotalRequests : Z;
  TotalResponses : Z;
  TotalErrors : Z;
  ActiveRequests : Z;
  cl_BytesSent : Z;
  cl_BytesReceived : Z;
  cl_InterfaceStats : gmap Z InterfaceStats }.

Definition zero_client_stats : ClientStats := Build_ClientStats 0 0 0 0 0 0 ∅.

(** Where a call of [SendWithTimeout] is: before [pool.Send]; before it counts
    what it sent; in the [select]; before the deferred decrement. *)
Inductive call_pc : Type :=
| Sending
| Counting
| Waiting
| Leaving (r : outcome client_error bytes)
| Gone (r : outcome client_error bytes).

Record Call := { c_msg : bytes; c_pc : call_pc }.

(** The functions that return a pointer into a map, as in Server. *)
Definition getOrCreateInterfaceStats (appID : Z) (st : ClientStats) : ClientStats :=
  match cl_InterfaceStats st !! appID with
  | Some _ => st
  | None => st <| cl_InterfaceStats ::= <[appID := zero_interface_stats]> |>
  end.
Definition on_interface (appID : Z) (f : InterfaceStats -> InterfaceStats) (st : ClientStats) : ClientStats :=
  st <| cl_InterfaceStats ::= alter f appID |>.

(** The counters of a command, once the message is 20 bytes long. *)
Definition count_cmd (r : outcome parse_error Command) (f : Command -> InterfaceStats -> InterfaceStats)
    (st : ClientStats) : ClientStats :=
  match r with
  | Ok cmd => on_interface (Interface cmd) (f cmd) (getOrCreateInterfaceStats (Interface cmd) st)
  | _ => st
  end.

Definition count_sent (msg : bytes) (st : ClientStats) : ClientStats :=
  let n := len msg in
  let st := st <| cl_BytesSent ::= add n |> in
  if 20 <=? n then
    count_cmd (ParseCommand (take 20 msg)) (fun cmd i =>
      on_command (Code cmd) (fun k => k <| cs_MessagesSent ::= add 1 |> <| cs_BytesSent ::= add n |>)
        (getOrCreateCommandStats (Code cmd)
          (i <| is_MessagesSent ::= add 1 |> <| is_BytesSent ::= add n |>))) st
  else st.

Definition response_data (m : Message) : bytes := msg_Header m ++ msg_Body m.

Definition count_received (m : Message) (st : ClientStats) : ClientStats :=
  let n := len (response_data m) in
  let st := st <| TotalResponses ::= add 1 |> <| cl_BytesReceived ::= add n |> in
  if 20 <=? n then
    count_cmd (ParseCommand (msg_Header m)) (fun cmd i =>
      on_command (Code cmd) (fun k => k <| cs_MessagesReceived ::= add 1 |> <| cs_BytesReceived ::= add n |>)
        (getOrCreateCommandStats (Code cmd)
          (i <| is_MessagesReceived ::= add 1 |> <| is_BytesReceived ::= add n |>))) st
  else st.

Section Client.
Context {C : Type} `{ConnOps C}.

(** [recvCh] is the pool's channel; [accepted] and [taken] record what the
    aggregator put into it and what calls took out of it, [sent] the messages
    that calls have counted. *)
Record Client := {
  cl_config : ClientConfig;
  pool : ConnectionPool C;
  recvCh : list Message;
  recv_closed : bool;
  cl_ctx_done : bool;
  cl_stats : ClientStats;
  calls : gmap Z Call;
  next_call : Z;
  accepted : list Message;
  taken : list Message;
  sent : list bytes }.

Definition new_client (c : ClientConfig) (p : ConnectionPool C) : Client :=
  {| cl_config := c; pool := p; recvCh := []; recv_closed := false; cl_ctx_done := false;
     cl_stats := zero_client_stats; calls := ∅; next_call := 0; accepted := []; taken := []; sent := [] |}.

Definition set_pc (i : Z) (pc : call_pc) (s : Client) : Client :=
  s <| calls ::= alter (fun c => c <| c_pc := pc |>) i |>.

(** [EvConnections] is whatever the connections do by themselves; [EvReceived]
    a message that the aggregator got from one of them. *)
Inductive client_event : Type :=
| EvCall (msg : bytes)
| EvSend (i : Z) (pick : Z -> bool)
| EvCount (i : Z)
| EvResponse (i : Z)
| EvTimeout (i : Z)
| EvCancelled (i : Z)
| EvReturn (i : Z)
| EvConnections (cs : list C)
| EvReceived (m : Message)
| EvStop
| EvPoolClose
| EvRecvClose.

Definition call_at (s : Client) (i : Z) (pc : call_pc) : Prop := exists msg, calls s !! i = Some {| c_msg := msg; c_pc := pc |}.

Definition recv_capacity (s : Client) : Z := 100 * PoolSize (cl_config s).

(** [recvCh] is closed after the context is cancelled, so that the nil message
    of a closed channel panics only a call that is still to get to its
    [select]. *)
Definition enabled (e : client_event) (s : Client) : Prop :=
  match e with
  | EvSend i _ => call_at s i Sending
  | EvCount i => call_at s i Counting
  | EvResponse i => call_at s i Waiting /\ (recvCh s <> [] \/ recv_closed s = true)
  | EvTimeout i => call_at s i Waiting
  | EvCancelled i => call_at s i Waiting /\ cl_ctx_done s = true
  | EvReturn i => exists r, call_at s i (Leaving r)
  | EvReceived _ => recv_closed s = false
  | EvPoolClose => cl_ctx_done s = true
  | EvRecvClose => ConnPool.closed (pool s) = true
  | EvCall _ | EvConnections _ | EvStop => True
  end.

(** [SendWithTimeout], its calls and what surrounds them. *)
Definition client_step (e : client_event) (s : Client) : outcome client_error Client :=
  match e with
  | EvCall msg =>
      Ok (s <| cl_stats ::= fun st => st <| TotalRequests ::= add 1 |> <| ActiveRequests ::= add 1 |> |>
            <| calls ::= <[next_call s := {| c_msg := msg; c_pc := Sending |}]> |>
            <| next_call ::= Z.succ |>)
  | EvSend i pick =>
      match calls s !! i with
      | None => Ok s
      | Some c =>
          match ConnPool.Send pick (c_msg c) (pool s) with
          | (p, Ok _) => Ok (set_pc i Counting (s <| pool := p |>))
          | (p, Err e) =>
              Ok (set_pc i (Leaving (Err (ErrSend e)))
                    (s <| pool := p |> <| cl_stats ::= fun st => st <| TotalErrors ::= add 1 |> |>))
          | (_, Panic) => Panic
          end
      end
  | EvCount i =>
      match calls s !! i with
      | None => Ok s
      | Some c =>
          Ok (set_pc i Waiting (s <| cl_stats ::= count_sent (c_msg c) |> <| sent ::= fun l => l ++ [c_msg c] |>))
      end
  | EvResponse i =>
      match recvCh s with
      | [] => Panic (* the channel is closed: a nil message *)
      | m :: q =>
          Ok (set_pc i (Leaving (Ok (response_data m)))
                (s <| recvCh := q |> <| taken ::= fun l => l ++ [m] |> <| cl_stats ::= count_received m |>))
      end
  | EvTimeout i =>
      Ok (set_pc i (Leaving (Err ErrTimeout)) (s <| cl_stats ::= fun st => st <| TotalErrors ::= add 1 |> |>))
  | EvCancelled i => Ok (set_pc i (Leaving (Err ErrCancelled)) s)
  | EvReturn i =>
      match calls s !! i with
      | Some {| c_pc := Leaving r |} =>
          Ok (set_pc i (Gone r) (s <| cl_stats ::= fun st => st <| ActiveRequests ::= add (2 ^ 64 - 1) |> |>))
      | _ => Ok s
      end
  | EvConnections cs => Ok (s <| pool ::= fun p => p <| ConnPool.connections := cs |> |>)
  | EvReceived m =>
      if len (recvCh s) <? recv_capacity s
      then Ok (s <| recvCh ::= fun q => q ++ [m] |> <| accepted ::= fun l => l ++ [m] |>)
      else Ok s (* dropped *)
  | EvStop => Ok (s <| cl_ctx_done := true |>)
  | EvPoolClose => Ok (s <| pool ::= ConnPool.Close |>)
  | EvRecvClose => Ok (s <| recv_closed := true |>)
  end.

Inductive client_run : Client -> list client_event -> Client -> Prop :=
| client_nil s : client_run s [] s
| client_cons s e s1 l s2 :
    enabled e s -> client_step e s = Ok s1 -> client_run s1 l s2 -> client_run s (e :: l) s2.

(** *** Snapshots *)

Record PoolStatsSnapshot := {
  ps_TotalConnections : Z;
  ps_ActiveConnections : Z;
  ps_TotalMessagesSent : Z;
  ps_TotalMessagesRecv : Z;
  ps_TotalBytesSent : Z;
  ps_TotalBytesRecv : Z;
  ps_TotalReconnects : Z }.

Record ClientStatsSnapshot := {
  cls_TotalRequests : Z;
  cls_TotalResponses : Z;
  cls_TotalErrors : Z;
  cls_ActiveRequests : Z;
  cls_BytesSent : Z;
  cls_BytesReceived : Z;
  cls_PoolStats : PoolStatsSnapshot;
  cls_InterfaceStats : gmap Z InterfaceStatsSnapshot }.

Definition GetStats (s : Client) : ClientStatsSnapshot :=
  let poolStats := ConnPool.GetStats (pool s) in
  let st := cl_stats s in
  {| cls_TotalRequests := TotalRequests st; cls_TotalResponses := TotalResponses st;
     cls_TotalErrors := TotalErrors st; cls_ActiveRequests := ActiveRequests st;
     cls_BytesSent := cl_BytesSent st; cls_BytesReceived := cl_BytesReceived st;
     cls_PoolStats :=
       {| ps_TotalConnections := ConnPool.TotalConnections poolStats;
          ps_ActiveConnections := ConnPool.ActiveConnections poolStats;
          ps_TotalMessagesSent := ConnPool.TotalMessagesSent poolStats;
          ps_TotalMessagesRecv := ConnPool.TotalMessagesRecv poolStats;
          ps_TotalBytesSent := ConnPool.TotalBytesSent poolStats;
          ps_TotalBytesRecv := ConnPool.TotalBytesRecv poolStats;
          ps_TotalReconnects := ConnPool.TotalReconnects poolStats |};
     cls_InterfaceStats := map_imap (fun a i => Some (interface_snapshot a i)) (cl_InterfaceStats st) |}.

(** ** The counters *)

Lemma add_to_u64 d x : add d (to_u64 x) = to_u64 (x + d).
Proof. unfold add. apply to_u64_add_l. Qed.

Lemma decrement x : add (2 ^ 64 - 1) (to_u64 x) = to_u64 (x - 1).
Proof.
  rewrite add_to_u64. unfold to_u64. replace (x + (2 ^ 64 - 1)) with (x - 1 + 1 * 2 ^ 64) by lia.
  apply Z.mod_add. lia.
Qed.

Definition indicator (b : bool) : Z := if b then 1 else 0.
Definition active (c : Call) : Z := indicator (match c_pc c with Gone _ => false | _ => true end).
Definition result_of (c : Call) : option (outcome client_error bytes) :=
  match c_pc c with Leaving r | Gone r => Some r | _ => None end.
Definition answered (c : Call) : Z := indicator (match result_of c with Some (Ok _) => true | _ => false end).
Definition failed (c : Call) : Z :=
  indicator (match result_of c with Some (Err ErrCancelled) => false | Some (Err _) => true | _ => false end).
Definition long (msg : bytes) : bool := 20 <=? len msg.
Definition headed (m : Message) : bool := long (msg_Header m).
Definition bytes_of (l : list bytes) : Z := foldr (fun m n => len m + n) 0 l.

Lemma bytes_of_snoc l m : bytes_of (l ++ [m]) = bytes_of l + len m.
Proof. unfold bytes_of. induction l as [|x l IH]; cbn; [lia|]. rewrite IH. lia. Qed.

(** The counters of the interfaces: each agrees with those of its commands,
    and together they have counted [ms] messages sent and [mr] received. *)
Record interfaces_ok (ms mr : Z) (m : gmap Z InterfaceStats) : Prop := {
  io_each : map_Forall (fun _ i => interface_ok i) m;
  io_sent : to_u64 (total is_MessagesSent m) = to_u64 ms;
  io_received : to_u64 (total is_MessagesReceived m) = to_u64 mr }.

(** What is left of an exchanged message for the counters: its header, and the
    number of its bytes. *)
Definition entry : Type := bytes * Z.
Definition requests (l : list bytes) : list entry := map (fun msg => (msg, len msg)) l.
Definition responses (l : list Message) : list entry := map (fun m => (msg_Header m, len (response_data m))) l.

(** Whether a message is one of an interface, and of one of its commands, as
    its header has it. *)
Definition of_interface (a : Z) (h : bytes) : bool := (20 <=? len h) && (be_get (slice h 8 12) =? a).
Definition of_command (a k : Z) (h : bytes) : bool := of_interface a h && (be_get (slice h 5 8) =? k).

(** How many messages satisfy [q], and how many bytes they have. *)
Definition tally (w : entry -> Z) (q : bytes -> bool) (l : list entry) : Z :=
  foldr (fun x n => (if q x.1 then w x else 0) + n) 0 l.
Definition messages_of : (bytes -> bool) -> list entry -> Z := tally (fun _ => 1).
Definition octets_of : (bytes -> bool) -> list entry -> Z := tally snd.

Lemma tally_snoc w q l x : tally w q (l ++ [x]) = tally w q l + (if q x.1 then w x else 0).
Proof. unfold tally. induction l as [|y l IH]; cbn; [lia|]. rewrite IH. lia. Qed.

(** The counters of an interface and of its commands, after the messages [out]
    and [inn]. *)
Definition command_counts (out inn : list entry) (a k : Z) (c : CommandStats) : Prop :=
  cs_MessagesSent c = to_u64 (messages_of (of_command a k) out) /\
  cs_BytesSent c = to_u64 (octets_of (of_command a k) out) /\
  cs_MessagesReceived c = to_u64 (messages_of (of_command a k) inn) /\
  cs_BytesReceived c = to_u64 (octets_of (of_command a k) inn).

Definition interface_counts (out inn : list entry) (a : Z) (i : InterfaceStats) : Prop :=
  is_MessagesSent i = to_u64 (messages_of (of_interface a) out) /\
  is_BytesSent i = to_u64 (octets_of (of_interface a) out) /\
  is_MessagesReceived i = to_u64 (messages_of (of_interface a) inn) /\
  is_BytesReceived i = to_u64 (octets_of (of_interface a) inn) /\
  forall k, command_counts out inn a k (default zero_command_stats (is_CommandStats i !! k)).

Definition all_counts (out inn : list entry) (m : gmap Z InterfaceStats) : Prop :=
  forall a, interface_counts out inn a (default zero_interface_stats (m !! a)).

(** What a call was given, and what it has sent and counted. *)
Definition answer_of (c : Call) : option bytes := match result_of c with Some (Ok data) => Some data | _ => None end.
Definition request_of (c : Call) : option bytes :=
  match c_pc c with
  | Sending | Counting | Leaving (Err (ErrSend _)) | Gone (Err (ErrSend _)) => None
  | _ => Some (c_msg c)
  end.

(** The elements of [l] belong to distinct calls, which are all that have one. *)
Definition ledger (f : Call -> option bytes) (cs : gmap Z Call) (l : list bytes) : Prop :=
  exists order, NoDup order /\
    Forall2 (fun i x => exists c, cs !! i = Some c /\ f c = Some x) order l /\
    forall i c, cs !! i = Some c -> is_Some (f c) -> i ∈ order.

Record accounted (s : Client) : Prop := {
  ac_fresh : forall i, next_call s <= i -> calls s !! i = None;
  ac_active : ActiveRequests (cl_stats s) = to_u64 (total active (calls s));
  ac_requests : TotalRequests (cl_stats s) = to_u64 (total (fun _ => 1) (calls s));
  ac_responses : TotalResponses (cl_stats s) = to_u64 (len (taken s));
  ac_errors : TotalErrors (cl_stats s) = to_u64 (total failed (calls s));
  ac_answered : total answered (calls s) = len (taken s);
  ac_queue : taken s ++ recvCh s = accepted s;
  ac_bytes_sent : cl_BytesSent (cl_stats s) = to_u64 (bytes_of (sent s));
  ac_bytes_received : cl_BytesReceived (cl_stats s) = to_u64 (bytes_of (map response_data (taken s)));
  ac_interfaces :
    interfaces_ok (len (List.filter long (sent s))) (len (List.filter headed (taken s)))
      (cl_InterfaceStats (cl_stats s));
  ac_given : ledger answer_of (calls s) (map response_data (taken s));
  ac_passed : ledger request_of (calls s) (sent s);
  ac_counts : all_counts (requests (sent s)) (responses (taken s)) (cl_InterfaceStats (cl_stats s)) }.

Lemma client_interface_created a f st :
  on_interface a f (getOrCreateInterfaceStats a st) =
  st <| cl_InterfaceStats ::= fun m => <[a := f (default zero_interface_stats (m !! a))]> m |>.
Proof.
  destruct st as [x1 x2 x3 x4 x5 x6 m]. unfold set_field. rewrite <- alter_created.
  unfold on_interface, getOrCreateInterfaceStats. cbn. by destruct (m !! a).
Qed.

Lemma len_filter_snoc {A} (f : A -> bool) l x :
  len (List.filter f (l ++ [x])) = len (List.filter f l) + indicator (f x).
Proof.
  rewrite List.filter_app. unfold len. rewrite length_app. cbn [List.filter]. destruct (f x); cbn; lia.
Qed.

Lemma to_u64_succ x y d : to_u64 x = to_u64 y -> add d (to_u64 x) = to_u64 (y + d).
Proof. intros ->. apply add_to_u64. Qed.

(** One interface counts one more message. *)
Lemma interfaces_sent a code n ms mr m :
  interfaces_ok ms mr m ->
  interfaces_ok (ms + 1) mr
    (<[a := on_command code (fun k => k <| cs_MessagesSent ::= add 1 |> <| cs_BytesSent ::= add n |>)
              (getOrCreateCommandStats code
                 ((default zero_interface_stats (m !! a)) <| is_MessagesSent ::= add 1 |> <| is_BytesSent ::= add n |>))]> m).
Proof.
  intros [H1 H2 H3]. split.
  - apply map_Forall_insert_2; [|done]. by apply sent_ok, interface_ok_default.
  - rewrite on_command_created, (total_set _ zero_interface_stats) by done. unfold set_field; cbn. rewrite to_u64_bump.
    by apply to_u64_succ.
  - rewrite on_command_created, (total_set _ zero_interface_stats) by done. unfold set_field; cbn. by rewrite to_u64_same.
Qed.

Lemma interfaces_received a code n ms mr m :
  interfaces_ok ms mr m ->
  interfaces_ok ms (mr + 1)
    (<[a := on_command code (fun k => k <| cs_MessagesReceived ::= add 1 |> <| cs_BytesReceived ::= add n |>)
              (getOrCreateCommandStats code
                 ((default zero_interface_stats (m !! a)) <| is_MessagesReceived ::= add 1 |>
                                                          <| is_BytesReceived ::= add n |>))]> m).
Proof.
  intros [H1 H2 H3]. split.
  - apply map_Forall_insert_2; [|done]. by apply received_ok, interface_ok_default.
  - rewrite on_command_created, (total_set _ zero_interface_stats) by done. unfold set_field; cbn. by rewrite to_u64_same.
  - rewrite on_command_created, (total_set _ zero_interface_stats) by done. unfold set_field; cbn. rewrite to_u64_bump.
    by apply to_u64_succ.
Qed.

(** The counters of one more message of the interface [a] and its command [k]. *)
Lemma interface_counts_other out inn out' inn' a i :
  (forall w q, (forall h, q h = true -> of_interface a h = true) ->
     tally w q out' = tally w q out /\ tally w q inn' = tally w q inn) ->
  interface_counts out inn a i -> interface_counts out' inn' a i.
Proof.
  intros Hq (H1 & H2 & H3 & H4 & H5). unfold interface_counts, command_counts, messages_of, octets_of in *.
  assert (forall w, tally w (of_interface a) out' = tally w (of_interface a) out /\
                    tally w (of_interface a) inn' = tally w (of_interface a) inn) as Hi by (intros w; by apply Hq).
  assert (forall w k, tally w (of_command a k) out' = tally w (of_command a k) out /\
                      tally w (of_command a k) inn' = tally w (of_command a k) inn) as Hc.
  { intros w k. apply Hq. intros h. unfold of_command. by intros [? _]%andb_true_iff. }
  rewrite !(proj1 (Hi _)), !(proj2 (Hi _)). split_and!; try done. intros k.
  rewrite !(proj1 (Hc _ _)), !(proj2 (Hc _ _)). apply H5.
Qed.

Lemma of_interface_head h : 20 <= len h -> of_interface (be_get (slice h 8 12)) h = true.
Proof. intros Hl. unfold of_interface. by rewrite (proj2 (Z.leb_le _ _) Hl), Z.eqb_refl. Qed.

Lemma of_command_head h k :
  20 <= len h -> of_command (be_get (slice h 8 12)) k h = (be_get (slice h 5 8) =? k).
Proof. intros Hl. unfold of_command. by rewrite of_interface_head. Qed.

Lemma of_interface_other a h q :
  be_get (slice h 8 12) <> a -> (forall h, q h = true -> of_interface a h = true) -> q h = false.
Proof.
  intros Hne Hq. destruct (q h) eqn:E; [|done]. apply Hq, andb_true_iff in E as [_ E]. by apply Z.eqb_eq in E.
Qed.

Lemma all_counts_sent h n out inn m :
  20 <= len h -> all_counts out inn m ->
  all_counts (out ++ [(h, n)]) inn
    (<[be_get (slice h 8 12) := on_command (be_get (slice h 5 8)) (fun k => k <| cs_MessagesSent ::= add 1 |> <| cs_BytesSent ::= add n |>)
              (getOrCreateCommandStats (be_get (slice h 5 8))
                 ((default zero_interface_stats (m !! be_get (slice h 8 12))) <| is_MessagesSent ::= add 1 |> <| is_BytesSent ::= add n |>))]> m).
Proof.
  intros Hl Hm a. destruct (decide (be_get (slice h 8 12) = a)) as [<-|Hne].
  - rewrite lookup_insert_eq. cbn [default]. rewrite on_command_created. specialize (Hm (be_get (slice h 8 12))).
    unfold interface_counts, command_counts, messages_of, octets_of in *.
    destruct (default zero_interface_stats _) as [mr ms br bs er cm]. unfold set_field; cbn in Hm |- *.
    destruct Hm as (H1 & H2 & H3 & H4 & H5). rewrite H1, H2, !tally_snoc.
    cbn [fst snd]. rewrite of_interface_head, !add_to_u64 by done. split_and!; try done. intros k.
    specialize (H5 k) as (K1 & K2 & K3 & K4). rewrite !tally_snoc. cbn [fst snd]. rewrite !of_command_head by done.
    destruct (Z.eqb_spec (be_get (slice h 5 8)) k) as [->|Hk].
    + rewrite lookup_insert_eq. cbn. destruct (default zero_command_stats _). cbn in K1, K2. by rewrite K1, K2, !add_to_u64.
    + rewrite lookup_insert_ne by done. by rewrite !Z.add_0_r.
  - rewrite lookup_insert_ne by done. eapply interface_counts_other; [|apply Hm]. intros w q Hq.
    split; [|done]. rewrite tally_snoc. cbn [fst]. rewrite (of_interface_other a h q Hne Hq). lia.
Qed.

Lemma all_counts_received h n out inn m :
  20 <= len h -> all_counts out inn m ->
  all_counts out (inn ++ [(h, n)])
    (<[be_get (slice h 8 12) := on_command (be_get (slice h 5 8)) (fun k => k <| cs_MessagesReceived ::= add 1 |> <| cs_BytesReceived ::= add n |>)
              (getOrCreateCommandStats (be_get (slice h 5 8))
                 ((default zero_interface_stats (m !! be_get (slice h 8 12))) <| is_MessagesReceived ::= add 1 |> <| is_BytesReceived ::= add n |>))]> m).
Proof.
  intros Hl Hm a. destruct (decide (be_get (slice h 8 12) = a)) as [<-|Hne].
  - rewrite lookup_insert_eq. cbn [default]. rewrite on_command_created. specialize (Hm (be_get (slice h 8 12))).
    unfold interface_counts, command_counts, messages_of, octets_of in *.
    destruct (default zero_interface_stats _) as [mr ms br bs er cm]. unfold set_field; cbn in Hm |- *.
    destruct Hm as (H1 & H2 & H3 & H4 & H5). rewrite H3, H4, !tally_snoc.
    cbn [fst snd]. rewrite of_interface_head, !add_to_u64 by done. split_and!; try done. intros k.
    specialize (H5 k) as (K1 & K2 & K3 & K4). rewrite !tally_snoc. cbn [fst snd]. rewrite !of_command_head by done.
    destruct (Z.eqb_spec (be_get (slice h 5 8)) k) as [->|Hk].
    + rewrite lookup_insert_eq. cbn. destruct (default zero_command_stats _). cbn in K3, K4. by rewrite K3, K4, !add_to_u64.
    + rewrite lookup_insert_ne by done. by rewrite !Z.add_0_r.
  - rewrite lookup_insert_ne by done. eapply interface_counts_other; [|apply Hm]. intros w q Hq.
    split; [done|]. rewrite tally_snoc. cbn [fst]. rewrite (of_interface_other a h q Hne Hq). lia.
Qed.

(** A message without a whole header is not counted there. *)
Lemma all_counts_short h n out inn m :
  len h < 20 -> all_counts out inn m -> all_counts (out ++ [(h, n)]) inn m /\ all_counts out (inn ++ [(h, n)]) m.
Proof.
  intros Hl Hm. assert (forall a q, (forall h, q h = true -> of_interface a h = true) -> q h = false) as Hf.
  { intros a q Hq. destruct (q h) eqn:E; [|done]. apply Hq, andb_true_iff in E as [E _]. b2p. lia. }
  split; intros a; eapply interface_counts_other; try apply Hm; intros w q Hq; rewrite tally_snoc; cbn [fst];
    rewrite (Hf a q Hq); lia.
Qed.

Lemma ParseCommand_long h :
  20 <= len h -> exists r, ParseCommand h =
    Ok {| Interface := be_get (slice h 8 12); Code := be_get (slice h 5 8); cmd_Request := r |}.
Proof. intros Hl. rewrite ParseCommand_eq, (proj2 (Z.ltb_ge _ _) Hl). by eexists. Qed.

Lemma slice_head (msg : bytes) i j : 20 <= len msg -> 0 <= i <= j -> j <= 20 -> slice (take 20 msg) i j = slice msg i j.
Proof.
  intros Hl Hi Hj. rewrite <- (take_drop 20 msg) at 2. symmetry. apply slice_prefix_app; [done|].
  unfold len in *. rewrite length_take. lia.
Qed.

Lemma count_sent_eq msg st :
  exists ifs, count_sent msg st = st <| cl_BytesSent ::= add (len msg) |> <| cl_InterfaceStats := ifs |> /\
    (forall ms mr, interfaces_ok ms mr (cl_InterfaceStats st) -> interfaces_ok (ms + indicator (long msg)) mr ifs) /\
    forall out inn, all_counts out inn (cl_InterfaceStats st) -> all_counts (out ++ requests [msg]) inn ifs.
Proof.
  unfold count_sent, long. destruct (Z.leb_spec 20 (len msg)) as [Hl|Hl].
  - destruct (ParseCommand_long (take 20 msg)) as [r Hc].
    { unfold len in *. rewrite length_take. lia. }
    rewrite Hc. cbn [count_cmd Interface Code]. rewrite client_interface_created, !slice_head by lia.
    eexists. split; [by destruct st|]. split; [intros ms mr Hi; by apply interfaces_sent|].
    intros out inn Ha. by apply all_counts_sent.
  - exists (cl_InterfaceStats st). split; [by destruct st|]. split; [intros ms mr Hi; by rewrite Z.add_0_r|].
    intros out inn Ha. by apply all_counts_short.
Qed.

Lemma count_received_eq m st :
  exists ifs, count_received m st =
      st <| TotalResponses ::= add 1 |> <| cl_BytesReceived ::= add (len (response_data m)) |>
         <| cl_InterfaceStats := ifs |> /\
    (forall ms mr, interfaces_ok ms mr (cl_InterfaceStats st) -> interfaces_ok ms (mr + indicator (headed m)) ifs) /\
    forall out inn, all_counts out inn (cl_InterfaceStats st) -> all_counts out (inn ++ responses [m]) ifs.
Proof.
  unfold count_received, headed, long. destruct (Z.leb_spec 20 (len (msg_Header m))) as [Hl|Hl].
  - destruct (ParseCommand_long _ Hl) as [r Hc].
    assert (20 <= len (response_data m)) as Hn by (unfold response_data, len in *; rewrite length_app; lia).
    rewrite (proj2 (Z.leb_le _ _) Hn), Hc. cbn [count_cmd Interface Code]. rewrite client_interface_created.
    eexists. split; [by destruct st|]. split; [intros ms mr Hi; by apply interfaces_received|].
    intros out inn Ha. by apply all_counts_received.
  - exists (cl_InterfaceStats st). split; [|split; [intros ms mr Hi; by rewrite Z.add_0_r|intros out inn Ha; by apply all_counts_short]].
    rewrite ParseCommand_eq, (proj2 (Z.ltb_lt _ _) Hl). destruct (20 <=? _); by destruct st.
Qed.

(** *** Steps *)

Lemma total_moved (f : Call -> Z) i pc pc' s : call_at s i pc ->
  exists msg, calls s !! i = Some {| c_msg := msg; c_pc := pc |} /\
    total f (alter (fun c => c <| c_pc := pc' |>) i (calls s)) =
      total f (calls s) - f {| c_msg := msg; c_pc := pc |} + f {| c_msg := msg; c_pc := pc' |}.
Proof. intros [msg Hc]. exists msg. split; [done|]. by rewrite (total_alter f i _ _ _ Hc). Qed.

Lemma fresh_alter (f : Call -> Call) i (m : gmap Z Call) n :
  (forall j, n <= j -> m !! j = None) -> forall j, n <= j -> alter f i m !! j = None.
Proof. intros Hm j Hj. rewrite lookup_alter_None. by apply Hm. Qed.

(** A call moves, and keeps what it had; it gets something; it is new. *)
Lemma ledger_kept f i c0 g (cs : gmap Z Call) l :
  cs !! i = Some c0 -> f (g c0) = f c0 -> ledger f cs l -> ledger f (alter g i cs) l.
Proof.
  intros Hi Hg (order & Hn & Ho & Hall). exists order. split; [done|]. split.
  - eapply Forall2_impl; [exact Ho|]. intros j x (c & Hc & Hx). destruct (decide (i = j)) as [<-|Hne].
    + exists (g c0). rewrite lookup_alter_eq, Hi. split; [done|]. congruence.
    + exists c. by rewrite lookup_alter_ne.
  - intros j c. destruct (decide (i = j)) as [<-|Hne].
    + rewrite lookup_alter_eq, Hi. intros [= <-]. rewrite Hg. by apply Hall.
    + rewrite lookup_alter_ne by done. apply Hall.
Qed.

Lemma ledger_gets f i c0 g x (cs : gmap Z Call) l :
  cs !! i = Some c0 -> f c0 = None -> f (g c0) = Some x -> ledger f cs l -> ledger f (alter g i cs) (l ++ [x]).
Proof.
  intros Hi H0 Hg (order & Hn & Ho & Hall).
  assert (i ∉ order) as Hio.
  { intros [n Hn']%list_elem_of_lookup_1. destruct (Forall2_lookup_l _ _ _ _ _ Ho Hn') as (y & _ & c & Hc & Hy). congruence. }
  exists (order ++ [i]). split; [|split].
  - apply NoDup_app. split; [done|]. split; [|apply NoDup_singleton]. by intros j Hj ->%list_elem_of_singleton.
  - apply Forall2_app.
    + eapply Forall2_impl; [exact Ho|]. intros j y (c & Hc & Hy). exists c. split; [|done].
      rewrite lookup_alter_ne; [done|]. intros <-. congruence.
    + constructor; [|constructor]. exists (g c0). by rewrite lookup_alter_eq, Hi.
  - intros j c. destruct (decide (i = j)) as [<-|Hne]; [set_solver|].
    rewrite lookup_alter_ne by done. intros Hc Hf. apply elem_of_app. left. by eapply Hall.
Qed.

Lemma ledger_new f i c0 (cs : gmap Z Call) l :
  cs !! i = None -> f c0 = None -> ledger f cs l -> ledger f (<[i := c0]> cs) l.
Proof.
  intros Hi H0 (order & Hn & Ho & Hall). exists order. split; [done|]. split.
  - eapply Forall2_impl; [exact Ho|]. intros j x (c & Hc & Hx). exists c. split; [|done].
    rewrite lookup_insert_ne; [done|]. intros <-. congruence.
  - intros j c [[<- <-]|[_ Hj]]%lookup_insert_Some; [by rewrite H0; intros [? ?]|by apply Hall].
Qed.

(** A call that moves without an answer, the counters but for the errors being
    left alone. *)
Lemma moves_accounted i pc pc' (p : ConnectionPool C) errors d s :
  call_at s i pc -> accounted s ->
  (forall msg, active {| c_msg := msg; c_pc := pc' |} = active {| c_msg := msg; c_pc := pc |} - d) ->
  (forall msg, failed {| c_msg := msg; c_pc := pc' |} = failed {| c_msg := msg; c_pc := pc |} + errors) ->
  (forall msg, answered {| c_msg := msg; c_pc := pc' |} = answered {| c_msg := msg; c_pc := pc |}) ->
  (forall msg, answer_of {| c_msg := msg; c_pc := pc' |} = answer_of {| c_msg := msg; c_pc := pc |}) ->
  (forall msg, request_of {| c_msg := msg; c_pc := pc' |} = request_of {| c_msg := msg; c_pc := pc |}) ->
  accounted (set_pc i pc' (s <| pool := p |>
    <| cl_stats ::= fun st => st <| TotalErrors := to_u64 (total failed (calls s) + errors) |>
                                 <| ActiveRequests := to_u64 (total active (calls s) - d) |> |>)).
Proof.
  intros Hat [H1 H2 H3 H4 H5 H6 H7 H8 H9 H10 H11 H12 H13] Ha Hf Hans Hr Hp.
  destruct (total_moved active i pc pc' s Hat) as (msg & Hc & Ta).
  destruct (total_moved failed i pc pc' s Hat) as (msg' & Hc' & Tf).
  destruct (total_moved answered i pc pc' s Hat) as (msg2 & _ & Tn).
  destruct (total_moved (fun _ => 1) i pc pc' s Hat) as (msg3 & _ & T1).
  split; unfold set_pc; rsimpl; try done.
  - by apply fresh_alter.
  - rewrite Ta, Ha. f_equal. lia.
  - rewrite T1, H3. f_equal. lia.
  - rewrite Tf, Hf. f_equal. lia.
  - rewrite Tn, Hans, <- H6. lia.
  - eapply ledger_kept; [exact Hc|apply Hr|exact H11].
  - eapply ledger_kept; [exact Hc|apply Hp|exact H12].
Qed.

Lemma accounted_ext s s' :
  accounted s -> next_call s' = next_call s -> calls s' = calls s -> cl_stats s' = cl_stats s ->
  taken s' = taken s -> sent s' = sent s -> taken s' ++ recvCh s' = accepted s' -> accounted s'.
Proof.
  intros [H1 H2 H3 H4 H5 H6 H7 H8 H9 H10 H11 H12 H13] E1 E2 E3 E4 E5 E6. split; rewrite ?E1, ?E2, ?E3, ?E4, ?E5; try done.
  by rewrite <- E4.
Qed.

Lemma count_accounted i s msg :
  calls s !! i = Some {| c_msg := msg; c_pc := Counting |} -> accounted s ->
  accounted (set_pc i Waiting (s <| cl_stats ::= count_sent msg |> <| sent ::= fun l => l ++ [msg] |>)).
Proof.
  intros Hc [H1 H2 H3 H4 H5 H6 H7 H8 H9 H10 H11 H12 H13].
  destruct (count_sent_eq msg (cl_stats s)) as (ifs & He & Hi & Hcounts).
  split; unfold set_pc; rsimpl; rewrite ?He; rsimpl; try done.
  - by apply fresh_alter.
  - rewrite (total_alter active i _ _ _ Hc). unfold set_field; cbn. rewrite H2. f_equal. lia.
  - rewrite (total_alter (fun _ => 1) i _ _ _ Hc). unfold set_field; cbn. rewrite H3. f_equal. lia.
  - rewrite (total_alter failed i _ _ _ Hc). unfold set_field; cbn. rewrite H5. f_equal. lia.
  - rewrite (total_alter answered i _ _ _ Hc). unfold set_field; cbn. lia.
  - by rewrite H8, add_to_u64, bytes_of_snoc.
  - rewrite len_filter_snoc. by apply Hi.
  - by eapply ledger_kept.
  - by eapply ledger_gets.
  - unfold requests. rewrite map_app. by apply Hcounts.
Qed.

Lemma response_accounted i s m q :
  call_at s i Waiting -> recvCh s = m :: q -> accounted s ->
  accounted (set_pc i (Leaving (Ok (response_data m)))
    (s <| recvCh := q |> <| taken ::= fun l => l ++ [m] |> <| cl_stats ::= count_received m |>)).
Proof.
  intros [msg Hc] Hq [H1 H2 H3 H4 H5 H6 H7 H8 H9 H10 H11 H12 H13].
  destruct (count_received_eq m (cl_stats s)) as (ifs & He & Hi & Hcounts).
  assert (len (taken s ++ [m]) = len (taken s) + 1) as Hlen by (unfold len; rewrite length_app; cbn; lia).
  split; unfold set_pc; rsimpl; rewrite ?He; rsimpl; try done.
  - by apply fresh_alter.
  - rewrite (total_alter active i _ _ _ Hc). unfold set_field; cbn. rewrite H2. f_equal. lia.
  - rewrite (total_alter (fun _ => 1) i _ _ _ Hc). unfold set_field; cbn. rewrite H3. f_equal. lia.
  - by rewrite H4, add_to_u64, Hlen.
  - rewrite (total_alter failed i _ _ _ Hc). unfold set_field; cbn. rewrite H5. f_equal. lia.
  - rewrite (total_alter answered i _ _ _ Hc). unfold set_field; cbn. lia.
  - by rewrite <- app_assoc, <- H7, Hq.
  - rewrite H9, add_to_u64, map_app. cbn [map]. by rewrite bytes_of_snoc.
  - rewrite len_filter_snoc. by apply Hi.
  - rewrite map_app. by eapply ledger_gets.
  - by eapply ledger_kept.
  - unfold responses. rewrite map_app. by apply Hcounts.
Qed.

(** Two states that differ by the form of two counters. *)
Ltac settle Ha H2 H5 :=
  destruct Ha as [_ H2 _ _ H5 _ _ _ _ _ _ _ _]; unfold set_pc;
  match goal with s : Client |- _ => destruct s as [? ? ? ? ? [] ? ? ? ? ?] end; cbn in *; unfold set_field; cbn.

Lemma client_step_accounted e s s' : enabled e s -> client_step e s = Ok s' -> accounted s -> accounted s'.
Proof.
  intros He Hs Ha. destruct e as [msg|i pick|i|i|i|i|i|cs|m| | |]; cbn [client_step enabled] in *.
  - injection Hs as <-. destruct Ha as [H1 H2 H3 H4 H5 H6 H7 H8 H9 H10 H11 H12 H13].
    assert (calls s !! next_call s = None) as Hn by (apply H1; lia).
    split; rsimpl; rewrite ?(total_insert _ _ _ _ Hn); try done.
    + intros j Hj. rewrite lookup_insert_ne by lia. apply H1. lia.
    + rewrite H2, add_to_u64. f_equal. cbn. lia.
    + rewrite H3, add_to_u64. f_equal. lia.
    + by apply ledger_new.
    + by apply ledger_new.
  - destruct He as [msg Hc]. rewrite Hc in Hs. destruct (ConnPool.Send _ _ _) as [p [u|e|]]; [| |done]; injection Hs as <-.
    + eapply eq_ind; [apply (moves_accounted i Sending Counting p 0 0 s); [by exists msg|done|done..]|].
      settle Ha H2 H5. by rewrite H2, H5, Z.add_0_r, Z.sub_0_r.
    + eapply eq_ind; [apply (moves_accounted i Sending (Leaving (Err (ErrSend e))) p 1 0 s); [by exists msg|done|done..]|].
      settle Ha H2 H5. by rewrite H2, H5, add_to_u64, Z.sub_0_r.
  - destruct He as [msg Hc]. rewrite Hc in Hs. injection Hs as <-. by apply count_accounted.
  - destruct He as [Hat Hq]. destruct (recvCh s) as [|m q] eqn:Eq; [done|]. injection Hs as <-. by apply response_accounted.
  - injection Hs as <-. eapply eq_ind; [apply (moves_accounted i Waiting (Leaving (Err ErrTimeout)) (pool s) 1 0 s); done|].
    settle Ha H2 H5. by rewrite H2, H5, add_to_u64, Z.sub_0_r.
  - injection Hs as <-. destruct He as [Hat _].
    eapply eq_ind; [apply (moves_accounted i Waiting (Leaving (Err ErrCancelled)) (pool s) 0 0 s); done|].
    settle Ha H2 H5. by rewrite H2, H5, Z.add_0_r, Z.sub_0_r.
  - destruct He as [r [msg Hc]]. rewrite Hc in Hs. injection Hs as <-.
    eapply eq_ind; [apply (moves_accounted i (Leaving r) (Gone r) (pool s) 0 1 s); [by exists msg|done|done| |done|done|done]|].
    + intros. unfold failed. cbn. lia.
    + settle Ha H2 H5. by rewrite H2, H5, decrement, Z.add_0_r.
  - injection Hs as <-. by eapply accounted_ext; [done|..|apply (ac_queue _ Ha)].
  - destruct (_ <? _); injection Hs as <-; [|done].
    eapply accounted_ext; [done..|]. rsimpl. rewrite app_assoc. by rewrite (ac_queue _ Ha).
  - injection Hs as <-. by eapply accounted_ext; [done|..|apply (ac_queue _ Ha)].
  - injection Hs as <-. by eapply accounted_ext; [done|..|apply (ac_queue _ Ha)].
  - injection Hs as <-. by eapply accounted_ext; [done|..|apply (ac_queue _ Ha)].
Qed.

Lemma client_run_accounted s l s' : client_run s l s' -> accounted s -> accounted s'.
Proof. induction 1 as [|s e s1 l s2 He Hs _ IH]; [done|]. intros Ha. by eapply IH, client_step_accounted. Qed.

Lemma ledger_empty f : ledger f ∅ [].
Proof. exists []. split_and!; [constructor|constructor|done]. Qed.

Lemma new_client_accounted c p : accounted (new_client c p).
Proof. split; cbn; rewrite ?total_empty; try done; apply ledger_empty. Qed.

Lemma answer_of_Some c data : answer_of c = Some data <-> result_of c = Some (Ok data).
Proof. unfold answer_of. destruct (result_of c) as [[| |]|]; naive_solver. Qed.

(** Calls without a response and without an error: those in progress, and those
    that the end of the client ended. *)
Definition unsettled (c : Call) : Z := indicator (match result_of c with None | Some (Err ErrCancelled) => true | _ => false end).

Definition crashing (c : Call) : Z := indicator (match result_of c with Some Panic => true | _ => false end).

Lemma call_outcomes c : crashing c = 0 -> answered c + (failed c + unsettled c) = 1.
Proof. unfold crashing, answered, failed, unsettled. destruct (result_of c) as [[|[]|]|]; done. Qed.

Definition no_panic (s : Client) : Prop := map_Forall (fun _ c => crashing c = 0) (calls s).

Lemma no_panic_set_pc i pc s :
  no_panic s -> crashing {| c_msg := []; c_pc := pc |} = 0 -> no_panic (set_pc i pc s).
Proof.
  intros Hs Hp j c. unfold set_pc. rsimpl. destruct (decide (i = j)) as [<-|Hne].
  - rewrite lookup_alter_eq. destruct (calls s !! i); [|done]. by intros [= <-].
  - rewrite lookup_alter_ne by done. apply Hs.
Qed.

Lemma step_no_panic e s s' : client_step e s = Ok s' -> no_panic s -> no_panic s'.
Proof.
  intros Hs Hn. destruct e as [msg|i pick|i|i|i|i|i|cs|m| | |]; cbn [client_step] in Hs.
  - injection Hs as <-. intros j c. rsimpl. intros [[<- <-]|[_ Hj]]%lookup_insert_Some; [done|by apply (Hn j)].
  - destruct (calls s !! i) as [c|]; [|by injection Hs as <-].
    destruct (ConnPool.Send _ _ _) as [p [u|e|]]; [..|done]; injection Hs as <-; by apply no_panic_set_pc.
  - destruct (calls s !! i) as [c|]; injection Hs as <-; [by apply no_panic_set_pc|done].
  - destruct (recvCh s); [done|]. injection Hs as <-. by apply no_panic_set_pc.
  - injection Hs as <-. by apply no_panic_set_pc.
  - injection Hs as <-. by apply no_panic_set_pc.
  - destruct (calls s !! i) as [[msg pc]|] eqn:Ec; [|by injection Hs as <-].
    destruct pc as [| | |r|]; try by injection Hs as <-. injection Hs as <-. apply no_panic_set_pc; [done|].
    exact (Hn i _ Ec).
  - by injection Hs as <-.
  - destruct (_ <? _); by injection Hs as <-.
  - by injection Hs as <-.
  - by injection Hs as <-.
  - by injection Hs as <-.
Qed.

Lemma run_no_panic s l s' : client_run s l s' -> no_panic s -> no_panic s'.
Proof. induction 1 as [|s e s1 l s2 He Hs _ IH]; [done|]. intros Ha. by eapply IH, step_no_panic. Qed.

(** C35: in every state that the client's calls, its pool and [Stop] can reach,
    the counters say what has happened, modulo 2^64.  How many calls there
    were, are in progress, got a response, or failed, every call being one of
    these; how many bytes were exchanged; and, for each interface and each of
    its commands, how many messages and bytes were sent and received whose
    headers name it.  The messages that were counted as sent are those of the
    calls whose send succeeded, once each.  The responses are the received
    messages in the order of their arrival, and each is given to one call: the
    calls with an answer, in some order, have the data of the first, the second,
    ... message that was taken. *)
Theorem client_accounted c p l s :
  client_run (new_client c p) l s ->
  let st := cl_stats s in
  ActiveRequests st = to_u64 (total active (calls s)) /\
  TotalResponses st = to_u64 (len (taken s)) /\ TotalErrors st = to_u64 (total failed (calls s)) /\
  TotalRequests st = to_u64 (TotalResponses st + TotalErrors st + total unsettled (calls s)) /\
  cl_BytesSent st = to_u64 (bytes_of (sent s)) /\
  cl_BytesReceived st = to_u64 (bytes_of (map response_data (taken s))) /\
  interfaces_ok (len (List.filter long (sent s))) (len (List.filter headed (taken s))) (cl_InterfaceStats st) /\
  (forall a, let i := default zero_interface_stats (cl_InterfaceStats st !! a) in
     let out := requests (sent s) in let inn := responses (taken s) in
     is_MessagesSent i = to_u64 (messages_of (of_interface a) out) /\
     is_BytesSent i = to_u64 (octets_of (of_interface a) out) /\
     is_MessagesReceived i = to_u64 (messages_of (of_interface a) inn) /\
     is_BytesReceived i = to_u64 (octets_of (of_interface a) inn) /\
     forall k, let cmd := default zero_command_stats (is_CommandStats i !! k) in
       cs_MessagesSent cmd = to_u64 (messages_of (of_command a k) out) /\
       cs_BytesSent cmd = to_u64 (octets_of (of_command a k) out) /\
       cs_MessagesReceived cmd = to_u64 (messages_of (of_command a k) inn) /\
       cs_BytesReceived cmd = to_u64 (octets_of (of_command a k) inn)) /\
  taken s ++ recvCh s = accepted s /\ total answered (calls s) = len (taken s) /\
  (exists order, NoDup order /\
     Forall2 (fun i data => exists call, calls s !! i = Some call /\ result_of call = Some (Ok data))
       order (map response_data (taken s)) /\
     forall i call data, calls s !! i = Some call -> result_of call = Some (Ok data) -> i ∈ order) /\
  (exists order, NoDup order /\
     Forall2 (fun i msg => exists call, calls s !! i = Some call /\ request_of call = Some msg) order (sent s) /\
     forall i call msg, calls s !! i = Some call -> request_of call = Some msg -> i ∈ order).
Proof.
  intros Hr st. pose proof (client_run_accounted _ _ _ Hr (new_client_accounted c p))
    as [H1 H2 H3 H4 H5 H6 H7 H8 H9 H10 (given & G1 & G2 & G3) (passed & P1 & P2 & P3) H13].
  assert (no_panic s) as Hn by (apply (run_no_panic _ _ _ Hr); apply map_Forall_empty).
  split_and!; try done.
  - subst st. rewrite H3, H4, H5, <- H6.
    rewrite (total_ext_map (fun _ => 1) (fun c => answered c + (failed c + unsettled c))).
    + rewrite !total_plus, <- Z.add_assoc, to_u64_add_l.
      rewrite (Z.add_comm (total answered _) (to_u64 _ + _)), <- Z.add_assoc, to_u64_add_l. f_equal. lia.
    + intros j x Hx. symmetry. apply call_outcomes. exact (Hn j x Hx).
  - exists given. split; [done|]. split.
    + eapply Forall2_impl; [exact G2|]. intros i data (call & Hc & Hd). exists call. split; [done|].
      by apply answer_of_Some.
    + intros i call data Hc Hd. apply (G3 i call Hc). exists data. by apply answer_of_Some.
  - exists passed. split; [done|]. split; [done|]. intros i call msg Hc Hd. apply (P3 i call Hc). by exists msg.
Qed.

End Client.

(** ** Construction *)

Section New.
Context {P : Type}.
Variable ps : P. (* its connections draw no source ports *)

Definition NewClient (config : option ClientConfig) : outcome client_error (Client (C := managed (P := P))) :=
  match config with
  | None => Err ErrNilConfig
  | Some c =>
      match validateClientConfig c with
      | Ok c =>
          match make_pool (poolConfig c) ps with
          | None => Err ErrCreatePool
          | Some p => Ok (new_client c p)
          end
      | Err e => Err e
      | Panic => Panic
      end
  end.

Record acceptable (c : ClientConfig) : Prop := {
  acc_address : ServerAddress c <> [];
  acc_host : cc_OriginHost c <> [];
  acc_realm : cc_OriginRealm c <> [];
  acc_size : 0 < PoolSize c;
  acc_min : 0 <= MinPoolSize c <= PoolSize c }.

(** What the pool asks for beyond that. *)
Record poolable (c : ClientConfig) : Prop := {
  po_product : cc_ProductName c <> [];
  po_dwr : or_default (10 * one_second) (cc_DWRTimeout c) < or_default (30 * one_second) (cc_DWRInterval c) }.

Lemma or_default_pos d v : 0 < d -> 0 < or_default d v.
Proof. unfold or_default. intros. destruct (Z.leb_spec v 0); lia. Qed.

Lemma len_nonempty (s : bytes) : (len s =? 0) = false <-> s <> [].
Proof. unfold len. destruct s; cbn; [naive_solver|]. rewrite Z.eqb_neq. naive_solver lia. Qed.

Lemma validate_cases c :
  (acceptable c /\ exists c', validateClientConfig c = Ok c' /\
     ServerAddress c' = ServerAddress c /\ cc_OriginHost c' = cc_OriginHost c /\ cc_OriginRealm c' = cc_OriginRealm c /\
     cc_ProductName c' = cc_ProductName c /\ PoolSize c' = PoolSize c /\
     cc_DWRInterval c' = or_default (30 * one_second) (cc_DWRInterval c) /\
     cc_DWRTimeout c' = or_default (10 * one_second) (cc_DWRTimeout c) /\
     cc_MaxDWRFailures c' = or_default 3 (cc_MaxDWRFailures c)) \/
  (~ acceptable c /\ exists reason, validateClientConfig c = Err (ErrInvalidConfig reason)).
Proof.
  unfold validateClientConfig. cbv zeta.
  destruct (len (ServerAddress c) =? 0) eqn:E1.
  { right. split; [|eauto]. intros [H _ _ _ _]. apply len_nonempty in H. congruence. }
  destruct (len (cc_OriginHost c) =? 0) eqn:E2.
  { right. split; [|eauto]. intros [_ H _ _ _]. apply len_nonempty in H. congruence. }
  destruct (len (cc_OriginRealm c) =? 0) eqn:E3.
  { right. split; [|eauto]. intros [_ _ H _ _]. apply len_nonempty in H. congruence. }
  destruct (Z.leb_spec (PoolSize c) 0). { right. split; [|eauto]. intros []. lia. }
  destruct (Z.ltb_spec (MinPoolSize c) 0). { right. split; [|eauto]. intros []. lia. }
  destruct (Z.ltb_spec (PoolSize c) (MinPoolSize c)). { right. split; [|eauto]. intros []. lia. }
  left. apply len_nonempty in E1, E2, E3. split; [by split|]. eexists. split; [done|]. by destruct c.
Qed.

Lemma poolConfig_valid c c' :
  acceptable c -> ServerAddress c' = ServerAddress c -> cc_OriginHost c' = cc_OriginHost c ->
  cc_OriginRealm c' = cc_OriginRealm c -> cc_ProductName c' = cc_ProductName c -> PoolSize c' = PoolSize c ->
  cc_DWRInterval c' = or_default (30 * one_second) (cc_DWRInterval c) ->
  cc_DWRTimeout c' = or_default (10 * one_second) (cc_DWRTimeout c) ->
  cc_MaxDWRFailures c' = or_default 3 (cc_MaxDWRFailures c) ->
  ClientConn.Validate (poolConfig c') = None <-> poolable c.
Proof.
  intros [A1 A2 A3 A4 _] E1 E2 E3 E4 E5 E6 E7 E8. apply len_nonempty in A1, A2, A3.
  pose proof (or_default_pos (30 * one_second) (cc_DWRInterval c) eq_refl).
  pose proof (or_default_pos (10 * one_second) (cc_DWRTimeout c) eq_refl).
  pose proof (or_default_pos 3 (cc_MaxDWRFailures c) eq_refl).
  unfold ClientConn.Validate. cbn [poolConfig ClientConn.Host ClientConn.Port cfg_OriginHost cfg_OriginRealm
    cfg_ProductName ConnectionCount DWRInterval DWRTimeout MaxDWRFailures LocalAddr LocalPortMin LocalPortMax].
  rewrite E1, E2, E3, E4, E5, E6, E7, E8, A1, A2, A3, (proj2 (Z.leb_gt _ _) A4).
  rewrite !(proj2 (Z.leb_gt _ 0)) by done. cbn [orb negb].
  destruct (len (cc_ProductName c) =? 0) eqn:Ep.
  { split; [done|]. intros [H2 _]. apply len_nonempty in H2. congruence. }
  apply len_nonempty in Ep. destruct (Z.leb_spec (or_default (30 * one_second) (cc_DWRInterval c)) (or_default (10 * one_second) (cc_DWRTimeout c))).
  - split; [done|]. intros []. lia.
  - split; [by split|done].
Qed.

(** Which configurations give a client: those with an address and an
    identity, a product name, sizes that fit, and, after the defaults, a
    watchdog timeout below its interval; a client has its pool of connections,
    all to port 3868 of the server address, none of which has any time for the
    exchange of capabilities. *)
Theorem NewClient_exact c :
  ((exists cl, NewClient (Some c) = Ok cl) <-> acceptable c /\ poolable c) /\
  NewClient (Some c) <> Panic /\
  forall cl, NewClient (Some c) = Ok cl ->
    count (pool cl) = PoolSize c /\
    forall m, m ∈ ConnPool.connections (pool cl) ->
      ClientConn.Host (ClientConn.config (mc m)) = ServerAddress c /\
      ClientConn.Port (ClientConn.config (mc m)) = 3868 /\
      cfg_CERTimeout (ClientConn.config (mc m)) = 0.
Proof.
  unfold NewClient.
  destruct (validate_cases c) as [(Hacc & c' & -> & E1 & E2 & E3 & E4 & E5 & E6 & E7 & E8)|[Hn [reason ->]]];
    [|split_and!; [|done..]; split; [by intros [? ?]|by intros [? _]]].
  pose proof (poolConfig_valid c c' Hacc E1 E2 E3 E4 E5 E6 E7 E8) as Hv. unfold make_pool.
  destruct (ClientConn.Validate (poolConfig c')).
  - split_and!; [|done..]. split; [by intros [? ?]|]. intros [_ Hp]. by apply Hv in Hp.
  - split_and!; [split; [|eauto]; intros _; split; [done|by apply Hv]|done|]. intros cl [= <-]. cbn [pool new_client].
    pose proof (acc_size _ Hacc). split.
    + unfold count, len. cbn [ConnPool.connections NewConnectionPool]. rewrite length_map, length_seq. cbn. lia.
    + cbn [ConnPool.connections NewConnectionPool]. intros m (i & -> & _)%list_elem_of_fmap. by cbn.
Qed.

End New.
