(* ===== verification/ConnManager.v ===== *)
(** * The connection manager ([pkg/connmanager/manager.go])

    One connection per pair of an agent and an interface, each pinned to its
    interface's application, all of them taking their source ports from one
    port pool.  The connections are those of ClientConn, the pool is that of
    PortPool: a step of the manager is a step of one of its connections on the
    pool that they share. *)

From Stdlib Require Import Floats.SpecFloat.
From S2P Require Import Prelude Binary DataTypes Wire Message BaseMessages Framing.
From S2P Require PortPool.
From S2P Require Import ClientConn ClientTheorems ClientLife.
From S2P Require ClientPool.
#[local] Existing Instance ClientPool.pool_source.
#[local] Existing Instance ClientPool.pool_source_laws.

(** ** Configuration *)

Definition InterfaceS6a : bytes := gostr "s6a".
Definition InterfaceS13 : bytes := gostr "s13".

Record InterfaceSpec := { Interface : bytes; ApplicationID : Z }.

Definition DefaultInterfaces : list InterfaceSpec :=
  [{| Interface := InterfaceS6a; ApplicationID := 16777251 |};
   {| Interface := InterfaceS13; ApplicationID := 16777252 |}].

Record Key := { k_DRA : bytes; k_Interface : bytes }.

#[export] Instance Key_eq_dec : EqDecision Key.
Proof. solve_decision. Defined.
#[export] Program Instance Key_countable : Countable Key :=
  inj_countable' (fun k => (k_DRA k, k_Interface k)) (fun p => {| k_DRA := p.1; k_Interface := p.2 |}) _.
Next Obligation. by intros []. Qed.

(** [Key.String]. *)
Definition key_String (k : Key) : bytes := k_DRA k ++ gostr "/" ++ k_Interface k.

Record DRASpec := { d_Name : bytes; d_Host : bytes; d_Port : Z }.

Record Config := {
  SourceIP : option bytes;
  MinPort : Z;
  MaxPort : Z;
  QuarantineDuration : Z;
  DRAs : list DRASpec;
  Interfaces : list InterfaceSpec;
  m_OriginHost : bytes;
  m_OriginRealm : bytes;
  m_ProductName : bytes;
  m_VendorID : Z;
  m_ConnectTimeout : Z;
  m_CERTimeout : Z;
  m_DWRInterval : Z;
  m_DWRTimeout : Z;
  m_MaxDWRFailures : Z;
  m_ReconnectInterval : Z;
  m_MaxReconnectDelay : Z;
  m_ReconnectBackoff : spec_float;
  m_SendBufferSize : Z;
  m_RecvBufferSize : Z }.

Definition or_default (d v : Z) : Z := if v =? 0 then d else v.

Definition withDefaults (c : Config) : Config :=
  {| SourceIP := SourceIP c; MinPort := MinPort c; MaxPort := MaxPort c;
     QuarantineDuration := or_default (60 * one_second) (QuarantineDuration c);
     DRAs := DRAs c;
     Interfaces := if len (Interfaces c) =? 0 then DefaultInterfaces else Interfaces c;
     m_OriginHost := m_OriginHost c; m_OriginRealm := m_OriginRealm c;
     m_ProductName := if len (m_ProductName c) =? 0 then gostr "Diameter-GW" else m_ProductName c;
     m_VendorID := or_default 10415 (m_VendorID c);
     m_ConnectTimeout := or_default (10 * one_second) (m_ConnectTimeout c);
     m_CERTimeout := or_default (5 * one_second) (m_CERTimeout c);
     m_DWRInterval := or_default (30 * one_second) (m_DWRInterval c);
     m_DWRTimeout := or_default (10 * one_second) (m_DWRTimeout c);
     m_MaxDWRFailures := or_default 3 (m_MaxDWRFailures c);
     m_ReconnectInterval := or_default one_second (m_ReconnectInterval c);
     m_MaxReconnectDelay := or_default (30 * one_second) (m_MaxReconnectDelay c);
     m_ReconnectBackoff := if SFltb (m_ReconnectBackoff c) (float64 1) then float64 2
                           else m_ReconnectBackoff c;
     m_SendBufferSize := or_default 1000 (m_SendBufferSize c);
     m_RecvBufferSize := or_default 1000 (m_RecvBufferSize c) |}.

Inductive manager_error : Type :=
| ErrSourceIP
| ErrOriginHost
| ErrOriginRealm
| ErrNoDRAs
| ErrDRAName
| ErrDuplicateDRA (name : bytes)
| ErrDRAHost (name : bytes)
| ErrDRAPort (name : bytes)
| ErrPortRange
| ErrPortPool (e : PortPool.pool_error)
| ErrSlot (k : Key) (field : bytes)
| ErrClosed.

(** The loop over the agents; [seen] are the names before. *)
Fixpoint validate_DRAs (seen : gset bytes) (l : list DRASpec) : option manager_error :=
  match l with
  | [] => None
  | d :: l =>
      if len (d_Name d) =? 0 then Some ErrDRAName
      else if decide (d_Name d ∈ seen) then Some (ErrDuplicateDRA (d_Name d))
      else if len (d_Host d) =? 0 then Some (ErrDRAHost (d_Name d))
      else if (d_Port d <=? 0) || (65535 <? d_Port d) then Some (ErrDRAPort (d_Name d))
      else validate_DRAs ({[ d_Name d ]} ∪ seen) l
  end.

Definition validate (c : Config) : option manager_error :=
  match SourceIP c with
  | None => Some ErrSourceIP
  | Some _ =>
      if len (m_OriginHost c) =? 0 then Some ErrOriginHost
      else if len (m_OriginRealm c) =? 0 then Some ErrOriginRealm
      else if len (DRAs c) =? 0 then Some ErrNoDRAs
      else match validate_DRAs ∅ (DRAs c) with
           | Some e => Some e
           | None =>
               let totalSlots := len (DRAs c) * len (Interfaces c) in
               let totalPorts := MaxPort c - MinPort c + 1 in
               if totalPorts <=? totalSlots then Some ErrPortRange else None
           end
  end.

Definition buildSlotConfig (c : Config) (dra : DRASpec) (ispec : InterfaceSpec) : DRAConfig :=
  {| Host := d_Host dra; Port := d_Port dra; LocalAddr := []; LocalPortMin := 0; LocalPortMax := 0;
     cfg_OriginHost := m_OriginHost c; cfg_OriginRealm := m_OriginRealm c;
     cfg_ProductName := m_ProductName c; cfg_VendorID := m_VendorID c; ConnectionCount := 1;
     ConnectTimeout := m_ConnectTimeout c; cfg_CERTimeout := m_CERTimeout c;
     DWRInterval := m_DWRInterval c; DWRTimeout := m_DWRTimeout c; MaxDWRFailures := m_MaxDWRFailures c;
     ReconnectInterval := m_ReconnectInterval c; MaxReconnectDelay := m_MaxReconnectDelay c;
     ReconnectBackoff := m_ReconnectBackoff c; SendBufferSize := m_SendBufferSize c;
     RecvBufferSize := m_RecvBufferSize c; AuthAppIDs := [ApplicationID ispec]; AcctAppIDs := [];
     AcquireLocalAddr := true |}.

(** ** The manager *)

Abbreviation conn_t := (Connection PortPool.Pool).

(** A slot's connection sees the shared pool: its own [ports] field is
    replaced by it whenever it takes a step. *)
Record slot := { s_app : Z; s_cfg : DRAConfig; s_conn : conn_t }.

Record Manager := {
  cfg : Config;
  pool : PortPool.Pool;
  slots : gmap Key slot;
  keys : list Key;
  m_ctx_done : bool }.

Definition slot_key (dra : DRASpec) (ispec : InterfaceSpec) : Key :=
  {| k_DRA := d_Name dra; k_Interface := Interface ispec |}.

(** The two loops of [New]. *)
Definition slot_specs (c : Config) : list (DRASpec * InterfaceSpec) :=
  concat (map (fun dra => map (pair dra) (Interfaces c)) (DRAs c)).

Definition new_slot (c : Config) (p : PortPool.Pool) (di : DRASpec * InterfaceSpec) : slot :=
  let slotCfg := buildSlotConfig c di.1 di.2 in
  {| s_app := ApplicationID di.2; s_cfg := slotCfg;
     s_conn := NewConnection (key_String (slot_key di.1 di.2)) slotCfg p |}.

Fixpoint add_slots (l : list (DRASpec * InterfaceSpec)) (m : Manager) : outcome manager_error Manager :=
  match l with
  | [] => Ok m
  | di :: l =>
      let key := slot_key di.1 di.2 in
      match Validate (buildSlotConfig (cfg m) di.1 di.2) with
      | Some field => Err (ErrSlot key field)
      | None =>
          add_slots l (m <| slots ::= <[key := new_slot (cfg m) (pool m) di]> |>
                         <| keys ::= fun ks => ks ++ [key] |>)
      end
  end.

Definition New (c : Config) : outcome manager_error Manager :=
  let c := withDefaults c in
  match validate c with
  | Some e => Err e
  | None =>
      match PortPool.New {| PortPool.SourceIP := SourceIP c; PortPool.MinPort := MinPort c;
                            PortPool.MaxPort := MaxPort c;
                            PortPool.QuarantineDuration := QuarantineDuration c |} with
      | Ok p =>
          add_slots (slot_specs c)
            {| cfg := c; pool := p; slots := ∅; keys := []; m_ctx_done := false |}
      | Err e => Err (ErrPortPool e)
      | Panic => Panic
      end
  end.

Definition Get (k : Key) (m : Manager) : option conn_t := s_conn <$> slots m !! k.
Definition Keys (m : Manager) : list Key := keys m.
Definition States (m : Manager) : gmap Key ConnectionState := (fun s => state (s_conn s)) <$> slots m.
Definition ActiveCount (m : Manager) : Z :=
  Z.of_nat (length (List.filter (fun ks => ClientConn.IsActive (s_conn ks.2)) (map_to_list (slots m)))).

(** ** Runs *)

(** One connection takes a step on the shared pool. *)
Definition conn_of (s : slot) (m : Manager) : conn_t := (s_conn s) <| ports := pool m |>.

Definition put_conn (k : Key) (s : slot) (c : conn_t) (m : Manager) : Manager :=
  m <| slots ::= <[k := s <| s_conn := c |>]> |> <| pool := ports c |>.

Inductive mstep : Key -> ClientConn.event Z -> Manager -> Manager -> Prop :=
| Mstep k ev m s c :
    slots m !! k = Some s -> enabled ev (conn_of s m) -> step ev (conn_of s m) = Ok c ->
    mstep k ev m (put_conn k s c m).

Inductive mrun : Manager -> list (Key * ClientConn.event Z) -> Manager -> Prop :=
| mrun_nil m : mrun m [] m
| mrun_cons m k ev m1 l m2 : mstep k ev m m1 -> mrun m1 l m2 -> mrun m ((k, ev) :: l) m2.

(** What [Start] and [Close] make the connections do. *)
Definition Start (now : Z) (m : Manager) : outcome manager_error (list (Key * ClientConn.event Z)) :=
  if m_ctx_done m then Err ErrClosed else Ok (map (fun k => (k, EStart now)) (keys m)).

Definition Close (now : Z) (m : Manager) : Manager * list (Key * ClientConn.event Z) :=
  (m <| m_ctx_done := true |>,
   map (fun k => (k, ECancel)) (keys m) ++ map (fun k => (k, EClose now)) (keys m)).

(** ** Source ports *)

(** Every connection has its own addresses, all of them held in the pool, and
    none that another connection has. *)
Record ports_inv (B : Z -> bool) (m : Manager) : Prop := {
  pi_good : PortPool.wf (pool m);
  pi_bounds : PortPool.Contains (pool m) = B;
  pi_nodup k s : slots m !! k = Some s -> NoDup (own (s_conn s));
  pi_held k s a : slots m !! k = Some s -> a ∈ own (s_conn s) -> a ∈ held (pool m);
  pi_apart k k' s s' a : slots m !! k = Some s -> slots m !! k' = Some s' -> k <> k' ->
    a ∈ own (s_conn s) -> a ∉ own (s_conn s') }.

Lemma put_conn_inv k s c m k' s' :
  slots (put_conn k s c m) !! k' = Some s' ->
  (k = k' /\ s <| s_conn := c |> = s') \/ (k <> k' /\ slots m !! k' = Some s').
Proof.
  change (slots (put_conn k s c m)) with (<[k := s <| s_conn := c |>]> (slots m)).
  apply lookup_insert_Some.
Qed.

Lemma mstep_ports B k ev m m' : mstep k ev m m' -> ports_inv B m -> ports_inv B m'.
Proof.
  destruct 1 as [k ev m s c Hk He Hs]. intros [Hg HB Hn Hh Ha].
  set (H0 := held (pool m) ∖ list_to_set (own (s_conn s))).
  assert (addr_inv B H0 [] c) as [Hg' HB' Hn' Hh' Ho'].
  { eapply step_addr; [|exact Hs]. split; [done|done| | |].
    - exact (Hn k s Hk).
    - intros a Hi. change (a ∈ own (s_conn s)) in Hi. split; [by eapply Hh|]. unfold H0. set_solver.
    - unfold H0. set_solver. }
  assert (forall k' s' a, k' <> k -> slots m !! k' = Some s' -> a ∈ own (s_conn s') -> a ∈ H0) as Hoth.
  { intros k' s' a Hne Hk' Hi. unfold H0. apply elem_of_difference. split; [by eapply Hh|].
    rewrite elem_of_list_to_set. by apply (Ha k' k s' s a). }
  split; try done.
  - intros k' s' [[<- <-]|[_ Hk']]%put_conn_inv; [exact Hn'|by apply (Hn k')].
  - intros k' s' a [[<- <-]|[Hne Hk']]%put_conn_inv Hi; [by apply Hh'|].
    by eapply Ho', Hoth; [apply not_eq_sym|..].
  - intros k1 k2 s1 s2 a [[<- <-]|[H1 Hk1]]%put_conn_inv [[<- <-]|[H2 Hk2]]%put_conn_inv Hne Hi;
      [done| | |by apply (Ha k1 k2 s1 s2)].
    + intros Hi2. apply (Hh' a) in Hi as [_ Hi]. by eapply Hi, Hoth; [apply not_eq_sym|..].
    + intros Hi2. apply (Hh' a) in Hi2 as [_ Hi2]. by eapply Hi2, Hoth; [apply not_eq_sym|..].
Qed.

Lemma mrun_ports B m l m' : mrun m l m' -> ports_inv B m -> ports_inv B m'.
Proof. induction 1; [done|]. intros Hi. eauto using mstep_ports. Qed.

(** ** The life of a slot *)

(** What a run does at one slot. *)
Definition acts_at (k : Key) (l : list (Key * ClientConn.event Z)) : list act :=
  map (fun ke => act_of ke.2) (List.filter (fun ke => bool_decide (ke.1 = k)) l).

(** The slots stay, with their applications and configurations; and the life
    of each connection is a run of the specification of ClientLife, whatever
    the others do to the pool between its steps. *)
Lemma mrun_slot m l m' k s :
  mrun m l m' -> slots m !! k = Some s ->
  exists s', slots m' !! k = Some s' /\ s_app s' = s_app s /\ s_cfg s' = s_cfg s /\
    arun (vitals (s_conn s)) (acts_at k l) (vitals (s_conn s')).
Proof.
  intros Hr. revert s. induction Hr as [m|m k1 ev m1 l m2 Hm Hr IH]; intros s Hk.
  { exists s. split_and!; [done..|constructor]. }
  destruct Hm as [k1 ev m s1 c Hk1 He Hs]. unfold acts_at. cbn [List.filter fst].
  case_bool_decide as Hd.
  - subst k1. rewrite Hk in Hk1. injection Hk1 as <-.
    destruct (IH (s <| s_conn := c |>)) as (s' & H1 & H2 & H3 & H4); [apply lookup_insert_eq|].
    exists s'. split_and!; [done..|]. cbn [map snd]. econstructor; [|exact H4].
    change (vitals (s_conn s)) with (vitals (conn_of s m)). by apply step_refines.
  - apply IH. change (slots (put_conn k1 s1 c m)) with (<[k1 := s1 <| s_conn := c |>]> (slots m)).
    by rewrite lookup_insert_ne.
Qed.

Lemma mrun_slot_back m l m' k s' :
  mrun m l m' -> slots m' !! k = Some s' -> is_Some (slots m !! k).
Proof.
  intros Hr. induction Hr as [m|m k1 ev m1 l m2 Hm Hr IH]; [by eexists|]. intros Hk.
  destruct (IH Hk) as [s Hs]. destruct Hm as [k1 ev m s1 c Hk1 He Hst].
  apply put_conn_inv in Hs as [[<- _]|[_ Hs]]; by eexists.
Qed.

(** ** Construction *)

Lemma add_slots_spec l m m' :
  add_slots l m = Ok m' ->
  cfg m' = cfg m /\ pool m' = pool m /\ keys m' = keys m ++ map (fun di => slot_key di.1 di.2) l /\
  (forall k, k ∉ map (fun di => slot_key di.1 di.2) l -> slots m' !! k = slots m !! k) /\
  (forall k, k ∈ map (fun di => slot_key di.1 di.2) l -> exists di,
     di ∈ l /\ k = slot_key di.1 di.2 /\ Validate (buildSlotConfig (cfg m) di.1 di.2) = None /\
     slots m' !! k = Some (new_slot (cfg m) (pool m) di)).
Proof.
  revert m. induction l as [|di l IH]; intros m; cbn [add_slots map].
  { intros [= <-]. split_and!; [done..|by rewrite app_nil_r|done|]. by intros k Hk%elem_of_nil. }
  destruct (Validate _) eqn:Ev; [done|]. intros Ha.
  destruct (IH _ Ha) as (H1 & H2 & H3 & H4 & H5). split_and!.
  - by rewrite H1.
  - by rewrite H2.
  - rewrite H3. rsimpl. by rewrite <- app_assoc.
  - intros k [Hne Hk]%not_elem_of_cons. rewrite (H4 k Hk). by apply lookup_insert_ne, not_eq_sym.
  - intros k Hk. destruct (decide (k ∈ map (fun di => slot_key di.1 di.2) l)) as [Hl|Hl].
    + destruct (H5 k Hl) as (di' & Hin & -> & Hv & Hs). exists di'. split_and!; try done.
      by apply list_elem_of_further.
    + apply elem_of_cons in Hk as [->|Hk]; [|done]. exists di. split_and!; [apply list_elem_of_here|done..|].
      rewrite (H4 _ Hl). apply lookup_insert_eq.
Qed.

Lemma elem_of_slot_specs c di : di ∈ slot_specs c <-> di.1 ∈ DRAs c /\ di.2 ∈ Interfaces c.
Proof.
  unfold slot_specs. rewrite list_elem_of_In, in_concat. split.
  - intros (l & Hl & Hd). apply in_map_iff in Hl as (dra & <- & Hdra). apply in_map_iff in Hd as (i & <- & Hi).
    by rewrite !list_elem_of_In.
  - rewrite !list_elem_of_In. intros [H1 H2]. destruct di as [dra i]. exists (map (pair dra) (Interfaces c)).
    split; [apply in_map_iff; by exists dra|by apply in_map].
Qed.

(** A manager as [New] makes it. *)
Record made (c : Config) (m : Manager) : Prop := {
  md_cfg : cfg m = withDefaults c;
  md_valid : validate (cfg m) = None;
  md_pool : PortPool.New {| PortPool.SourceIP := SourceIP (cfg m); PortPool.MinPort := MinPort (cfg m);
                            PortPool.MaxPort := MaxPort (cfg m);
                            PortPool.QuarantineDuration := QuarantineDuration (cfg m) |} = Ok (pool m);
  md_keys : keys m = map (fun di => slot_key di.1 di.2) (slot_specs (cfg m));
  md_slot k : is_Some (slots m !! k) <-> k ∈ keys m;
  md_slots k s : slots m !! k = Some s -> exists dra ispec,
    dra ∈ DRAs (cfg m) /\ ispec ∈ Interfaces (cfg m) /\ k = slot_key dra ispec /\
    Validate (buildSlotConfig (cfg m) dra ispec) = None /\ s = new_slot (cfg m) (pool m) (dra, ispec) }.

Lemma New_made c m : New c = Ok m -> made c m.
Proof.
  unfold New. cbv zeta. destruct (validate (withDefaults c)) as [|] eqn:Ev; [done|].
  destruct (PortPool.New _) as [p| |] eqn:Ep; [|done..]. intros Ha.
  destruct (add_slots_spec _ _ _ Ha) as (H1 & H2 & H3 & H4 & H5). cbn [cfg pool keys slots] in *.
  assert (forall k, k ∈ keys m -> exists di, di ∈ slot_specs (cfg m) /\ k = slot_key di.1 di.2 /\
    Validate (buildSlotConfig (cfg m) di.1 di.2) = None /\
    slots m !! k = Some (new_slot (cfg m) (pool m) di)) as Hk.
  { intros k. rewrite H3, H1, H2. apply H5. }
  split; rewrite ?H1, ?H2; try done.
  - intros k. split.
    + intros Hs. destruct (decide (k ∈ keys m)) as [|Hn]; [done|]. exfalso.
      rewrite H3 in Hn. rewrite (H4 k Hn), lookup_empty in Hs. by destruct Hs.
    + intros Hin. destruct (Hk k Hin) as (di & _ & _ & _ & Hs). by eexists.
  - intros k s Hs. destruct (decide (k ∈ keys m)) as [Hin|Hn].
    + destruct (Hk k Hin) as ([dra i] & Hd & -> & Hv & Hs'). apply elem_of_slot_specs in Hd as [Hd Hi].
      rewrite Hs in Hs'. injection Hs' as ->. rewrite H1, H2 in *. exists dra, i. done.
    + rewrite H3 in Hn. by rewrite (H4 k Hn), lookup_empty in Hs.
Qed.

Lemma New_ports_inv c m : New c = Ok m -> ports_inv (PortPool.Contains (pool m)) m.
Proof.
  intros Hn%New_made. destruct (PortPool.New_wf _ _ (md_pool _ _ Hn)) as (Hw & _).
  assert (forall k s, slots m !! k = Some s -> own (s_conn s) = []) as Ho.
  { intros k s Hs. by destruct (md_slots _ _ Hn k s Hs) as (dra & i & _ & _ & _ & _ & ->). }
  split; try done.
  - intros k s Hs. rewrite (Ho k s Hs). constructor.
  - intros k s a Hs. rewrite (Ho k s Hs). by intros Hi%elem_of_nil.
  - intros k k' s s' a Hs _ _. rewrite (Ho k s Hs). by intros Hi%elem_of_nil.
Qed.

Lemma validate_DRAs_NoDup seen l :
  validate_DRAs seen l = None -> NoDup (map d_Name l) /\ Forall (fun d => d_Name d ∉ seen) l.
Proof.
  revert seen. induction l as [|d l IH]; intros seen; cbn [validate_DRAs map]; [by repeat constructor|].
  destruct (len (d_Name d) =? 0); [done|]. destruct (decide _) as [|Hs]; [done|].
  destruct (len (d_Host d) =? 0); [done|]. destruct (_ || _); [done|]. intros [H1 H2]%IH.
  rewrite Forall_forall in H2. split.
  - constructor; [|done]. intros (d' & He & Hd)%list_elem_of_fmap. specialize (H2 d' Hd). set_solver.
  - constructor; [done|]. apply Forall_forall. intros d' Hd. specialize (H2 d' Hd). set_solver.
Qed.

Lemma slot_keys_NoDup c :
  NoDup (map Interface (Interfaces c)) -> NoDup (map d_Name (DRAs c)) ->
  NoDup (map (fun di => slot_key di.1 di.2) (slot_specs c)).
Proof.
  intros Hi. unfold slot_specs. induction (DRAs c) as [|d l IH]; [constructor|].
  cbn [map concat]. intros [Hd Hl]%NoDup_cons. rewrite map_app, map_map.
  apply NoDup_app. split_and!; [| |by apply IH].
  - rewrite <- map_map with (f := Interface) (g := fun i => {| k_DRA := d_Name d; k_Interface := i |}).
    apply NoDup_fmap_2; [|done]. by intros x y [= ->].
  - intros k Hk1 Hk2. apply list_elem_of_fmap in Hk1 as (i & -> & _).
    apply list_elem_of_fmap in Hk2 as ([d' i'] & He & Hin). injection He as He _.
    apply list_elem_of_In, in_concat in Hin as (x & Hx & Hin). apply in_map_iff in Hx as (d2 & <- & Hd2).
    apply in_map_iff in Hin as (i2 & [= -> ->] & _). apply Hd. rewrite He.
    apply list_elem_of_fmap. exists d'. split; [done|]. by apply list_elem_of_In.
Qed.

(** ** Theorems *)

(** C25: no source port is used twice.  In any run of a manager, whatever its
    connections do and however their steps interleave, the ports that a
    connection dials from or is bound to are ports of the configured range,
    pairwise distinct, and none of them is at the same time a port of another
    connection. *)
Theorem source_ports_exclusive c m l m' :
  New c = Ok m -> mrun m l m' ->
  (forall k s, slots m' !! k = Some s -> NoDup (own (s_conn s)) /\
     forall a, a ∈ own (s_conn s) -> MinPort c <= a <= MaxPort c) /\
  (forall k k' s s' a, slots m' !! k = Some s -> slots m' !! k' = Some s' -> k <> k' ->
     a ∈ own (s_conn s) -> a ∉ own (s_conn s')).
Proof.
  intros Hn Hr. destruct (mrun_ports _ _ _ _ Hr (New_ports_inv c m Hn)) as [Hg HB Hd Hh Ha].
  split; [|exact Ha]. intros k s Hs. split; [by eapply Hd|]. intros a Hi.
  pose proof (held_bounds a (pool m') Hg (Hh k s a Hs Hi)) as Hb.
  cbn [bounds ClientPool.pool_source] in Hb. rewrite HB in Hb. unfold PortPool.Contains in Hb.
  apply New_made in Hn. destruct (PortPool.New_wf _ _ (md_pool _ _ Hn)) as (_ & Hc & _).
  rewrite Hc in Hb. cbn [PortPool.MinPort PortPool.MaxPort] in Hb. rewrite (md_cfg _ _ Hn) in Hb. cbn in Hb.
  b2p. lia.
Qed.

(** One connection per agent and interface, one application per
    connection.  [New] makes a slot for every pair of a configured agent and
    interface and no other, and in any run every CER that the connection of a
    slot can build speaks for the manager's identity and offers the
    application of an interface of that name and nothing else.  The slots of
    distinct interfaces are distinct, so that they are as many as there are
    pairs and [Keys] lists each once. *)
Theorem one_application_per_slot c m l m' :
  New c = Ok m -> mrun m l m' ->
  (forall k, is_Some (slots m' !! k) <-> exists dra ispec,
     dra ∈ DRAs c /\ ispec ∈ Interfaces (withDefaults c) /\ k = slot_key dra ispec) /\
  (forall k s localIP h e, slots m' !! k = Some s ->
     let cer := build_CER (config (s_conn s)) localIP h e in
     (exists ispec, ispec ∈ Interfaces (withDefaults c) /\ Interface ispec = k_Interface k /\
        s_app s = ApplicationID ispec) /\
     CapabilitiesExchangeRequest.AuthApplicationId cer = [s_app s] /\
     CapabilitiesExchangeRequest.AcctApplicationId cer = [] /\
     CapabilitiesExchangeRequest.OriginHost cer = m_OriginHost c /\
     CapabilitiesExchangeRequest.OriginRealm cer = m_OriginRealm c) /\
  (NoDup (map Interface (Interfaces (withDefaults c))) -> NoDup (keys m)).
Proof.
  intros Hn Hr. pose proof (New_made c m Hn) as Hm. pose proof (md_cfg _ _ Hm) as Hc.
  split_and!.
  - intros k. change (DRAs c) with (DRAs (withDefaults c)). rewrite <- Hc. transitivity (is_Some (slots m !! k)).
    { split; [|by intros [s Hs]; destruct (mrun_slot _ _ _ _ _ Hr Hs) as (s' & Hs' & _); eexists].
      intros [s' Hs']. by eapply mrun_slot_back. }
    rewrite (md_slot _ _ Hm), (md_keys _ _ Hm), list_elem_of_fmap. split.
    + intros ([dra i] & -> & [Hd Hi]%elem_of_slot_specs). exists dra, i. done.
    + intros (dra & i & Hd & Hi & ->). exists (dra, i). split; [done|]. by apply elem_of_slot_specs.
  - intros k s' localIP h e Hs'. destruct (mrun_slot_back _ _ _ _ _ Hr Hs') as [s Hs].
    destruct (mrun_slot _ _ _ _ _ Hr Hs) as (s2 & Hs2 & Happ & _ & Hl).
    rewrite Hs' in Hs2. injection Hs2 as <-.
    destruct (md_slots _ _ Hm k s Hs) as (dra & i & Hd & Hi & -> & _ & ->).
    pose proof (arun_inv _ _ _ _ Hl (NewConnection_inv _ _ _)) as Hv. apply li_cfg in Hv.
    change (v_cfg (vitals (s_conn s'))) with (config (s_conn s')) in Hv. rewrite Hv, Happ, Hc in *.
    split; [by exists i|]. done.
  - rewrite (md_keys _ _ Hm). intros Hi. apply slot_keys_NoDup; [by rewrite Hc|].
    pose proof (md_valid _ _ Hm) as Hv. unfold validate in Hv.
    destruct (validate_DRAs ∅ (DRAs (cfg m))) eqn:Ev; [by repeat case_match_in Hv|].
    by apply (validate_DRAs_NoDup ∅).
Qed.

(** A slot whose first dial fails stays down.  If the calls of [Start]
    leave a slot failed, then in no continuation, whatever happens to the
    other slots and to the pool and however long it lasts, does that slot
    reconnect or even try to, until it is closed. *)
Theorem slot_never_retried c m l1 m1 l2 m2 k s1 :
  New c = Ok m -> mrun m l1 m1 -> forallb attempt (acts_at k l1) = true ->
  slots m1 !! k = Some s1 -> state (s_conn s1) = StateFailed ->
  mrun m1 l2 m2 -> (AClose ∉ acts_at k l2) ->
  exists s2, slots m2 !! k = Some s2 /\ state (s_conn s2) = StateFailed /\
    conn (s_conn s2) = None /\ reconnecting (s_conn s2) = false /\ ReconnectAttempts (s_conn s2) = 0.
Proof.
  intros Hn Hr1 Hat Hs1 Hf Hr2 Hcl. pose proof (New_made c m Hn) as Hm.
  destruct (mrun_slot_back _ _ _ _ _ Hr1 Hs1) as [s Hs].
  destruct (mrun_slot _ _ _ _ _ Hr1 Hs) as (s1' & Hs1' & _ & _ & Hl1).
  rewrite Hs1 in Hs1'. injection Hs1' as <-.
  destruct (mrun_slot _ _ _ _ _ Hr2 Hs1) as (s2 & Hs2 & _ & _ & Hl2). exists s2. split; [done|].
  destruct (md_slots _ _ Hm k s Hs) as (dra & i & _ & _ & _ & _ & ->). cbn [new_slot s_conn] in Hl1.
  destruct (never_retried _ _ _ _ _ _ _ Hl1 Hat Hf Hl2 Hcl) as (H1 & H2 & H3 & H4 & _). done.
Qed.

(** Two interfaces of one name: the second slot replaces the first, whose
    connection is then neither started nor closed, and the key is listed
    twice. *)
Lemma duplicate_interface_lost c m :
  New c = Ok m -> ~ NoDup (map Interface (Interfaces (withDefaults c))) -> ~ NoDup (keys m).
Proof.
  intros Hm%New_made Hi Hk. apply Hi. rewrite (md_keys _ _ Hm), (md_cfg _ _ Hm) in Hk.
  pose proof (md_valid _ _ Hm) as Hv. rewrite (md_cfg _ _ Hm) in Hv. unfold validate in Hv.
  unfold slot_specs in Hk. destruct (DRAs (withDefaults c)) as [|d l]; [by repeat case_match_in Hv|].
  cbn [map concat] in Hk. rewrite map_app, map_map in Hk. apply NoDup_app in Hk as (Hk & _).
  rewrite <- map_map with (f := Interface) (g := fun i => {| k_DRA := d_Name d; k_Interface := i |}) in Hk.
  by apply NoDup_fmap_1 in Hk.
Qed.

(** ** Executing a run *)

Fixpoint mexec (l : list (Key * ClientConn.event Z)) (m : Manager) : option Manager :=
  match l with
  | [] => Some m
  | (k, ev) :: l =>
      match slots m !! k with
      | Some s =>
          if ClientPool.enabledb ev (conn_of s m) then
            match step ev (conn_of s m) with
            | Ok c => mexec l (put_conn k s c m)
            | _ => None
            end
          else None
      | None => None
      end
  end.

Lemma mexec_run l m m' : mexec l m = Some m' -> mrun m l m'.
Proof.
  revert m. induction l as [|[k ev] l IH]; intros m; cbn [mexec]; [intros [= <-]; constructor|].
  destruct (slots m !! k) as [s|] eqn:Hk; [|done]. destruct (ClientPool.enabledb _ _) eqn:Hb; [|done].
  destruct (step ev (conn_of s m)) as [c| |] eqn:Hs; [|done..]. intros Hx.
  econstructor; [|by apply IH]. constructor; [done|by apply ClientPool.enabledb_ok|done].
Qed.
