(* ===== verification/AddrPool.v ===== *)
(** * The client's pool of one connection per remote address

    [client/address_pool.go].  Any number of goroutines call [Send] for an
    address; the first that finds no active connection for it establishes one
    and the others wait on its channel.  The connections are known here by
    what the pool sees of them: whether they are active, whether their context
    is cancelled, and whether their lifecycle manager runs.

    [step] runs one goroutine between two points where it can wait or be
    overtaken: the critical sections of the two mutexes, the channel of an
    establishment, [conn.Start] and [conn.SendWithContext]. *)

From Stdlib Require Import Floats.SpecFloat.
From S2P Require Import Prelude Binary GoNet ClientConn.

(** ** Configuration *)

Record PoolConfig := {
  OriginHost : bytes;
  OriginRealm : bytes;
  ProductName : bytes;
  VendorID : Z;
  DialTimeout : Z;
  SendTimeout : Z;
  CERTimeout : Z;
  pc_DWRInterval : Z;
  pc_DWRTimeout : Z;
  pc_MaxDWRFailures : Z;
  ReconnectEnabled : bool;
  pc_ReconnectInterval : Z;
  pc_MaxReconnectDelay : Z;
  pc_ReconnectBackoff : spec_float;
  pc_SendBufferSize : Z;
  pc_RecvBufferSize : Z;
  pc_AuthAppIDs : list Z;
  pc_AcctAppIDs : list Z;
  IdleTimeout : Z;
  MaxConnLifetime : Z;
  HealthCheckInterval : Z }.

Definition DefaultPoolConfig : PoolConfig :=
  {| OriginHost := []; OriginRealm := []; ProductName := gostr "Diameter-Client"; VendorID := 10415;
     DialTimeout := 10 * one_second; SendTimeout := 5 * one_second; CERTimeout := 5 * one_second;
     pc_DWRInterval := 30 * one_second; pc_DWRTimeout := 10 * one_second; pc_MaxDWRFailures := 3;
     ReconnectEnabled := false; pc_ReconnectInterval := 5 * one_second;
     pc_MaxReconnectDelay := 300 * one_second;
     pc_ReconnectBackoff := S754_finite false 6755399441055744 (-52);
     pc_SendBufferSize := 1000; pc_RecvBufferSize := 1000; pc_AuthAppIDs := []; pc_AcctAppIDs := [];
     IdleTimeout := 0; MaxConnLifetime := 0; HealthCheckInterval := 30 * one_second |}.

(** The field of the [ErrInvalidConfig] it returns, if any. *)
Definition Validate (c : PoolConfig) : option bytes :=
  if len (OriginHost c) =? 0 then Some (gostr "OriginHost")
  else if len (OriginRealm c) =? 0 then Some (gostr "OriginRealm")
  else if len (ProductName c) =? 0 then Some (gostr "ProductName")
  else if DialTimeout c <=? 0 then Some (gostr "DialTimeout")
  else if pc_DWRInterval c <=? 0 then Some (gostr "DWRInterval")
  else if pc_DWRTimeout c <=? 0 then Some (gostr "DWRTimeout")
  else if pc_DWRInterval c <=? pc_DWRTimeout c then Some (gostr "DWRTimeout")
  else if pc_MaxDWRFailures c <=? 0 then Some (gostr "MaxDWRFailures")
  else if SFltb (pc_ReconnectBackoff c) (float64 1) then Some (gostr "ReconnectBackoff")
  else None.

(** The configuration of the connection to an address: a port that is no
    number leaves the default. *)
Definition conn_config (c : PoolConfig) (remoteAddr : bytes) : option DRAConfig :=
  match SplitHostPort remoteAddr with
  | None => None
  | Some (host, port) =>
      Some {| Host := host;
              Port := if len port =? 0 then 3868 else default 3868 (scan_int port);
              LocalAddr := []; LocalPortMin := 0; LocalPortMax := 0;
              cfg_OriginHost := OriginHost c; cfg_OriginRealm := OriginRealm c;
              cfg_ProductName := ProductName c; cfg_VendorID := VendorID c; ConnectionCount := 1;
              ConnectTimeout := DialTimeout c; cfg_CERTimeout := CERTimeout c;
              DWRInterval := pc_DWRInterval c; DWRTimeout := pc_DWRTimeout c;
              MaxDWRFailures := pc_MaxDWRFailures c; ReconnectInterval := pc_ReconnectInterval c;
              MaxReconnectDelay := pc_MaxReconnectDelay c;
              ReconnectBackoff := pc_ReconnectBackoff c; SendBufferSize := pc_SendBufferSize c;
              RecvBufferSize := pc_RecvBufferSize c; AuthAppIDs := pc_AuthAppIDs c;
              AcctAppIDs := pc_AcctAppIDs c; AcquireLocalAddr := false |}
  end.

(** ** State *)

(** [mc_lifecycle]: the goroutine of [startLifecycleManager] runs. *)
Record Managed := {
  mc_address : bytes;
  mc_config : option DRAConfig;
  mc_active : bool;
  mc_cancelled : bool;
  mc_lifecycle : bool }.

(** A channel of capacity one on which only [nil] is sent. *)
Record WaitCh := { buffered : bool; wait_closed : bool }.

Inductive pool_error : Type :=
| ErrPoolClosed
| ErrInvalidAddress
| ErrStart        (* the connection failed to start *)
| ErrNotFound     (* "connection established but not found" *)
| ErrContextDone
| ErrSend.

(** Where a call of [Send] is. *)
Inductive pc : Type :=
| Fast
| Slow
| Waiting (ch : Z)
| Starting (ch mc : Z)
| Adding (ch mc : Z)
| Notifying (ch : Z) (r : option Z)
| Sending (mc : Z)
| Returned (e : option pool_error).

(** [c_ctx]: the context of the call is done. *)
Record Caller := { c_addr : bytes; c_len : Z; c_ctx : bool; c_pc : pc }.

(** [ReconnectAttempts], [MessagesReceived] and [BytesReceived] are never
    changed by the code. *)
Record PoolMetrics := {
  ActiveConnections : Z;
  TotalConnections : Z;
  FailedEstablishments : Z;
  MessagesSent : Z;
  BytesSent : Z;
  ConnectionsClosed : Z;
  IdleTimeouts : Z;
  MaxLifetimeExpirations : Z }.

(** [notifiers] are the goroutines that send [nil] and close a channel:
    [true] once it has sent. *)
Record Pool := {
  config : PoolConfig;
  connections : gmap bytes Z;
  managed : gmap Z Managed;
  next_mc : Z;
  establishing : gmap bytes Z;
  waits : gmap Z WaitCh;
  next_wait : Z;
  callers : gmap Z Caller;
  next_caller : Z;
  notifiers : list (Z * bool);
  closed : bool;
  ctx_done : bool;
  metrics : PoolMetrics }.

Definition zero_metrics : PoolMetrics := Build_PoolMetrics 0 0 0 0 0 0 0 0.

Definition NewAddressConnectionPool (c : option PoolConfig) : option Pool :=
  match c with
  | None => None
  | Some c =>
      match Validate c with
      | Some _ => None
      | None =>
          Some {| config := c; connections := ∅; managed := ∅; next_mc := 0; establishing := ∅;
                  waits := ∅; next_wait := 0; callers := ∅; next_caller := 0; notifiers := [];
                  closed := false; ctx_done := false; metrics := zero_metrics |}
      end
  end.

Definition add64 (d n : Z) : Z := to_u64 (n + d).
Definition set_pc (i : Z) (p : pc) (s : Pool) : Pool :=
  s <| callers ::= alter (fun c => c <| c_pc := p |>) i |>.
Definition on_mc (m : Z) (f : Managed -> Managed) (s : Pool) : Pool :=
  s <| managed ::= alter f m |>.
Definition cancel (m : Z) (s : Pool) : Pool := on_mc m (fun c => c <| mc_cancelled := true |>) s.
Definition IsActive (m : Z) (s : Pool) : bool :=
  match managed s !! m with Some c => mc_active c | None => false end.

(** ** [Send] *)

(** The checks at its beginning. *)
Definition Send (remoteAddr : bytes) (n : Z) (s : Pool) : Pool :=
  let p := if closed s then Returned (Some ErrPoolClosed)
           else match SplitHostPort remoteAddr with
                | None => Returned (Some ErrInvalidAddress)
                | Some _ => Fast
                end in
  s <| callers ::= <[next_caller s := {| c_addr := remoteAddr; c_len := n; c_ctx := false; c_pc := p |}]> |>
    <| next_caller ::= Z.succ |>.

(** The connection of an address, if it is active. *)
Definition lookup_active (a : bytes) (s : Pool) : option Z :=
  match connections s !! a with
  | Some m => if IsActive m s then Some m else None
  | None => None
  end.

(** [getOrCreateConnection], under [establishingMu]: up to the call of
    [establishConnection], with the new connection. *)
Definition slow_path (i : Z) (a : bytes) (s : Pool) : Pool :=
  match lookup_active a s with
  | Some m => set_pc i (Sending m) s
  | None =>
      match establishing s !! a with
      | Some ch => set_pc i (Waiting ch) s
      | None =>
          let ch := next_wait s in
          let m := next_mc s in
          let mc := {| mc_address := a; mc_config := conn_config (config s) a; mc_active := false;
                       mc_cancelled := ctx_done s; mc_lifecycle := false |} in
          set_pc i (Starting ch m)
            (s <| waits ::= <[ch := {| buffered := false; wait_closed := false |}]> |>
               <| next_wait ::= Z.succ |> <| establishing ::= <[a := ch]> |>
               <| managed ::= <[m := mc]> |> <| next_mc ::= Z.succ |>)
      end
  end.

(** [conn.Start()] returns; then the lifecycle manager is started. *)
Definition start_result (i ch m : Z) (ok : bool) (s : Pool) : Pool :=
  if ok then
    set_pc i (Adding ch m) (on_mc m (fun c => c <| mc_active := true |> <| mc_lifecycle := true |>) s)
  else set_pc i (Notifying ch None) (cancel m s).

(** [establishConnection], under [connectionsMu], to its end. *)
Definition add_connection (i : Z) (a : bytes) (ch m : Z) (s : Pool) : Pool :=
  match connections s !! a with
  | Some existing =>
      set_pc i (Notifying ch (Some existing))
        (on_mc m (fun c => c <| mc_cancelled := true |> <| mc_active := false |>) s)
  | None =>
      set_pc i (Notifying ch (Some m))
        (s <| connections ::= <[a := m]> |>
           <| metrics ::= fun k => k <| ActiveConnections ::= fun n => to_i64 (n + 1) |>
                                     <| TotalConnections ::= add64 1 |> |>)
  end.

Definition close_wait (ch : Z) (s : Pool) : Pool :=
  s <| waits ::= alter (fun w => w <| wait_closed := true |>) ch |>.

(** The end of [getOrCreateConnection] for the goroutine that established. *)
Definition notify (i : Z) (a : bytes) (ch : Z) (r : option Z) (s : Pool) : Pool :=
  let s := s <| establishing ::= delete a |> in
  match r with
  | None =>
      set_pc i (Returned (Some ErrStart))
        (close_wait ch (s <| metrics ::= fun k => k <| FailedEstablishments ::= add64 1 |> |>))
  | Some m => set_pc i (Sending m) (s <| notifiers ::= fun l => l ++ [(ch, false)] |>)
  end.

(** The goroutine that notifies the waiters. *)
Definition run_notifier (k : nat) (s : Pool) : Pool :=
  match notifiers s !! k with
  | None => s
  | Some (ch, false) =>
      s <| waits ::= alter (fun w => w <| buffered := true |>) ch |>
        <| notifiers ::= <[k := (ch, true)]> |>
  | Some (ch, true) =>
      close_wait ch (s <| notifiers ::= fun l => take k l ++ drop (S k) l |>)
  end.

(** A waiter's [select]: a receive from the channel gives [nil] either way. *)
Inductive wait_end : Type := Received | CtxDone | PoolDone.

Definition wait_result (i : Z) (a : bytes) (ch : Z) (w : wait_end) (s : Pool) : Pool :=
  match w with
  | Received =>
      let s := s <| waits ::= alter (fun w => w <| buffered := false |>) ch |> in
      match connections s !! a with
      | None => set_pc i (Returned (Some ErrNotFound)) s
      | Some m => set_pc i (Sending m) s
      end
  | CtxDone => set_pc i (Returned (Some ErrContextDone)) s
  | PoolDone => set_pc i (Returned (Some ErrPoolClosed)) s
  end.

(** [conn.SendWithContext] returns: an inactive connection gives an error. *)
Definition send_result (i n m : Z) (ok : bool) (s : Pool) : Pool :=
  if ok && IsActive m s then
    set_pc i (Returned None)
      (s <| metrics ::= fun k => k <| MessagesSent ::= add64 1 |> <| BytesSent ::= add64 n |> |>)
  else set_pc i (Returned (Some ErrSend)) s.

(** ** The other goroutines *)

Definition removeConnection (a : bytes) (s : Pool) : Pool :=
  s <| connections ::= delete a |>
    <| metrics ::= fun k => k <| ActiveConnections ::= fun n => to_i64 (n + -1) |>
                              <| ConnectionsClosed ::= add64 1 |> |>.

(** The lifecycle manager ends, for one of its three reasons; only the first
    closes the connection. *)
Inductive life_end : Type := Cancelled | Idle | Lifetime.

Definition lifecycle_end (m : Z) (why : life_end) (s : Pool) : Pool :=
  match managed s !! m with
  | None => s
  | Some c =>
      let s :=
        match why with
        | Cancelled => on_mc m (fun c => c <| mc_active := false |>) s
        | Idle => cancel m (s <| metrics ::= fun k => k <| IdleTimeouts ::= add64 1 |> |>)
        | Lifetime => cancel m (s <| metrics ::= fun k => k <| MaxLifetimeExpirations ::= add64 1 |> |>)
        end in
      removeConnection (mc_address c) (on_mc m (fun c => c <| mc_lifecycle := false |>) s)
  end.

Definition performHealthCheck (s : Pool) : Pool :=
  foldr (fun m s' => if IsActive m s then s' else cancel m s') s (map_to_list (connections s)).*2.

(** The cancelled context of the pool is the parent of all of them. *)
Definition Close (s : Pool) : Pool :=
  if closed s then s
  else s <| closed := true |> <| ctx_done := true |>
         <| managed ::= fmap (fun c => c <| mc_cancelled := true |>) |>.

Definition GetConnection (a : bytes) (s : Pool) : option Z := connections s !! a.
(** It only answers while a connection to the address is being established. *)
Definition GetReceiveChan (a : bytes) (s : Pool) : option Z :=
  match establishing s !! a with
  | None => None
  | Some _ => GetConnection a s
  end.
Definition ListConnections (s : Pool) : list bytes := (map_to_list (connections s)).*1.

(** ** Runs *)

Inductive event : Type :=
| EvSend (remoteAddr : bytes) (n : Z)
| EvStep (i : Z)                    (* a caller in [Fast], [Slow], [Adding] or [Notifying] *)
| EvStart (i : Z) (ok : bool)
| EvWait (i : Z) (w : wait_end)
| EvSent (i : Z) (ok : bool)
| EvNotifier (k : nat)
| EvFail (m : Z)                    (* the connection fails: its state *)
| EvOnFailure (m : Z)               (* ... and the callback [onConnectionFailure] *)
| EvLifecycle (m : Z) (why : life_end)
| EvHealthCheck
| EvClose
| EvContext (i : Z).                (* the context of a call ends *)

(** What has to hold for the goroutine to take the step. *)
Definition enabled (e : event) (s : Pool) : Prop :=
  match e with
  | EvSend _ _ | EvHealthCheck | EvClose => True
  | EvStep i => exists c, callers s !! i = Some c /\
      match c_pc c with Fast | Slow | Adding _ _ | Notifying _ _ => True | _ => False end
  | EvStart i _ => exists c ch m, callers s !! i = Some c /\ c_pc c = Starting ch m
  | EvWait i w => exists c ch, callers s !! i = Some c /\ c_pc c = Waiting ch /\
      match w with
      | Received => exists b, waits s !! ch = Some b /\ (buffered b || wait_closed b) = true
      | CtxDone => c_ctx c = true
      | PoolDone => ctx_done s = true
      end
  | EvSent i _ => exists c m, callers s !! i = Some c /\ c_pc c = Sending m
  | EvNotifier k => exists ch sent, notifiers s !! k = Some (ch, sent) /\
      (sent = false -> exists b, waits s !! ch = Some b /\ buffered b = false) (* the send can block *)
  | EvFail m => exists c, managed s !! m = Some c /\ mc_active c = true
  | EvOnFailure m => exists c, managed s !! m = Some c /\ mc_active c = false
  | EvLifecycle m why => exists c, managed s !! m = Some c /\ mc_lifecycle c = true /\
      match why with
      | Cancelled => mc_cancelled c = true
      | Idle => 0 < IdleTimeout (config s)
      | Lifetime => 0 < MaxConnLifetime (config s)
      end
  | EvContext i => is_Some (callers s !! i)
  end.

Definition step (e : event) (s : Pool) : Pool :=
  match e with
  | EvSend a n => Send a n s
  | EvStep i =>
      match callers s !! i with
      | Some c =>
          match c_pc c with
          | Fast =>
              match lookup_active (c_addr c) s with
              | Some m => set_pc i (Sending m) s
              | None => set_pc i Slow s
              end
          | Slow => slow_path i (c_addr c) s
          | Adding ch m => add_connection i (c_addr c) ch m s
          | Notifying ch r => notify i (c_addr c) ch r s
          | _ => s
          end
      | None => s
      end
  | EvStart i ok =>
      match callers s !! i with
      | Some c => match c_pc c with Starting ch m => start_result i ch m ok s | _ => s end
      | None => s
      end
  | EvWait i w =>
      match callers s !! i with
      | Some c => match c_pc c with Waiting ch => wait_result i (c_addr c) ch w s | _ => s end
      | None => s
      end
  | EvSent i ok =>
      match callers s !! i with
      | Some c => match c_pc c with Sending m => send_result i (c_len c) m ok s | _ => s end
      | None => s
      end
  | EvNotifier k => run_notifier k s
  | EvFail m => on_mc m (fun c => c <| mc_active := false |>) s
  | EvOnFailure m => cancel m s
  | EvLifecycle m why => lifecycle_end m why s
  | EvHealthCheck => performHealthCheck s
  | EvClose => Close s
  | EvContext i => s <| callers ::= alter (fun c => c <| c_ctx := true |>) i |>
  end.

Inductive run : Pool -> list event -> Pool -> Prop :=
| run_nil s : run s [] s
| run_cons s e l s' : enabled e s -> run (step e s) l s' -> run s (e :: l) s'.

(** ** One establishment at a time *)

Definition establishes (c : Caller) : option Z :=
  match c_pc c with
  | Starting ch _ | Adding ch _ | Notifying ch _ => Some ch
  | _ => None
  end.

Definition wait_is_closed (s : Pool) (ch : Z) : Prop :=
  exists w, waits s !! ch = Some w /\ wait_closed w = true.

(** The map [establishing] names exactly the goroutines between their claim
    and their notification, and every waiter's channel belongs to one of
    these, is about to be notified, or is closed. *)
Record one_dial (s : Pool) : Prop := {
  od_claim i c ch : callers s !! i = Some c -> establishes c = Some ch ->
    establishing s !! c_addr c = Some ch;
  od_one i j c d ch : callers s !! i = Some c -> callers s !! j = Some d ->
    establishes c = Some ch -> establishes d = Some ch -> i = j;
  od_claimed a ch : establishing s !! a = Some ch ->
    exists i c, callers s !! i = Some c /\ c_addr c = a /\ establishes c = Some ch;
  od_waiter i c ch : callers s !! i = Some c -> c_pc c = Waiting ch ->
    establishing s !! c_addr c = Some ch \/ (exists b, (ch, b) ∈ notifiers s) \/ wait_is_closed s ch;
  od_known ch : (exists a, establishing s !! a = Some ch) \/ (exists b, (ch, b) ∈ notifiers s) ->
    is_Some (waits s !! ch);
  od_wait_fresh ch : is_Some (waits s !! ch) -> ch < next_wait s;
  od_caller_fresh i : is_Some (callers s !! i) -> i < next_caller s }.

Lemma lookup_set_pc i p s j :
  callers (set_pc i p s) !! j =
  if decide (j = i) then (fun c => c <| c_pc := p |>) <$> callers s !! i else callers s !! j.
Proof.
  change (callers (set_pc i p s)) with (alter (fun c => c <| c_pc := p |>) i (callers s)).
  destruct (decide (j = i)) as [->|]; [apply lookup_alter_eq|by apply lookup_alter_ne].
Qed.

Lemma lookup_set_pc_inv i p s j c :
  callers (set_pc i p s) !! j = Some c ->
  (j <> i /\ callers s !! j = Some c) \/
  (j = i /\ exists c0, callers s !! i = Some c0 /\ c = c0 <| c_pc := p |>).
Proof.
  rewrite lookup_set_pc. case_decide; [|by left]. intros H1. right. split; [done|].
  destruct (callers s !! i) as [c0|]; [|done]. injection H1 as <-. by exists c0.
Qed.

Lemma one_dial_ext s s' :
  callers s' = callers s -> establishing s' = establishing s -> notifiers s' = notifiers s ->
  waits s' = waits s -> next_wait s' = next_wait s -> next_caller s' = next_caller s ->
  one_dial s -> one_dial s'.
Proof.
  intros E1 E2 E3 E4 E5 E6 []. split; unfold wait_is_closed in *;
    rewrite ?E1, ?E2, ?E3, ?E4, ?E5, ?E6 in *; assumption.
Qed.

(** A caller moves, and neither claims nor waits afterwards. *)
Lemma one_dial_idle i p s c :
  callers s !! i = Some c -> establishes c = None ->
  (forall c, establishes (c <| c_pc := p |>) = None) -> (forall ch, p <> Waiting ch) ->
  one_dial s -> one_dial (set_pc i p s).
Proof.
  intros Hi Hc Hp Hw []. split; try assumption.
  - intros j d ch [[_ Hj]|(-> & c0 & _ & ->)]%lookup_set_pc_inv He; [by eauto|].
    by rewrite Hp in He.
  - intros j k d d' ch [[_ Hj]|(-> & c0 & _ & ->)]%lookup_set_pc_inv
      [[_ Hk]|(-> & c1 & _ & ->)]%lookup_set_pc_inv He He'; try by rewrite ?Hp in *; eauto.
  - intros a ch Ha. destruct (od_claimed0 a ch Ha) as (j & d & Hj & Hd & He).
    exists j, d. split; [|done]. rewrite lookup_set_pc, decide_False; [done|].
    intros ->. rewrite Hi in Hj. congruence.
  - intros j d ch [[_ Hj]|(-> & c0 & _ & ->)]%lookup_set_pc_inv He; [by eauto|]. by apply Hw in He.
  - intros j. rewrite lookup_set_pc. case_decide; [|apply od_caller_fresh0].
    subst. intros _. apply od_caller_fresh0. by eexists.
Qed.

(** A caller that establishes moves on, and still does. *)
Lemma one_dial_same i p s c ch :
  callers s !! i = Some c -> establishes c = Some ch ->
  (forall c, establishes (c <| c_pc := p |>) = Some ch) -> one_dial s -> one_dial (set_pc i p s).
Proof.
  intros Hi Hc Hp []. split; try assumption.
  - intros j d ch' [[_ Hj]|(-> & c0 & Hc0 & ->)]%lookup_set_pc_inv He; [by eauto|].
    rewrite Hp in He. injection He as <-. rewrite Hi in Hc0. injection Hc0 as <-.
    exact (od_claim0 i c ch Hi Hc).
  - intros j k d d' ch' [[_ Hj]|(-> & c0 & Hc0 & ->)]%lookup_set_pc_inv
      [[_ Hk]|(-> & c1 & Hc1 & ->)]%lookup_set_pc_inv He He'; try done.
    + by eapply od_one0.
    + rewrite Hp in He'. injection He' as <-. exact (od_one0 j i d c _ Hj Hi He Hc).
    + rewrite Hp in He. injection He as <-. exact (od_one0 i k c d' _ Hi Hk Hc He').
  - intros a ch' Ha. destruct (od_claimed0 a ch' Ha) as (j & d & Hj & Hd & He).
    destruct (decide (j = i)) as [->|Hne].
    + rewrite Hi in Hj. injection Hj as <-. exists i, (c <| c_pc := p |>).
      rewrite lookup_set_pc, decide_True, Hi by done. rewrite Hp. rewrite Hc in He.
      injection He as <-. done.
    + exists j, d. by rewrite lookup_set_pc, decide_False.
  - intros j d ch' [[_ Hj]|(-> & c0 & _ & ->)]%lookup_set_pc_inv He; [by eauto|].
    specialize (Hp c0). unfold establishes in Hp. by rewrite He in Hp.
  - intros j. rewrite lookup_set_pc. case_decide; [|apply od_caller_fresh0].
    subst. intros _. apply od_caller_fresh0. by eexists.
Qed.

Lemma one_dial_Send a n s : one_dial s -> one_dial (Send a n s).
Proof.
  intros []. unfold Send. set (p := if closed s then _ else _).
  assert (establishes {| c_addr := a; c_len := n; c_ctx := false; c_pc := p |} = None) as Hp
    by (unfold p; by repeat case_match).
  assert (forall ch, p <> Waiting ch) as Hw by (unfold p; intros; by repeat case_match).
  set (nc := {| c_addr := a; c_len := n; c_ctx := false; c_pc := p |}) in *.
  assert (forall i c, <[next_caller s := nc]> (callers s) !! i = Some c ->
    (callers s !! i = Some c) \/ (i = next_caller s /\ c = nc)) as Hl.
  { intros i c [[<- <-]|[? ?]]%lookup_insert_Some; auto. }
  split; try assumption; rsimpl.
  - intros i c ch [Hi|[_ ->]]%Hl He; [by eauto|]. congruence.
  - intros i j c d ch [Hi|[_ ->]]%Hl [Hj|[_ ->]]%Hl He He'; try congruence. by eapply od_one0.
  - intros b ch Hb. destruct (od_claimed0 b ch Hb) as (i & c & Hi & Hc).
    exists i, c. split; [|done]. rewrite lookup_insert_ne; [done|]. intros <-.
    specialize (od_caller_fresh0 (next_caller s) ltac:(by eexists)). lia.
  - intros i c ch [Hi|[_ ->]]%Hl He; [by eauto|]. by apply Hw in He.
  - intros i [c Hc]. apply Hl in Hc as [Hi|[-> _]]; [|lia].
    specialize (od_caller_fresh0 i ltac:(by eexists)). lia.
Qed.

(** The claim: a new channel and a new connection. *)
Lemma one_dial_slow i c s :
  callers s !! i = Some c -> c_pc c = Slow -> one_dial s -> one_dial (slow_path i (c_addr c) s).
Proof.
  intros Hi Hp Ho. unfold slow_path.
  assert (establishes c = None) as Hc by (unfold establishes; by rewrite Hp).
  destruct (lookup_active (c_addr c) s) as [m|]; [by eapply one_dial_idle|].
  destruct (establishing s !! c_addr c) as [ch|] eqn:E.
  - destruct Ho. split; try assumption.
    + intros j d ch' [[_ Hj]|(-> & c0 & _ & ->)]%lookup_set_pc_inv He; [by eauto|done].
    + intros j k d d' ch' [[_ Hj]|(-> & c0 & _ & ->)]%lookup_set_pc_inv
        [[_ Hk]|(-> & c1 & _ & ->)]%lookup_set_pc_inv He He'; try done. by eapply od_one0.
    + intros a ch' Ha. destruct (od_claimed0 a ch' Ha) as (j & d & Hj & Hd & He).
      exists j, d. split; [|done]. rewrite lookup_set_pc, decide_False; [done|].
      intros ->. rewrite Hi in Hj. congruence.
    + intros j d ch' [[_ Hj]|(-> & c0 & Hc0 & ->)]%lookup_set_pc_inv He; [by eauto|].
      rewrite Hi in Hc0. injection Hc0 as <-. left. injection He as <-. exact E.
    + intros j. rewrite lookup_set_pc. case_decide; [|apply od_caller_fresh0].
      subst. intros _. apply od_caller_fresh0. by eexists.
  - cbv zeta. set (ch := next_wait s). set (m := next_mc s).
    destruct Ho.
    assert (forall ch', is_Some (waits s !! ch') -> ch' <> ch) as Hne
      by (intros ch' H1 ->; apply od_wait_fresh0 in H1; unfold ch in H1; lia).
    assert (forall j d, callers s !! j = Some d -> establishes d <> Some ch) as Hnew.
    { intros j d Hj He. apply (Hne ch); [|done]. apply od_known0. left. eexists. by eapply od_claim0. }
    match goal with |- one_dial (set_pc i ?p ?s') =>
      set (s0 := s'); set (s1 := set_pc i p s0) end.
    assert (establishing s1 = <[c_addr c := ch]> (establishing s)) as E1 by done.
    assert (waits s1 = <[ch := {| buffered := false; wait_closed := false |}]> (waits s)) as E2 by done.
    assert (next_wait s1 = Z.succ (next_wait s)) as E3 by done.
    split; unfold wait_is_closed; rewrite ?E1, ?E2, ?E3.
    + intros j d ch' [[Hj' Hj]|(-> & c0 & Hc0 & ->)]%lookup_set_pc_inv He.
      * change (callers s !! j = Some d) in Hj. pose proof (od_claim0 j d ch' Hj He) as Hd.
        rewrite lookup_insert_ne; [done|]. intros Ea. by rewrite <- Ea, E in Hd.
      * change (callers s !! i = Some c0) in Hc0. rewrite Hi in Hc0. injection Hc0 as <-.
        injection He as <-. apply lookup_insert_eq.
    + intros j k d d' ch' [[_ Hj]|(-> & c0 & _ & ->)]%lookup_set_pc_inv
        [[_ Hk]|(-> & c1 & _ & ->)]%lookup_set_pc_inv He He'; try done.
      * by eapply od_one0.
      * injection He' as <-. by destruct (Hnew j d Hj He).
      * injection He as <-. by destruct (Hnew k d' Hk He').
    + intros a ch' [[<- <-]|[Hne' Ha]]%lookup_insert_Some.
      * exists i, (c <| c_pc := Starting ch m |>). unfold s1. rewrite lookup_set_pc, decide_True by done.
        change (callers s0) with (callers s). by rewrite Hi.
      * destruct (od_claimed0 a ch' Ha) as (j & d & Hj & Hd & He). exists j, d.
        split; [|done]. unfold s1. rewrite lookup_set_pc, decide_False; [done|].
        intros ->. rewrite Hi in Hj. congruence.
    + intros j d ch' [[_ Hj]|(-> & c0 & _ & ->)]%lookup_set_pc_inv He; [|done].
      change (callers s !! j = Some d) in Hj.
      destruct (od_waiter0 j d ch' Hj He) as [H1|[H1|(w & H1 & H2)]].
      * left. rewrite lookup_insert_ne; [done|]. intros Ea. by rewrite <- Ea, E in H1.
      * right; left. exact H1.
      * right; right. exists w. split; [|done]. rewrite lookup_insert_ne; [done|].
        intros <-. by apply (Hne ch); [eexists|].
    + intros ch' Hk. destruct (decide (ch' = ch)) as [->|Hd]; [rewrite lookup_insert_eq; by eexists|].
      rewrite lookup_insert_ne by done. apply od_known0. destruct Hk as [[a Ha]|Hk]; [|by right].
      left. apply lookup_insert_Some in Ha as [[_ <-]|[_ Ha]]; [done|by exists a].
    + intros ch' Hk. destruct (decide (ch' = ch)) as [->|Hd]; [unfold ch; lia|].
      rewrite lookup_insert_ne in Hk by done. apply od_wait_fresh0 in Hk. lia.
    + intros j. unfold s1. rewrite lookup_set_pc. case_decide; [|apply od_caller_fresh0].
      subst. intros _. apply od_caller_fresh0. by eexists.
Qed.

Lemma alter_is_Some {K V} `{Countable K} (f : V -> V) (k k' : K) (m : gmap K V) :
  is_Some (alter f k m !! k') <-> is_Some (m !! k').
Proof.
  destruct (decide (k = k')) as [->|].
  - rewrite lookup_alter_eq. apply fmap_is_Some.
  - by rewrite lookup_alter_ne.
Qed.

Lemma wait_closed_alter ch ch' f (s s' : Pool) :
  waits s' = alter f ch (waits s) -> (forall w, wait_closed w = true -> wait_closed (f w) = true) ->
  wait_is_closed s ch' -> wait_is_closed s' ch'.
Proof.
  intros E Hf (w & Hw & Hc). unfold wait_is_closed. rewrite E.
  destruct (decide (ch = ch')) as [->|].
  - rewrite lookup_alter_eq, Hw. exists (f w). auto.
  - rewrite lookup_alter_ne by done. by exists w.
Qed.

(** Only the fields of channels change. *)
Lemma one_dial_waits ch f s s' :
  callers s' = callers s -> establishing s' = establishing s -> notifiers s' = notifiers s ->
  waits s' = alter f ch (waits s) -> (forall w, wait_closed w = true -> wait_closed (f w) = true) ->
  next_wait s' = next_wait s -> next_caller s' = next_caller s -> one_dial s -> one_dial s'.
Proof.
  intros E1 E2 E3 E4 Hf E5 E6 []. split; rewrite ?E1, ?E2, ?E3, ?E5, ?E6; try assumption.
  - intros i c ch' Hi He. destruct (od_waiter0 i c ch' Hi He) as [H1|[H1|H1]]; [by left|by right; left|].
    right; right. by eapply wait_closed_alter.
  - intros ch' Hk. rewrite E4, alter_is_Some. by apply od_known0.
  - intros ch'. rewrite E4, alter_is_Some. apply od_wait_fresh0.
Qed.

Lemma one_dial_notify i c ch r s :
  callers s !! i = Some c -> c_pc c = Notifying ch r -> one_dial s ->
  one_dial (notify i (c_addr c) ch r s).
Proof.
  intros Hi Hp []. assert (establishes c = Some ch) as Hc by (unfold establishes; by rewrite Hp).
  set (p := match r with Some m => Sending m | None => Returned (Some ErrStart) end).
  set (s' := notify i (c_addr c) ch r s).
  assert (callers s' = callers (set_pc i p s)) as E1 by (by destruct r).
  assert (establishing s' = delete (c_addr c) (establishing s)) as E2 by (by destruct r).
  assert (next_wait s' = next_wait s /\ next_caller s' = next_caller s) as [E3 E4] by (by destruct r).
  assert (forall ch' b, (ch', b) ∈ notifiers s -> (ch', b) ∈ notifiers s') as E5.
  { intros ch' b Hb. destruct r; [|exact Hb]. change (notifiers s') with (notifiers s ++ [(ch, false)]).
    apply elem_of_app. by left. }
  assert (forall ch', is_Some (waits s' !! ch') <-> is_Some (waits s !! ch')) as E6.
  { intros ch'. destruct r; [done|]. apply alter_is_Some. }
  assert (forall ch', wait_is_closed s ch' -> wait_is_closed s' ch') as E7.
  { intros ch'. destruct r; [done|]. by apply (wait_closed_alter ch ch' (fun w => w <| wait_closed := true |>)). }
  assert ((exists b, (ch, b) ∈ notifiers s') \/ wait_is_closed s' ch) as E8.
  { destruct r as [m|].
    - left. exists false. change (notifiers s') with (notifiers s ++ [(ch, false)]).
      apply elem_of_app. right. by left.
    - right. destruct (od_known0 ch) as [w Hw]; [left; eexists; by eapply od_claim0|].
      exists (w <| wait_closed := true |>). split; [|done].
      change (waits s') with (alter (fun w => w <| wait_closed := true |>) ch (waits s)).
      by rewrite lookup_alter_eq, Hw. }
  assert (forall ch' b, (ch', b) ∈ notifiers s' -> (ch', b) ∈ notifiers s \/ ch' = ch) as E9.
  { intros ch' b. destruct r; [|by left].
    change (notifiers s') with (notifiers s ++ [(ch, false)]).
    intros [?|[= -> _]%list_elem_of_singleton]%elem_of_app; auto. }
  assert (forall c, establishes (c <| c_pc := p |>) = None) as Hpe by (unfold p; by destruct r).
  clearbody s'.
  split; rewrite ?E3, ?E4; try setoid_rewrite E1; rewrite ?E2.
  - intros j d ch' [[Hj' Hj]|(-> & c0 & _ & ->)]%lookup_set_pc_inv He; [|by rewrite Hpe in He].
    pose proof (od_claim0 j d ch' Hj He) as Hd. rewrite lookup_delete_ne; [done|].
    intros Ea. rewrite <- Ea, (od_claim0 i c ch Hi Hc) in Hd. injection Hd as <-.
    by apply Hj', (od_one0 j i d c ch).
  - intros j k d d' ch' [[_ Hj]|(-> & c0 & _ & ->)]%lookup_set_pc_inv
      [[_ Hk]|(-> & c1 & _ & ->)]%lookup_set_pc_inv He He'; try (by rewrite Hpe in He || by rewrite Hpe in He').
    exact (od_one0 j k d d' ch' Hj Hk He He').
  - intros b ch' [Hb Ha]%lookup_delete_Some.
    destruct (od_claimed0 b ch' Ha) as (j & d & Hj & Hd & He). exists j, d. split; [|done].
    rewrite lookup_set_pc, decide_False; [done|]. intros ->. rewrite Hi in Hj. congruence.
  - intros j d ch' [[_ Hj]|(-> & c0 & _ & ->)]%lookup_set_pc_inv He.
    + destruct (od_waiter0 j d ch' Hj He) as [H1|[[b H1]|H1]]; [|by right; left; eauto|by right; right; auto].
      destruct (decide (c_addr d = c_addr c)) as [Ea|Ea].
      * right. rewrite Ea, (od_claim0 i c ch Hi Hc) in H1. injection H1 as <-. exact E8.
      * left. by rewrite lookup_delete_ne.
    + unfold p in He. by destruct r.
  - intros ch' Hk. apply E6. destruct Hk as [[a Ha]|[b Hb]].
    + apply od_known0. left. apply lookup_delete_Some in Ha as [_ Ha]. by exists a.
    + apply E9 in Hb as [Hb| ->]; [apply od_known0; right; by exists b|].
      apply od_known0. left. eexists. by eapply od_claim0.
  - intros ch'. rewrite E6. apply od_wait_fresh0.
  - intros j. rewrite lookup_set_pc. case_decide; [|apply od_caller_fresh0].
    subst. intros _. apply od_caller_fresh0. by eexists.
Qed.

Lemma one_dial_notifier k s : one_dial s -> one_dial (run_notifier k s).
Proof.
  intros Ho. unfold run_notifier. destruct (notifiers s !! k) as [[ch [|]]|] eqn:Ek; [| |done].
  - set (l' := take k (notifiers s) ++ drop (S k) (notifiers s)).
    destruct Ho.
    assert (notifiers s ≡ₚ (ch, true) :: l') as Hl 
      by (unfold l'; rewrite <- delete_take_drop; by apply delete_Permutation).
    assert (is_Some (waits s !! ch)) as [w Hw].
    { apply od_known0. right. exists true. by eapply list_elem_of_lookup_2. }
    set (s' := close_wait ch _).
    assert (notifiers s' = l') as E1 by done.
    assert (waits s' = alter (fun w => w <| wait_closed := true |>) ch (waits s)) as E2 by done.
    split; rewrite ?E1, ?E2; try assumption.
    + intros i c ch' Hi He. destruct (od_waiter0 i c ch' Hi He) as [H1|[[b H1]|H1]]; [by left| |].
      * rewrite Hl in H1. apply elem_of_cons in H1 as [[= -> ->]|H1]; [|right; left; by exists b].
        right; right. exists (w <| wait_closed := true |>). split; [|done].
        by rewrite E2, lookup_alter_eq, Hw.
      * right; right. by eapply wait_closed_alter.
    + intros ch' Hk. rewrite alter_is_Some. apply od_known0. destruct Hk as [Hk|[b Hb]]; [by left|].
      right. exists b. rewrite Hl. by right.
    + intros ch'. rewrite alter_is_Some. apply od_wait_fresh0.
  - destruct Ho. set (s' := set_field _ _).
    assert (notifiers s' = <[k := (ch, true)]> (notifiers s)) as E1 by done.
    assert (waits s' = alter (fun w => w <| buffered := true |>) ch (waits s)) as E2 by done.
    split; rewrite ?E1, ?E2; try assumption.
    + intros i c ch' Hi He. destruct (od_waiter0 i c ch' Hi He) as [H1|[[b H1]|H1]]; [by left| |].
      * right; left. apply list_elem_of_lookup_1 in H1 as [n Hn].
        destruct (decide (n = k)) as [->|].
        -- rewrite Ek in Hn. injection Hn as <- <-. exists true.
           apply list_elem_of_lookup_2 with k, list_lookup_insert_eq. by eapply lookup_lt_Some.
        -- exists b. apply list_elem_of_lookup_2 with n. by rewrite list_lookup_insert_ne.
      * right; right. by eapply wait_closed_alter.
    + intros ch' Hk. rewrite alter_is_Some. apply od_known0. destruct Hk as [Hk|[b Hb]]; [by left|].
      right. apply list_elem_of_lookup_1 in Hb as [n Hn].
      apply list_lookup_insert_Some in Hn as [(<- & [= <- <-] & _)|[_ Hn]].
      * exists false. by eapply list_elem_of_lookup_2.
      * exists b. by eapply list_elem_of_lookup_2.
    + intros ch'. rewrite alter_is_Some. apply od_wait_fresh0.
Qed.

Lemma cancel_many_frame l (s s0 : Pool) :
  let s' := foldr (fun m s' => if IsActive m s0 then s' else cancel m s') s l in
  callers s' = callers s /\ establishing s' = establishing s /\ notifiers s' = notifiers s /\
  waits s' = waits s /\ next_wait s' = next_wait s /\ next_caller s' = next_caller s /\
  connections s' = connections s /\ metrics s' = metrics s /\ next_mc s' = next_mc s /\
  config s' = config s.
Proof.
  induction l as [|m l IH]; [done|]. cbn [foldr]. destruct (IsActive m s0); [exact IH|].
  unfold cancel, on_mc. exact IH.
Qed.

(** The end of a context changes nothing else of a call. *)
Lemma lookup_context i s j c :
  callers (step (EvContext i) s) !! j = Some c ->
  exists c0, callers s !! j = Some c0 /\ c_addr c = c_addr c0 /\ c_pc c = c_pc c0.
Proof.
  change (callers (step (EvContext i) s)) with (alter (fun c => c <| c_ctx := true |>) i (callers s)).
  intros H. apply lookup_alter_Some in H as [(<- & c0 & H1 & ->)|[_ H1]]; eauto.
Qed.

Lemma lookup_context_some i s j c :
  callers s !! j = Some c ->
  exists c', callers (step (EvContext i) s) !! j = Some c' /\ c_addr c' = c_addr c /\ c_pc c' = c_pc c.
Proof.
  change (callers (step (EvContext i) s)) with (alter (fun c => c <| c_ctx := true |>) i (callers s)).
  intros H. destruct (decide (i = j)) as [->|].
  - rewrite lookup_alter_eq, H. by eexists.
  - rewrite lookup_alter_ne by done. by exists c.
Qed.

Lemma establishes_pc c d : c_pc c = c_pc d -> establishes c = establishes d.
Proof. unfold establishes. by intros ->. Qed.

Lemma one_dial_context i s : one_dial s -> one_dial (step (EvContext i) s).
Proof.
  intros []. split; try assumption.
  - intros j c ch (c0 & Hj & Ha & Hp)%lookup_context He. rewrite Ha. eapply od_claim0; [exact Hj|].
    by rewrite <- (establishes_pc _ _ Hp).
  - intros j k c d ch (c0 & Hj & _ & Hp)%lookup_context (d0 & Hk & _ & Hq)%lookup_context He He'.
    eapply od_one0; [exact Hj|exact Hk|by rewrite <- (establishes_pc _ _ Hp)|by rewrite <- (establishes_pc _ _ Hq)].
  - intros a ch Ha. destruct (od_claimed0 a ch Ha) as (j & c & Hj & Hc & He).
    destruct (lookup_context_some i s j c Hj) as (c' & Hj' & Ha' & Hp).
    exists j, c'. split; [done|]. split; [congruence|]. by rewrite (establishes_pc _ _ Hp).
  - intros j c ch (c0 & Hj & Ha & Hp)%lookup_context He. rewrite Ha. eapply od_waiter0; [exact Hj|congruence].
  - intros j [c (c0 & Hj & _)%lookup_context]. apply od_caller_fresh0. by eexists.
Qed.

Lemma step_one_dial e s : enabled e s -> one_dial s -> one_dial (step e s).
Proof.
  intros He Ho. destruct e as [a n|i|i ok|i w|i ok|k|m|m|m why| | |i]; cbn [enabled] in He; cbn [step].
  - by apply one_dial_Send.
  - destruct He as (c & Hi & Hp). rewrite Hi.
    assert (forall p ch, establishes c = Some ch -> (forall c, establishes (c <| c_pc := p |>) = Some ch) ->
      one_dial (set_pc i p s)) as Hsame by (intros; by eapply one_dial_same).
    destruct (c_pc c) as [| |ch|ch m|ch m|ch r|m|e] eqn:Ep; try done.
    + destruct (lookup_active _ _); eapply one_dial_idle; try done; unfold establishes; by rewrite Ep.
    + by apply one_dial_slow.
    + unfold add_connection. destruct (connections s !! c_addr c) as [m'|].
      * apply (one_dial_ext (set_pc i (Notifying ch (Some m')) s)); [done..|].
        apply Hsame with ch; [unfold establishes; by rewrite Ep|done].
      * apply (one_dial_ext (set_pc i (Notifying ch (Some m)) s)); [done..|].
        apply Hsame with ch; [unfold establishes; by rewrite Ep|done].
    + by apply one_dial_notify.
  - destruct He as (c & ch & m & Hi & Hp). rewrite Hi, Hp. unfold start_result.
    assert (establishes c = Some ch) as Hc by (unfold establishes; by rewrite Hp).
    destruct ok; [apply (one_dial_ext (set_pc i (Adding ch m) s))|
      apply (one_dial_ext (set_pc i (Notifying ch None) s))]; try done.
    + by apply (one_dial_same i (Adding ch m) s c ch).
    + by apply (one_dial_same i (Notifying ch None) s c ch).
  - destruct He as (c & ch & Hi & Hp & _). rewrite Hi, Hp.
    assert (establishes c = None) as Hc by (unfold establishes; by rewrite Hp).
    unfold wait_result. destruct w; [|by eapply one_dial_idle..]. cbv zeta.
    set (s0 := s <| waits ::= _ |>).
    assert (one_dial s0) as H0 by (by apply (one_dial_waits ch (fun w => w <| buffered := false |>) s)).
    destruct (connections s0 !! c_addr c); by eapply (one_dial_idle i _ s0 c).
  - destruct He as (c & m & Hi & Hp). rewrite Hi, Hp.
    assert (establishes c = None) as Hc by (unfold establishes; by rewrite Hp).
    unfold send_result. destruct (ok && IsActive m s).
    + apply (one_dial_ext (set_pc i (Returned None) s)); [done..|]. by apply (one_dial_idle i (Returned None) s c).
    + by eapply one_dial_idle.
  - by apply one_dial_notifier.
  - by apply (one_dial_ext s).
  - by apply (one_dial_ext s).
  - unfold lifecycle_end. destruct He as (c & -> & _). destruct why; by apply (one_dial_ext s).
  - destruct (cancel_many_frame (map_to_list (connections s)).*2 s s) as (E1&E2&E3&E4&E5&E6&_).
    by apply (one_dial_ext s).
  - unfold Close. destruct (closed s); [done|]. by apply (one_dial_ext s).
  - by apply one_dial_context.
Qed.

Lemma run_one_dial s l s' : run s l s' -> one_dial s -> one_dial s'.
Proof. induction 1; auto using step_one_dial. Qed.

Lemma New_one_dial c s : NewAddressConnectionPool c = Some s -> one_dial s.
Proof.
  unfold NewAddressConnectionPool. repeat case_match; try done. intros [= <-].
  split; cbn; try done.
  - intros ch [[a Ha]|[b Hb]]; [done|by apply elem_of_nil in Hb].
  - by intros ch [w Hw].
  - by intros i [c' Hc].
Qed.

(** ** The right peer *)

(** The connection that a call has in hand. *)
Definition uses (c : Caller) : option Z :=
  match c_pc c with
  | Starting _ m | Adding _ m | Notifying _ (Some m) | Sending m => Some m
  | _ => None
  end.

(** [m] was made for the address [a], with the pool's configuration. *)
Definition made_for (s : Pool) (m : Z) (a : bytes) : Prop :=
  exists k, managed s !! m = Some k /\ mc_address k = a /\ mc_config k = conn_config (config s) a.

Record right_peer (s : Pool) : Prop := {
  rp_conn a m : connections s !! a = Some m -> made_for s m a;
  rp_caller i c m : callers s !! i = Some c -> uses c = Some m -> made_for s m (c_addr c);
  rp_fresh m : is_Some (managed s !! m) -> m < next_mc s }.

(** The fields of connections that change are not those. *)
Definition same_made (s s' : Pool) : Prop :=
  config s' = config s /\ next_mc s' = next_mc s /\
  (forall m, is_Some (managed s' !! m) <-> is_Some (managed s !! m)) /\
  (forall m a, made_for s m a -> made_for s' m a).

Lemma same_made_refl s s' :
  config s' = config s -> next_mc s' = next_mc s -> managed s' = managed s -> same_made s s'.
Proof.
  intros E1 E2 E3. split_and!; [done|done|intros; by rewrite E3|].
  unfold made_for. by rewrite E1, E3.
Qed.

Lemma same_made_trans s1 s2 s3 : same_made s1 s2 -> same_made s2 s3 -> same_made s1 s3.
Proof.
  intros (A1 & A2 & A3 & A4) (B1 & B2 & B3 & B4).
  split_and!; [congruence|congruence|intros; by rewrite B3|auto].
Qed.

Lemma same_made_alter m f s s' :
  config s' = config s -> next_mc s' = next_mc s -> managed s' = alter f m (managed s) ->
  (forall c, mc_address (f c) = mc_address c /\ mc_config (f c) = mc_config c) -> same_made s s'.
Proof.
  intros E1 E2 E3 Hf. split_and!; [done|done|intros; by rewrite E3, alter_is_Some|].
  intros m' a (k & Hk & Ha & Hc). unfold made_for. rewrite E1, E3.
  destruct (decide (m = m')) as [->|]; [|rewrite lookup_alter_ne by done; by exists k].
  exists (f k). destruct (Hf k) as [H1 H2]. by rewrite lookup_alter_eq, Hk, H1, H2.
Qed.

Lemma right_peer_mono s s' :
  same_made s s' ->
  (forall a m, connections s' !! a = Some m -> connections s !! a = Some m \/ made_for s m a) ->
  (forall i c m, callers s' !! i = Some c -> uses c = Some m ->
     (callers s !! i = Some c) \/ made_for s m (c_addr c)) ->
  right_peer s -> right_peer s'.
Proof.
  intros (_ & E2 & E3 & E4) H1 H2 []. split.
  - intros a m Ha. apply E4. apply H1 in Ha as [Ha|Ha]; auto.
  - intros i c m Hi Hu. apply E4. destruct (H2 i c m Hi Hu) as [H|H]; eauto.
  - intros m. rewrite E2, E3. apply rp_fresh0.
Qed.

(** A call moves on with a connection of its address, or with none. *)
Lemma right_peer_move i p s c s' :
  callers s !! i = Some c -> callers s' = callers (set_pc i p s) -> same_made s s' ->
  (forall a m, connections s' !! a = Some m -> connections s !! a = Some m \/ made_for s m a) ->
  (forall m, uses (c <| c_pc := p |>) = Some m -> made_for s m (c_addr c)) ->
  right_peer s -> right_peer s'.
Proof.
  intros Hi E Hm Hc Hu Hr. apply (right_peer_mono s); try done.
  intros j d m. rewrite E. intros [[_ Hj]|(-> & c0 & Hc0 & ->)]%lookup_set_pc_inv Hd; [by left|].
  right. rewrite Hi in Hc0. injection Hc0 as <-. by apply Hu.
Qed.

Lemma lookup_active_made a m s :
  right_peer s -> lookup_active a s = Some m -> made_for s m a.
Proof.
  intros [Hr _ _]. unfold lookup_active. destruct (connections s !! a) as [m'|] eqn:E; [|done].
  destruct (IsActive m' s); [|done]. intros [= <-]. by apply Hr.
Qed.

Lemma right_peer_slow i c s :
  callers s !! i = Some c -> c_pc c = Slow -> right_peer s -> right_peer (slow_path i (c_addr c) s).
Proof.
  intros Hi Hp Hr. unfold slow_path.
  destruct (lookup_active (c_addr c) s) as [m|] eqn:E.
  { eapply right_peer_move; [exact Hi|done|by apply same_made_refl|by left| |done].
    intros m' [= <-]. by apply lookup_active_made. }
  destruct (establishing s !! c_addr c) as [ch|].
  { by eapply right_peer_move; [exact Hi|done|by apply same_made_refl|by left| |done]. }
  cbv zeta. set (m := next_mc s).
  set (k := {| mc_address := c_addr c; mc_config := _ |}).
  assert (managed s !! m = None) as Hm.
  { apply eq_None_not_Some. intros H%(rp_fresh _ Hr). unfold m in H. lia. }
  match goal with |- right_peer ?s0 => set (s' := s0) end.
  assert (managed s' = <[m := k]> (managed s)) as E1 by done.
  assert (forall m' a, made_for s m' a -> made_for s' m' a) as Hold.
  { intros m' a (k' & Hk & Ha & Hc). exists k'. split_and!; [|done|done].
    rewrite E1, lookup_insert_ne; [done|]. intros <-. congruence. }
  assert (made_for s' m (c_addr c)) as Hnew.
  { exists k. rewrite E1, lookup_insert_eq. done. }
  destruct Hr as [R1 R2 R3]. split.
  - intros a m' Ha. by apply Hold, R1.
  - intros j d m' [[_ Hj]|(-> & c0 & Hc0 & ->)]%lookup_set_pc_inv Hu; [by eapply Hold, R2|].
    change (callers s !! i = Some c0) in Hc0. rewrite Hi in Hc0. injection Hc0 as <-.
    injection Hu as <-. exact Hnew.
  - intros m'. rewrite E1. change (next_mc s') with (Z.succ m).
    destruct (decide (m' = m)) as [->|]; [lia|]. rewrite lookup_insert_ne by done.
    intros H%R3. unfold m. lia.
Qed.

Lemma same_made_cancel_many l (s s0 : Pool) :
  same_made s (foldr (fun m s' => if IsActive m s0 then s' else cancel m s') s l).
Proof.
  induction l as [|m l IH]; [by apply same_made_refl|]. cbn [foldr].
  destruct (IsActive m s0); [done|]. eapply same_made_trans; [exact IH|].
  by apply (same_made_alter m (fun c => c <| mc_cancelled := true |>)).
Qed.

Lemma step_right_peer e s : enabled e s -> right_peer s -> right_peer (step e s).
Proof.
  intros He Hr. destruct e as [a n|i|i ok|i w|i ok|k|m|m|m why| | |i]; cbn [enabled] in He; cbn [step].
  - destruct Hr as [R1 R2 R3]. unfold Send. set (p := if closed s then _ else _).
    split; try assumption. intros i c m Hi Hu.
    change (<[next_caller s := {| c_addr := a; c_len := n; c_ctx := false; c_pc := p |}]> (callers s) !! i = Some c) in Hi.
    apply lookup_insert_Some in Hi as [[_ <-]|[_ Hi]]; [|by eapply R2].
    assert (uses {| c_addr := a; c_len := n; c_ctx := false; c_pc := p |} = None) as E
      by (unfold p; by repeat case_match). congruence.
  - destruct He as (c & Hi & Hp). rewrite Hi.
    destruct (c_pc c) as [| |ch|ch m|ch m|ch r|m|e] eqn:Ep; try done.
    + destruct (lookup_active _ _) as [m|] eqn:E;
        (eapply right_peer_move; [exact Hi|done|by apply same_made_refl|by left| |done]); [|done].
      intros m' [= <-]. by apply lookup_active_made.
    + by apply right_peer_slow.
    + assert (made_for s m (c_addr c)) as Hm
        by (eapply (rp_caller _ Hr); [exact Hi|unfold uses; by rewrite Ep]).
      unfold add_connection. destruct (connections s !! c_addr c) as [m'|] eqn:E.
      * eapply (right_peer_move i (Notifying ch (Some m')) s c); [exact Hi|done| |by left| |done].
        -- by eapply (same_made_alter m).
        -- intros m0 [= <-]. by apply (rp_conn _ Hr).
      * eapply (right_peer_move i (Notifying ch (Some m)) s c); [exact Hi|done|by apply same_made_refl| | |done].
        -- intros a m0 Ha. change (<[c_addr c := m]> (connections s) !! a = Some m0) in Ha.
           apply lookup_insert_Some in Ha as [[<- <-]|[_ Ha]]; [by right|by left].
        -- by intros m0 [= <-].
    + unfold notify. destruct r as [m|].
      * eapply (right_peer_move i (Sending m) s c); [exact Hi|done|by apply same_made_refl|by left| |done].
        intros m0 [= <-]. eapply (rp_caller _ Hr); [exact Hi|unfold uses; by rewrite Ep].
      * by eapply (right_peer_move i (Returned (Some ErrStart)) s c);
          [exact Hi|done|apply same_made_refl|left| |].
  - destruct He as (c & ch & m & Hi & Hp). rewrite Hi, Hp. unfold start_result. destruct ok.
    + eapply (right_peer_move i (Adding ch m) s c); [exact Hi|done| |by left| |done].
      * by eapply (same_made_alter m).
      * intros m0 [= <-]. eapply (rp_caller _ Hr); [exact Hi|unfold uses; by rewrite Hp].
    + eapply (right_peer_move i (Notifying ch None) s c); [exact Hi|done| |by left|done|done].
      by eapply (same_made_alter m).
  - destruct He as (c & ch & Hi & Hp & _). rewrite Hi, Hp. unfold wait_result.
    destruct w; [|by eapply right_peer_move; [exact Hi|done|apply same_made_refl|left| |]..].
    cbv zeta. set (s0 := s <| waits ::= _ |>). change (connections s0) with (connections s).
    destruct (connections s !! c_addr c) as [m|] eqn:E.
    + eapply (right_peer_move i (Sending m) s c); [exact Hi|done|by apply same_made_refl|by left| |done].
      intros m0 [= <-]. by apply (rp_conn _ Hr).
    + by eapply (right_peer_move i (Returned (Some ErrNotFound)) s c);
        [exact Hi|done|apply same_made_refl|left| |].
  - destruct He as (c & m & Hi & Hp). rewrite Hi, Hp. unfold send_result.
    destruct (ok && IsActive m s).
    + by eapply (right_peer_move i (Returned None) s c); [exact Hi|done|apply same_made_refl|left| |].
    + by eapply (right_peer_move i (Returned (Some ErrSend)) s c);
        [exact Hi|done|apply same_made_refl|left| |].
  - unfold run_notifier. apply (right_peer_mono s); [| | |done].
    + repeat case_match; by apply same_made_refl.
    + intros a m. repeat case_match; by left.
    + intros i c m. repeat case_match; by left.
  - apply (right_peer_mono s); [|by left..|done]. by eapply (same_made_alter m).
  - apply (right_peer_mono s); [|by left..|done]. by eapply (same_made_alter m).
  - unfold lifecycle_end. destruct He as (c & -> & _).
    apply (right_peer_mono s); [|intros a m0 H|intros i c0 m0 H _|done].
    + eapply same_made_trans with (match why with
        | Cancelled => on_mc m (fun c => c <| mc_active := false |>) s
        | _ => cancel m s end); [destruct why; by eapply (same_made_alter m)|].
      destruct why; by eapply (same_made_alter m).
    + left. assert (delete (mc_address c) (connections s) !! a = Some m0) as H' by (by destruct why).
      by apply lookup_delete_Some in H' as [_ H'].
    + left. by destruct why.
  - destruct (cancel_many_frame (map_to_list (connections s)).*2 s s) as (E1&_&_&_&_&_&E7&_).
    apply (right_peer_mono s); [apply same_made_cancel_many| | |done].
    + intros a m. unfold performHealthCheck. rewrite E7. by left.
    + intros i c m. unfold performHealthCheck. rewrite E1. by left.
  - unfold Close. destruct (closed s); [done|]. apply (right_peer_mono s); [|by left..|done].
    split_and!; [done|done| |].
    + intros m. change (managed (_ <| managed ::= ?f |>)) with (f (managed s)).
      rewrite lookup_fmap. apply fmap_is_Some.
    + intros m a (k & Hk & Ha & Hc). exists (k <| mc_cancelled := true |>). split_and!; [|done|done].
      change (managed (_ <| managed ::= ?f |>)) with (f (managed s)). by rewrite lookup_fmap, Hk.
  - destruct Hr as [R1 R2 R3]. split; try assumption.
    intros j c m (c0 & Hj & Ha & Hp)%lookup_context Hu. rewrite Ha. apply (R2 j c0 m Hj).
    revert Hu. unfold uses. by rewrite Hp.
Qed.

Lemma run_right_peer s l s' : run s l s' -> right_peer s -> right_peer s'.
Proof. induction 1; auto using step_right_peer. Qed.

Lemma New_right_peer c s : NewAddressConnectionPool c = Some s -> right_peer s.
Proof.
  unfold NewAddressConnectionPool. repeat case_match; try done. intros [= <-].
  split; cbn; try done. by intros m [k Hk].
Qed.

(** ** Notifications do not block *)

Definition unbuffered (s : Pool) (ch : Z) : Prop := forall w, waits s !! ch = Some w -> buffered w = false.

(** A channel is notified once, and until then nothing is in its buffer. *)
Record notices (s : Pool) : Prop := {
  nt_once : NoDup (notifiers s).*1;
  nt_claimed a ch : establishing s !! a = Some ch -> (ch ∉ (notifiers s).*1) /\ unbuffered s ch;
  nt_send ch : (ch, false) ∈ notifiers s -> unbuffered s ch }.

Lemma notices_ext s s' :
  establishing s' = establishing s -> notifiers s' = notifiers s -> waits s' = waits s -> notices s -> notices s'.
Proof. intros E1 E2 E3 []. split; unfold unbuffered in *; rewrite ?E1, ?E2, ?E3; assumption. Qed.

Lemma unbuffered_alter ch ch' f s s' :
  waits s' = alter f ch (waits s) -> (ch' = ch -> forall w, buffered w = false -> buffered (f w) = false) ->
  unbuffered s ch' -> unbuffered s' ch'.
Proof.
  intros E Hf Hu w. rewrite E. intros [(<- & w0 & H0 & ->)|[_ H0]]%lookup_alter_Some; [|by apply Hu].
  apply Hf; [done|]. by apply Hu.
Qed.

Lemma notices_waits ch f s s' :
  establishing s' = establishing s -> notifiers s' = notifiers s -> waits s' = alter f ch (waits s) ->
  (forall w, buffered w = false -> buffered (f w) = false) -> notices s -> notices s'.
Proof.
  intros E1 E2 E3 Hf []. split; rewrite ?E1, ?E2; [done| |].
  - intros a ch' Ha. destruct (nt_claimed0 a ch' Ha) as [H1 H2]. split; [done|]. by eapply unbuffered_alter.
  - intros ch' Hb. eapply unbuffered_alter; [exact E3|done|]. by apply nt_send0.
Qed.

(** One address per claim. *)
Lemma claim_address s a b ch :
  one_dial s -> establishing s !! a = Some ch -> establishing s !! b = Some ch -> a = b.
Proof.
  intros Ho Ha Hb. destruct (od_claimed _ Ho _ _ Ha) as (i & c & Hi & <- & Hc).
  destruct (od_claimed _ Ho _ _ Hb) as (j & d & Hj & <- & Hd).
  assert (i = j) as <- by (by eapply (od_one _ Ho)). congruence.
Qed.

Lemma notices_slow i a s : one_dial s -> notices s -> notices (slow_path i a s).
Proof.
  intros Ho Hn. unfold slow_path. destruct (lookup_active a s); [by apply (notices_ext s)|].
  destruct (establishing s !! a) eqn:E; [by apply (notices_ext s)|]. cbv zeta.
  assert (forall ch, is_Some (waits s !! ch) -> ch <> next_wait s) as Hne.
  { intros ch H1 ->. apply (od_wait_fresh _ Ho) in H1. lia. }
  match goal with |- notices ?t => set (s' := t) end.
  assert (establishing s' = <[a := next_wait s]> (establishing s)) as E1 by done.
  assert (waits s' = <[next_wait s := {| buffered := false; wait_closed := false |}]> (waits s)) as E2 by done.
  assert (forall ch, unbuffered s ch -> unbuffered s' ch) as Hu.
  { intros ch H1 w. rewrite E2. intros [[<- <-]|[_ H2]]%lookup_insert_Some; [done|by apply H1]. }
  destruct Hn as [N1 N2 N3]. split; rewrite ?E1; [exact N1| |intros ch Hb; by apply Hu, N3].
  intros b ch [[<- <-]|[_ Hb]]%lookup_insert_Some.
  - split.
    + intros ([ch' x] & Hc & Hx)%list_elem_of_fmap. cbn in Hc. subst ch'. apply (Hne (next_wait s)); [|done].
      apply (od_known _ Ho). right. by exists x.
    + intros w. rewrite E2. by intros [[_ <-]|[? _]]%lookup_insert_Some.
  - destruct (N2 b ch Hb). split; [done|by apply Hu].
Qed.

Lemma notices_notify i c ch r s :
  callers s !! i = Some c -> c_pc c = Notifying ch r -> one_dial s -> notices s ->
  notices (notify i (c_addr c) ch r s).
Proof.
  intros Hi Hp Ho [N1 N2 N3].
  assert (establishing s !! c_addr c = Some ch) as Ha
    by (apply (od_claim _ Ho i c); [done|unfold establishes; by rewrite Hp]).
  destruct (N2 _ _ Ha) as [Hno Hun]. unfold notify. destruct r as [m|].
  - match goal with |- notices ?t => set (s' := t) end.
    assert (notifiers s' = notifiers s ++ [(ch, false)]) as E1 by done.
    assert (establishing s' = delete (c_addr c) (establishing s)) as E2 by done.
    split; rewrite ?E1, ?E2, ?fmap_app.
    + apply NoDup_app. split; [done|]. split; [|apply NoDup_singleton].
      intros x Hx ->%list_elem_of_singleton. done.
    + intros b ch' [Hb Hc]%lookup_delete_Some. destruct (N2 b ch' Hc) as [H1 H2]. split; [|exact H2].
      intros [?| ->%list_elem_of_singleton]%elem_of_app; [done|]. apply Hb. by eapply claim_address.
    + intros ch' [Hb|[= ->]%list_elem_of_singleton]%elem_of_app; [by apply N3|exact Hun].
  - eapply (notices_waits ch (fun w => w <| wait_closed := true |>) (s <| establishing ::= delete (c_addr c) |>));
      [done..|]. split; [exact N1| |exact N3].
    intros b ch' Hb. change (delete (c_addr c) (establishing s) !! b = Some ch') in Hb.
    apply lookup_delete_Some in Hb as [_ Hb]. exact (N2 b ch' Hb).
Qed.

Lemma notices_notifier k s : notices s -> notices (run_notifier k s).
Proof.
  intros [N1 N2 N3]. unfold run_notifier. destruct (notifiers s !! k) as [[ch [|]]|] eqn:Ek; [| |done].
  - set (l' := take k (notifiers s) ++ drop (S k) (notifiers s)).
    assert (notifiers s ≡ₚ (ch, true) :: l') as Hl
      by (unfold l'; rewrite <- delete_take_drop; by apply delete_Permutation).
    eapply (notices_waits ch (fun w => w <| wait_closed := true |>) (s <| notifiers := l' |>)); [done..|].
    split; change (notifiers (s <| notifiers := l' |>)) with l'.
    + rewrite Hl in N1. by apply NoDup_cons in N1 as [_ ?].
    + intros a ch' Ha. destruct (N2 a ch' Ha) as [H1 H2]. split; [|exact H2]. rewrite Hl in H1.
      cbn [fmap list_fmap] in H1. by apply not_elem_of_cons in H1 as [_ ?].
    + intros ch' Hb. apply N3. rewrite Hl. by right.
  - set (s' := set_field _ _).
    assert (notifiers s' = <[k := (ch, true)]> (notifiers s)) as E1 by done.
    assert ((notifiers s').*1 = (notifiers s).*1) as E2.
    { rewrite E1, list_fmap_insert. apply list_insert_id. by rewrite list_lookup_fmap, Ek. }
    assert (waits s' = alter (fun w => w <| buffered := true |>) ch (waits s)) as E3 by done.
    split; rewrite ?E2; [done| |].
    + intros a ch' Ha. destruct (N2 a ch' Ha) as [H1 H2]. split; [done|].
      eapply unbuffered_alter; [exact E3| |exact H2]. intros ->. destruct H1. apply list_elem_of_fmap.
      exists (ch, false). split; [done|]. by eapply list_elem_of_lookup_2.
    + intros ch' Hb. rewrite E1 in Hb. apply list_elem_of_lookup_1 in Hb as [n Hn].
      apply list_lookup_insert_Some in Hn as [(_ & [=] & _)|[Hne Hn]].
      eapply unbuffered_alter; [exact E3| |by eapply N3, list_elem_of_lookup_2]. intros ->. destruct Hne.
      apply (NoDup_lookup (notifiers s).*1 k n ch N1); by rewrite list_lookup_fmap, ?Ek, ?Hn.
Qed.

Lemma step_notices e s : enabled e s -> one_dial s -> notices s -> notices (step e s).
Proof.
  intros He Ho Hn. destruct e as [a n|i|i ok|i w|i ok|k|m|m|m why| | |i]; cbn [enabled] in He; cbn [step];
    try by apply (notices_ext s).
  - destruct He as (c & Hi & Hp). rewrite Hi.
    destruct (c_pc c) as [| |ch|ch m|ch m|ch r|m|e] eqn:Ep; try done.
    + destruct (lookup_active _ _); by apply (notices_ext s).
    + by apply notices_slow.
    + unfold add_connection. destruct (connections s !! c_addr c); by apply (notices_ext s).
    + by apply notices_notify.
  - destruct He as (c & ch & m & -> & ->). destruct ok; by apply (notices_ext s).
  - destruct He as (c & ch & -> & -> & _). unfold wait_result. destruct w; [|by apply (notices_ext s)..].
    cbv zeta. set (s0 := s <| waits ::= _ |>).
    assert (notices s0) as H0 by (by apply (notices_waits ch (fun w => w <| buffered := false |>) s)).
    destruct (connections s0 !! c_addr c); by apply (notices_ext s0).
  - destruct He as (c & m & -> & ->). unfold send_result. destruct (_ && _); by apply (notices_ext s).
  - by apply notices_notifier.
  - unfold lifecycle_end. destruct He as (c & -> & _). destruct why; by apply (notices_ext s).
  - destruct (cancel_many_frame (map_to_list (connections s)).*2 s s) as (_&E2&E3&E4&_). by apply (notices_ext s).
  - unfold Close. destruct (closed s); [done|]. by apply (notices_ext s).
Qed.

Definition sound (s : Pool) : Prop := one_dial s /\ notices s.

Lemma step_sound e s : enabled e s -> sound s -> sound (step e s).
Proof. intros He [Ho Hn]. split; [by apply step_one_dial|by apply step_notices]. Qed.

Lemma run_sound s l s' : run s l s' -> sound s -> sound s'.
Proof. induction 1; auto using step_sound. Qed.

Lemma New_sound c s : NewAddressConnectionPool c = Some s -> sound s.
Proof.
  intros H. split; [by eapply New_one_dial|]. revert H.
  unfold NewAddressConnectionPool. repeat case_match; try done. intros [= <-].
  split; cbn; [constructor|done|]. intros ch Hb. by apply elem_of_nil in Hb.
Qed.

(** ** Calls return *)

(** The steps of calls and of notifiers; [unaided] are those that need neither
    the end of a context nor that of the pool. *)
Definition call_step (e : event) : bool :=
  match e with EvStep _ | EvStart _ _ | EvWait _ _ | EvSent _ _ | EvNotifier _ => true | _ => false end.
Definition unaided (e : event) : bool :=
  match e with EvStep _ | EvStart _ _ | EvWait _ Received | EvSent _ _ | EvNotifier _ => true | _ => false end.
Definition new_call (e : event) : bool := match e with EvSend _ _ => true | _ => false end.

Definition returned (c : Caller) : Prop := exists e, c_pc c = Returned e.

(** Nobody is stuck. *)
Lemma call_goes_on i c s :
  sound s -> callers s !! i = Some c -> returned c \/ exists e, unaided e = true /\ enabled e s.
Proof.
  intros [Ho Hn] Hi.
  assert (forall j d ch, callers s !! j = Some d -> establishes d = Some ch -> exists e, unaided e = true /\ enabled e s)
    as Hestablisher.
  { intros j d ch Hj Hd. unfold establishes in Hd. destruct (c_pc d) as [| | |ch' m|ch' m|ch' r| |] eqn:Ep; try done.
    - exists (EvStart j true). split; [done|]. by exists d, ch', m.
    - exists (EvStep j). split; [done|]. exists d. by rewrite Ep.
    - exists (EvStep j). split; [done|]. exists d. by rewrite Ep. }
  destruct (c_pc c) as [| |ch|ch m|ch m|ch r|m|e] eqn:Ep.
  - right. exists (EvStep i). split; [done|]. exists c. by rewrite Ep.
  - right. exists (EvStep i). split; [done|]. exists c. by rewrite Ep.
  - right. destruct (od_waiter _ Ho i c ch Hi Ep) as [He|[[b Hb]|(w & Hw & Hc)]].
    + destruct (od_claimed _ Ho _ _ He) as (j & d & Hj & _ & Hd). by eapply Hestablisher.
    + destruct (od_known _ Ho ch) as [w Hw]; [right; by exists b|].
      pose proof Hb as [k Hk]%list_elem_of_lookup_1. exists (EvNotifier k). split; [done|].
      exists ch, b. split; [done|]. intros ->. exists w. split; [done|]. by apply (nt_send _ Hn ch).
    + exists (EvWait i Received). split; [done|]. exists c, ch. split_and!; [done|done|]. exists w.
      by rewrite Hw, Hc, orb_true_r.
  - right. apply (Hestablisher i c ch Hi). unfold establishes. by rewrite Ep.
  - right. apply (Hestablisher i c ch Hi). unfold establishes. by rewrite Ep.
  - right. apply (Hestablisher i c ch Hi). unfold establishes. by rewrite Ep.
  - right. exists (EvSent i true). split; [done|]. by exists c, m.
  - left. by exists e.
Qed.

(** How many steps are left of a call and of a notifier, at most. *)
Definition call_work (c : Caller) : Z :=
  match c_pc c with
  | Fast => 8 | Slow => 7 | Starting _ _ => 6 | Adding _ _ => 5 | Notifying _ _ => 4 | Waiting _ => 2
  | Sending _ => 1 | Returned _ => 0
  end.
Definition notifier_work (x : Z * bool) : Z := if x.2 then 1 else 2.
Definition notify_work (l : list (Z * bool)) : Z := foldr (fun x n => notifier_work x + n) 0 l.
Definition work (s : Pool) : Z := total call_work (callers s) + notify_work (notifiers s).

Lemma notify_work_app l k : notify_work (l ++ k) = notify_work l + notify_work k.
Proof. unfold notify_work. induction l as [|x l IH]; [done|]. cbn. rewrite IH. lia. Qed.

Lemma work_nonneg s : 0 <= work s.
Proof.
  assert (forall l, 0 <= notify_work l) as Hl.
  { induction l as [|[ch b] l IH]; [done|]. unfold notify_work in *. destruct b; cbn; lia. }
  pose proof (Hl (notifiers s)). pose proof (total_nonneg call_work (callers s)) as Ht. unfold work.
  assert (0 <= total call_work (callers s)) by (apply Ht; intros c; unfold call_work; case_match; lia). lia.
Qed.

(** A call moves on. *)
Lemma work_move i p s s' c :
  callers s !! i = Some c -> callers s' = callers (set_pc i p s) ->
  work s' = work s - call_work c + call_work (c <| c_pc := p |>) + (notify_work (notifiers s') - notify_work (notifiers s)).
Proof.
  intros Hi E. unfold work. rewrite E.
  change (callers (set_pc i p s)) with (alter (fun c => c <| c_pc := p |>) i (callers s)).
  rewrite (total_alter call_work i c _ _ Hi). lia.
Qed.

Lemma work_moves i p s s' c :
  callers s !! i = Some c -> callers s' = callers (set_pc i p s) -> notifiers s' = notifiers s ->
  call_work (c <| c_pc := p |>) < call_work c -> work s' < work s.
Proof. intros Hi E1 E2 Hw. rewrite (work_move i p s s' c Hi E1), E2. lia. Qed.

Lemma work_same s s' : callers s' = callers s -> notifiers s' = notifiers s -> work s' = work s.
Proof. intros E1 E2. unfold work. by rewrite E1, E2. Qed.

Ltac by_move Hi p Ep :=
  apply (work_moves _ p _ _ _ Hi); [done|done|unfold call_work; rewrite Ep; reflexivity].

Lemma work_notifier k s x : notifiers s !! k = Some x -> work (run_notifier k s) < work s.
Proof.
  intros Hk. unfold run_notifier. rewrite Hk. pose proof (take_drop_middle _ _ _ Hk) as E.
  assert (notify_work (notifiers s) =
    notify_work (take k (notifiers s)) + (notifier_work x + notify_work (drop (S k) (notifiers s)))) as Ew
    by (rewrite <- E at 1; by rewrite notify_work_app).
  destruct x as [ch [|]]; unfold work; match goal with |- context [total call_work (callers ?t)] =>
    change (callers t) with (callers s) end.
  - match goal with |- context [notify_work (notifiers ?t)] =>
      change (notifiers t) with (take k (notifiers s) ++ drop (S k) (notifiers s)) end.
    rewrite notify_work_app, Ew. cbn [notifier_work snd]. lia.
  - match goal with |- context [notify_work (notifiers ?t)] =>
      change (notifiers t) with (<[k := (ch, true)]> (notifiers s)) end.
    rewrite insert_take_drop, notify_work_app, Ew by (by eapply lookup_lt_Some).
    change (notify_work (?x :: ?l)) with (notifier_work x + notify_work l). cbn [notifier_work snd]. lia.
Qed.

(** Every step of a call or of a notifier uses some of it up. *)
Lemma work_decreases e s : call_step e = true -> enabled e s -> work (step e s) < work s.
Proof.
  intros Hc He. destruct e as [a n|i|i ok|i w|i ok|k|m|m|m why| | |i]; try done; cbn [enabled] in He; cbn [step].
  - destruct He as (c & Hi & Hp). rewrite Hi.
    destruct (c_pc c) as [| |ch|ch m|ch m|ch r|m|e] eqn:Ep; try done.
    + destruct (lookup_active _ _) as [m|]; [by_move Hi (Sending m) Ep|by_move Hi Slow Ep].
    + unfold slow_path. destruct (lookup_active _ _) as [m|]; [by_move Hi (Sending m) Ep|].
      destruct (establishing s !! c_addr c) as [ch|]; [by_move Hi (Waiting ch) Ep|].
      by_move Hi (Starting (next_wait s) (next_mc s)) Ep.
    + unfold add_connection. destruct (connections s !! c_addr c) as [m'|];
        [by_move Hi (Notifying ch (Some m')) Ep|by_move Hi (Notifying ch (Some m)) Ep].
    + unfold notify. destruct r as [m|]; [|by_move Hi (Returned (Some ErrStart)) Ep].
      rewrite (work_move i (Sending m) s _ c Hi) by done. unfold call_work. rewrite Ep. rsimpl.
      match goal with |- context [notify_work (notifiers ?t) - _] =>
        change (notifiers t) with (notifiers s ++ [(ch, false)]) end.
      rewrite notify_work_app. cbn. lia.
  - destruct He as (c & ch & m & Hi & Ep). rewrite Hi, Ep. unfold start_result.
    destruct ok; [by_move Hi (Adding ch m) Ep|by_move Hi (Notifying ch None) Ep].
  - destruct He as (c & ch & Hi & Ep & _). rewrite Hi, Ep. unfold wait_result.
    destruct w; [|by_move Hi (Returned (Some ErrContextDone)) Ep|by_move Hi (Returned (Some ErrPoolClosed)) Ep].
    cbv zeta. set (s0 := s <| waits ::= _ |>).
    destruct (connections s0 !! c_addr c) as [m|];
      [by_move Hi (Sending m) Ep|by_move Hi (Returned (Some ErrNotFound)) Ep].
  - destruct He as (c & m & Hi & Ep). rewrite Hi, Ep. unfold send_result.
    destruct (_ && _); [by_move Hi (Returned None) Ep|by_move Hi (Returned (Some ErrSend)) Ep].
  - destruct He as (ch & b & Hk & _). by eapply work_notifier.
Qed.

(** Nothing but a new call adds to it. *)
Lemma work_kept e s : call_step e = false -> new_call e = false -> enabled e s -> work (step e s) = work s.
Proof.
  intros Hc Hn He. destruct e as [a n|i|i ok|i w|i ok|k|m|m|m why| | |i]; try done; cbn [enabled] in He; cbn [step].
  - unfold lifecycle_end. destruct He as (c & -> & _). by destruct why.
  - destruct (cancel_many_frame (map_to_list (connections s)).*2 s s) as (E1&_&E3&_). by apply work_same.
  - unfold Close. by destruct (closed s).
  - destruct He as [c Hi]. unfold work.
    change (callers (s <| callers ::= ?f |>)) with (f (callers s)).
    change (notifiers (s <| callers ::= ?f |>)) with (notifiers s).
    rewrite (total_alter call_work i c _ _ Hi). cbn beta.
    change (call_work (c <| c_ctx := true |>)) with (call_work c). lia.
Qed.

Lemma steps_bounded s l s' :
  run s l s' -> Forall (fun e => new_call e = false) l -> len (List.filter call_step l) + work s' <= work s.
Proof.
  induction 1 as [s|s e l s' He _ IH]; intros Hl; [cbn [List.filter]; rewrite len_nil; lia|].
  apply Forall_cons in Hl as [Hn Hl].
  specialize (IH Hl). cbn [List.filter]. destruct (call_step e) eqn:Ec.
  - pose proof (work_decreases e s Ec He). rewrite len_cons. lia.
  - pose proof (work_kept e s Ec Hn He). lia.
Qed.

Lemma unaided_call e : unaided e = true -> call_step e = true.
Proof. by destruct e. Qed.

(** All calls can be driven to their ends. *)
Lemma all_return s :
  sound s -> exists l s', run s l s' /\ Forall (fun e => unaided e = true) l /\
    forall i c, callers s' !! i = Some c -> returned c.
Proof.
  remember (Z.to_nat (work s)) as n eqn:Hw. revert s Hw.
  induction n as [n IH] using lt_wf_ind. intros s -> Hs.
  destruct (decide (map_Forall (fun _ c => call_work c = 0) (callers s))) as [Hd|Hd].
  - exists [], s. split; [constructor|]. split; [constructor|]. intros i c Hi. specialize (Hd i c Hi). cbn in Hd.
    unfold call_work in Hd. destruct (c_pc c) eqn:Ep; try lia. by eexists.
  - apply map_not_Forall in Hd as (i & c & Hi & Hc); [|apply _].
    destruct (call_goes_on i c s Hs Hi) as [[e He]|(e & Hu & He)].
    { destruct Hc. unfold call_work. by rewrite He. }
    pose proof (work_decreases e s (unaided_call e Hu) He). pose proof (work_nonneg (step e s)).
    destruct (IH (Z.to_nat (work (step e s)))) with (s := step e s) as (l & s' & Hr & Hl & Hall);
      [lia|done|by apply step_sound|].
    exists (e :: l), s'. split; [by apply (run_cons _ _ _ _ He)|]. split; [by constructor|done].
Qed.

Lemma pool_run_app s l s1 l' s2 : run s l s1 -> run s1 l' s2 -> run s (l ++ l') s2.
Proof. induction 1 as [|s e l s1 He _ IH]; [done|]. intros H. apply (run_cons _ _ _ _ He); auto. Qed.

(** ** Theorems *)

(** C21: connections to one address are established one at a time, and nobody
    waits in vain.  In any run from a new pool, at most one call at a time is
    between its claim of an address and its notification, however many calls
    there are for it; a call that waits for an address waits for the call that
    establishes it now, or its channel is being notified or is closed. *)
Theorem one_establishment c s0 l s :
  NewAddressConnectionPool c = Some s0 -> run s0 l s ->
  (forall i j ci cj, callers s !! i = Some ci -> callers s !! j = Some cj ->
     c_addr ci = c_addr cj -> establishes ci <> None -> establishes cj <> None -> i = j) /\
  (forall i ci ch, callers s !! i = Some ci -> c_pc ci = Waiting ch ->
     (exists j cj, callers s !! j = Some cj /\ c_addr cj = c_addr ci /\ establishes cj = Some ch) \/
     (exists b, (ch, b) ∈ notifiers s) \/ wait_is_closed s ch).
Proof.
  intros H0 Hr. pose proof (run_one_dial _ _ _ Hr (New_one_dial _ _ H0)) as Ho. split.
  - intros i j ci cj Hi Hj Ha Hci Hcj.
    destruct (establishes ci) as [ch|] eqn:Ei; [|done].
    destruct (establishes cj) as [ch'|] eqn:Ej; [|done].
    pose proof (od_claim _ Ho i ci ch Hi Ei) as H1. pose proof (od_claim _ Ho j cj ch' Hj Ej) as H2.
    rewrite Ha, H2 in H1. injection H1 as ->. by eapply (od_one _ Ho).
  - intros i ci ch Hi Hp. destruct (od_waiter _ Ho i ci ch Hi Hp) as [He|H]; [left|by right].
    destruct (od_claimed _ Ho _ _ He) as (j & cj & Hj & Ha & Hc). by exists j, cj.
Qed.

(** C22: every call of [Send] returns.  In any state that a run reaches,
    whatever the other calls, the failures and the lifecycle managers have
    done: while a call has not returned, some call or notifier can take a step,
    none of which is a wait that ends because a context or the pool has ended;
    calls and notifiers take no more than [work] steps, however the environment
    and the scheduler choose, until there is a new call; and so there is a
    continuation, without the end of any context, in which all calls return.
    That [conn.Start] and [conn.SendWithContext] return, with whatever result,
    is taken for granted. *)
Theorem calls_can_return c s0 l s :
  NewAddressConnectionPool c = Some s0 -> run s0 l s ->
  (forall i ci, callers s !! i = Some ci -> returned ci \/ exists e, unaided e = true /\ enabled e s) /\
  (forall l' s', run s l' s' -> Forall (fun e => new_call e = false) l' ->
     len (List.filter call_step l') <= work s) /\
  (exists l' s', run s l' s' /\ Forall (fun e => unaided e = true) l' /\
     forall i ci, callers s' !! i = Some ci -> returned ci).
Proof.
  intros H0 Hr. pose proof (run_sound _ _ _ Hr (New_sound _ _ H0)) as Hs. split_and!.
  - intros i ci. by apply call_goes_on.
  - intros l' s' Hr' Hl. pose proof (steps_bounded _ _ _ Hr' Hl). pose proof (work_nonneg s'). lia.
  - by apply all_return.
Qed.

(** A message goes to the peer it was given for.  In any run, a call for an
    address that has a connection in hand has one that was made for this
    address, with its host and port and the pool's identity; so is what
    [GetConnection] returns. *)
Theorem sends_to_its_peer c s0 l s :
  NewAddressConnectionPool c = Some s0 -> run s0 l s ->
  (forall i ci m, callers s !! i = Some ci -> uses ci = Some m -> made_for s m (c_addr ci)) /\
  (forall a m, GetConnection a s = Some m -> made_for s m a).
Proof.
  intros H0 Hr. destruct (run_right_peer _ _ _ Hr (New_right_peer _ _ H0)) as [H1 H2 _]. split; auto.
Qed.

(** [GetReceiveChan] answers only while a connection is being established. *)
Lemma GetReceiveChan_established a s :
  establishing s !! a = None -> GetReceiveChan a s = None.
Proof. intros H. unfold GetReceiveChan. by rewrite H. Qed.
