(* ===== verification/AddrClient.v ===== *)
(** * Requests and their answers: the address client

    [client/address_client.go]: a call of [SendWithContext] registers a
    session under the Hop-by-Hop identifier of its message, hands the message
    to the pool of AddrPool, and waits on the session's channel for what the
    pool's goroutines hand to [handleFn]. *)

From S2P Require Import Prelude Binary Wire Framing.

(** ** The client *)

Record ClientStats := {
  TotalRequests : Z;
  TotalResponses : Z;
  TotalErrors : Z;
  TotalTimeouts : Z }.

Inductive send_error : Type :=
| ErrInvalidMessage
| ErrPool          (* the pool's [Send] failed *)
| ErrNoResponse.

(** Where a call is: in the pool's [Send], waiting, or after its deferred
    [DeleteSession]. *)
Inductive pc : Type :=
| InPool
| Waiting
| Returned (r : outcome send_error bytes).

Record Call := { k_id : Z; k_chan : Z; k_pc : pc }.

(** [sessions] maps an identifier to a response channel; [chans] holds the
    contents of these channels, of capacity one. *)
Record AddressClient := {
  sessions : gmap Z Z;
  chans : gmap Z (option Message);
  calls : gmap Z Call;
  next : Z;
  stats : ClientStats }.

Definition NewAddressClient : AddressClient :=
  {| sessions := ∅; chans := ∅; calls := ∅; next := 0;
     stats := {| TotalRequests := 0; TotalResponses := 0; TotalErrors := 0; TotalTimeouts := 0 |} |}.

Definition inc (n : Z) : Z := to_u64 (n + 1).

Definition StoreSession (h ch : Z) (s : AddressClient) : AddressClient :=
  s <| sessions ::= <[h := ch]> |>.
Definition DeleteSession (h : Z) (s : AddressClient) : AddressClient := s <| sessions ::= delete h |>.
Definition FindSession (h : Z) (s : AddressClient) : option Z := sessions s !! h.

(** The new call, and its channel, are called [next]. *)
Definition SendWithContext (message : bytes) (s : AddressClient) : AddressClient :=
  if len message <? 20 then
    s <| calls ::= <[next s := {| k_id := 0; k_chan := next s; k_pc := Returned (Err ErrInvalidMessage) |}]> |>
      <| next ::= Z.succ |>
  else
    let h := be_get (slice message 12 16) in
    StoreSession h (next s)
      (s <| stats ::= fun t => t <| TotalRequests ::= inc |> |>
         <| chans ::= <[next s := None]> |>
         <| calls ::= <[next s := {| k_id := h; k_chan := next s; k_pc := InPool |}]> |>
         <| next ::= Z.succ |>).

Definition set_pc (i : Z) (p : pc) (s : AddressClient) : AddressClient :=
  s <| calls ::= alter (fun k => k <| k_pc := p |>) i |>.

(** A return, with the deferred [DeleteSession]. *)
Definition return_ (i : Z) (k : Call) (r : outcome send_error bytes) (s : AddressClient) : AddressClient :=
  DeleteSession (k_id k) (set_pc i (Returned r) s).

(** The pool's [Send] returns; [deadline]: the context's error is
    [DeadlineExceeded]. *)
Definition pool_result (i : Z) (k : Call) (ok deadline : bool) (s : AddressClient) : AddressClient :=
  if ok then set_pc i Waiting s
  else
    let s := s <| stats ::= fun t => t <| TotalErrors ::= inc |> |> in
    let s := if deadline then s <| stats ::= fun t => t <| TotalTimeouts ::= inc |> |> else s in
    return_ i k (Err ErrPool) s.

Definition got_response (i : Z) (k : Call) (m : Message) (s : AddressClient) : AddressClient :=
  return_ i k (Ok (msg_Header m ++ msg_Body m))
    (s <| stats ::= fun t => t <| TotalResponses ::= inc |> |> <| chans ::= <[k_chan k := None]> |>).

Definition ctx_done (i : Z) (k : Call) (s : AddressClient) : AddressClient :=
  return_ i k (Err ErrNoResponse) (s <| stats ::= fun t => t <| TotalTimeouts ::= inc |> |>).

(** [handleFn]: a message without a session, or whose channel is full, is
    dropped (after [Close] a deliverable one may be dropped too, which is a run
    without its [EvMessage]). *)
Definition handleFn (m : Message) (s : AddressClient) : AddressClient :=
  match ParseMessageHeader (msg_Header m) with
  | Ok info =>
      match FindSession (mi_HopByHopID info) s with
      | Some ch =>
          match chans s !! ch with
          | Some None => s <| chans ::= <[ch := Some m]> |>
          | _ => s
          end
      | None => s
      end
  | _ => s
  end.

Inductive event : Type :=
| EvSend (message : bytes)
| EvPool (i : Z) (ok deadline : bool)
| EvResponse (i : Z)
| EvCtxDone (i : Z)
| EvMessage (m : Message).

Definition step (e : event) (s : AddressClient) : AddressClient :=
  match e with
  | EvSend message => SendWithContext message s
  | EvPool i ok deadline =>
      match calls s !! i with
      | Some k => match k_pc k with InPool => pool_result i k ok deadline s | _ => s end
      | None => s
      end
  | EvResponse i =>
      match calls s !! i with
      | Some k =>
          match k_pc k, chans s !! k_chan k with
          | Waiting, Some (Some m) => got_response i k m s
          | _, _ => s
          end
      | None => s
      end
  | EvCtxDone i =>
      match calls s !! i with
      | Some k => match k_pc k with Waiting => ctx_done i k s | _ => s end
      | None => s
      end
  | EvMessage m => handleFn m s
  end.

Definition run (l : list event) (s : AddressClient) : AddressClient :=
  foldl (fun s e => step e s) s l.

(** ** Answers go to the call with their identifier *)

(** The identifier of a message is [h]. *)
Definition answers_id (m : Message) (h : Z) : Prop :=
  exists info, ParseMessageHeader (msg_Header m) = Ok info /\ mi_HopByHopID info = h.

(** [owner s ch h]: the call that made channel [ch] sent the identifier [h]. *)
Definition owner (s : AddressClient) (ch h : Z) : Prop :=
  exists k, calls s !! ch = Some k /\ k_chan k = ch /\ k_id k = h.

Record correlated (s : AddressClient) : Prop := {
  co_session h ch : sessions s !! h = Some ch -> owner s ch h;
  co_call i k : calls s !! i = Some k -> k_chan k = i;
  co_chan ch m : chans s !! ch = Some (Some m) -> exists h, owner s ch h /\ answers_id m h;
  co_result i k b : calls s !! i = Some k -> k_pc k = Returned (Ok b) ->
    exists m, b = msg_Header m ++ msg_Body m /\ answers_id m (k_id k);
  co_fresh i : is_Some (calls s !! i) -> i < next s }.

Lemma call_set_pc_inv i p s j k :
  calls (set_pc i p s) !! j = Some k ->
  (j <> i /\ calls s !! j = Some k) \/ (j = i /\ exists k0, calls s !! i = Some k0 /\ k = k0 <| k_pc := p |>).
Proof.
  change (calls (set_pc i p s)) with (alter (fun k => k <| k_pc := p |>) i (calls s)).
  intros H. apply lookup_alter_Some in H as [(-> & k0 & H1 & ->)|[? ?]]; [|by left].
  right. split; [done|]. by exists k0.
Qed.

Lemma owner_set_pc i p s ch h : owner s ch h -> owner (set_pc i p s) ch h.
Proof.
  intros (k & Hk & H1 & H2). unfold owner.
  change (calls (set_pc i p s)) with (alter (fun k => k <| k_pc := p |>) i (calls s)).
  destruct (decide (i = ch)) as [->|].
  - exists (k <| k_pc := p |>). by rewrite lookup_alter_eq, Hk.
  - exists k. by rewrite lookup_alter_ne.
Qed.

(** A call moves on; what it returns, if anything, answers it. *)
Lemma correlated_move i p s s' k :
  calls s !! i = Some k -> calls s' = calls (set_pc i p s) -> next s' = next s ->
  (forall h ch, sessions s' !! h = Some ch -> sessions s !! h = Some ch) ->
  (forall ch m, chans s' !! ch = Some (Some m) -> chans s !! ch = Some (Some m)) ->
  (forall b, p = Returned (Ok b) -> exists m, b = msg_Header m ++ msg_Body m /\ answers_id m (k_id k)) ->
  correlated s -> correlated s'.
Proof.
  intros Hi Ec En Hs Hch Hp [C1 C2 C3 C4 C5].
  assert (forall ch h, owner s ch h -> owner s' ch h) as Ho.
  { intros ch h H. unfold owner. rewrite Ec. by apply owner_set_pc. }
  split.
  - intros h ch H. by apply Ho, C1, Hs.
  - intros j d. rewrite Ec. intros [[_ Hj]|(-> & k0 & H0 & ->)]%call_set_pc_inv; [by apply C2|].
    by apply (C2 i k0).
  - intros ch m H. destruct (C3 ch m (Hch ch m H)) as (h & H1 & H2). exists h. auto.
  - intros j d b. rewrite Ec. intros [[_ Hj]|(-> & k0 & H0 & ->)]%call_set_pc_inv He; [by eapply C4|].
    rewrite Hi in H0. injection H0 as <-. by apply Hp.
  - intros j. rewrite Ec, En. intros [d [[_ Hj]|(-> & k0 & H0 & _)]%call_set_pc_inv]; apply C5; by eexists.
Qed.

Lemma correlated_Send message s : correlated s -> correlated (SendWithContext message s).
Proof.
  intros [C1 C2 C3 C4 C5]. unfold SendWithContext.
  assert (forall k h ch, owner s ch h ->
    exists k', <[next s := k]> (calls s) !! ch = Some k' /\ k_chan k' = ch /\ k_id k' = h) as Ho.
  { intros k h ch (k' & Hk & H1 & H2). exists k'. rewrite lookup_insert_ne; [done|].
    intros <-. specialize (C5 (next s) ltac:(by eexists)). lia. }
  assert (forall k, k_chan k = next s -> forall i d,
    <[next s := k]> (calls s) !! i = Some d -> k_chan d = i) as H2.
  { intros k Hk i d [[<- <-]|[_ H]]%lookup_insert_Some; auto. }
  assert (forall k i, is_Some (<[next s := k]> (calls s) !! i) -> i < Z.succ (next s)) as H5.
  { intros k i [d [[<- _]|[_ H]]%lookup_insert_Some]; [lia|].
    specialize (C5 i ltac:(by eexists)). lia. }
  assert (forall k, (forall b, k_pc k <> Returned (Ok b)) -> forall i d b,
    <[next s := k]> (calls s) !! i = Some d -> k_pc d = Returned (Ok b) ->
    exists m, b = msg_Header m ++ msg_Body m /\ answers_id m (k_id d)) as H4.
  { intros k Hk i d b [[_ <-]|[_ H]]%lookup_insert_Some He; [by apply Hk in He|by eapply C4]. }
  destruct (len message <? 20).
  - split.
    + intros h ch H. by apply Ho, C1.
    + intros i k. by apply H2.
    + intros ch m H. destruct (C3 ch m H) as (h & H3 & H6). exists h. split; [by apply Ho|done].
    + intros i k b. by apply H4.
    + intros i. apply H5.
  - cbv zeta. split.
    + intros h ch H.
      change (<[be_get (slice message 12 16) := next s]> (sessions s) !! h = Some ch) in H.
      apply lookup_insert_Some in H as [[<- <-]|[_ H]]; [|by apply Ho, C1].
      eexists. split; [apply lookup_insert_eq|done].
    + intros i k. by apply H2.
    + intros ch m H. change (<[next s := None]> (chans s) !! ch = Some (Some m)) in H.
      apply lookup_insert_Some in H as [[_ [=]]|[_ H]].
      destruct (C3 ch m H) as (h & H3 & H6). exists h. split; [by apply Ho|done].
    + intros i k b. by apply H4.
    + intros i. apply H5.
Qed.

Lemma correlated_handleFn m s : correlated s -> correlated (handleFn m s).
Proof.
  intros Hc. unfold handleFn. destruct (ParseMessageHeader (msg_Header m)) as [info| |] eqn:Ei; [|done..].
  destruct (FindSession (mi_HopByHopID info) s) as [ch|] eqn:Es; [|done].
  destruct (chans s !! ch) as [[m'|]|] eqn:Ec; [done| |done]. destruct Hc as [C1 C2 C3 C4 C5].
  split; try assumption.
  intros ch' m' H. change (<[ch := Some m]> (chans s) !! ch' = Some (Some m')) in H.
  apply lookup_insert_Some in H as [[<- [= <-]]|[_ H]]; [|by apply C3].
  exists (mi_HopByHopID info). split; [by apply C1|]. by exists info.
Qed.

Lemma session_deleted h0 (l : gmap Z Z) h ch : delete h0 l !! h = Some ch -> l !! h = Some ch.
Proof. by intros [_ H]%lookup_delete_Some. Qed.

Lemma step_correlated e s : correlated s -> correlated (step e s).
Proof.
  intros Hc. destruct e as [message|i ok deadline|i|i|m]; cbn [step].
  - by apply correlated_Send.
  - destruct (calls s !! i) as [k|] eqn:Ei; [|done]. destruct (k_pc k); [|done..].
    unfold pool_result. destruct ok.
    + by apply (correlated_move i Waiting s _ k).
    + cbv zeta. apply (correlated_move i (Returned (Err ErrPool)) s _ k); try done.
      * by destruct deadline.
      * by destruct deadline.
      * intros h ch H. apply (session_deleted (k_id k)). by destruct deadline.
      * intros ch m H. by destruct deadline.
  - destruct (calls s !! i) as [k|] eqn:Ei; [|done]. destruct (k_pc k); [done| |done].
    destruct (chans s !! k_chan k) as [[m|]|] eqn:Em; [|done..].
    apply (correlated_move i (Returned (Ok (msg_Header m ++ msg_Body m))) s _ k); try done.
    + intros h ch. apply (session_deleted (k_id k)).
    + intros ch m' H. change (<[k_chan k := None]> (chans s) !! ch = Some (Some m')) in H.
      by apply lookup_insert_Some in H as [[_ [=]]|[_ H]].
    + intros b [= <-]. exists m. split; [done|].
      destruct (co_chan _ Hc _ _ Em) as (h & (k' & Hk & _ & Hh) & Ha).
      rewrite (co_call _ Hc i k Ei), Ei in Hk. injection Hk as <-. by rewrite Hh.
  - destruct (calls s !! i) as [k|] eqn:Ei; [|done]. destruct (k_pc k); [done| |done].
    apply (correlated_move i (Returned (Err ErrNoResponse)) s _ k); try done.
    intros h ch. apply (session_deleted (k_id k)).
  - by apply correlated_handleFn.
Qed.

Lemma run_correlated l s : correlated s -> correlated (run l s).
Proof.
  revert s. induction l as [|e l IH]; intros s Hs; [done|]. by apply IH, step_correlated.
Qed.

Lemma New_correlated : correlated NewAddressClient.
Proof. split; cbn; try done. by intros i [k Hk]. Qed.

(** ** The answer to a request

    [call_returns l1 l2 req r]: in a run of the address client, the call that
    sends [req] after [l1] has returned [r] after [l2]. *)
Definition call_returns (l1 l2 : list event) (req : bytes) (r : outcome send_error bytes) : Prop :=
  exists k, calls (run (l1 ++ EvSend req :: l2) NewAddressClient) !! next (run l1 NewAddressClient) = Some k /\
    k_pc k = Returned r.

(** The identifier that a message is sent under. *)
Definition id_of (message : bytes) : Z := if len message <? 20 then 0 else be_get (slice message 12 16).

(** A step changes no call's identifier. *)
Lemma step_id e s i k :
  calls s !! i = Some k -> i < next s ->
  exists k', calls (step e s) !! i = Some k' /\ k_id k' = k_id k.
Proof.
  intros Hi Hlt.
  assert (forall p j, exists k', calls (set_pc j p s) !! i = Some k' /\ k_id k' = k_id k) as Hpc.
  { intros p j. change (calls (set_pc j p s)) with (alter (fun k => k <| k_pc := p |>) j (calls s)).
    destruct (decide (j = i)) as [->|]; [rewrite lookup_alter_eq, Hi|rewrite lookup_alter_ne by done]; by eexists. }
  destruct e as [message|j ok deadline|j|j|m]; cbn [step].
  - unfold SendWithContext. case_match; exists k; (split; [|done]).
    + change (<[next s := {| k_id := 0; k_chan := next s; k_pc := Returned (Err ErrInvalidMessage) |}]> (calls s) !! i = Some k).
      by rewrite lookup_insert_ne by lia.
    + change (<[next s := {| k_id := be_get (slice message 12 16); k_chan := next s; k_pc := InPool |}]> (calls s) !! i = Some k).
      by rewrite lookup_insert_ne by lia.
  - destruct (calls s !! j); [|by exists k]. destruct (k_pc _); [|by exists k..].
    unfold pool_result. destruct ok; [apply Hpc|]. destruct deadline; apply (Hpc (Returned (Err ErrPool)) j).
  - destruct (calls s !! j) as [kj|]; [|by exists k]. destruct (k_pc _); [by exists k| |by exists k].
    destruct (chans s !! _) as [[m|]|]; [|by exists k..]. apply (Hpc (Returned (Ok (msg_Header m ++ msg_Body m))) j).
  - destruct (calls s !! j); [|by exists k]. destruct (k_pc _); [by exists k| |by exists k].
    apply (Hpc (Returned (Err ErrNoResponse)) j).
  - exists k. split; [|done]. unfold handleFn.
    destruct (ParseMessageHeader _); [|done..]. destruct (FindSession _ _); [|done].
    by destruct (chans s !! _) as [[m'|]|].
Qed.

Lemma next_step e s : next s <= next (step e s).
Proof.
  destruct e; cbn [step]; unfold SendWithContext, pool_result, got_response, ctx_done, handleFn; repeat case_match;
    try done; change (next s <= Z.succ (next s)); lia.
Qed.

Lemma run_id l s i k :
  calls s !! i = Some k -> i < next s ->
  exists k', calls (run l s) !! i = Some k' /\ k_id k' = k_id k.
Proof.
  revert s k. induction l as [|e l IH]; intros s k Hi Hlt; [by exists k|].
  destruct (step_id e s i k Hi Hlt) as (k1 & H1 & E1).
  destruct (IH (step e s) k1 H1) as (k2 & H2 & E2); [pose proof (next_step e s); lia|].
  exists k2. split; [done|]. congruence.
Qed.

Lemma call_id l1 l2 req k :
  calls (run (l1 ++ EvSend req :: l2) NewAddressClient) !! next (run l1 NewAddressClient) = Some k ->
  k_id k = id_of req.
Proof.
  set (s := run l1 NewAddressClient).
  replace (run (l1 ++ EvSend req :: l2) NewAddressClient) with (run l2 (SendWithContext req s))
    by (unfold run, s; by rewrite foldl_app).
  intros Hk.
  assert (exists k0, calls (SendWithContext req s) !! next s = Some k0 /\ k_id k0 = id_of req /\
    next s < next (SendWithContext req s)) as (k0 & H0 & E0 & Hn).
  { unfold SendWithContext, id_of. case_match; eexists; (split; [apply lookup_insert_eq|]); (split; [done|]);
      change (next s < Z.succ (next s)); lia. }
  destruct (run_id l2 _ _ _ H0 Hn) as (k' & H' & E'). congruence.
Qed.

Lemma call_answered l1 l2 req b :
  call_returns l1 l2 req (Ok b) ->
  exists m, b = msg_Header m ++ msg_Body m /\ answers_id m (id_of req).
Proof.
  intros (k & Hk & Hpc). rewrite <- (call_id _ _ _ _ Hk).
  by apply (co_result _ (run_correlated _ _ New_correlated) _ _ _ Hk).
Qed.

(** C23: whatever the interleaving of calls, replies of the peers, timeouts and
    failures of the pool, a call of [SendWithContext] that returns a message
    returns one whose Hop-by-Hop identifier is that of the request it was
    given. *)
Theorem responses_match l1 l2 req b :
  call_returns l1 l2 req (Ok b) ->
  exists m, b = msg_Header m ++ msg_Body m /\ answers_id m (id_of req).
Proof. apply call_answered. Qed.

(** A session's call is the last one that stored under its identifier, and
    it is removed by the first one that returns: of two calls in flight with
    one identifier, the answer can reach neither. *)
Lemma shared_identifier_lost s i j k k' m :
  calls s !! i = Some k -> calls s !! j = Some k' -> k_id k = k_id k' ->
  k_pc k = Waiting -> answers_id m (k_id k') ->
  handleFn m (step (EvCtxDone i) s) = step (EvCtxDone i) s.
Proof.
  intros Hi Hj He Hp (info & Hm & Hid). unfold handleFn. rewrite Hm. cbn [step]. rewrite Hi, Hp.
  assert (FindSession (mi_HopByHopID info) (ctx_done i k s) = None) as ->; [|done].
  change (FindSession (mi_HopByHopID info) (ctx_done i k s))
    with (delete (k_id k) (sessions s) !! mi_HopByHopID info).
  by rewrite Hid, <- He, lookup_delete_eq.
Qed.
