(* ===== verification/Gateway.v ===== *)
(** * The gateways

    [gateway/gateway.go] is the proxy between the logic applications and the
    agents: its configuration, its construction, and the table of sessions
    that its handlers keep, with the counters beside it.  The map is changed
    under its mutex and the counters after it, so that [step] interleaves the
    two.  [client/gateway.go] is the gateway with one [DRAPool] per
    application; what it promises is that the pools do not affect each
    other. *)

From S2P Require Import Prelude ConnPool DraPool.
From S2P Require Server AddrPool.

(** ** Sessions *)

Module Sessions.

(** A session is known here by the time of its creation, in nanoseconds; the
    other counters of the gateway are only incremented, by their setters. *)
Record GatewayStats := {
  ActiveSessions : Z;
  TimeoutErrors : Z;
  SessionsCreated : Z;
  SessionsCompleted : Z;
  SessionsExpired : Z }.

(** What a call still does to the counters, in order. *)
Inductive counting : Type := CActive (d : Z) | CCreated | CCompleted.

Record Table := {
  sessions : gmap Z Z;
  stats : GatewayStats;
  pending : list (list counting) }.

Definition empty_table : Table :=
  {| sessions := ∅; stats := Build_GatewayStats 0 0 0 0 0; pending := [] |}.

Definition add64 (d n : Z) : Z := to_u64 (n + d).

Definition count (k : counting) (t : GatewayStats) : GatewayStats :=
  match k with
  | CActive d => t <| ActiveSessions ::= add64 d |>
  | CCreated => t <| SessionsCreated ::= add64 1 |>
  | CCompleted => t <| SessionsCompleted ::= add64 1 |>
  end.

Definition StoreSession (hopbyhop createdAt : Z) (s : Table) : Table :=
  let exists_ := bool_decide (is_Some (sessions s !! hopbyhop)) in
  let s := s <| sessions ::= <[hopbyhop := createdAt]> |> in
  if exists_ then s else s <| pending ::= fun l => l ++ [[CActive 1; CCreated]] |>.

Definition FindSession (hopbyhop : Z) (s : Table) : option Z := sessions s !! hopbyhop.

(** [Add(^uint64(0))] decrements. *)
Definition DeleteSession (hopbyhop : Z) (s : Table) : Table * bool :=
  match sessions s !! hopbyhop with
  | Some _ =>
      (s <| sessions ::= delete hopbyhop |>
         <| pending ::= fun l => l ++ [[CActive (2 ^ 64 - 1); CCompleted]] |>, true)
  | None => (s, false)
  end.

(** [now.Sub(t)], a [time.Duration], which saturates. *)
Definition Sub (now t : Z) : Z := Z.max (- 2 ^ 63) (Z.min (2 ^ 63 - 1) (now - t)).

Definition expired (timeout now createdAt : Z) : bool := timeout <? Sub now createdAt.

Definition expire_one (timeout now : Z) (s : Table) (kv : Z * Z) : Table :=
  if expired timeout now kv.2 then
    s <| sessions ::= delete kv.1 |>
      <| stats ::= fun t => t <| ActiveSessions ::= add64 (2 ^ 64 - 1) |>
                              <| TimeoutErrors ::= add64 1 |> <| SessionsExpired ::= add64 1 |> |>
  else s.

Definition cleanupExpiredSessions (timeout now : Z) (s : Table) : Table :=
  foldl (expire_one timeout now) s (map_to_list (sessions s)).

(** [EvCount n]: the [n]-th of the calls that have left the mutex goes on. *)
Inductive event : Type :=
| EvStore (hopbyhop createdAt : Z)
| EvDelete (hopbyhop : Z)
| EvCleanup (timeout now : Z)
| EvCount (n : nat).

Definition step (e : event) (s : Table) : Table :=
  match e with
  | EvStore h t => StoreSession h t s
  | EvDelete h => (DeleteSession h s).1
  | EvCleanup timeout now => cleanupExpiredSessions timeout now s
  | EvCount n =>
      match pending s !! n with
      | Some (k :: l) => s <| stats ::= count k |> <| pending ::= <[n := l]> |>
      | _ => s
      end
  end.

Definition run (l : list event) (s : Table) : Table := foldl (fun s e => step e s) s l.

(** No call is between its mutex and its counters. *)
Definition quiet (s : Table) : Prop := Forall (fun l => l = []) (pending s).

(** ** The counters follow the table *)

Definition eqm64 (a b : Z) : Prop := to_u64 a = to_u64 b.

Definition d_active (k : counting) : Z := match k with CActive d => d | _ => 0 end.
Definition d_net (k : counting) : Z :=
  match k with CCreated => 1 | CCompleted => -1 | CActive _ => 0 end.
Definition total (f : counting -> Z) (l : list (list counting)) : Z :=
  foldr Z.add 0 (map f (concat l)).

Lemma total_app f l k : total f (l ++ k) = total f l + total f k.
Proof.
  unfold total. rewrite concat_app, map_app. generalize (map f (concat l)).
  intros q. induction q as [|x q IH]; cbn; lia.
Qed.

Lemma pending_total_insert f l n k q :
  l !! n = Some (k :: q) -> total f l = f k + total f (<[n := q]> l).
Proof.
  intros Hn. rewrite <- (take_drop_middle l n _ Hn) at 1.
  rewrite (insert_take_drop l n q) by by apply lookup_lt_Some in Hn.
  change (take n l ++ (k :: q) :: drop (S n) l) with (take n l ++ [k :: q] ++ drop (S n) l).
  change (take n l ++ q :: drop (S n) l) with (take n l ++ [q] ++ drop (S n) l).
  rewrite !total_app. unfold total. cbn. rewrite app_nil_r. lia.
Qed.

Lemma total_quiet f l : Forall (fun q => q = []) l -> total f l = 0.
Proof. intros H. unfold total. induction H as [|q l -> _ IH]; [done|exact IH]. Qed.

(** Up to 2^64, the counters of a table differ from its size by what its calls
    have not counted yet. *)
Record accounted (s : Table) : Prop := {
  ac_active : eqm64 (ActiveSessions (stats s) + total d_active (pending s)) (Z.of_nat (size (sessions s)));
  ac_net : eqm64 (SessionsCreated (stats s) - SessionsCompleted (stats s) - SessionsExpired (stats s)
                    + total d_net (pending s)) (Z.of_nat (size (sessions s)));
  ac_expired : TimeoutErrors (stats s) = SessionsExpired (stats s) }.

Lemma eqm64_iff a b : eqm64 a b <-> exists q, a = b + q * 2 ^ 64.
Proof.
  unfold eqm64, to_u64. split.
  - intros H. exists (a / 2 ^ 64 - b / 2 ^ 64).
    pose proof (Z.div_mod a (2 ^ 64) ltac:(lia)). pose proof (Z.div_mod b (2 ^ 64) ltac:(lia)). lia.
  - intros [q ->]. by rewrite Z.mod_add by lia.
Qed.

Lemma add64_eq d n : exists q, add64 d n = n + d + q * 2 ^ 64.
Proof. apply eqm64_iff. unfold eqm64, add64, to_u64. by rewrite Zmod_mod. Qed.

(** A step that changes the counters, what is pending and the size by amounts
    that agree. *)
Lemma accounted_change s s' da dc dk de dpa dpn dz :
  accounted s ->
  eqm64 (ActiveSessions (stats s')) (ActiveSessions (stats s) + da) ->
  eqm64 (SessionsCreated (stats s')) (SessionsCreated (stats s) + dc) ->
  eqm64 (SessionsCompleted (stats s')) (SessionsCompleted (stats s) + dk) ->
  eqm64 (SessionsExpired (stats s')) (SessionsExpired (stats s) + de) ->
  TimeoutErrors (stats s') = SessionsExpired (stats s') ->
  total d_active (pending s') = total d_active (pending s) + dpa ->
  total d_net (pending s') = total d_net (pending s) + dpn ->
  Z.of_nat (size (sessions s')) = Z.of_nat (size (sessions s)) + dz ->
  eqm64 (da + dpa) dz -> eqm64 (dc - dk - de + dpn) dz -> accounted s'.
Proof.
  intros [H1 H2 H3]. rewrite !eqm64_iff in *.
  destruct H1 as [q1 H1], H2 as [q2 H2].
  intros [a Ha] [c Hc] [k Hk] [e He] Ht Hpa Hpn Hz [x Hx] [y Hy]. split; rewrite ?eqm64_iff; [| |done].
  - exists (q1 + a + x). lia.
  - exists (q2 + c - k - e + y). lia.
Qed.

Lemma add64_eqm d n : eqm64 (add64 d n) (n + d).
Proof. apply eqm64_iff, add64_eq. Qed.
Lemma eqm64_0 n : eqm64 n (n + 0).
Proof. by rewrite Z.add_0_r. Qed.
#[local] Hint Resolve add64_eqm eqm64_0 ac_expired : core.

(** The conditions of [accounted_change] on an explicit next state. *)
Ltac counts s :=
  try done; rsimpl; cbn [count]; rsimpl;
  rewrite ?total_app, ?(ac_expired s) by done; cbn; auto; try lia.

Lemma store_accounted h t s : accounted s -> accounted (StoreSession h t s).
Proof.
  intros Hs. unfold StoreSession. case_bool_decide as Hd.
  - apply (accounted_change s _ 0 0 0 0 0 0 0); counts s.
    rewrite map_size_insert_Some; [lia|done].
  - apply eq_None_not_Some in Hd.
    apply (accounted_change s _ 0 0 0 0 1 1 1); counts s.
    rewrite map_size_insert_None by done. lia.
Qed.

Lemma size_delete (m : gmap Z Z) h :
  is_Some (m !! h) -> Z.of_nat (size (delete h m)) = Z.of_nat (size m) + -1.
Proof.
  intros [x Hx]. rewrite map_size_delete, Hx.
  assert (size m <> 0%nat); [|lia].
  intros He. apply map_size_empty_inv in He. by rewrite He, lookup_empty in Hx.
Qed.

Lemma delete_accounted h s : accounted s -> accounted (DeleteSession h s).1.
Proof.
  intros Hs. unfold DeleteSession. destruct (sessions s !! h) as [t|] eqn:Et; [|done]. cbn [fst].
  apply (accounted_change s _ 0 0 0 0 (2 ^ 64 - 1) (-1) (-1)); counts s.
  apply size_delete. by eexists.
Qed.

Lemma expire_accounted timeout now s kv :
  is_Some (sessions s !! kv.1) -> accounted s -> accounted (expire_one timeout now s kv).
Proof.
  intros Hk Hs. unfold expire_one. destruct (expired timeout now kv.2); [|done].
  apply (accounted_change s _ (2 ^ 64 - 1) 0 0 1 0 0 (-1)); counts s.
  by apply size_delete.
Qed.

Lemma expire_lookup timeout now s kv h :
  sessions (expire_one timeout now s kv) !! h =
  if expired timeout now kv.2 && bool_decide (kv.1 = h) then None else sessions s !! h.
Proof.
  unfold expire_one. destruct (expired timeout now kv.2); [|done].
  rsimpl. cbn [andb]. case_bool_decide as Hd.
  - by rewrite Hd, lookup_delete_eq.
  - by rewrite lookup_delete_ne.
Qed.

Lemma expire_list_accounted timeout now l s :
  NoDup l.*1 -> (forall k, k ∈ l.*1 -> is_Some (sessions s !! k)) -> accounted s ->
  accounted (foldl (expire_one timeout now) s l).
Proof.
  revert s. induction l as [|kv l IH]; intros s Hn Hl Hs; [done|].
  apply NoDup_cons in Hn as [Hkv Hn]. cbn [foldl].
  apply IH; [done| |apply expire_accounted; [apply Hl, list_elem_of_here|done]].
  intros k Hk. rewrite expire_lookup, (bool_decide_eq_false_2 (kv.1 = k)) by (by intros <-).
  rewrite Bool.andb_false_r. by apply Hl, list_elem_of_further.
Qed.

Lemma step_accounted e s : accounted s -> accounted (step e s).
Proof.
  intros Hs. destruct e as [h t|h|timeout now|n]; cbn [step].
  - by apply store_accounted.
  - by apply delete_accounted.
  - apply expire_list_accounted; [apply NoDup_fst_map_to_list| |done].
    intros k Hk. apply list_elem_of_fmap in Hk as ([k' t] & -> & Hk).
    apply elem_of_map_to_list in Hk. by eexists.
  - destruct (pending s !! n) as [[|k l]|] eqn:En; [done| |done].
    pose proof (pending_total_insert d_active _ _ _ _ En). pose proof (pending_total_insert d_net _ _ _ _ En).
    destruct k as [d| |]; cbn [d_active d_net] in *.
    + apply (accounted_change s _ d 0 0 0 (- d) 0 0); counts s.
      apply eqm64_iff. exists 0. lia.
    + apply (accounted_change s _ 0 1 0 0 0 (-1) 0); counts s.
    + apply (accounted_change s _ 0 0 1 0 0 1 0); counts s.
Qed.

Lemma run_accounted l s : accounted s -> accounted (run l s).
Proof. revert s. induction l as [|e l IH]; intros s Hs; [done|]. by apply IH, step_accounted. Qed.

(** C24: the counters of the gateway's sessions.  Whatever the interleaving of
    calls that store, delete and expire sessions, once none of them is between
    its change of the table and its counting, [ActiveSessions] is the number of
    sessions in the table and, modulo 2^64, so is the number created less
    those completed and expired; [TimeoutErrors] is the number expired. *)
Theorem sessions_accounted l :
  let s := run l empty_table in
  quiet s ->
  to_u64 (ActiveSessions (stats s)) = to_u64 (Z.of_nat (size (sessions s))) /\
  to_u64 (SessionsCreated (stats s) - SessionsCompleted (stats s) - SessionsExpired (stats s))
    = to_u64 (Z.of_nat (size (sessions s))) /\
  TimeoutErrors (stats s) = SessionsExpired (stats s).
Proof.
  intros s Hq. assert (accounted s) as [H1 H2 H3] by by apply run_accounted.
  unfold quiet in Hq. rewrite (total_quiet _ _ Hq), Z.add_0_r in H1.
  rewrite (total_quiet _ _ Hq), Z.add_0_r in H2. auto.
Qed.

Lemma expire_list_lookup timeout now l s h :
  sessions (foldl (expire_one timeout now) s l) !! h =
  if existsb (fun kv => expired timeout now kv.2 && bool_decide (kv.1 = h)) l then None
  else sessions s !! h.
Proof.
  revert s. induction l as [|kv l IH]; intros s; [done|]. cbn [foldl existsb].
  rewrite IH, expire_lookup. by destruct (expired timeout now kv.2 && _), (existsb _ l).
Qed.

(** The cleanup removes the sessions older than [SessionTimeout] and
    changes no other. *)
Theorem cleanup_exact timeout now s h :
  FindSession h (cleanupExpiredSessions timeout now s) =
  match FindSession h s with
  | Some t => if expired timeout now t then None else Some t
  | None => None
  end.
Proof.
  unfold FindSession, cleanupExpiredSessions. rewrite expire_list_lookup.
  destruct (existsb _ _) eqn:E.
  - apply existsb_exists in E as ([k t] & Hk & He). apply list_elem_of_In, elem_of_map_to_list in Hk.
    b2p. cbn in *. destruct He as [He ->]. by rewrite Hk, He.
  - destruct (sessions s !! h) as [t|] eqn:Et; [|done].
    destruct (expired timeout now t) eqn:He; [|done].
    assert (existsb (fun kv => expired timeout now kv.2 && bool_decide (kv.1 = h))
      (map_to_list (sessions s)) = true) as Ht; [|congruence].
    apply existsb_exists. exists (h, t). split; [by apply list_elem_of_In, elem_of_map_to_list|].
    b2p. done.
Qed.

End Sessions.

(** ** One pool per application *)

Module Apps.

Definition AppIDS6a : Z := 16777251.
Definition AppIDS13 : Z := 16777252.

Inductive gateway_error : Type :=
| ErrNoPools
| ErrPoolFor (appID : Z) (e : dra_pool_error)
| ErrNoPoolConfigured (appID : Z)
| ErrDRAPool (e : dra_pool_error).

Section Apps.
Context {C : Type} `{ConnOps C}.

Abbreviation Gateway := (gmap Z (DRAPool C)).

(** The loop of [NewGateway] over the configured pools, in the order [l] in
    which it ranges over them; [new] is [NewDRAPool]. *)
Fixpoint new_pools (new : Z -> DRAPoolConfig -> outcome dra_pool_error (DRAPool C))
    (l : list (Z * DRAPoolConfig)) (g : Gateway) : outcome gateway_error Gateway :=
  match l with
  | [] => Ok g
  | (appID, cfg) :: l =>
      match new appID cfg with
      | Ok pool => new_pools new l (<[appID := pool]> g)
      | Err e => Err (ErrPoolFor appID e)
      | Panic => Panic
      end
  end.

Definition NewGateway (new : Z -> DRAPoolConfig -> outcome dra_pool_error (DRAPool C))
    (l : list (Z * DRAPoolConfig)) : outcome gateway_error Gateway :=
  if len l =? 0 then Err ErrNoPools else new_pools new l ∅.

(** A pool's operation, at the pool of an application. *)
Definition at_pool (appID : Z) (f : DRAPool C -> DRAPool C * outcome dra_pool_error unit) (g : Gateway)
  : Gateway * outcome gateway_error unit :=
  match g !! appID with
  | None => (g, Err (ErrNoPoolConfigured appID))
  | Some pool => let '(pool', r) := f pool in (<[appID := pool']> g, omap_err ErrDRAPool r)
  end.

Definition Send (pick : bytes -> Z -> bool) (appID : Z) (data : bytes) : Gateway -> Gateway * outcome gateway_error unit :=
  at_pool appID (dra_Send pick data).

Definition SendToDRA (pick : bytes -> Z -> bool) (appID : Z) (draName data : bytes)
  : Gateway -> Gateway * outcome gateway_error unit :=
  at_pool appID (DraPool.SendToDRA pick draName data).

Definition Pool (appID : Z) (g : Gateway) : option (DRAPool C) := g !! appID.

Definition Close (g : Gateway) : Gateway := dra_Close <$> g.

(** What happens to a gateway: its calls, and the goroutines of one of its
    pools, which change that pool by [f]. *)
Inductive event : Type :=
| EvSend (pick : bytes -> Z -> bool) (appID : Z) (data : bytes)
| EvSendToDRA (pick : bytes -> Z -> bool) (appID : Z) (draName data : bytes)
| EvPool (appID : Z) (f : DRAPool C -> DRAPool C).

Definition app_of (e : event) : Z :=
  match e with EvSend _ a _ | EvSendToDRA _ a _ _ | EvPool a _ => a end.

(** The next gateway, and what the call returned. *)
Definition step (e : event) (g : Gateway) : Gateway * outcome gateway_error unit :=
  match e with
  | EvSend pick a data => Send pick a data g
  | EvSendToDRA pick a draName data => SendToDRA pick a draName data g
  | EvPool a f => (alter f a g, Ok tt)
  end.

(** A run: the results, each with the application it is for. *)
Fixpoint run (l : list event) (g : Gateway) : Gateway * list (Z * outcome gateway_error unit) :=
  match l with
  | [] => (g, [])
  | e :: l =>
      let '(g1, r) := step e g in
      let '(g2, rs) := run l g1 in
      (g2, (app_of e, r) :: rs)
  end.

Definition of_app (a : Z) (e : event) : bool := app_of e =? a.

(** [step] reads and writes the pool of its own application only. *)
Lemma step_other e g a : app_of e <> a -> (step e g).1 !! a = g !! a.
Proof.
  intros Hne. destruct e as [pick b data|pick b draName data|b f]; cbn in *;
    unfold Send, SendToDRA, at_pool; [destruct (g !! b) eqn:E..|by rewrite lookup_alter_ne]; try done;
    case_match; by apply lookup_insert_ne.
Qed.

Lemma step_own e g g' :
  g !! app_of e = g' !! app_of e ->
  (step e g).1 !! app_of e = (step e g').1 !! app_of e /\ (step e g).2 = (step e g').2.
Proof.
  intros He. destruct e as [pick b data|pick b draName data|b f]; cbn in *;
    unfold Send, SendToDRA, at_pool; rewrite <- ?He;
    [destruct (g !! b) eqn:E..|by rewrite !lookup_alter_eq, He];
    try (case_match; cbn; by rewrite !lookup_insert_eq);
    (split; [cbn; congruence|done]).
Qed.

(** The applications are independent ("an S13 outage cannot impact S6a").
    In any run, the pool of an application ends in the same state, and its
    calls return the same results, as if only its own calls and its own pool's
    goroutines had run. *)
Theorem applications_independent a l g :
  (run l g).1 !! a = (run (List.filter (of_app a) l) g).1 !! a /\
  List.filter (fun r => r.1 =? a) (run l g).2 = (run (List.filter (of_app a) l) g).2.
Proof.
  assert (forall g', g !! a = g' !! a ->
    (run l g).1 !! a = (run (List.filter (of_app a) l) g').1 !! a /\
    List.filter (fun r => r.1 =? a) (run l g).2 = (run (List.filter (of_app a) l) g').2) as Hg;
    [|by apply Hg].
  revert g. induction l as [|e l IH]; intros g g' He; [done|].
  cbn [run List.filter]. change (of_app a e) with (app_of e =? a). destruct (Z.eqb_spec (app_of e) a) as [Ha|Ha].
  - cbn [run]. destruct (step_own e g g') as [H1 H2]; [by rewrite Ha|]. rewrite Ha in H1.
    destruct (step e g) as [g1 r1], (step e g') as [g2 r2]. cbn in H1, H2. subst r2.
    destruct (IH g1 g2 H1) as [I1 I2].
    destruct (run l g1) as [g3 rs], (run (List.filter (of_app a) l) g2) as [g4 rs']. cbn in *.
    rewrite Ha, Z.eqb_refl. split; [done|]. congruence.
  - pose proof (step_other e g a Ha) as H1. destruct (step e g) as [g1 r1]. cbn in H1.
    destruct (IH g1 g' ltac:(congruence)) as [I1 I2].
    destruct (run l g1) as [g3 rs]. cbn in *.
    rewrite (proj2 (Z.eqb_neq _ _)) by done. done.
Qed.

Lemma new_pools_spec new l g g' a :
  NoDup l.*1 -> new_pools new l g = Ok g' ->
  (forall cfg, (a, cfg) ∈ l -> exists pool, new a cfg = Ok pool /\ g' !! a = Some pool) /\
  (a ∉ l.*1 -> g' !! a = g !! a).
Proof.
  revert g. induction l as [|[b cfg] l IH]; intros g Hn Hg; cbn in *.
  - injection Hg as ->. split; [by intros cfg Hc%elem_of_nil|done].
  - apply NoDup_cons in Hn as [Hb Hn]. destruct (new b cfg) as [pool| |] eqn:Ep; [|done..].
    destruct (IH _ Hn Hg) as [I1 I2]. split.
    + intros cfg' Hc. apply elem_of_cons in Hc as [[= -> ->]|Hc]; [|by apply I1].
      exists pool. split; [done|]. by rewrite (I2 Hb), lookup_insert_eq.
    + intros [Hne Ha]%not_elem_of_cons. by rewrite (I2 Ha), lookup_insert_ne.
Qed.

(** [NewGateway] succeeds only with a pool for every configured application,
    the one that [NewDRAPool] made of its configuration, and with no other. *)
Lemma NewGateway_pools new l g a :
  NoDup l.*1 -> NewGateway new l = Ok g ->
  (forall cfg, (a, cfg) ∈ l -> exists pool, new a cfg = Ok pool /\ Pool a g = Some pool) /\
  (a ∉ l.*1 -> Pool a g = None).
Proof.
  unfold NewGateway. intros Hn Hg. destruct (len l =? 0); [done|].
  destruct (new_pools_spec new l ∅ g a Hn Hg) as [H1 H2]. split; [done|]. intros Ha.
  unfold Pool. by rewrite (H2 Ha).
Qed.

End Apps.
End Apps.

(** ** The construction of the proxy *)

Module Proxy.

(** The identity goes into the configurations of the servers; of these,
    [Server] knows three fields. *)
Record GatewayConfig := {
  InServerConfig : option Server.ServerConfig;
  InClientConfig : option AddrPool.PoolConfig;
  OutServerConfig : option Server.ServerConfig;
  OutServerSupported : bool;
  DRASupported : bool;
  gw_DRAPoolConfig : option DRAPoolConfig;
  OriginHost : bytes;
  OriginRealm : bytes;
  ProductName : bytes;
  VendorID : Z;
  SessionTimeout : Z;
  EnableRequestLogging : bool;
  EnableResponseLogging : bool }.

Definition DefaultGatewayConfig : GatewayConfig :=
  {| InServerConfig := Some Server.DefaultServerConfig; InClientConfig := None;
     OutServerConfig := Some Server.DefaultServerConfig; OutServerSupported := false;
     DRASupported := false; gw_DRAPoolConfig := None;
     OriginHost := gostr "diameter-gw.example.com"; OriginRealm := gostr "example.com";
     ProductName := gostr "Diameter-Gateway"; VendorID := 10415;
     SessionTimeout := 30 * 1000000000; EnableRequestLogging := false;
     EnableResponseLogging := false |}.

Inductive config_error : Type :=
| ErrNilConfig
| ErrOriginHost
| ErrOriginRealm
| ErrDRAPoolConfig
| ErrDRAPool (e : dra_pool_error).

(** It also gives a default to [SessionTimeout]. *)
Definition ValidateGatewayConfig (config : option GatewayConfig) : outcome config_error GatewayConfig :=
  match config with
  | None => Err ErrNilConfig
  | Some c =>
      if len (OriginHost c) =? 0 then Err ErrOriginHost
      else if len (OriginRealm c) =? 0 then Err ErrOriginRealm
      else match gw_DRAPoolConfig c with
           | None => Err ErrDRAPoolConfig
           | Some _ => Ok (if SessionTimeout c <=? 0 then c <| SessionTimeout := 30 * 1000000000 |> else c)
           end
  end.

Definition newServer (c : GatewayConfig) (serverCfg : option Server.ServerConfig) : Server.ServerConfig :=
  (default Server.DefaultServerConfig serverCfg)
    <| Server.srv_ConnectionConfig ::= fun k =>
         k <| Server.OriginHost := OriginHost c |> <| Server.OriginRealm := OriginRealm c |>
           <| Server.ProductName := ProductName c |> |>.

Section Proxy.
Context {C : Type} `{ConnOps C}.

(** [newDRAPool] is [client.NewDRAPool]. *)
Context (newDRAPool : DRAPoolConfig -> outcome dra_pool_error (DRAPool C)).

Record Gateway := {
  config : GatewayConfig;
  inServer : Server.ServerConfig;
  inClient : AddrPool.Pool;
  outServer : option Server.ServerConfig;
  draPool : option (DRAPool C);
  sessions : Sessions.Table }.

(** An error of [NewAddressClient] panics, and so does one of [NewDRAPool],
    whose nil pool gets [SetHandler] before the error is looked at. *)
Definition NewGateway (config : option GatewayConfig) : outcome config_error Gateway :=
  match ValidateGatewayConfig config with
  | Err e => Err e
  | Panic => Panic
  | Ok c =>
      match AddrPool.NewAddressConnectionPool (InClientConfig c) with
      | None => Panic
      | Some pool =>
          let gw dra :=
            {| config := c; inServer := newServer c (InServerConfig c); inClient := pool;
               outServer := if OutServerSupported c then Some (newServer c (OutServerConfig c)) else None;
               draPool := dra; sessions := Sessions.empty_table |} in
          if DRASupported c then
            match gw_DRAPoolConfig c with
            | None => Err ErrDRAPoolConfig
            | Some d =>
                match newDRAPool (d <| pool_OriginHost := OriginHost c |>
                                    <| pool_OriginRealm := OriginRealm c |>
                                    <| pool_ProductName := ProductName c |>
                                    <| pool_VendorID := VendorID c |>) with
                | Ok p => Ok (gw (Some p))
                | _ => Panic
                end
            end
          else Ok (gw None)
      end
  end.

Lemma validated config c :
  ValidateGatewayConfig config = Ok c ->
  OriginHost c <> [] /\ OriginRealm c <> [] /\ 0 < SessionTimeout c.
Proof.
  unfold ValidateGatewayConfig. intros Hv.
  destruct config as [c0|]; [|done]. repeat case_match_in Hv; simplify_eq; b2p; rsimpl.
  all: split_and!; try lia; intros He; rewrite He in *; done.
Qed.

(** The default configuration, whatever agents it is completed with, gives no
    gateway: it has no configuration of the inbound client. *)
Lemma default_gives_no_gateway d gw :
  NewGateway (Some (DefaultGatewayConfig <| gw_DRAPoolConfig := d |>)) <> Ok gw.
Proof. by destruct d. Qed.

(** An agent pool that cannot be made panics the construction. *)
Lemma bad_dra_pool_panics c d e :
  DRASupported c = true -> gw_DRAPoolConfig c = Some d -> (forall d, newDRAPool d = Err e) ->
  forall gw e', NewGateway (Some c) <> Ok gw /\
    (NewGateway (Some c) = Err e' -> ValidateGatewayConfig (Some c) = Err e').
Proof.
  intros Hs Hd Hn gw e'. unfold NewGateway.
  destruct (ValidateGatewayConfig (Some c)) as [c'|e0|] eqn:Ev; [|split; congruence|done].
  assert (DRASupported c' = true /\ exists d', gw_DRAPoolConfig c' = Some d') as [-> [d' ->]].
  { unfold ValidateGatewayConfig in Ev. rewrite Hd in Ev.
    repeat case_match_in Ev; simplify_eq; rsimpl; rewrite ?Hs, ?Hd; eauto. }
  rewrite Hn. by destruct (AddrPool.NewAddressConnectionPool (InClientConfig c')).
Qed.

(** A gateway that is made speaks for itself everywhere: its servers answer
    with its identity, and the agents are given a validated pool made for that
    identity; its sessions expire after a positive time, and it starts with an
    empty table. *)
Theorem gateway_identity config gw :
  NewGateway config = Ok gw ->
  let c := Proxy.config gw in
  let speaks s := Server.OriginHost (Server.srv_ConnectionConfig s) = OriginHost c /\
                  Server.OriginRealm (Server.srv_ConnectionConfig s) = OriginRealm c /\
                  Server.ProductName (Server.srv_ConnectionConfig s) = ProductName c in
  OriginHost c <> [] /\ OriginRealm c <> [] /\ 0 < SessionTimeout c /\
  speaks (inServer gw) /\ (forall s, outServer gw = Some s -> speaks s) /\
  (outServer gw = None <-> OutServerSupported c = false) /\
  (draPool gw = None <-> DRASupported c = false) /\
  (forall p, draPool gw = Some p -> exists d, newDRAPool d = Ok p /\
     pool_OriginHost d = OriginHost c /\ pool_OriginRealm d = OriginRealm c) /\
  Sessions.sessions (sessions gw) = ∅.
Proof.
  intros Hg c speaks. unfold NewGateway in Hg.
  destruct (ValidateGatewayConfig config) as [c'| |] eqn:Ev; [|done..].
  pose proof (validated config c' Ev) as (H1 & H2 & H3).
  destruct (AddrPool.NewAddressConnectionPool (InClientConfig c')) as [pool|]; [|done].
  cbv zeta in Hg. destruct (DRASupported c') eqn:Ed.
  - destruct (gw_DRAPoolConfig c') as [d|]; [|done].
    destruct (newDRAPool _) as [p| |] eqn:Ep; [|done..]. injection Hg as <-. subst c speaks. cbn.
    split_and!; try done; [by destruct (OutServerSupported c'); intros; simplify_eq..|by rewrite Ed|].
    intros p' [= <-]. eexists. split; [exact Ep|]. done.
  - injection Hg as <-. subst c speaks. cbn.
    split_and!; try done. all: by destruct (OutServerSupported c'); intros; simplify_eq.
Qed.

End Proxy.
End Proxy.
