(* ===== verification/ServerConn.v ===== *)
(** * The server's buffered connection ([server/connection.go])

    A [Connection] has three goroutines: the reader cuts the stream into
    messages and hands them to the processor, which answers the base protocol
    itself, gives answers to the calls of [SendRequest] that wait for them and
    requests to the application, and the writer sends what the others queue.
    A step takes one of them, a call of [Close] or [SendRequest], or the timer
    of a DPR from one point where it can wait to the next.  [Close] runs its
    body once ([closeOnce]) and waits there for the three goroutines; the other
    calls wait for the first.  What the environment decides is an argument:
    when the socket fails, when a timeout ends a wait, and which ready case a
    [select] takes. *)

From S2P Require Import Prelude Binary DataTypes Wire Message BaseMessages Framing.
From S2P Require Import ClientConn.

Record ConnectionConfig := {
  ReadTimeout : Z;
  WriteTimeout : Z;
  WatchdogInterval : Z;
  WatchdogTimeout : Z;
  MaxMessageSize : Z;
  SendChannelSize : Z;
  RecvChannelSize : Z;
  sc_OriginHost : bytes;
  sc_OriginRealm : bytes;
  sc_ProductName : bytes;
  sc_VendorID : Z;
  HandleWatchdog : bool }.

Definition DefaultConnectionConfig : ConnectionConfig :=
  {| ReadTimeout := 30 * one_second; WriteTimeout := 10 * one_second;
     WatchdogInterval := 30 * one_second; WatchdogTimeout := 10 * one_second; MaxMessageSize := 65535;
     SendChannelSize := 100; RecvChannelSize := 100;
     sc_OriginHost := gostr "diameter-server.example.com"; sc_OriginRealm := gostr "example.com";
     sc_ProductName := gostr "Diameter Gateway"; sc_VendorID := 10415; HandleWatchdog := true |}.

(** ** State *)

(** Who runs the body of [Close]: the reader, the writer, or a call from
    outside. *)
Inductive closer : Type := ByReader | ByWriter | ByCall (i : Z).

Inductive once : Type := NotCalled | Running (who : closer) | Done.

Inductive reader_pc : Type :=
| RTop                       (* the [select] at the top of the loop *)
| RReading
| RHanding (message : bytes) (* the send on [processChan] *)
| RClosing                   (* in its call of [Close] *)
| RExited.

Inductive writer_pc : Type := WTop | WClosing | WExited.

(** What a handler does once [c.Send] has returned. *)
Inductive after_send : Type := ThenOpen | ThenNothing | ThenTimer.

Inductive processor_pc : Type :=
| PTop
| PSending (data : bytes) (k : after_send)
| PForwarding (message : bytes)
| PDelivering (ch : Z) (message : bytes)
| PExited.

Inductive request_error : Type := ErrTooShort | ErrConnClosed | ErrSendTimeout | ErrRequestTimeout.

Inductive request_pc : Type :=
| QSending (message : bytes)
| QWaiting
| QReturned (r : outcome request_error bytes).

Record Request := { q_id : Z; q_pc : request_pc }.

(** [true]: the call of [Close] has returned. *)
Abbreviation close_calls := (gmap Z bool).

(** [stream] is what the peer still sends, [localIP] the local address of the
    socket when it is a TCP address.  The response channel of a call is named
    by the call, and [chans] holds its contents (capacity one).  [handled] are
    the messages the processor has taken, [written] what has been written. *)
Record Connection := {
  config : ConnectionConfig;
  state : ConnectionState;
  stream : bytes;
  localIP : option bytes;
  sendChan : list bytes;
  receiveChan : list bytes;
  processChan : list bytes;
  closeChan : bool;
  socketClosed : bool;
  closeOnce : once;
  reader : reader_pc;
  writer : writer_pc;
  processor : processor_pc;
  requests : gmap Z Request;
  closes : close_calls;
  next : Z;
  timers : nat;
  pendingReqs : gmap Z Z;
  chans : gmap Z (option bytes);
  MessagesSent : Z;
  MessagesReceived : Z;
  BytesSent : Z;
  BytesReceived : Z;
  Errors : Z;
  originHost : bytes;
  originRealm : bytes;
  authAppIDs : list Z;
  acctAppIDs : list Z;
  supportedAppIDs : list Z;
  handled : list bytes;
  written : list bytes }.

(** [NewConnection] and [Start]. *)
Definition NewConnection (cfg : option ConnectionConfig) (stream : bytes) (localIP : option bytes) : Connection :=
  {| config := default DefaultConnectionConfig cfg; state := StateConnecting; stream := stream;
     localIP := localIP; sendChan := []; receiveChan := []; processChan := []; closeChan := false; socketClosed := false;
     closeOnce := NotCalled; reader := RTop; writer := WTop; processor := PTop; requests := ∅;
     closes := ∅; next := 0; timers := 0; pendingReqs := ∅; chans := ∅; MessagesSent := 0;
     MessagesReceived := 0; BytesSent := 0; BytesReceived := 0; Errors := 0; originHost := [];
     originRealm := []; authAppIDs := []; acctAppIDs := []; supportedAppIDs := []; handled := [];
     written := [] |}.

Definition inc (n : Z) : Z := to_u64 (n + 1).
Definition count_error (c : Connection) : Connection := c <| Errors ::= inc |>.

(** ** [Close] *)

(** A call of [Close]: the first runs the body up to [conn.Close()]. *)
Definition Close (who : closer) (c : Connection) : Connection :=
  match closeOnce c with
  | NotCalled => c <| closeOnce := Running who |> <| state := StateClosed |> <| closeChan := true |>
  | _ => c
  end.

(** [conn.Close()]: reads fail from then on (with an error that
    [isClosedError] does not recognise: its text has a prefix), and so do
    writes. *)
Definition close_socket (c : Connection) : Connection :=
  match closeOnce c with Running _ => c <| socketClosed := true |> | _ => c end.

(** [wg.Wait()] is over when the three goroutines have called [wg.Done()]. *)
Definition all_exited (c : Connection) : bool :=
  match reader c, writer c, processor c with
  | RExited, WExited, PExited => true
  | _, _, _ => false
  end.

Definition set_closed (who : closer) (c : Connection) : Connection :=
  match who with
  | ByReader => c <| reader := RExited |>
  | ByWriter => c <| writer := WExited |>
  | ByCall i => c <| closes ::= <[i := true]> |>
  end.

(** ** The reader *)

Inductive read_end : Type :=
| ReadStream              (* what the stream gives *)
| ReadFault (counted : bool). (* the socket fails; [counted]: neither EOF nor "use of closed..." *)

Definition fail_read (counted : bool) (c : Connection) : Connection :=
  Close ByReader ((if counted then count_error c else c) <| reader := RClosing |>).

(** One iteration of [readLoop], up to the send on [processChan]. *)
Definition read_message (r : read_end) (c : Connection) : Connection :=
  match r with
  | ReadFault counted => fail_read counted c
  | ReadStream =>
      if socketClosed c then fail_read true c else
      match readLoop_message (to_u32 (MaxMessageSize (config c))) (stream c) with
      | (Ok message, rest) =>
          c <| stream := rest |> <| MessagesReceived ::= inc |>
            <| BytesReceived ::= fun n => to_u64 (n + len message) |> <| reader := RHanding message |>
      | (Err ErrEOF, rest) => fail_read false (c <| stream := rest |>)
      | (_, rest) => fail_read true (c <| stream := rest |>)
      end
  end.

(** ** The processor *)

Definition send_room (c : Connection) : bool := len (sendChan c) <? SendChannelSize (config c).

(** How [c.Send] ends. *)
Inductive send_end : Type := SendQueued | SendClosed | SendTimedOut.

Definition opt_list {A} (o : option A) : list A := match o with Some a => [a] | None => [] end.

(** The applications of a CER: [AuthApplicationId]s, [AcctApplicationId]s, and
    those of the vendor-specific groups. *)
Definition vendor_groups (cer : CapabilitiesExchangeRequest.t) : list VendorSpecificApplicationId.t :=
  omap (fun g => g) (CapabilitiesExchangeRequest.VendorSpecificApplicationId cer).
Definition auth_apps (cer : CapabilitiesExchangeRequest.t) : list Z :=
  CapabilitiesExchangeRequest.AuthApplicationId cer ++
  concat (map (fun g => opt_list (VendorSpecificApplicationId.AuthApplicationId g)) (vendor_groups cer)).
Definition acct_apps (cer : CapabilitiesExchangeRequest.t) : list Z :=
  CapabilitiesExchangeRequest.AcctApplicationId cer ++
  concat (map (fun g => opt_list (VendorSpecificApplicationId.AcctApplicationId g)) (vendor_groups cer)).
Definition supported_apps (cer : CapabilitiesExchangeRequest.t) : list Z :=
  CapabilitiesExchangeRequest.AuthApplicationId cer ++ CapabilitiesExchangeRequest.AcctApplicationId cer ++
  concat (map (fun g => opt_list (VendorSpecificApplicationId.AuthApplicationId g) ++
                        opt_list (VendorSpecificApplicationId.AcctApplicationId g)) (vendor_groups cer)).

Definition build_CEA (c : Connection) (info : MessageInfo) : CapabilitiesExchangeAnswer.t :=
  CapabilitiesExchangeAnswer.New
    <| CapabilitiesExchangeAnswer.Header ::= fun h =>
         h <| HopByHopID := mi_HopByHopID info |> <| EndToEndID := mi_EndToEndID info |> |>
    <| CapabilitiesExchangeAnswer.ResultCode := 2001 |>
    <| CapabilitiesExchangeAnswer.OriginHost := sc_OriginHost (config c) |>
    <| CapabilitiesExchangeAnswer.OriginRealm := sc_OriginRealm (config c) |>
    <| CapabilitiesExchangeAnswer.ProductName := sc_ProductName (config c) |>
    <| CapabilitiesExchangeAnswer.VendorId := sc_VendorID (config c) |>
    <| CapabilitiesExchangeAnswer.HostIpAddress := opt_list (localIP c) |>.

Definition build_DWA (c : Connection) (info : MessageInfo) : DeviceWatchdogAnswer.t :=
  DeviceWatchdogAnswer.New
    <| DeviceWatchdogAnswer.Header ::= fun h =>
         h <| HopByHopID := mi_HopByHopID info |> <| EndToEndID := mi_EndToEndID info |> |>
    <| DeviceWatchdogAnswer.ResultCode := 2001 |>
    <| DeviceWatchdogAnswer.OriginHost := sc_OriginHost (config c) |>
    <| DeviceWatchdogAnswer.OriginRealm := sc_OriginRealm (config c) |>.

Definition build_DPA (c : Connection) (info : MessageInfo) : DisconnectPeerAnswer.t :=
  DisconnectPeerAnswer.New
    <| DisconnectPeerAnswer.Header ::= fun h =>
         h <| HopByHopID := mi_HopByHopID info |> <| EndToEndID := mi_EndToEndID info |> |>
    <| DisconnectPeerAnswer.ResultCode := 2001 |>
    <| DisconnectPeerAnswer.OriginHost := sc_OriginHost (config c) |>
    <| DisconnectPeerAnswer.OriginRealm := sc_OriginRealm (config c) |>.

(** A handler up to its [c.Send]; [Err] is a returned error.  The identity of
    the peer is kept even when the answer cannot be built. *)
Definition answer {E} (data : outcome E bytes) (k : after_send) (c : Connection)
  : Connection * outcome unit processor_pc :=
  (c, match data with Ok b => Ok (PSending b k) | Err _ => Err tt | Panic => Panic end).

Definition record_peer (cer : CapabilitiesExchangeRequest.t) (c : Connection) : Connection :=
  c <| originHost := CapabilitiesExchangeRequest.OriginHost cer |>
    <| originRealm := CapabilitiesExchangeRequest.OriginRealm cer |>
    <| authAppIDs := auth_apps cer |> <| acctAppIDs := acct_apps cer |>
    <| supportedAppIDs := supported_apps cer |>.

Definition handleCER (msg : bytes) (info : MessageInfo) (c : Connection)
  : Connection * outcome unit processor_pc :=
  match CapabilitiesExchangeRequest.Unmarshal msg CapabilitiesExchangeRequest.zero with
  | (cer, Ok _) =>
      let c := record_peer cer c in
      answer (CapabilitiesExchangeAnswer.Marshal (build_CEA c info)).2 ThenOpen c
  | (_, Err _) => (c, Err tt)
  | (_, Panic) => (c, Panic)
  end.

Definition handleDWR (info : MessageInfo) (c : Connection) : Connection * outcome unit processor_pc :=
  answer (DeviceWatchdogAnswer.Marshal (build_DWA c info)).2 ThenNothing c.

Definition handleDPR (info : MessageInfo) (c : Connection) : Connection * outcome unit processor_pc :=
  answer (DisconnectPeerAnswer.Marshal (build_DPA c info)).2 ThenTimer c.

(** [handleMessage] up to the point where it waits, if it does. *)
Definition handleMessage (msg : bytes) (c : Connection) : Connection * outcome unit processor_pc :=
  match ParseMessageHeader msg with
  | Ok info =>
      if mi_CommandCode info =? 257 then handleCER msg info c
      else if mi_CommandCode info =? 280 then
        if HandleWatchdog (config c) then handleDWR info c else (c, Ok (PForwarding msg))
      else if mi_CommandCode info =? 282 then handleDPR info c
      else if IsRequest info then (c, Ok (PForwarding msg))
      else match pendingReqs c !! mi_HopByHopID info with
           | Some ch => (c, Ok (PDelivering ch msg))
           | None => (c, Ok PTop)
           end
  | Err _ => (c, Err tt)
  | Panic => (c, Panic)
  end.

(** The rest of a handler, when [c.Send] has returned. *)
Definition sent (k : after_send) (c : Connection) : Connection :=
  match k with
  | ThenOpen => c <| state := StateOpen |>
  | ThenNothing => c
  | ThenTimer => c <| timers ::= S |>
  end.

(** ** [SendRequest] *)

Definition SendRequest (msg : bytes) (c : Connection) : Connection :=
  let i := next c in
  if len msg <? 20 then
    c <| requests ::= <[i := {| q_id := 0; q_pc := QReturned (Err ErrTooShort) |}]> |> <| next ::= Z.succ |>
  else
    let h2hID := be_get (slice msg 12 16) in
    c <| requests ::= <[i := {| q_id := h2hID; q_pc := QSending msg |}]> |>
      <| chans ::= <[i := None]> |> <| pendingReqs ::= <[h2hID := i]> |> <| next ::= Z.succ |>.

Definition set_q (i : Z) (p : request_pc) (c : Connection) : Connection :=
  c <| requests ::= alter (fun q => q <| q_pc := p |>) i |>.

(** A return, with the deferred deletion. *)
Definition return_ (i : Z) (q : Request) (r : outcome request_error bytes) (c : Connection) : Connection :=
  (set_q i (QReturned r) c) <| pendingReqs ::= delete (q_id q) |>.

Inductive request_end : Type := GotResponse | RequestTimedOut | RequestClosed.

(** ** Steps *)

Inductive write_end : Type := WriteOk | DeadlineFailed | WriteFailed.

Inductive event : Type :=
| EvTop                       (* the reader at the top of its loop *)
| EvRead (r : read_end)
| EvHand (pick : bool)        (* [pick]: hand the message over, if there is room *)
| EvWrite (r : write_end)
| EvWriterStops
| EvProcess
| EvProcessorStops
| EvSent (r : send_end)
| EvForward (pick : bool)
| EvDeliver (timeout : bool)
| EvReceive                   (* the application takes a message *)
| EvSendRequest (msg : bytes)
| EvRequestSent (i : Z) (r : send_end)
| EvRequestEnd (i : Z) (r : request_end)
| EvClose
| EvTimer
| EvCloseSocket
| EvCloseDone                 (* the body of [Close] ends *)
| EvCloseReturns (who : closer).

Definition send_possible (r : send_end) (c : Connection) : bool :=
  match r with SendQueued => send_room c | SendClosed => closeChan c | SendTimedOut => true end.

Definition write_possible (r : write_end) (c : Connection) : bool :=
  match r with WriteOk => negb (socketClosed c) | _ => true end.

Definition queue (data : bytes) (c : Connection) : Connection := c <| sendChan ::= fun l => l ++ [data] |>.

(** A call of [Close] from outside. *)
Definition close_call (c : Connection) : Connection :=
  Close (ByCall (next c)) (c <| closes ::= <[next c := false]> |> <| next ::= Z.succ |>).

(** A goroutine that cannot take the step stays where it is. *)
Definition step (e : event) (c : Connection) : outcome unit Connection :=
  match e with
  | EvTop => Ok match reader c with
                | RTop => c <| reader := if closeChan c then RExited else RReading |>
                | _ => c
                end
  | EvRead r => Ok match reader c with RReading => read_message r c | _ => c end
  | EvHand pick =>
      Ok match reader c with
         | RHanding m =>
             if pick && (len (processChan c) <? RecvChannelSize (config c))
             then c <| processChan ::= fun l => l ++ [m] |> <| reader := RTop |>
             else if closeChan c then c <| reader := RExited |> else c
         | _ => c
         end
  | EvWrite r =>
      Ok match writer c, sendChan c with
         | WTop, msg :: rest =>
             if negb (write_possible r c) then c else
             let c := c <| sendChan := rest |> in
             match r with
             | WriteOk => c <| written ::= fun l => l ++ [msg] |> <| MessagesSent ::= inc |>
                            <| BytesSent ::= fun n => to_u64 (n + len msg) |>
             | DeadlineFailed => count_error c
             | WriteFailed => Close ByWriter ((count_error c) <| writer := WClosing |>)
             end
         | _, _ => c
         end
  | EvWriterStops => Ok match writer c with
                        | WTop => if closeChan c then c <| writer := WExited |> else c
                        | _ => c
                        end
  | EvProcess =>
      match processor c, processChan c with
      | PTop, msg :: rest =>
          match handleMessage msg (c <| processChan := rest |> <| handled ::= fun l => l ++ [msg] |>) with
          | (c, Ok p) => Ok (c <| processor := p |>)
          | (c, Err _) => Ok (count_error c)
          | (_, Panic) => Panic
          end
      | _, _ => Ok c
      end
  | EvProcessorStops => Ok match processor c with
                           | PTop => if closeChan c then c <| processor := PExited |> else c
                           | _ => c
                           end
  | EvSent r =>
      Ok match processor c with
         | PSending data k =>
             if send_possible r c then
               let c := c <| processor := PTop |> in
               match r with SendQueued => sent k (queue data c) | _ => count_error c end
             else c
         | _ => c
         end
  | EvForward pick =>
      Ok match processor c with
         | PForwarding msg =>
             if pick && (len (receiveChan c) <? RecvChannelSize (config c))
             then c <| receiveChan ::= fun l => l ++ [msg] |> <| processor := PTop |>
             else if closeChan c then c <| processor := PTop |> else c
         | _ => c
         end
  | EvDeliver timeout =>
      Ok match processor c with
         | PDelivering ch msg =>
             match chans c !! ch with
             | Some None => c <| chans ::= <[ch := Some msg]> |> <| processor := PTop |>
             | _ => if timeout then c <| processor := PTop |> else c
             end
         | _ => c
         end
  | EvReceive => Ok (c <| receiveChan ::= tail |>)
  | EvSendRequest msg => Ok (SendRequest msg c)
  | EvRequestSent i r =>
      Ok match requests c !! i with
         | Some q =>
             match q_pc q with
             | QSending msg =>
                 if send_possible r c then
                   match r with
                   | SendQueued => queue msg (set_q i QWaiting c)
                   | SendClosed => return_ i q (Err ErrConnClosed) c
                   | SendTimedOut => return_ i q (Err ErrSendTimeout) c
                   end
                 else c
             | _ => c
             end
         | None => c
         end
  | EvRequestEnd i r =>
      Ok match requests c !! i with
         | Some q =>
             match q_pc q, r with
             | QWaiting, GotResponse =>
                 match chans c !! i with
                 | Some (Some resp) => return_ i q (Ok resp) (c <| chans ::= <[i := None]> |>)
                 | _ => c
                 end
             | QWaiting, RequestTimedOut => return_ i q (Err ErrRequestTimeout) c
             | QWaiting, RequestClosed => if closeChan c then return_ i q (Err ErrConnClosed) c else c
             | _, _ => c
             end
         | None => c
         end
  | EvClose => Ok (close_call c)
  | EvTimer => Ok match timers c with O => c | S n => close_call (c <| timers := n |>) end
  | EvCloseSocket => Ok (close_socket c)
  | EvCloseDone =>
      Ok match closeOnce c with
         | Running who => if socketClosed c && all_exited c then set_closed who (c <| closeOnce := Done |>) else c
         | _ => c
         end
  | EvCloseReturns who =>
      Ok match closeOnce c with
         | Done =>
             match who with
             | ByReader => match reader c with RClosing => set_closed who c | _ => c end
             | ByWriter => match writer c with WClosing => set_closed who c | _ => c end
             | ByCall i => match closes c !! i with Some false => set_closed who c | _ => c end
             end
         | _ => c
         end
  end.

Inductive run : Connection -> list event -> Connection -> Prop :=
| run_nil c : run c [] c
| run_cons c e c1 l c2 : step e c = Ok c1 -> run c1 l c2 -> run c (e :: l) c2.

(** ** [Close] *)

(** [closeOnce] is done only when the goroutines have ended, and a call has
    returned only when it is done. *)
Record close_inv (c : Connection) : Prop := {
  cl_done : closeOnce c = Done -> all_exited c = true;
  cl_returned i : closes c !! i = Some true -> closeOnce c = Done;
  cl_called : closeOnce c = NotCalled -> closeChan c = false;
  cl_reader : reader c = RClosing -> closeOnce c <> NotCalled;
  cl_writer : writer c = WClosing -> closeOnce c <> NotCalled }.

(** What the invariant looks at. *)
Definition ends (c : Connection) := (closeOnce c, closeChan c, reader c, writer c, processor c, closes c).

Lemma close_inv_same c c' : ends c' = ends c -> close_inv c -> close_inv c'.
Proof.
  unfold ends. intros [= H1 H2 H3 H4 H5 H6] [I1 I2 I3 I4 I5]. unfold all_exited in *.
  split; unfold all_exited; by rewrite ?H1, ?H2, ?H3, ?H4, ?H5, ?H6.
Qed.

Lemma handleMessage_ends msg c : ends (handleMessage msg c).1 = ends c.
Proof.
  unfold handleMessage, handleDWR, handleDPR, answer. destruct (ParseMessageHeader msg) as [info| |]; [|done..].
  destruct (_ =? 257).
  { unfold handleCER, answer. by destruct (CapabilitiesExchangeRequest.Unmarshal _ _) as [cer [| |]]. }
  destruct (_ =? 280); [by destruct (HandleWatchdog _)|]. destruct (_ =? 282); [done|].
  destruct (IsRequest info); [done|]. by destruct (pendingReqs c !! _).
Qed.

Lemma handleMessage_socket msg c : socketClosed (handleMessage msg c).1 = socketClosed c.
Proof.
  unfold handleMessage, handleDWR, handleDPR, answer. destruct (ParseMessageHeader msg) as [info| |]; [|done..].
  destruct (_ =? 257).
  { unfold handleCER, answer. by destruct (CapabilitiesExchangeRequest.Unmarshal _ _) as [cer [| |]]. }
  destruct (_ =? 280); [by destruct (HandleWatchdog _)|]. destruct (_ =? 282); [done|].
  destruct (IsRequest info); [done|]. by destruct (pendingReqs c !! _).
Qed.

Lemma exited_parts c : all_exited c = true <-> reader c = RExited /\ writer c = WExited /\ processor c = PExited.
Proof. unfold all_exited. destruct (reader c), (writer c), (processor c); naive_solver. Qed.

(** A goroutine that has not ended moves on, without calling [Close]. *)
Lemma close_inv_move c c' :
  all_exited c = false -> closeOnce c' = closeOnce c -> closeChan c' = closeChan c -> closes c' = closes c ->
  (reader c' = RClosing -> reader c = RClosing) -> (writer c' = WClosing -> writer c = WClosing) ->
  close_inv c -> close_inv c'.
Proof.
  intros He Ho Hc Hs Hr Hw [I1 I2 I3 I4 I5]. split; rewrite ?Ho, ?Hc, ?Hs; auto.
  intros Hd. rewrite (I1 Hd) in He. done.
Qed.

(** It calls [Close]. *)
Lemma close_inv_Close who c c1 :
  (all_exited c = true -> all_exited c1 = true) -> closeOnce c1 = closeOnce c -> closeChan c1 = closeChan c ->
  (forall i, closes c1 !! i = Some true -> closes c !! i = Some true) ->
  close_inv c -> close_inv (Close who c1).
Proof.
  intros He Ho Hc Hs [I1 I2 I3 I4 I5]. unfold Close. destruct (closeOnce c1) eqn:E; rewrite <- Ho in *.
  - split; rsimpl; try done. intros i Hi%Hs%I2. done.
  - split; rewrite ?E; try done. intros i Hi%Hs%I2. done.
  - split; rewrite ?E; try done. auto.
Qed.

Lemma not_exited c :
  reader c <> RExited \/ writer c <> WExited \/ processor c <> PExited -> all_exited c = false.
Proof. unfold all_exited. destruct (reader c), (writer c), (processor c); naive_solver. Qed.

Lemma fail_read_inv b c c1 :
  reader c <> RExited -> closeOnce c1 = closeOnce c -> closeChan c1 = closeChan c -> closes c1 = closes c ->
  close_inv c -> close_inv (fail_read b c1).
Proof.
  intros Hr Ho Hc Hs. unfold fail_read. apply close_inv_Close.
  - intros H%exited_parts. naive_solver.
  - by destruct b.
  - by destruct b.
  - intros i. rewrite <- Hs. by destruct b.
Qed.

Lemma close_call_inv c : close_inv c -> close_inv (close_call c).
Proof.
  unfold close_call. apply close_inv_Close; try done. intros i. rsimpl.
  by intros [[_ [=]]|[_ H]]%lookup_insert_Some.
Qed.

Lemma set_closed_inv who c :
  closeOnce c = Done -> all_exited c = true -> close_inv (set_closed who c).
Proof.
  intros Hd He. pose proof (proj1 (exited_parts c) He) as (Hr & Hw & Hp).
  destruct who; cbn [set_closed]; (split; unfold all_exited; rsimpl; rewrite ?Hd, ?Hr, ?Hw, ?Hp; done).
Qed.

(** *** What a step leaves alone *)

(** The messages on their way in. *)
Definition pipeline (c : Connection) := (handled c, processChan c, reader c, stream c, config c).

(** The steps of the callers and of the application. *)
Definition of_callers (e : event) : bool :=
  match e with EvReceive | EvSendRequest _ | EvRequestSent _ _ | EvRequestEnd _ _ => true | _ => false end.

(** The steps of the processor that finish what [handleMessage] began. *)
Definition of_processor (e : event) : bool :=
  match e with EvSent _ | EvForward _ | EvDeliver _ => true | _ => false end.

Lemma callers_frame e c c' :
  step e c = Ok c' -> of_callers e = true ->
  ends c' = ends c /\ pipeline c' = pipeline c /\ socketClosed c' = socketClosed c.
Proof.
  intros Hs He. destruct e; try done; cbn [step] in Hs; unfold SendRequest in Hs;
    repeat case_match; simplify_eq; done.
Qed.

Lemma processor_frame e c c' :
  step e c = Ok c' -> of_processor e = true ->
  c' = c \/
  (processor c <> PExited /\ closeOnce c' = closeOnce c /\ closeChan c' = closeChan c /\ closes c' = closes c /\
   writer c' = writer c /\ pipeline c' = pipeline c /\ socketClosed c' = socketClosed c).
Proof.
  intros Hs He. destruct e as [| | | | | | |r|pick|to| | | | | | | | |]; try done; cbn [step] in Hs;
    injection Hs as <-; destruct (processor c) as [|d k| |ch m|]; try (by left).
  - destruct (send_possible r c); [right|by left]. by destruct r, k.
  - destruct (_ && _); [by right|]. destruct (closeChan c) eqn:E; [|by left]. right. cbn. by rewrite ?E.
  - destruct (chans c !! ch) as [[x|]|]; [destruct to; [by right|by left]|by right|destruct to; [by right|by left]].
Qed.

Lemma reader_close_inv e c c' :
  step e c = Ok c' -> match e with EvTop | EvRead _ | EvHand _ => True | _ => False end ->
  close_inv c -> close_inv c'.
Proof.
  intros Hs He Hi. destruct e as [|r|pick| | | | | | | | | | | | | | | |]; try done; cbn [step] in Hs;
    injection Hs as <-; destruct (reader c) eqn:Er; try done;
    assert (reader c <> RExited) as Hn by (by rewrite Er);
    assert (all_exited c = false) as Ha by (apply not_exited; by left).
  - apply (close_inv_move c); try done. rsimpl. by destruct (closeChan c).
  - unfold read_message. destruct r; [|by apply (fail_read_inv _ c)].
    destruct (socketClosed c); [by apply (fail_read_inv _ c)|].
    destruct (readLoop_message _ _) as [[m|er|] rest];
      [by apply (close_inv_move c)|by destruct er; apply (fail_read_inv _ c)|by apply (fail_read_inv _ c)].
  - destruct (_ && _); [by apply (close_inv_move c)|]. destruct (closeChan c) eqn:Ec; [|done].
    by apply (close_inv_move c).
Qed.

Lemma writer_close_inv e c c' :
  step e c = Ok c' -> match e with EvWrite _ | EvWriterStops => True | _ => False end ->
  close_inv c -> close_inv c'.
Proof.
  intros Hs He Hi. destruct e as [| | |r| | | | | | | | | | | | | | |]; try done; cbn [step] in Hs;
    injection Hs as <-; destruct (writer c) eqn:Ew; try done.
  - destruct (sendChan c) as [|m rest]; [done|]. destruct (negb _); [done|]. cbv zeta.
    destruct r; [by apply (close_inv_same c)..|].
    apply (close_inv_Close ByWriter c); try done. intros H%exited_parts. rewrite Ew in H. naive_solver.
  - destruct (closeChan c) eqn:Ec; [|done].
    apply (close_inv_move c); try done. apply not_exited. right. left. by rewrite Ew.
Qed.

Lemma process_close_inv c c' : step EvProcess c = Ok c' -> close_inv c -> close_inv c'.
Proof.
  intros Hs Hi. cbn [step] in Hs. destruct (processor c) eqn:Ep; try (by injection Hs as <-).
  destruct (processChan c) as [|m rest]; [by injection Hs as <-|].
  pose proof (handleMessage_ends m (c <| processChan := rest |> <| handled ::= fun l => l ++ [m] |>)) as He.
  destruct (handleMessage _ _) as [c1 [p|er|]]; [| |done]; injection Hs as <-; cbn [fst] in He;
    [|by apply (close_inv_same c)].
  assert (close_inv c1) as Hi1 by by apply (close_inv_same c).
  apply (close_inv_move c1); try done. apply not_exited. right. right.
  assert (processor c1 = processor c) as Hp by by injection He. by rewrite Hp, Ep.
Qed.

Lemma step_close_inv e c c' : step e c = Ok c' -> close_inv c -> close_inv c'.
Proof.
  intros Hs Hi. destruct (of_callers e) eqn:E1; [|destruct (of_processor e) eqn:E2].
  { by apply (close_inv_same c); [apply (callers_frame e c c')|]. }
  { destruct (processor_frame e c c' Hs E2) as [->|(Hp & Ho & Hc & Hl & Hw & Hpi & _)]; [done|].
    injection Hpi as _ _ Hr _ _.
    apply (close_inv_move c); rewrite ?Hr, ?Hw; try done. apply not_exited. auto. }
  destruct e as [| | | | | | | | | | | | | | | | | |who]; try done;
    try (by apply (reader_close_inv _ c c' Hs I)); try (by apply (writer_close_inv _ c c' Hs I));
    [by apply (process_close_inv c)|..]; cbn [step] in Hs; injection Hs as <-.
  - destruct (processor c) eqn:Ep; try done. destruct (closeChan c) eqn:Ec; [|done].
    apply (close_inv_move c); try done. apply not_exited. right. right. by rewrite Ep.
  - by apply close_call_inv.
  - destruct (timers c); [done|]. apply close_call_inv. by apply (close_inv_same c).
  - unfold close_socket. destruct (closeOnce c) eqn:Eo; try done. apply (close_inv_same c); try done.
  - destruct (closeOnce c) as [|who|] eqn:Eo; try done. destruct (socketClosed c); [|done].
    destruct (all_exited c) eqn:Ea; [|done]. by apply set_closed_inv.
  - destruct (closeOnce c) eqn:Eo; try done. pose proof (cl_done _ Hi Eo) as Ha.
    destruct who; repeat case_match; try done; by apply set_closed_inv.
Qed.

Lemma run_close_inv c l c' : run c l c' -> close_inv c -> close_inv c'.
Proof. induction 1; [done|]. intros Hi. eauto using step_close_inv. Qed.

Lemma New_close_inv cfg s ip : close_inv (NewConnection cfg s ip).
Proof. by split. Qed.

(** The reader or the writer is in its own call of [Close], or the reader is
    about to be: it is reading from the closed socket. *)
Definition self_closing (c : Connection) : Prop :=
  reader c = RClosing \/ (reader c = RReading /\ socketClosed c = true) \/ writer c = WClosing.

Lemma self_closing_same c c' :
  reader c' = reader c -> writer c' = writer c -> (socketClosed c = true -> socketClosed c' = true) ->
  self_closing c -> self_closing c'.
Proof. unfold self_closing. intros -> -> Hc [H|[[H1 H2]|H]]; auto. Qed.

Lemma Close_fields who c :
  reader (Close who c) = reader c /\ writer (Close who c) = writer c /\
  (socketClosed c = true -> socketClosed (Close who c) = true).
Proof. unfold Close. by destruct (closeOnce c). Qed.

Lemma fail_read_closing b c : self_closing (fail_read b c).
Proof. left. unfold fail_read. rewrite (proj1 (Close_fields _ _)). done. Qed.

Lemma self_closing_not_done c : close_inv c -> self_closing c -> closeOnce c <> Done.
Proof.
  intros Hi Hs Hd. apply (cl_done _ Hi), exited_parts in Hd as (H1 & H2 & _).
  unfold self_closing in Hs. rewrite H1, H2 in Hs. naive_solver.
Qed.

Lemma close_call_closing c : self_closing c -> self_closing (close_call c).
Proof.
  unfold close_call. destruct (Close_fields (ByCall (next c))
    (c <| closes ::= <[next c := false]> |> <| next ::= Z.succ |>)) as (H1 & H2 & H3).
  by apply self_closing_same.
Qed.

Lemma reader_self_closing e c c' :
  step e c = Ok c' -> match e with EvTop | EvRead _ | EvHand _ => True | _ => False end ->
  self_closing c -> self_closing c'.
Proof.
  intros Hs He Hc. destruct e as [|r|pick| | | | | | | | | | | | | | | |]; try done; cbn [step] in Hs;
    injection Hs as <-; destruct (reader c) eqn:Er; try done.
  - unfold self_closing in *. rewrite Er in Hc. rsimpl. naive_solver.
  - unfold read_message. destruct r; [|by apply fail_read_closing].
    destruct (socketClosed c) eqn:Ec; [by apply fail_read_closing|].
    destruct (readLoop_message _ _) as [[m|er|] rest]; [|destruct er; apply fail_read_closing|apply fail_read_closing].
    unfold self_closing in *. rewrite Er, Ec in Hc. rsimpl. naive_solver.
  - unfold self_closing in *. rewrite Er in Hc.
    destruct (_ && _); [rsimpl; naive_solver|]. destruct (closeChan c); [rsimpl; naive_solver|]. rewrite Er. naive_solver.
Qed.

Lemma writer_self_closing e c c' :
  step e c = Ok c' -> match e with EvWrite _ | EvWriterStops => True | _ => False end ->
  self_closing c -> self_closing c'.
Proof.
  intros Hs He Hc. destruct e as [| | |r| | | | | | | | | | | | | | |]; try done; cbn [step] in Hs;
    injection Hs as <-; destruct (writer c) eqn:Ew; try done.
  - destruct (sendChan c) as [|m rest]; [done|]. destruct (negb _); [done|]. cbv zeta.
    destruct r; try by apply (self_closing_same c).
    right. right. by rewrite (proj1 (proj2 (Close_fields _ _))).
  - destruct (closeChan c) eqn:Ec; [|done]. unfold self_closing in *. rewrite Ew in Hc. rsimpl. naive_solver.
Qed.

Lemma process_self_closing c c' : step EvProcess c = Ok c' -> self_closing c -> self_closing c'.
Proof.
  intros Hs Hc. cbn [step] in Hs. destruct (processor c) eqn:Ep; try (by injection Hs as <-).
  destruct (processChan c) as [|m rest]; [by injection Hs as <-|].
  set (c0 := c <| processChan := rest |> <| handled ::= fun l => l ++ [m] |>) in *.
  pose proof (handleMessage_ends m c0) as He. pose proof (handleMessage_socket m c0) as Hk.
  destruct (handleMessage m c0) as [c1 [p|er|]]; [| |done]; injection Hs as <-; cbn [fst] in He, Hk;
    injection He as _ _ H1 H2 _ _; (apply (self_closing_same c); [exact H1|exact H2| |done]);
    intros Hx; rewrite <- Hx; exact Hk.
Qed.

Lemma step_self_closing e c c' : step e c = Ok c' -> close_inv c -> self_closing c -> self_closing c'.
Proof.
  intros Hs Hi Hc. destruct (of_callers e) eqn:E1; [|destruct (of_processor e) eqn:E2].
  { destruct (callers_frame e c c' Hs E1) as (He & _ & Hk). injection He as _ _ Hr Hw _ _.
    apply (self_closing_same c); try done. by rewrite Hk. }
  { destruct (processor_frame e c c' Hs E2) as [->|(_ & _ & _ & _ & Hw & Hpi & Hk)]; [done|].
    injection Hpi as _ _ Hr _ _. apply (self_closing_same c); try done. by rewrite Hk. }
  destruct e as [| | | | | | | | | | | | | | | | | |who]; try done;
    try (by apply (reader_self_closing _ c c' Hs I)); try (by apply (writer_self_closing _ c c' Hs I));
    [by apply (process_self_closing c)|..]; cbn [step] in Hs; injection Hs as <-.
  - destruct (processor c); try done. destruct (closeChan c); [|done]. by apply (self_closing_same c).
  - by apply close_call_closing.
  - destruct (timers c); [done|]. apply close_call_closing. by apply (self_closing_same c).
  - unfold close_socket. destruct (closeOnce c); try done. by apply (self_closing_same c).
  - destruct (closeOnce c) as [|who|] eqn:Eo; try done. destruct (socketClosed c); [|done].
    destruct (all_exited c) eqn:Ea; [|done].
    apply exited_parts in Ea as (H1 & H2 & _). unfold self_closing in Hc. rewrite H1, H2 in Hc. naive_solver.
  - pose proof (self_closing_not_done c Hi Hc) as Hn. by destruct (closeOnce c).
Qed.

(** [Close] waits for itself.  Once the reader or the writer has called
    [Close] after an error of the socket, or a call of [Close] has closed the
    socket while the reader waits for a message, which is where it is on an
    idle connection, no call of [Close] has returned or ever returns, whatever
    happens later: its body waits for the goroutine that waits for it. *)
Theorem Close_never_returns cfg s ip l c l' c' :
  run (NewConnection cfg s ip) l c -> self_closing c -> run c l' c' ->
  closeOnce c' <> Done /\ forall i, closes c' !! i <> Some true.
Proof.
  intros Hr Hc Hr'. pose proof (run_close_inv _ _ _ Hr (New_close_inv cfg s ip)) as Hi. clear Hr.
  induction Hr' as [c|c e c1 l' c2 Hs Hr' IH].
  - split; [by apply self_closing_not_done|]. intros i Hret%(cl_returned _ Hi).
    by apply (self_closing_not_done c Hi Hc).
  - apply IH; [by eapply step_self_closing|by eapply step_close_inv].
Qed.

(** What a return of [Close] means.  A call of [Close] that has returned
    finds the reader, the writer and the processor ended, and the connection
    closed. *)
Theorem Close_returned_clean cfg s ip l c i :
  run (NewConnection cfg s ip) l c -> closes c !! i = Some true ->
  reader c = RExited /\ writer c = WExited /\ processor c = PExited /\ closeOnce c = Done.
Proof.
  intros Hr Hc. pose proof (run_close_inv _ _ _ Hr (New_close_inv cfg s ip)) as Hi.
  pose proof (cl_returned _ Hi i Hc) as Hd. destruct (proj1 (exited_parts c) (cl_done _ Hi Hd)) as (H1 & H2 & H3).
  done.
Qed.

(** ** Messages in order *)

(** The messages in the reader's hands. *)
Definition in_hand (c : Connection) : list bytes :=
  match reader c with RHanding m => [m] | _ => [] end.

(** The stream [s] begins with what has been handled, then what waits for the
    processor, then what the reader has in hand. *)
Definition in_order (s : bytes) (c : Connection) : Prop :=
  (exists rest, s = concat (handled c ++ processChan c ++ in_hand c) ++ rest /\
     (reader c = RTop \/ reader c = RReading \/ in_hand c <> [] -> rest = stream c)) /\
  Forall (fun m => framed m /\ len m <= to_u32 (MaxMessageSize (config c))) (handled c ++ processChan c ++ in_hand c).

Lemma in_order_same s c c' : pipeline c' = pipeline c -> in_order s c -> in_order s c'.
Proof.
  unfold pipeline, in_order, in_hand. intros [= H1 H2 H3 H4 H5]. by rewrite H1, H2, H3, H4, H5.
Qed.

Lemma Close_pipeline who c : pipeline (Close who c) = pipeline c.
Proof. unfold Close. by destruct (closeOnce c). Qed.

(** The reader stops reading. *)
Lemma in_order_stop s c c' :
  handled c' = handled c -> processChan c' = processChan c -> config c' = config c ->
  reader c' = RClosing \/ reader c' = RExited -> in_order s c -> in_order s c'.
Proof.
  unfold in_order. intros H1 H2 H3 H4 [(rest & Hs & _) Hf]. rewrite H1, H2, H3.
  assert (in_hand c' = []) as -> by (unfold in_hand; by destruct H4 as [-> | ->]).
  rewrite app_nil_r. rewrite app_assoc in Hs, Hf. split.
  - rewrite concat_app in Hs. exists (concat (in_hand c) ++ rest). split; [by rewrite Hs, app_assoc|].
    intros [Hx|[Hx|Hx]]; [destruct H4; congruence..|done].
  - by apply Forall_app in Hf as [Hf _].
Qed.

Lemma fail_read_in_order s b c c1 :
  handled c1 = handled c -> processChan c1 = processChan c -> config c1 = config c ->
  in_order s c -> in_order s (fail_read b c1).
Proof.
  intros H1 H2 H3 Hi. unfold fail_read. eapply in_order_same; [apply Close_pipeline|].
  apply (in_order_stop s c); destruct b; rsimpl; auto.
Qed.

Lemma handleMessage_pipeline msg c : pipeline (handleMessage msg c).1 = pipeline c.
Proof.
  unfold handleMessage, handleDWR, handleDPR, answer. destruct (ParseMessageHeader msg) as [info| |]; [|done..].
  destruct (_ =? 257).
  { unfold handleCER, answer. by destruct (CapabilitiesExchangeRequest.Unmarshal _ _) as [cer [| |]]. }
  destruct (_ =? 280); [by destruct (HandleWatchdog _)|]. destruct (_ =? 282); [done|].
  destruct (IsRequest info); [done|]. by destruct (pendingReqs c !! _).
Qed.

Lemma read_in_order s r c : reader c = RReading -> in_order s c -> in_order s (read_message r c).
Proof.
  intros Er Hi. unfold read_message. destruct r; [|by apply (fail_read_in_order s _ c)].
  destruct (socketClosed c); [by apply (fail_read_in_order s _ c)|].
  destruct (readLoop_message _ _) as [[m|er|] rest] eqn:E;
    [|by destruct er; apply (fail_read_in_order s _ c)|by apply (fail_read_in_order s _ c)].
  apply readLoop_message_spec in E as (Hm & Hx & Hst).
  destruct Hi as [(rest0 & H1 & H2) Hf]. unfold in_order, in_hand in *. rewrite Er in *. rsimpl.
  rewrite app_nil_r in H1, Hf. rewrite H2 in H1 by auto. split.
  - exists rest. split; [|done]. rewrite app_assoc, concat_app, H1, Hst. cbn. by rewrite app_nil_r, app_assoc.
  - rewrite app_assoc. apply Forall_app. split; [done|]. by apply Forall_singleton.
Qed.

Lemma process_in_order s c c' : step EvProcess c = Ok c' -> in_order s c -> in_order s c'.
Proof.
  intros Hs Hi. cbn [step] in Hs. destruct (processor c); try (by injection Hs as <-).
  destruct (processChan c) as [|m rest] eqn:Ep; [by injection Hs as <-|].
  set (c0 := c <| processChan := rest |> <| handled ::= fun l => l ++ [m] |>) in *.
  assert (in_order s c0) as Hi0.
  { unfold in_order, in_hand, c0 in *. rsimpl. rewrite Ep in Hi. by rewrite <- !(app_assoc (handled c)). }
  pose proof (handleMessage_pipeline m c0) as He.
  destruct (handleMessage m c0) as [c1 [p|er|]]; [| |done]; injection Hs as <-; cbn [fst] in He;
    by apply (in_order_same s c0).
Qed.

Lemma step_in_order s e c c' : step e c = Ok c' -> in_order s c -> in_order s c'.
Proof.
  intros Hs Hi. destruct (of_callers e) eqn:E1; [|destruct (of_processor e) eqn:E2].
  { apply (in_order_same s c); [by apply (callers_frame e)|done]. }
  { destruct (processor_frame e c c' Hs E2) as [->|H]; [done|]. apply (in_order_same s c); [apply H|done]. }
  destruct e as [|r|pick|r| | | | | | | | | | | | | | |who]; try done;
    try (by apply (process_in_order s c)); cbn [step] in Hs; injection Hs as <-.
  - destruct (reader c) eqn:Er; try done. destruct (closeChan c); [by apply (in_order_stop s c); auto|].
    destruct Hi as [(rest & H1 & H2) Hf]. unfold in_order, in_hand in *. rewrite Er in *. rsimpl.
    split; [|done]. exists rest. auto.
  - destruct (reader c) eqn:Er; try done. by apply read_in_order.
  - destruct (reader c) eqn:Er; try done.
    destruct (_ && _); [|destruct (closeChan c); [by apply (in_order_stop s c); auto|done]].
    destruct Hi as [(rest & H1 & H2) Hf]. unfold in_order, in_hand in *. rewrite Er in *. rsimpl.
    rewrite app_nil_r. split; [|done]. exists rest. split; [done|]. intros _. apply H2. auto.
  - destruct (writer c); try done. destruct (sendChan c) as [|m rest]; [done|]. destruct (negb _); [done|]. cbv zeta.
    destruct r; [by apply (in_order_same s c)..|].
    eapply in_order_same; [apply Close_pipeline|]. by apply (in_order_same s c).
  - destruct (writer c); try done. destruct (closeChan c); [|done]. by apply (in_order_same s c).
  - destruct (processor c); try done. destruct (closeChan c); [|done]. by apply (in_order_same s c).
  - unfold close_call. eapply in_order_same; [apply Close_pipeline|]. by apply (in_order_same s c).
  - destruct (timers c); [done|]. unfold close_call.
    eapply in_order_same; [apply Close_pipeline|]. by apply (in_order_same s c).
  - unfold close_socket. by destruct (closeOnce c).
  - destruct (closeOnce c) as [|who|]; try done. destruct (_ && _); [|done].
    destruct who; [by apply (in_order_stop s c); auto|by apply (in_order_same s c)..].
  - destruct (closeOnce c); try done.
    destruct who; repeat case_match; try done; [by apply (in_order_stop s c); auto|by apply (in_order_same s c)..].
Qed.

(** C27: nothing is lost, changed or reordered on the way in.  In any run,
    the messages that the processor has handled are, in order and byte for
    byte, the first messages of the peer's stream, each one framed and within
    [MaxMessageSize]. *)
Theorem handled_in_order cfg s ip l c :
  run (NewConnection cfg s ip) l c ->
  (exists rest, s = concat (handled c) ++ rest) /\
  Forall (fun m => framed m /\ len m <= to_u32 (MaxMessageSize (config c))) (handled c).
Proof.
  intros Hr. assert (in_order s c) as [(rest & Hs & _) Hf].
  { assert (in_order s (NewConnection cfg s ip)) as Hi by (split; [by exists s|by constructor]).
    induction Hr as [c|c e c1 l c' Hs Hr IH]; [done|]. by apply IH, (step_in_order s e c). }
  split; [|by apply Forall_app in Hf as [Hf _]].
  rewrite concat_app, <- app_assoc in Hs. by eexists.
Qed.

(** ** [SendRequest] gets the answer to its request *)

(** [m] is an answer to an application request with the identifier of call
    [ch]. *)
Definition answers (rs : gmap Z Request) (ch : Z) (m : bytes) : Prop :=
  exists q info, rs !! ch = Some q /\ ParseMessageHeader m = Ok info /\ mi_HopByHopID info = q_id q /\
    IsRequest info = false /\ (mi_CommandCode info ∉ [257; 280; 282]).

Record matched (c : Connection) : Prop := {
  ma_pending h i : pendingReqs c !! h = Some i -> exists q, requests c !! i = Some q /\ q_id q = h;
  ma_chan ch m : chans c !! ch = Some (Some m) -> answers (requests c) ch m;
  ma_deliver ch m : processor c = PDelivering ch m -> answers (requests c) ch m;
  ma_result i q r : requests c !! i = Some q -> q_pc q = QReturned (Ok r) -> answers (requests c) i r;
  ma_fresh i : is_Some (requests c !! i) -> i < next c }.

(** What the invariant looks at. *)
Definition calls (c : Connection) := (pendingReqs c, chans c, requests c, next c).

Lemma matched_same c c' :
  calls c' = calls c -> (forall ch m, processor c' = PDelivering ch m -> processor c = PDelivering ch m) ->
  matched c -> matched c'.
Proof.
  unfold calls. intros [= H1 H2 H3 H4] Hp [I1 I2 I3 I4 I5]. split; rewrite ?H1, ?H2, ?H3, ?H4; auto.
Qed.

Lemma Close_calls who c : calls (Close who c) = calls c /\ processor (Close who c) = processor c.
Proof. unfold Close. by destruct (closeOnce c). Qed.

Lemma matched_Close who c : matched c -> matched (Close who c).
Proof. destruct (Close_calls who c) as [H1 H2]. apply matched_same; [done|]. by rewrite H2. Qed.

Lemma handleMessage_calls msg c :
  calls (handleMessage msg c).1 = calls c /\
  forall ch m, (handleMessage msg c).2 = Ok (PDelivering ch m) ->
    m = msg /\ exists info, ParseMessageHeader msg = Ok info /\ pendingReqs c !! mi_HopByHopID info = Some ch /\
      IsRequest info = false /\ (mi_CommandCode info ∉ [257; 280; 282]).
Proof.
  unfold handleMessage, handleDWR, handleDPR, answer. destruct (ParseMessageHeader msg) as [info| |]; [|done..].
  destruct (Z.eqb_spec (mi_CommandCode info) 257) as [|H1].
  { unfold handleCER, answer. destruct (CapabilitiesExchangeRequest.Unmarshal _ _) as [cer [| |]]; [|done..].
    cbn [fst snd]. split; [done|]. by destruct (CapabilitiesExchangeAnswer.Marshal _).2. }
  destruct (Z.eqb_spec (mi_CommandCode info) 280) as [|H2].
  { destruct (HandleWatchdog _); [|done]. split; [done|]. by destruct (DeviceWatchdogAnswer.Marshal _).2. }
  destruct (Z.eqb_spec (mi_CommandCode info) 282) as [|H3].
  { split; [done|]. by destruct (DisconnectPeerAnswer.Marshal _).2. }
  destruct (IsRequest info) eqn:Er; [done|]. destruct (pendingReqs c !! _) as [i|] eqn:Ep; [|done].
  split; [done|]. intros ch m [= <- <-]. split; [done|]. exists info. split_and!; try done.
  rewrite !not_elem_of_cons. split_and!; try done. apply not_elem_of_nil.
Qed.

(** A call moves on. *)
Lemma answers_alter rs i p ch m :
  answers rs ch m -> answers (alter (fun q => q <| q_pc := p |>) i rs) ch m.
Proof.
  intros (q & info & Hq & H). destruct (decide (i = ch)) as [->|Hne].
  - exists (q <| q_pc := p |>), info. by rewrite lookup_alter_eq, Hq.
  - exists q, info. by rewrite lookup_alter_ne.
Qed.

Lemma matched_move i q p c c' :
  requests c !! i = Some q -> requests c' = alter (fun q => q <| q_pc := p |>) i (requests c) ->
  (forall h j, pendingReqs c' !! h = Some j -> pendingReqs c !! h = Some j) ->
  (forall ch m, chans c' !! ch = Some (Some m) -> chans c !! ch = Some (Some m)) ->
  processor c' = processor c -> next c' = next c ->
  (forall r, p = QReturned (Ok r) -> answers (requests c) i r) ->
  matched c -> matched c'.
Proof.
  intros Hi Hr Hpe Hch Hp Hn Hres [I1 I2 I3 I4 I5].
  assert (forall j q', requests c' !! j = Some q' -> exists q0, requests c !! j = Some q0 /\
    (q' = q0 \/ (j = i /\ q' = q0 <| q_pc := p |>))) as Hback.
  { intros j q'. rewrite Hr. intros [(-> & q0 & H0 & ->)|[_ H0]]%lookup_alter_Some; eauto. }
  split.
  - intros h j Hj%Hpe. destruct (I1 h j Hj) as (q0 & H1 & H2). rewrite Hr. destruct (decide (i = j)) as [->|Hne].
    + exists (q0 <| q_pc := p |>). by rewrite lookup_alter_eq, H1.
    + exists q0. by rewrite lookup_alter_ne.
  - intros ch m Hm. rewrite Hr. by apply answers_alter, I2, Hch.
  - intros ch m. rewrite Hp, Hr. intros Hm. by apply answers_alter, I3.
  - intros j q' r Hj Hq. rewrite Hr. apply answers_alter. destruct (Hback j q' Hj) as (q0 & H0 & [->|[-> ->]]).
    + by eapply I4.
    + apply Hres. exact Hq.
  - intros j [q' Hj]. rewrite Hn. destruct (Hback j q' Hj) as (q0 & H0 & _). apply I5. by eexists.
Qed.

Lemma matched_SendRequest msg c : matched c -> matched (SendRequest msg c).
Proof.
  intros [I1 I2 I3 I4 I5]. unfold SendRequest.
  assert (forall q j q', requests c !! j = Some q' -> <[next c := q]> (requests c) !! j = Some q') as Hkeep.
  { intros q j q' Hj. rewrite lookup_insert_ne; [done|]. intros <-. specialize (I5 (next c) ltac:(by eexists)). lia. }
  assert (forall q ch m, answers (requests c) ch m -> answers (<[next c := q]> (requests c)) ch m) as Ha.
  { intros q ch m (q' & info & Hq & H). exists q', info. by rewrite (Hkeep q ch q' Hq). }
  assert (forall q j, is_Some (<[next c := q]> (requests c) !! j) -> j < Z.succ (next c)) as Hf.
  { intros q j [q' [[<- _]|[_ Hj]]%lookup_insert_Some]; [lia|]. specialize (I5 j ltac:(by eexists)). lia. }
  assert (forall q, (forall r, q_pc q <> QReturned (Ok r)) -> forall j q' r,
    <[next c := q]> (requests c) !! j = Some q' -> q_pc q' = QReturned (Ok r) ->
    answers (<[next c := q]> (requests c)) j r) as Hr.
  { intros q Hq j q' r [[_ <-]|[_ Hj]]%lookup_insert_Some Hp; [by apply Hq in Hp|]. apply Ha. by eapply I4. }
  destruct (len msg <? 20).
  - split; rsimpl.
    + intros h j Hj. destruct (I1 h j Hj) as (q0 & H1 & H2). exists q0. split; [by apply Hkeep|done].
    + intros ch m Hm. apply Ha. by apply I2.
    + intros ch m Hm. apply Ha. by apply I3.
    + intros j q r. by apply Hr.
    + intros j. apply Hf.
  - cbv zeta. split; rsimpl.
    + intros h j [[<- <-]|[_ Hj]]%lookup_insert_Some; [eexists; split; [apply lookup_insert_eq|done]|].
      destruct (I1 h j Hj) as (q0 & H1 & H2). exists q0. split; [by apply Hkeep|done].
    + intros ch m [[_ [=]]|[_ Hm]]%lookup_insert_Some. apply Ha. by apply I2.
    + intros ch m Hm. apply Ha. by apply I3.
    + intros j q r. by apply Hr.
    + intros j. apply Hf.
Qed.

Lemma return_matched i q r c c0 :
  requests c !! i = Some q -> requests c0 = requests c -> pendingReqs c0 = pendingReqs c ->
  (forall ch m, chans c0 !! ch = Some (Some m) -> chans c !! ch = Some (Some m)) ->
  processor c0 = processor c -> next c0 = next c ->
  (forall b, r = Ok b -> answers (requests c) i b) ->
  matched c -> matched (return_ i q r c0).
Proof.
  intros Hi Hr Hp Hc Hpr Hn Ha. apply (matched_move i q (QReturned r)); try done.
  - change (requests (return_ i q r c0)) with (alter (fun q => q <| q_pc := QReturned r |>) i (requests c0)).
    by rewrite Hr.
  - intros h j. change (pendingReqs (return_ i q r c0)) with (delete (q_id q) (pendingReqs c0)). rewrite Hp.
    by intros [_ H]%lookup_delete_Some.
  - intros b [= ->]. by apply Ha.
Qed.

Lemma process_matched c c' : step EvProcess c = Ok c' -> matched c -> matched c'.
Proof.
  intros Hs Hi. cbn [step] in Hs. destruct (processor c) eqn:Ep; try (by injection Hs as <-).
  destruct (processChan c) as [|m rest]; [by injection Hs as <-|].
  set (c0 := c <| processChan := rest |> <| handled ::= fun l => l ++ [m] |>) in *.
  assert (matched c0) as Hi0 by by apply (matched_same c).
  destruct (handleMessage_calls m c0) as [He Hd]. pose proof (handleMessage_ends m c0) as Hends.
  destruct (handleMessage m c0) as [c1 [p|er|]]; [| |done]; injection Hs as <-; cbn [fst snd] in *;
    (assert (processor c1 = PTop) as Hp1 by (injection Hends as _ _ _ _ H _; rewrite H; exact Ep)).
  - assert (matched c1) as Hi1 by (apply (matched_same c0); [done|by rewrite Hp1|done]).
    injection He as _ _ Hreq _.
    destruct Hi1 as [I1 I2 I3 I4 I5]. split; try done. rsimpl. intros ch m' ->.
    destruct (Hd ch m' eq_refl) as (-> & info & H1 & H2 & H3 & H4).
    destruct (ma_pending _ Hi0 _ _ H2) as (q & H5 & H6).
    change (requests (c1 <| processor := PDelivering ch m |>)) with (requests c1). rewrite Hreq.
    exists q, info. done.
  - apply (matched_same c0); try done. intros ch m' Hp.
    change (processor (count_error c1)) with (processor c1) in Hp. by rewrite Hp1 in Hp.
Qed.

Lemma deliver_matched to c c' : step (EvDeliver to) c = Ok c' -> matched c -> matched c'.
Proof.
  intros Hs Hi. cbn [step] in Hs. injection Hs as <-. destruct (processor c) as [| | |ch m|] eqn:Ep; try done.
  assert (matched (c <| processor := PTop |>)) as Ht by by apply (matched_same c).
  destruct (chans c !! ch) as [[x|]|] eqn:Ec; try by destruct to.
  destruct Ht as [I1 I2 I3 I4 I5]. split; try done. intros ch' m' H.
  change (<[ch := Some m]> (chans c) !! ch' = Some (Some m')) in H.
  apply lookup_insert_Some in H as [[<- [= <-]]|[_ H]]; [by apply (ma_deliver c Hi)|by apply I2].
Qed.

Lemma request_end_matched i r c c' : step (EvRequestEnd i r) c = Ok c' -> matched c -> matched c'.
Proof.
  intros Hs Hi. cbn [step] in Hs. injection Hs as <-.
  destruct (requests c !! i) as [q|] eqn:Eq; [|done]. destruct (q_pc q); try done.
  destruct r; [|by apply (return_matched i q _ c)|].
  - destruct (chans c !! i) as [[x|]|] eqn:Ec; try done. apply (return_matched i q _ c); try done.
    + intros ch m H. change (<[i := None]> (chans c) !! ch = Some (Some m)) in H.
      by apply lookup_insert_Some in H as [[_ [=]]|[_ H]].
    + intros b [= <-]. by apply (ma_chan c Hi).
  - destruct (closeChan c); [by apply (return_matched i q _ c)|done].
Qed.

Lemma close_call_matched c : matched c -> matched (close_call c).
Proof.
  intros [I1 I2 I3 I4 I5]. unfold close_call. apply matched_Close. split; try done.
  intros j Hj. specialize (I5 j Hj). rsimpl. lia.
Qed.

Lemma step_matched e c c' : step e c = Ok c' -> matched c -> matched c'.
Proof.
  intros Hs Hi. destruct e as [|r|pick|r| | | |r|pick|to| |msg|i r|i r| | | | |who];
    [..|by apply (process_matched c)| | | |by apply (deliver_matched to c)| | | |by apply (request_end_matched i r c)
     | | | | |]; cbn [step] in Hs; injection Hs as <-.
  - destruct (reader c); by try apply (matched_same c).
  - destruct (reader c); try done. unfold read_message, fail_read.
    repeat case_match; try apply matched_Close; by apply (matched_same c).
  - repeat case_match; try done; by apply (matched_same c).
  - repeat case_match; try done; try apply matched_Close; by apply (matched_same c).
  - repeat case_match; try done; by apply (matched_same c).
  - repeat case_match; try done; by apply (matched_same c).
  - repeat case_match; try done; try (apply (matched_same c); done). by destruct k; apply (matched_same c).
  - repeat case_match; try done; by apply (matched_same c).
  - by apply (matched_same c).
  - by apply matched_SendRequest.
  - destruct (requests c !! i) as [q|] eqn:Eq; [|done]. destruct (q_pc q); try done.
    destruct (send_possible r c); [|done].
    destruct r; [by apply (matched_move i q QWaiting c)|by apply (return_matched i q _ c)..].
  - by apply close_call_matched.
  - destruct (timers c); [done|]. apply close_call_matched. by apply (matched_same c).
  - unfold close_socket. destruct (closeOnce c); try done. by apply (matched_same c).
  - repeat case_match; try done. destruct who; by apply (matched_same c).
  - repeat case_match; try done; by apply (matched_same c).
Qed.

(** C28: [SendRequest] gets its answer.  In any run, whatever the peer sends
    and however the calls, timeouts and closings interleave, a call of
    [SendRequest] that returns a message returns an answer with the identifier
    of its own request, and never one to the base protocol. *)
Theorem SendRequest_matched cfg s ip l c i q r :
  run (NewConnection cfg s ip) l c -> requests c !! i = Some q -> q_pc q = QReturned (Ok r) ->
  exists info, ParseMessageHeader r = Ok info /\ mi_HopByHopID info = q_id q /\ IsRequest info = false /\
    (mi_CommandCode info ∉ [257; 280; 282]).
Proof.
  intros Hr Hq Hp. assert (matched c) as Hm.
  { assert (matched (NewConnection cfg s ip)) as Hi by (split; cbn; try done; by intros j [x Hx]).
    clear Hq. induction Hr as [c|c e c1 l c' Hs Hr IH]; [done|]. by eapply IH, step_matched. }
  destruct (ma_result c Hm i q r Hq Hp) as (q' & info & Hq' & H). rewrite Hq in Hq'. injection Hq' as <-.
  by exists info.
Qed.

(** ** The base protocol *)

(** The processor does not look at the request flag of the base commands: a
    DWA is answered by another DWA. *)
Lemma answer_answered msg info c :
  ParseMessageHeader msg = Ok info -> mi_CommandCode info = 280 -> IsRequest info = false ->
  HandleWatchdog (config c) = true -> handleMessage msg c = handleDWR info c.
Proof. intros Hi Hc _ Hw. unfold handleMessage. by rewrite Hi, Hc, Hw. Qed.
