(* ===== verification/Handshake.v ===== *)
(** * The two ends of a connection together

    The client's connection (ClientConn) and the server (Server) exchange
    bytes: what one marshals is cut out of the stream, dispatched and decoded
    by the other.  Here the capabilities exchange is carried through both. *)

From S2P Require Import Server.
From S2P Require Import ServerTheorems.
From S2P Require Import Prelude Binary DataTypes Wire Message BaseMessages Framing GoNet ClientConn.

(** ** A message on the wire *)

Lemma len_marshal_data a : len (Serialize (avp_data a)) + 8 <= len (marshal a).
Proof.
  unfold marshal, marshalAVPWithVendor. rewrite !len_app.
  change (len (be_put 4 (avp_code a))) with 4.
  change (len (Zbyte _ :: tail (be_put 4 _))) with 4.
  match goal with |- context [len (pad_zeros ?n)] =>
    pose proof (len_nonneg (pad_zeros n)); pose proof (len_nonneg (if negb (avp_vendor a =? 0)
      then be_put 4 (avp_vendor a) else [])) end. lia.
Qed.

(** AVPs without a vendor that fit together in a message fit one by one. *)
Definition small_code (a : avp) : Prop := u32 (avp_code a) /\ avp_vendor a = 0.

Lemma small_avps l :
  Forall small_code l -> 20 + len (concat (map marshal l)) < 2 ^ 24 -> Forall wf_avp l.
Proof.
  induction 1 as [|a l [Hc Hv] _ IH]; [done|]. cbn [map concat]. rewrite len_app. intros Hl.
  pose proof (len_nonneg (concat (map marshal l))). pose proof (len_marshal_data a).
  pose proof (len_nonneg (marshal a)).
  constructor; [|apply IH; lia]. split; [done|]. rewrite Hv. split; [done|]. lia.
Qed.

(** The bytes of a message: its header, with the length set, and its AVPs. *)
Record written (h : DiameterHeader) (l : list avp) (data : bytes) : Prop := {
  written_eq : data = marshalHeader h ++ concat (map marshal l);
  written_header : wf_header h;
  written_version : Version h = 1;
  written_length : Length h = len data;
  written_avps : Forall wf_avp l }.

Lemma written_framed h l data : written h l data -> framed data.
Proof.
  intros [-> (Hv & Hl & _) _ Hn _]. rewrite len_app, len_marshalHeader in Hn.
  pose proof (len_nonneg (concat (map marshal l))). apply framed_app.
  - rewrite len_marshalHeader. lia.
  - rewrite len_marshalHeader, marshalHeader_shape, <- Hn.
    pose proof (be_get_put3 _ Hl) as E. byte_list 3%nat (Length h).
    unfold slice. eval_to_nat. cbn [drop take app]. exact E.
  - rewrite len_marshalHeader. lia.
Qed.

Lemma written_split h l data :
  written h l data -> split_message data =
    {| msg_Length := len data; msg_Header := marshalHeader h; msg_Body := concat (map marshal l) |}.
Proof.
  intros [-> _ _ _ _]. rewrite split_app by apply len_marshalHeader.
  by rewrite len_app, len_marshalHeader.
Qed.

Lemma written_Command h l data :
  written h l data ->
  ParseCommand (marshalHeader h) =
    Ok {| Interface := ApplicationID h; Code := CommandCode h; cmd_Request := Request (Flags h) |}.
Proof.
  intros [_ Hh _ _ _]. pose proof (unmarshal_marshalHeader h [] Hh) as E. rewrite app_nil_r in E.
  by apply (readers_agree (marshalHeader h)).
Qed.

Lemma written_Info h l data :
  written h l data -> exists info, ParseMessageHeader (marshalHeader h) = Ok info /\
    mi_CommandCode info = CommandCode h /\ mi_ApplicationID info = ApplicationID h /\
    mi_HopByHopID info = HopByHopID h /\ mi_EndToEndID info = EndToEndID h /\
    IsRequest info = Request (Flags h).
Proof.
  intros [Hd Hh Hv Hl _]. pose proof (unmarshal_marshalHeader h [] Hh) as E. rewrite app_nil_r in E.
  destruct (readers_agree (marshalHeader h)) as [H1 H2].
  destruct (proj1 (proj2 (H1 h E))) as [info Hi].
  { split; [done|]. rewrite Hl, Hd, len_app, len_marshalHeader.
    pose proof (len_nonneg (concat (map marshal l))). lia. }
  exists info. split; [done|]. destruct (H2 info Hi) as [H3 H4]. rewrite E in H3.
  injection H3 as H3. rewrite H3. injection H4 as H4. by rewrite H4.
Qed.

(** What a generated [Unmarshal] does with it. *)
Lemma written_scan {M} (field : Z -> Z -> bytes -> M -> outcome parse_error M) h l data
    (unmarshal : bytes -> M -> M * outcome parse_error unit) (z : M) (with_header : DiameterHeader -> M) :
  (forall d, unmarshal d z =
    if len d <? 20 then (z, Err ErrHeaderTooShort)
    else match read_header d with
         | Ok header => scan_from field d 20 (with_header header)
         | Err e => (z, Err e)
         | Panic => (z, Panic)
         end) ->
  written h l data -> unmarshal data z = fold_fields field (map avp_seen l) (with_header h).
Proof.
  intros Hu [-> Hh _ _ Hl]. rewrite Hu.
  fold (unmarshal_message field (marshalHeader h ++ concat (map marshal l)) z with_header).
  rewrite unmarshal_in_range, (proj2 (Z.ltb_ge _ _)).
  - rewrite take_length_app, drop_length_app by done.
    pose proof (unmarshal_marshalHeader h [] Hh) as E. rewrite app_nil_r in E. rewrite E.
    by apply scan_marshal.
  - rewrite len_app, len_marshalHeader. pose proof (len_nonneg (concat (map marshal l))). lia.
Qed.

Lemma fold_fields_keeps {M} (field : Z -> Z -> bytes -> M -> outcome parse_error M) (P : M -> Prop)
    (Q : Z -> Prop) l m :
  (forall c w v m, Q c -> P m -> exists m', field c w v m = Ok m' /\ P m') ->
  Forall (fun x => Q x.1.1) l -> P m ->
  exists m', fold_fields field l m = (m', Ok tt) /\ P m'.
Proof.
  intros Hf Hl. revert m. induction Hl as [|[[c w] v] l Hc _ IH]; intros m Hm; [by exists m|].
  destruct (Hf c w v m Hc Hm) as (m1 & E & H1). cbn [fold_fields]. rewrite E. by apply IH.
Qed.

Lemma wf_new_header code app r p h ee :
  u24 code -> u32 app -> u32 h -> u32 ee ->
  wf_header ((new_header code app r p) <| HopByHopID := h |> <| EndToEndID := ee |>).
Proof. intros Hc Ha Hh He. by split_and!. Qed.

Ltac codes :=
  repeat first
    [ apply Forall_app_2 | apply Forall_cons_2; [by vm_compute|] | apply Forall_nil_2
    | apply Forall_map, Forall_true; intros; by vm_compute ].

(** Every case of a generated [switch] sets one field, if any. *)
Ltac one_case :=
  repeat match goal with
  | |- context [if ?c =? ?k then _ else _] => destruct (Z.eqb_spec c k)
  end;
  unfold assign, assign_group;
  repeat match goal with
  | |- context [match ?x with _ => _ end] => destruct x
  end.

(** ** The request *)

Section CER.
Import CapabilitiesExchangeRequest.

Lemma CER_written m :
  wf_header (Header m) -> Version (Header m) = 1 -> Validate m = None ->
  Forall small_code (avps m) -> 20 + len (body m) < 2 ^ 24 ->
  exists data, Marshal m =
    (m <| Header := (Header m) <| Length := len data |> |>, Ok data) /\
    written ((Header m) <| Length := len data |>) (avps m) data.
Proof.
  intros Hh Hv HV Hc Hl. pose proof (len_nonneg (body m)).
  set (n := 20 + len (body m)) in *.
  assert (len (marshalHeader ((Header m) <| Length := n |>) ++ body m) = n) as Hn
    by (rewrite len_app, len_marshalHeader; done).
  exists (marshalHeader ((Header m) <| Length := n |>) ++ body m). rewrite Hn. split.
  - unfold Marshal. rewrite HV, to_u32_id by (unfold u32; lia). done.
  - rewrite <- Hn. split; rewrite ?Hn; [by rewrite CER_body_avps| |done|done|].
    + destruct Hh as (? & _ & ?). split; [done|]. split; [unfold u24; rsimpl; lia|done].
    + apply small_avps; [done|]. rewrite <- CER_body_avps. exact Hl.
Qed.

Lemma CER_read h l data :
  written h l data -> exists m, Unmarshal data zero = (m, Ok tt) /\ Header m = h.
Proof.
  intros Hw. rewrite (written_scan field h l data Unmarshal zero (fun header => zero <| Header := header |>))
    by done.
  apply (fold_fields_keeps field (fun m => Header m = h) (fun _ => True)).
  - intros c w v m _ Hm. destruct (CER_field_total c w v m) as [m' E]. exists m'. split; [done|].
    rewrite <- Hm. clear Hm. revert E. unfold field. one_case; try done; by intros [= <-].
  - by apply Forall_true.
  - done.
Qed.
End CER.

Lemma build_CER_written cfg ip h ee :
  u32 h -> u32 ee -> 0 < len (cfg_OriginHost cfg) -> 0 < len (cfg_OriginRealm cfg) ->
  0 < len (cfg_ProductName cfg) ->
  20 + len (CapabilitiesExchangeRequest.body (build_CER cfg (Some ip) h ee)) < 2 ^ 24 ->
  exists data,
    (CapabilitiesExchangeRequest.Marshal (build_CER cfg (Some ip) h ee)).2 = Ok data /\
    written ((CapabilitiesExchangeRequest.Header (build_CER cfg (Some ip) h ee)) <| Length := len data |>)
      (CapabilitiesExchangeRequest.avps (build_CER cfg (Some ip) h ee)) data.
Proof.
  intros Hh He H1 H2 H3 Hl. destruct (CER_written (build_CER cfg (Some ip) h ee)) as (data & E & Hw).
  - change (wf_header ((new_header 257 0 true false) <| HopByHopID := h |> <| EndToEndID := ee |>)).
    by apply wf_new_header.
  - done.
  - unfold CapabilitiesExchangeRequest.Validate.
    change (CapabilitiesExchangeRequest.OriginHost _) with (cfg_OriginHost cfg).
    change (CapabilitiesExchangeRequest.OriginRealm _) with (cfg_OriginRealm cfg).
    change (CapabilitiesExchangeRequest.ProductName _) with (cfg_ProductName cfg).
    by rewrite (proj2 (Z.eqb_neq (len (cfg_OriginHost cfg)) 0)),
      (proj2 (Z.eqb_neq (len (cfg_OriginRealm cfg)) 0)),
      (proj2 (Z.eqb_neq (len (cfg_ProductName cfg)) 0)) by lia.
  - unfold CapabilitiesExchangeRequest.avps. codes.
  - done.
  - exists data. by rewrite E.
Qed.

(** ** The answer *)

Section CEA.
Import CapabilitiesExchangeAnswer.

Lemma CEA_written m :
  wf_header (Header m) -> Version (Header m) = 1 -> Validate m = None ->
  Forall small_code (avps m) -> 20 + len (body m) < 2 ^ 24 ->
  exists data, Marshal m =
    (m <| Header := (Header m) <| Length := len data |> |>, Ok data) /\
    written ((Header m) <| Length := len data |>) (avps m) data.
Proof.
  intros Hh Hv HV Hc Hl. pose proof (len_nonneg (body m)).
  set (n := 20 + len (body m)) in *.
  assert (len (marshalHeader ((Header m) <| Length := n |>) ++ body m) = n) as Hn
    by (rewrite len_app, len_marshalHeader; done).
  exists (marshalHeader ((Header m) <| Length := n |>) ++ body m). rewrite Hn. split.
  - unfold Marshal. rewrite HV, to_u32_id by (unfold u32; lia). done.
  - rewrite <- Hn. split; rewrite ?Hn; [by rewrite CEA_body_avps| |done|done|].
    + destruct Hh as (? & _ & ?). split; [done|]. split; [unfold u24; rsimpl; lia|done].
    + apply small_avps; [done|]. rewrite <- CEA_body_avps. exact Hl.
Qed.

(** The result code comes first, and no other AVP writes it: an address that
    does not decode changes nothing else. *)
Lemma CEA_read h l data rc :
  u32 rc -> written h (av AVPCodeRESULTCODE (VUnsigned32 rc) true false 0 :: l) data ->
  Forall (fun a => avp_code a <> AVPCodeRESULTCODE) l ->
  exists m, Unmarshal data zero = (m, Ok tt) /\ Header m = h /\ ResultCode m = rc.
Proof.
  intros Hrc Hw Hl.
  rewrite (written_scan field h _ data Unmarshal zero (fun header => zero <| Header := header |>))
    by done.
  cbn [map fold_fields avp_seen av avp_code avp_vendor avp_data].
  assert (field AVPCodeRESULTCODE 0 (Serialize (VUnsigned32 rc)) (zero <| Header := h |>) =
    Ok (zero <| Header := h |> <| ResultCode := rc |>)) as ->.
  { unfold field. cbn [Z.eqb]. rewrite Z.eqb_refl.
    change (Serialize (VUnsigned32 rc)) with (Unsigned32_Serialize rc).
    by rewrite DecodeUnsigned32_Serialize. }
  apply (fold_fields_keeps field (fun m => Header m = h /\ ResultCode m = rc)
    (fun c => c <> AVPCodeRESULTCODE)).
  - intros c w v m Hc [Hm Hr]. destruct (CEA_field_total c w v m) as [m' E]. exists m'. split; [done|].
    rewrite <- Hm, <- Hr. clear Hm Hr. revert E. unfold field.
    rewrite (proj2 (Z.eqb_neq c AVPCodeRESULTCODE)) by done. one_case; try done; by intros [= <-].
  - apply Forall_map. eapply Forall_impl; [exact Hl|]. done.
  - done.
Qed.
End CEA.

(** The server's answer to a CER. *)
Lemma cea_of_written cfg cer :
  u32 (HopByHopID (CapabilitiesExchangeRequest.Header cer)) ->
  u32 (EndToEndID (CapabilitiesExchangeRequest.Header cer)) ->
  let scfg := Server.srv_ConnectionConfig cfg in
  0 < len (Server.OriginHost scfg) -> 0 < len (Server.OriginRealm scfg) ->
  0 < len (Server.ProductName scfg) ->
  20 + len (CapabilitiesExchangeAnswer.body (cea_of cfg cer)) < 2 ^ 24 ->
  let h := (new_header 257 0 false false)
    <| HopByHopID := HopByHopID (CapabilitiesExchangeRequest.Header cer) |>
    <| EndToEndID := EndToEndID (CapabilitiesExchangeRequest.Header cer) |> in
  exists data l, Server.marshalled (CapabilitiesExchangeAnswer.Marshal (cea_of cfg cer)) = data /\
    written (h <| Length := len data |>) (av AVPCodeRESULTCODE (VUnsigned32 2001) true false 0 :: l) data /\
    Forall (fun a => avp_code a <> AVPCodeRESULTCODE) l.
Proof.
  intros Hh He scfg H1 H2 H3 Hl h.
  destruct (CEA_written (cea_of cfg cer)) as (data & E & Hw).
  - by apply wf_new_header.
  - done.
  - unfold CapabilitiesExchangeAnswer.Validate.
    change (CapabilitiesExchangeAnswer.OriginHost _) with (Server.OriginHost scfg).
    change (CapabilitiesExchangeAnswer.OriginRealm _) with (Server.OriginRealm scfg).
    change (CapabilitiesExchangeAnswer.ProductName _) with (Server.ProductName scfg).
    by rewrite (proj2 (Z.eqb_neq (len (Server.OriginHost scfg)) 0)),
      (proj2 (Z.eqb_neq (len (Server.OriginRealm scfg)) 0)),
      (proj2 (Z.eqb_neq (len (Server.ProductName scfg)) 0)) by lia.
  - unfold CapabilitiesExchangeAnswer.avps. codes.
  - done.
  - exists data. eexists. split; [unfold Server.marshalled; by rewrite E|]. split; [exact Hw|].
    repeat first [apply Forall_cons_2; [by vm_compute|] | apply Forall_nil_2].
Qed.

(** ** Both ends *)

Section Handshake.
Context {A E P : Type} {PS : PortSource E P} (net_ok : Z -> nat -> bool).

(** A server whose connection [k] has the request first in its stream. *)
Record awaits_request (scfg : Server.ServerConfig) (k : Z) (request rest : bytes)
    (s : Server.Server A) (l : Server.Link) : Prop := {
  aw_link : Server.links (Server.world s) !! k = Some l;
  aw_open : Server.rwc_closed l = false;
  aw_unbroken : Server.broken l = false;
  aw_net : net_ok k (Server.writes l) = true;
  aw_unread : Server.unread l = request ++ rest;
  aw_serving : k ∈ Server.serving s;
  aw_alive : Server.crashed s = false;
  aw_tasks : Server.tasks s = [];
  aw_middlewares : Server.middlewares s = [];
  aw_handler : Server.HandlerMux s !! Server.base_command 257 = Some (Server.handle_CER net_ok scfg) }.

Lemma response_Write_links c b (w : Server.World A) l :
  Server.links w !! c = Some l ->
  Server.links (Server.response_Write net_ok c b w).1 =
    <[c := (Server.link_Write net_ok c b l).1]> (Server.links w).
Proof.
  intros Hl. unfold Server.response_Write, Server.conn_Write. rewrite Hl.
  destruct (Server.link_Write net_ok c b l) as [l' [n|]]; [|done].
  repeat case_match; done.
Qed.

(** The server answers a written CER on the connection it came from. *)
Lemma server_answers scfg k hd avs request rest s l :
  written hd avs request -> CommandCode hd = 257 -> ApplicationID hd = 0 ->
  Request (Flags hd) = true -> awaits_request scfg k request rest s l ->
  exists cer,
    CapabilitiesExchangeRequest.Unmarshal request CapabilitiesExchangeRequest.zero = (cer, Ok tt) /\
    CapabilitiesExchangeRequest.Header cer = hd /\
    Server.links (Server.world
      (Server.run net_ok [Server.EvServe k false; Server.EvTask 0] s)) !! k =
    Some (Server.link_Write net_ok k
      (Server.marshalled (CapabilitiesExchangeAnswer.Marshal (cea_of scfg cer)))
      (l <| Server.unread := rest |>)).1.
Proof.
  intros Hw Hc Ha Hr [Hl Ho Hb Hn Hu Hs Hal Ht Hm Hh].
  destruct (CER_read _ _ _ Hw) as (cer & Ecer & Hcer). exists cer. split; [done|]. split; [done|].
  destruct (serve_one (A := A) k l request rest s (written_framed _ _ _ Hw) Hl Ho Hu) as
    (H1 & _ & H3 & _ & _ & H6 & _).
  unfold Server.run. cbn [foldl]. rewrite (step_serve net_ok k s) by done.
  set (s1 := serve k false s) in *.
  assert (Server.tasks s1 = [Server.Running (Server.handle_CER net_ok scfg) (split_message request) k])
    as Et.
  { rewrite H6, Ht. unfold started. rewrite (written_split _ _ _ Hw). cbn [msg_Header].
    rewrite (written_Command _ _ _ Hw), Hc, Ha, Hr. unfold Server.getHandler, Server.wrapHandler.
    fold (Server.base_command 257). rewrite Hm, Hh. done. }
  unfold Server.step. rewrite H3, Hal. unfold Server.run_task. rewrite Et. cbn [lookup list_lookup].
  cbv zeta beta iota. change (Server.world (_ <| Server.tasks ::= _ |>)) with (Server.world s1).
  unfold Server.handle_CER, Server.fullMsg. rewrite (written_split _ _ _ Hw).
  cbn [msg_Header msg_Body]. rewrite <- (written_eq _ _ _ Hw), Ecer. cbv beta iota.
  change (Server.links (Server.world (_ <| Server.world := ?w |>))) with (Server.links w).
  rewrite (response_Write_links k _ _ (l <| Server.unread := rest |>))
    by (rewrite H1; apply lookup_insert_eq).
  apply lookup_insert_eq.
Qed.

(** The client takes a written CEA for the request that waits under its
    identifier. *)
Lemma client_accepts e pick hd avs answer tail (c : Connection P) :
  written (hd <| Length := len answer |>)
    (av AVPCodeRESULTCODE (VUnsigned32 2001) true false 0 :: avs) answer ->
  Forall (fun a => avp_code a <> AVPCodeRESULTCODE) avs ->
  CommandCode hd = 257 -> ApplicationID hd = 0 -> Request (Flags hd) = false ->
  pending c !! HopByHopID hd = Some None ->
  exists m c', ReadMessage None (answer ++ tail) = (Ok m, tail) /\
    dispatchMessage pick m c = Ok c' /\
    exists c2, CEA_result e GotCEA (HopByHopID hd) c' = (c2, Connected) /\ state c2 = StateOpen.
Proof.
  intros Hw Hl Hc Ha Hr Hp.
  destruct (CEA_read _ _ _ 2001 ltac:(done) Hw Hl) as (cea & Ecea & _ & Hrc).
  exists (split_message answer).
  exists (c <| pending ::= <[HopByHopID hd := Some answer]> |>). split_and!.
  - apply ReadMessage_spec; [done|]. exists answer. split; [by eapply written_framed|done].
  - unfold dispatchMessage. rewrite (written_split _ _ _ Hw). cbn [msg_Header].
    destruct (written_Info _ _ _ Hw) as (info & -> & E1 & E2 & E3 & _ & E5). cbv beta iota.
    unfold IsBaseProtocol. rewrite E1, E2, E3, E5.
    change (CommandCode (hd <| Length := len answer |>)) with (CommandCode hd).
    change (ApplicationID (hd <| Length := len answer |>)) with (ApplicationID hd).
    change (Flags (hd <| Length := len answer |>)) with (Flags hd).
    change (HopByHopID (hd <| Length := len answer |>)) with (HopByHopID hd).
    rewrite Hc, Ha, Hr. cbn [Z.eqb negb andb Pos.eqb].
    unfold deliverResponse. rewrite Hp. cbn [msg_Header msg_Body]. by rewrite <- (written_eq _ _ _ Hw).
  - unfold CEA_result.
    change (pending (c <| pending ::= _ |>)) with (<[HopByHopID hd := Some answer]> (pending c)).
    rewrite lookup_insert_eq. cbv zeta beta iota. unfold handleCEA. rewrite Ecea, Hrc. cbn.
    eexists. split; [done|]. unfold startWatchdog, setState. by repeat case_match.
Qed.

(** C18: a client and a server complete the capabilities exchange.  When a
    client with an identity, a realm, a product name and a local address has
    dialled, it produces a CER; a server that is registered for CERs, has
    itself an identity, a realm and a product name, and finds these bytes on a
    connection that it can write to, answers on it with one CEA; and a client
    that reads this CEA from its stream, whatever follows it, and still waits
    under the identifier of its CER, accepts it: the connection is open.  Both
    messages have to fit the 24-bit length.  The address in the CEA does not
    matter, and is empty for a listen address with a port. *)
Theorem handshake_completes e la ip (c : Connection P) scfg :
  0 < len (cfg_OriginHost (config c)) -> 0 < len (cfg_OriginRealm (config c)) ->
  0 < len (cfg_ProductName (config c)) ->
  0 < len (Server.OriginHost (Server.srv_ConnectionConfig scfg)) ->
  0 < len (Server.OriginRealm (Server.srv_ConnectionConfig scfg)) ->
  0 < len (Server.ProductName (Server.srv_ConnectionConfig scfg)) ->
  20 + len (CapabilitiesExchangeRequest.body (build_CER (config c) (Some ip) 0 0)) < 2 ^ 24 ->
  20 + len (CapabilitiesExchangeAnswer.body (cea_of scfg CapabilitiesExchangeRequest.zero)) < 2 ^ 24 ->
  exists h request c1,
    dial_result e la (Some (Some ip)) c = (c1, Continue (PEnqueue h request)) /\
    pending c1 !! h = Some None /\
    forall s l k rest, awaits_request scfg k request rest s l ->
    exists answer l',
      Server.links (Server.world
        (Server.run net_ok [Server.EvServe k false; Server.EvTask 0] s)) !! k = Some l' /\
      Server.out l' = Server.out l ++ [answer] /\ Server.unread l' = rest /\
      forall pick tail (c2 : Connection P), pending c2 !! h = Some None ->
      exists m c3, ReadMessage None (answer ++ tail) = (Ok m, tail) /\
        dispatchMessage pick m c2 = Ok c3 /\
        exists c4, CEA_result e GotCEA h c3 = (c4, Connected) /\ state c4 = StateOpen.
Proof.
  intros H1 H2 H3 S1 S2 S3 Hl Sl.
  set (h := to_u32 (hopByHopID c + 1)). set (ee := to_u32 (endToEndID c + 1)).
  destruct (build_CER_written (config c) ip h ee) as (request & Eq & Hw);
    try done; try apply to_u32_u32.
  exists h, request. eexists. split_and!.
  { unfold dial_result, nextHopByHopID, nextEndToEndID. cbv zeta beta iota.
    change (CapabilitiesExchangeRequest.Marshal (build_CER (config (_ <| endToEndID := _ |>)) _ _ _))
      with (CapabilitiesExchangeRequest.Marshal (build_CER (config c) (Some ip) h ee)).
    rewrite Eq. reflexivity. }
  { unfold setState, registerPending. case_decide; apply lookup_insert_eq. }
  intros s l k rest Haw.
  destruct (server_answers scfg k _ _ request rest s l Hw) as (cer & _ & Hcer & Hlink); try done.
  assert (HopByHopID (CapabilitiesExchangeRequest.Header cer) = h) as Eh by (by rewrite Hcer).
  destruct (cea_of_written scfg cer) as (answer & avs & Ea & Hwa & Hav); try done;
    [rewrite Hcer; apply to_u32_u32..|].
  rewrite Eh in Hwa. rewrite Ea in Hlink.
  exists answer. eexists. split; [exact Hlink|].
  assert (0 < len answer) as Hpos by (destruct (written_framed _ _ _ Hwa); lia).
  assert ((Server.link_Write net_ok k answer (l <| Server.unread := rest |>)).1 =
    (l <| Server.unread := rest |> <| Server.writes ::= S |> <| Server.out ::= fun o => o ++ [answer] |>)) as ->.
  { destruct Haw as [_ Ho Hb Hn _ _ _ _ _ _]. unfold Server.link_Write. rsimpl.
    rewrite Hb, Ho, Hn, (proj2 (Z.eqb_neq _ _)) by lia. done. }
  split_and!; [done|done|]. intros pick tail c2 Hp.
  exact (client_accepts e pick _ avs answer tail c2 Hwa Hav eq_refl eq_refl eq_refl Hp).
Qed.
End Handshake.
