(* ===== verification/ServerConnHandshake.v ===== *)
(** * The capabilities exchange on the server's buffered connection

    What [handleCER] ([server/connection.go]) makes of a CER that a peer
    marshalled: the identity and the applications it records, the CEA that it
    queues, and the state it reaches. *)

From S2P Require Import Prelude Binary DataTypes Wire Message BaseMessages Framing ClientConn.
From S2P Require Import ServerConn Handshake.

Lemma marshalled_Info h rest :
  wf_header h -> Version h = 1 -> 20 <= Length h ->
  exists info, ParseMessageHeader (marshalHeader h ++ rest) = Ok info /\
    mi_CommandCode info = CommandCode h /\ mi_HopByHopID info = HopByHopID h /\
    mi_EndToEndID info = EndToEndID h.
Proof.
  intros Hh Hv Hl. pose proof (unmarshal_marshalHeader h rest Hh) as E.
  destruct (readers_agree (marshalHeader h ++ rest)) as [H1 H2].
  destruct (proj1 (proj2 (H1 h E)) (conj Hv Hl)) as [info Hi].
  exists info. split; [done|]. destruct (H2 info Hi) as [H3 _]. rewrite E in H3.
  injection H3 as H3. by rewrite H3.
Qed.

(** A server with an identity, on a TCP socket, whose CEA fits a message. *)
Record can_answer (c : Connection) : Prop := {
  can_host : 0 < len (sc_OriginHost (config c));
  can_realm : 0 < len (sc_OriginRealm (config c));
  can_product : 0 < len (sc_ProductName (config c));
  can_address : localIP c <> None;
  can_fit info : 20 + len (CapabilitiesExchangeAnswer.body (build_CEA c info)) < 2 ^ 24 }.

Lemma CEA_queued c info :
  can_answer c -> u32 (mi_HopByHopID info) -> u32 (mi_EndToEndID info) ->
  exists answer cea, (CapabilitiesExchangeAnswer.Marshal (build_CEA c info)).2 = Ok answer /\
    CapabilitiesExchangeAnswer.Unmarshal answer CapabilitiesExchangeAnswer.zero = (cea, Ok tt) /\
    CapabilitiesExchangeAnswer.ResultCode cea = 2001 /\
    HopByHopID (CapabilitiesExchangeAnswer.Header cea) = mi_HopByHopID info /\
    EndToEndID (CapabilitiesExchangeAnswer.Header cea) = mi_EndToEndID info.
Proof.
  intros [H1 H2 H3 H4 H5] Hh He. specialize (H5 info).
  destruct (CEA_written (build_CEA c info)) as (data & E & Hw).
  - change (wf_header ((new_header 257 0 false false) <| HopByHopID := mi_HopByHopID info |>
      <| EndToEndID := mi_EndToEndID info |>)). by apply wf_new_header.
  - done.
  - unfold CapabilitiesExchangeAnswer.Validate.
    change (CapabilitiesExchangeAnswer.OriginHost _) with (sc_OriginHost (config c)).
    change (CapabilitiesExchangeAnswer.OriginRealm _) with (sc_OriginRealm (config c)).
    change (CapabilitiesExchangeAnswer.ProductName _) with (sc_ProductName (config c)).
    change (CapabilitiesExchangeAnswer.HostIpAddress _) with (opt_list (localIP c)).
    destruct (localIP c); [|done].
    by rewrite (proj2 (Z.eqb_neq (len (sc_OriginHost (config c))) 0)),
      (proj2 (Z.eqb_neq (len (sc_OriginRealm (config c))) 0)),
      (proj2 (Z.eqb_neq (len (sc_ProductName (config c))) 0)) by lia.
  - unfold CapabilitiesExchangeAnswer.avps. codes.
  - done.
  - exists data. eapply CEA_read in Hw as (cea & Ecea & Hhd & Hrc); [|done|].
    + exists cea. rewrite E. by rewrite Hhd.
    + do 2 (apply Forall_cons_2; [by vm_compute|]).
      apply Forall_app_2; [apply Forall_map, Forall_true; intros; by vm_compute|].
      repeat first [apply Forall_cons_2; [by vm_compute|] | apply Forall_nil_2].
Qed.

(** The applications that a CER lists, in its fields and in its
    vendor-specific groups. *)
Definition lists_auth (m : CapabilitiesExchangeRequest.t) (a : Z) : Prop :=
  a ∈ CapabilitiesExchangeRequest.AuthApplicationId m \/
  exists g, Some g ∈ CapabilitiesExchangeRequest.VendorSpecificApplicationId m /\
    VendorSpecificApplicationId.AuthApplicationId g = Some a.
Definition lists_acct (m : CapabilitiesExchangeRequest.t) (a : Z) : Prop :=
  a ∈ CapabilitiesExchangeRequest.AcctApplicationId m \/
  exists g, Some g ∈ CapabilitiesExchangeRequest.VendorSpecificApplicationId m /\
    VendorSpecificApplicationId.AcctApplicationId g = Some a.

Lemma elem_of_groups {B} (f : VendorSpecificApplicationId.t -> list B) m b :
  b ∈ concat (map f (vendor_groups m)) <->
  exists g, Some g ∈ CapabilitiesExchangeRequest.VendorSpecificApplicationId m /\ b ∈ f g.
Proof.
  rewrite list_elem_of_In, in_concat. setoid_rewrite in_map_iff. unfold vendor_groups. split.
  - intros (l & (g & <- & Hg) & Hb). apply list_elem_of_In, list_elem_of_omap in Hg as (o & Ho & Hg).
    rewrite Hg in Ho. exists g. split; [done|by apply list_elem_of_In].
  - intros (g & Hg & Hb). exists (f g). split; [exists g; split; [done|]|by apply list_elem_of_In].
    apply list_elem_of_In, list_elem_of_omap. exists (Some g). done.
Qed.

Lemma elem_of_opt_list {B} (o : option B) b : b ∈ opt_list o <-> o = Some b.
Proof. destruct o; cbn [opt_list]; rewrite ?list_elem_of_singleton, ?elem_of_nil; naive_solver. Qed.

Lemma auth_apps_listed m a : a ∈ auth_apps m <-> lists_auth m a.
Proof.
  unfold auth_apps, lists_auth. rewrite elem_of_app, elem_of_groups. by setoid_rewrite elem_of_opt_list.
Qed.

Lemma acct_apps_listed m a : a ∈ acct_apps m <-> lists_acct m a.
Proof.
  unfold acct_apps, lists_acct. rewrite elem_of_app, elem_of_groups. by setoid_rewrite elem_of_opt_list.
Qed.

Lemma supported_apps_listed m a : a ∈ supported_apps m <-> lists_auth m a \/ lists_acct m a.
Proof.
  unfold supported_apps, lists_auth, lists_acct. rewrite !elem_of_app, elem_of_groups.
  setoid_rewrite elem_of_app. setoid_rewrite elem_of_opt_list. naive_solver.
Qed.

(** The connection after a CER: the peer and its applications are recorded,
    and it is open. *)
Record greeted (m : CapabilitiesExchangeRequest.t) (c : Connection) : Prop := {
  gr_state : state c = StateOpen;
  gr_host : originHost c = CapabilitiesExchangeRequest.OriginHost m;
  gr_realm : originRealm c = CapabilitiesExchangeRequest.OriginRealm m;
  gr_auth a : a ∈ authAppIDs c <-> lists_auth m a;
  gr_acct a : a ∈ acctAppIDs c <-> lists_acct m a;
  gr_supported a : a ∈ supportedAppIDs c <-> lists_auth m a \/ lists_acct m a }.

(** C26: a CER opens the connection.  When the processor takes from its queue
    a well-formed CER of a peer and there is room to send, it ends, in the two
    steps of handling and sending, in an open connection that has recorded the
    peer's identity and exactly the applications that the CER lists, in its
    fields and in its vendor-specific groups; one message has been queued, and
    it reads as a CEA with result 2001 and the request's two identifiers. *)
Theorem CER_opens m data rest c :
  CapabilitiesExchangeRequest.wf m -> wf_header (CapabilitiesExchangeRequest.Header m) ->
  CommandCode (CapabilitiesExchangeRequest.Header m) = 257 ->
  Version (CapabilitiesExchangeRequest.Header m) = 1 ->
  (CapabilitiesExchangeRequest.Marshal m).2 = Ok data ->
  20 + len (CapabilitiesExchangeRequest.body m) < 2 ^ 24 ->
  processor c = PTop -> processChan c = data :: rest -> send_room c = true -> can_answer c ->
  exists c1 c2 answer cea,
    step EvProcess c = Ok c1 /\ step (EvSent SendQueued) c1 = Ok c2 /\ greeted m c2 /\
    processor c2 = PTop /\ sendChan c2 = sendChan c ++ [answer] /\
    CapabilitiesExchangeAnswer.Unmarshal answer CapabilitiesExchangeAnswer.zero = (cea, Ok tt) /\
    CapabilitiesExchangeAnswer.ResultCode cea = 2001 /\
    HopByHopID (CapabilitiesExchangeAnswer.Header cea) = HopByHopID (CapabilitiesExchangeRequest.Header m) /\
    EndToEndID (CapabilitiesExchangeAnswer.Header cea) = EndToEndID (CapabilitiesExchangeRequest.Header m).
Proof.
  intros Hwf Hh Hc Hv Hm Hl Hp Hq Hr Ha.
  assert (CapabilitiesExchangeRequest.Validate m = None) as HV.
  { unfold CapabilitiesExchangeRequest.Marshal in Hm. by destruct (CapabilitiesExchangeRequest.Validate m). }
  destruct (CapabilitiesExchangeRequest.CER_roundtrip m Hwf Hh HV Hl) as (m' & data' & E & Hd & Hn & _ & Hu).
  rewrite E in Hm. injection Hm as ->.
  unfold CapabilitiesExchangeRequest.Marshal in E. rewrite HV in E. injection E as Em Ed.
  pose proof (len_nonneg (CapabilitiesExchangeRequest.body m)).
  rewrite to_u32_id, <- Hn in Em, Ed by (unfold u32; lia).
  destruct (marshalled_Info ((CapabilitiesExchangeRequest.Header m) <| Length := len data |>)
    (CapabilitiesExchangeRequest.body m)) as (info & Hi & Hi1 & Hi2 & Hi3); [|done|rsimpl; lia|].
  { destruct Hh as (? & _ & ?). split; [done|]. split; [unfold u24; rsimpl; lia|done]. }
  assert (ParseMessageHeader data = Ok info) as Hi' by (rewrite <- Ed; exact Hi). clear Hi.
  subst m'. set (m' := m <| CapabilitiesExchangeRequest.Header := _ |>) in *.
  set (c0 := record_peer m' (c <| processChan := rest |> <| handled ::= fun l => l ++ [data] |>)).
  destruct (CEA_queued c0 info) as (answer & cea & Hma & Hcu & H1 & H2 & H3).
  { destruct Ha as [A1 A2 A3 A4 A5]. by split. }
  { rewrite Hi2. apply Hh. } { rewrite Hi3. apply Hh. }
  exists (c0 <| processor := PSending answer ThenOpen |>).
  exists (sent ThenOpen (queue answer (c0 <| processor := PSending answer ThenOpen |> <| processor := PTop |>))).
  exists answer, cea. split_and!.
  - cbn [step]. rewrite Hp, Hq. unfold handleMessage. rewrite Hi', Hi1.
    change (CommandCode (_ <| Length := _ |>)) with (CommandCode (CapabilitiesExchangeRequest.Header m)).
    rewrite Hc. cbn [Z.eqb Pos.eqb]. unfold handleCER. rewrite Hu. cbv zeta.
    fold c0. unfold ServerConn.answer.
    change (build_CEA (c <| processChan := rest |> <| handled ::= _ |>) info) with (build_CEA c0 info).
    rewrite Hma. done.
  - cbn [step]. change (processor _) with (PSending answer ThenOpen) at 1. cbv iota.
    change (send_possible _ _) with (send_room c). rewrite Hr. done.
  - split; try done; [exact (auth_apps_listed m)|exact (acct_apps_listed m)|exact (supported_apps_listed m)].
  - done.
  - done.
  - done.
  - done.
  - by rewrite H2, Hi2.
  - by rewrite H3, Hi3.
Qed.
