(* ===== verification/GoText.v ===== *)
(** * Go's [strings], [strconv] and [bufio] on lines of text

    The functions of the standard library that the parser of proto files uses,
    on texts of ASCII characters (the library also treats some others as
    spaces and letters). *)

From S2P Require Import Prelude.

Definition is_byte (a b : byte) : bool := Byte.eqb a b.

Lemma is_byte_spec a b : reflect (a = b) (is_byte a b).
Proof.
  unfold is_byte. destruct (Byte.eqb a b) eqn:E; constructor.
  - by apply Byte.byte_dec_bl.
  - by apply Byte.eqb_false.
Qed.

Lemma is_byte_refl a : is_byte a a = true.
Proof. by destruct (is_byte_spec a a). Qed.

(** [unicode.IsSpace]. *)
Definition is_space (b : byte) : bool :=
  match b with
  | Byte.x09 | Byte.x0a | Byte.x0b | Byte.x0c | Byte.x0d | Byte.x20 => true
  | _ => false
  end.

Fixpoint trim_left (f : byte -> bool) (s : bytes) : bytes :=
  match s with
  | b :: s' => if f b then trim_left f s' else s
  | [] => []
  end.

(** [strings.TrimFunc]; [strings.TrimSpace]; [strings.Trim], whose second
    argument is a set of characters. *)
Definition trim (f : byte -> bool) (s : bytes) : bytes := rev (trim_left f (rev (trim_left f s))).
Definition TrimSpace (s : bytes) : bytes := trim is_space s.
Definition Trim (s cutset : bytes) : bytes := trim (fun b => existsb (is_byte b) cutset) s.

Fixpoint HasPrefix (s p : bytes) {struct p} : bool :=
  match p, s with
  | [], _ => true
  | b :: p, c :: s => is_byte b c && HasPrefix s p
  | _ :: _, [] => false
  end.
Definition HasSuffix (s p : bytes) : bool := HasPrefix (rev s) (rev p).
Definition TrimPrefix (s p : bytes) : bytes := if HasPrefix s p then drop (length p) s else s.
Definition TrimSuffix (s p : bytes) : bytes :=
  if HasSuffix s p then take (length s - length p) s else s.

(** [strings.Index]. *)
Fixpoint Index (s p : bytes) : option nat :=
  if HasPrefix s p then Some O
  else match s with
       | [] => None
       | _ :: s => S <$> Index s p
       end.

Definition ContainsByte (s : bytes) (c : byte) : bool := existsb (is_byte c) s.

(** [strings.Fields]. *)
Fixpoint Fields (s : bytes) : list bytes :=
  match s with
  | [] => []
  | b :: s' =>
      if is_space b then Fields s'
      else match s' with
           | c :: _ => if is_space c then [b] :: Fields s'
                       else match Fields s' with
                            | w :: ws => (b :: w) :: ws
                            | [] => [[b]]
                            end
           | [] => [[b]]
           end
  end.

(** [strings.Split] at a character. *)
Fixpoint Split (c : byte) (s : bytes) : list bytes :=
  match s with
  | [] => [[]]
  | b :: s =>
      if is_byte c b then [] :: Split c s
      else match Split c s with
           | w :: ws => (b :: w) :: ws
           | [] => [[b]]
           end
  end.

(** [strings.SplitN(s, c, 2)] when it returns two parts. *)
Fixpoint SplitN2 (c : byte) (s : bytes) : option (bytes * bytes) :=
  match s with
  | [] => None
  | b :: s =>
      if is_byte c b then Some ([], s)
      else match SplitN2 c s with
           | Some (l, r) => Some (b :: l, r)
           | None => None
           end
  end.

(** [strings.ToUpper] of one character. *)
Definition ToUpper (b : byte) : byte :=
  if (97 <=? byteZ b) && (byteZ b <=? 122) then Zbyte (byteZ b - 32) else b.

(** ** Numbers *)

Definition digit_of (b : byte) : option Z :=
  if (48 <=? byteZ b) && (byteZ b <=? 57) then Some (byteZ b - 48) else None.

Fixpoint decimal (s : bytes) (acc : Z) : option Z :=
  match s with
  | [] => Some acc
  | b :: s => match digit_of b with Some d => decimal s (acc * 10 + d) | None => None end
  end.

(** [strconv.ParseUint(s, 10, bits)]; [None] is either of its errors. *)
Definition ParseUint (bits : Z) (s : bytes) : option Z :=
  match s with
  | [] => None
  | _ => match decimal s 0 with
         | Some v => if v <? 2 ^ bits then Some v else None
         | None => None
         end
  end.

(** [strconv.Atoi]. *)
Definition Atoi (s : bytes) : option Z :=
  match s with
  | [] => None
  | b :: t =>
      let '(neg, u) := if is_byte b Byte.x2d then (true, t)
                       else if is_byte b Byte.x2b then (false, t) else (false, s) in
      match u with
      | [] => None
      | _ =>
          match decimal u 0 with
          | Some v =>
              let v := if neg : bool then - v else v in
              if (- 2 ^ 63 <=? v) && (v <? 2 ^ 63) then Some v else None
          | None => None
          end
      end
  end.

(** The decimal digits of a number. *)
Fixpoint show_digits (fuel : nat) (n : Z) (acc : bytes) : bytes :=
  match fuel with
  | O => acc
  | S fuel =>
      let acc := Zbyte (48 + n mod 10) :: acc in
      if n <? 10 then acc else show_digits fuel (n / 10) acc
  end.
Definition show (n : Z) : bytes := show_digits (S (Z.to_nat (Z.log2 n))) n [].

(** ** Lines *)

Definition newline : byte := Byte.x0a.

Definition dropCR (l : bytes) : bytes :=
  match rev l with b :: r => if is_byte b Byte.x0d then rev r else l | [] => [] end.

(** The lines that [bufio.Scanner] cuts a text into, before [dropCR]: a last
    line without a newline counts when it is not empty. *)
Definition raw_lines (s : bytes) : list bytes :=
  let l := Split newline s in
  match rev l with [] :: r => rev r | _ => l end.

(** [bufio.MaxScanTokenSize]: the scanner stops with an error when its buffer
    is full and holds no end of line. *)
Definition MaxScanTokenSize : Z := 64 * 1024.

(** ** Lemmas *)

(** A text without spaces at its ends. *)
Definition tight (s : bytes) : Prop := TrimSpace s = s.

Lemma trim_left_all f s : Forall (fun b => f b = true) s -> trim_left f s = [].
Proof. induction 1 as [|b s Hb _ IH]; cbn [trim_left]; [done|]. by rewrite Hb. Qed.

Lemma trim_left_app f pre b s :
  Forall (fun b => f b = true) pre -> f b = false -> trim_left f (pre ++ b :: s) = b :: s.
Proof. intros Hp Hb. induction Hp as [|c pre Hc _ IH]; cbn [trim_left app]; [by rewrite Hb|by rewrite Hc]. Qed.

Lemma trim_left_inv f s : trim_left f s = [] \/ exists b t, trim_left f s = b :: t /\ f b = false.
Proof.
  induction s as [|b s IH]; cbn [trim_left]; [by left|]. destruct (f b) eqn:E; [done|]. right. by exists b, s.
Qed.

(** A text with a first and a last character that stay. *)
Lemma trim_ends f pre a s b post :
  Forall (fun b => f b = true) pre -> Forall (fun b => f b = true) post -> f a = false -> f b = false ->
  last (a :: s) = Some b -> trim f (pre ++ (a :: s) ++ post) = a :: s.
Proof.
  intros H1 H2 Ha Hb Hl. unfold trim. cbn [app]. rewrite trim_left_app by done.
  change (a :: s ++ post) with ((a :: s) ++ post). rewrite rev_app_distr.
  apply last_Some in Hl as [t Ht]. rewrite Ht, rev_app_distr. cbn [rev app].
  rewrite trim_left_app by (done || by apply Forall_rev). cbn [rev]. by rewrite rev_involutive.
Qed.

Lemma tight_ends a s b : is_space a = false -> last (a :: s) = Some b -> is_space b = false -> tight (a :: s).
Proof.
  intros Ha Hl Hb. unfold tight, TrimSpace. rewrite <- (app_nil_r (a :: s)) at 1.
  by apply (trim_ends is_space [] a s b []).
Qed.

Lemma tight_inv s : tight s -> s = [] \/ exists a t b, s = a :: t /\ last s = Some b /\ is_space a = false /\ is_space b = false.
Proof.
  unfold tight, TrimSpace, trim. intros H.
  destruct (trim_left_inv is_space s) as [E|(a & t & E & Ha)]; rewrite E in H.
  { cbn in H. by left. }
  destruct (trim_left_inv is_space (rev (a :: t))) as [E2|(b & u & E2 & Hb)]; rewrite E2 in H.
  { by left. }
  right. assert (s = a :: t) as ->.
  { destruct s as [|c s]; [by destruct u|]. cbn [trim_left] in E. destruct (is_space c) eqn:Ec; [|done].
    assert (length (trim_left is_space s) <= length s)%nat as Hle.
    { clear. induction s as [|d s IH]; cbn [trim_left length]; [done|]. destruct (is_space d); cbn; lia. }
    assert (length (trim_left is_space (rev (a :: t))) <= length (rev (a :: t)))%nat as Hle2.
    { generalize (rev (a :: t)). clear. intros s. induction s as [|d s IH]; cbn [trim_left length]; [done|].
      destruct (is_space d); cbn; lia. }
    rewrite E in Hle. rewrite E2, length_rev in Hle2. apply (f_equal length) in H. rewrite length_rev in H.
    cbn [length] in *. lia. }
  exists a, t, b. split; [done|]. rewrite <- H. cbn [rev]. rewrite last_snoc. done.
Qed.

Lemma TrimSpace_pad pre s post :
  tight s -> s <> [] -> Forall (fun b => is_space b = true) pre -> Forall (fun b => is_space b = true) post ->
  TrimSpace (pre ++ s ++ post) = s.
Proof.
  intros Hs Hn H1 H2. destruct (tight_inv s Hs) as [->|(a & t & b & -> & Hl & Ha & Hb)]; [done|].
  unfold TrimSpace. by apply (trim_ends is_space pre a t b post).
Qed.

Lemma trim_left_idem f s : trim_left f (trim_left f s) = trim_left f s.
Proof. destruct (trim_left_inv f s) as [->|(b & t & -> & Hb)]; [done|]. cbn [trim_left]. by rewrite Hb. Qed.

Lemma HasPrefix_app p s : HasPrefix (p ++ s) p = true.
Proof. induction p as [|b p IH]; cbn [HasPrefix app]; [by destruct s|]. by rewrite is_byte_refl. Qed.

Lemma TrimPrefix_app p s : TrimPrefix (p ++ s) p = s.
Proof. unfold TrimPrefix. by rewrite HasPrefix_app, drop_length_app. Qed.

Lemma TrimSuffix_app s p : TrimSuffix (s ++ p) p = s.
Proof.
  unfold TrimSuffix, HasSuffix. rewrite rev_app_distr, HasPrefix_app, length_app.
  apply take_length_app. lia.
Qed.

(** A suffix of one character that is not the last one. *)
Lemma TrimSuffix_not s c : c ∉ s -> TrimSuffix s [c] = s.
Proof.
  intros Hc. unfold TrimSuffix, HasSuffix. cbn [rev app]. destruct (rev s) as [|b r] eqn:E; [done|]. cbn [HasPrefix].
  destruct (is_byte_spec c b) as [<-|]; [|done]. destruct Hc. apply (f_equal (@rev byte)) in E.
  rewrite rev_involutive in E. rewrite E. cbn [rev]. rewrite elem_of_app, list_elem_of_singleton. by right.
Qed.

Lemma SplitN2_app c l r : c ∉ l -> SplitN2 c (l ++ c :: r) = Some (l, r).
Proof.
  induction l as [|b l IH]; intros Hc; cbn [SplitN2 app]; [by rewrite is_byte_refl|].
  rewrite elem_of_cons in Hc. destruct (is_byte_spec c b) as [->|_]; [naive_solver|]. by rewrite IH by naive_solver.
Qed.

(** The position of a mark whose first character does not come before. *)
Lemma Index_app c p l r : c ∉ l -> Index (l ++ (c :: p) ++ r) (c :: p) = Some (length l).
Proof.
  induction l as [|b l IH]; intros Hc.
  - cbn [app length]. change (c :: p ++ r) with ((c :: p) ++ r). generalize (HasPrefix_app (c :: p) r).
    cbn [app Index]. by intros ->.
  - rewrite elem_of_cons in Hc. cbn [app Index HasPrefix length].
    destruct (is_byte_spec c b) as [->|_]; [naive_solver|]. cbn [andb].
    cbn [app] in IH. rewrite IH by naive_solver. done.
Qed.

Lemma Index_none c p s : c ∉ s -> Index s (c :: p) = None.
Proof.
  induction s as [|b s IH]; intros Hc; cbn [Index HasPrefix]; [done|]. rewrite elem_of_cons in Hc.
  destruct (is_byte_spec c b) as [->|_]; [naive_solver|]. cbn [andb]. by rewrite IH by naive_solver.
Qed.

(** *** Words *)

Definition blank_free (w : bytes) : Prop := w <> [] /\ Forall (fun b => is_space b = false) w.

Fixpoint unwords (ws : list bytes) : bytes :=
  match ws with
  | [] => []
  | [w] => w
  | w :: ws => w ++ Byte.x20 :: unwords ws
  end.

Lemma Fields_word w r : blank_free w -> Fields (w ++ Byte.x20 :: r) = w :: Fields r.
Proof.
  intros [Hn Hw]. destruct Hw as [|b w Hb Hw]; [done|]. clear Hn. revert b Hb.
  induction Hw as [|c w Hc Hw IH]; intros b Hb; cbn [app].
  - cbn [Fields]. rewrite Hb. done.
  - specialize (IH c Hc). cbn [app] in IH. change (Fields (b :: c :: w ++ Byte.x20 :: r)) with
      (if is_space b then Fields (c :: w ++ Byte.x20 :: r) else
       if is_space c then [b] :: Fields (c :: w ++ Byte.x20 :: r) else
       match Fields (c :: w ++ Byte.x20 :: r) with x :: ws => (b :: x) :: ws | [] => [[b]] end).
    by rewrite Hb, Hc, IH.
Qed.

Lemma Fields_last w : blank_free w -> Fields w = [w].
Proof.
  intros [Hn Hw]. destruct Hw as [|b w Hb Hw]; [done|]. clear Hn. revert b Hb.
  induction Hw as [|c w Hc Hw IH]; intros b Hb; [cbn [Fields]; by rewrite Hb|].
  specialize (IH c Hc). change (Fields (b :: c :: w)) with
      (if is_space b then Fields (c :: w) else
       if is_space c then [b] :: Fields (c :: w) else
       match Fields (c :: w) with x :: ws => (b :: x) :: ws | [] => [[b]] end).
  by rewrite Hb, Hc, IH.
Qed.

Lemma Fields_unwords ws : Forall blank_free ws -> Fields (unwords ws) = ws.
Proof.
  induction 1 as [|w ws Hw Hws IH]; [done|]. destruct ws as [|v ws]; [by apply Fields_last|].
  change (unwords (w :: v :: ws)) with (w ++ Byte.x20 :: unwords (v :: ws)). by rewrite Fields_word, IH.
Qed.

Lemma blank_free_tight w : blank_free w -> tight w.
Proof.
  intros [Hn Hw]. destruct w as [|a w]; [done|]. destruct (last (a :: w)) as [b|] eqn:E.
  - apply (tight_ends a w b); [by inversion_clear Hw|done|]. rewrite Forall_forall in Hw. apply Hw.
    by apply last_Some_elem_of.
  - by apply last_None in E.
Qed.

(** *** Numbers *)

Lemma digit_of_show d : 0 <= d < 10 -> digit_of (Zbyte (48 + d)) = Some d.
Proof.
  intros Hd. unfold digit_of. rewrite byteZ_Zbyte, Z.mod_small by lia.
  rewrite (proj2 (Z.leb_le 48 _)), (proj2 (Z.leb_le _ 57)) by lia. cbn [andb]. f_equal. lia.
Qed.

Lemma decimal_show_digits fuel n acc :
  0 <= n < 2 ^ Z.of_nat fuel -> decimal (show_digits fuel n acc) 0 = decimal acc n.
Proof.
  revert n acc. induction fuel as [|fuel IH]; intros n acc Hn.
  { assert (n = 0) as -> by (cbn in Hn; lia). done. }
  cbn [show_digits]. destruct (Z.ltb_spec n 10).
  - rewrite Z.mod_small by lia. cbn [decimal]. by rewrite digit_of_show by lia.
  - rewrite IH.
    + cbn [decimal]. rewrite digit_of_show by (apply Z.mod_pos_bound; lia). f_equal.
      pose proof (Z.div_mod n 10). lia.
    + split; [apply Z.div_pos; lia|]. apply Z.div_lt_upper_bound; [lia|].
      replace (Z.of_nat (S fuel)) with (1 + Z.of_nat fuel) in Hn by lia. rewrite Z.pow_add_r in Hn by lia. lia.
Qed.

Lemma show_fuel n : 0 <= n -> n < 2 ^ Z.of_nat (S (Z.to_nat (Z.log2 n))).
Proof.
  intros Hn. rewrite Nat2Z.inj_succ, Z2Nat.id by apply Z.log2_nonneg.
  destruct (Z.eq_dec n 0) as [->|]; [done|]. apply Z.log2_spec. lia.
Qed.

Lemma decimal_show n : 0 <= n -> decimal (show n) 0 = Some n.
Proof. intros Hn. unfold show. rewrite decimal_show_digits; [done|]. split; [done|by apply show_fuel]. Qed.

Definition is_digit_byte (b : byte) : Prop := exists d, 0 <= d < 10 /\ b = Zbyte (48 + d).

Lemma show_digits_digits fuel n acc :
  Forall is_digit_byte acc -> Forall is_digit_byte (show_digits fuel n acc).
Proof.
  revert n acc. induction fuel as [|fuel IH]; intros n acc Ha; cbn [show_digits]; [done|].
  assert (Forall is_digit_byte (Zbyte (48 + n mod 10) :: acc)) as H.
  { constructor; [|done]. exists (n mod 10). split; [apply Z.mod_pos_bound; lia|done]. }
  destruct (n <? 10); [done|by apply IH].
Qed.

Lemma show_digits_nonempty fuel n acc : acc <> [] -> show_digits fuel n acc <> [].
Proof.
  revert n acc. induction fuel as [|fuel IH]; intros n acc Ha; cbn [show_digits]; [done|].
  destruct (n <? 10); [done|by apply IH].
Qed.

Lemma show_digit_bytes n : Forall is_digit_byte (show n).
Proof. apply show_digits_digits. constructor. Qed.

Lemma show_nonempty n : show n <> [].
Proof. unfold show. cbn [show_digits]. destruct (n <? 10); [done|by apply show_digits_nonempty]. Qed.

Lemma digit_byte_cases b : is_digit_byte b ->
  b ∈ [Byte.x30; Byte.x31; Byte.x32; Byte.x33; Byte.x34; Byte.x35; Byte.x36; Byte.x37; Byte.x38; Byte.x39].
Proof.
  intros (d & Hd & ->). assert (d ∈ [0;1;2;3;4;5;6;7;8;9]) as H.
  { rewrite !elem_of_cons, elem_of_nil. lia. }
  repeat (apply elem_of_cons in H as [->|H]; [apply (bool_decide_unpack _); by vm_compute|]).
  by apply elem_of_nil in H.
Qed.

Lemma ParseUint_show bits n : 0 <= n < 2 ^ bits -> ParseUint bits (show n) = Some n.
Proof.
  intros Hn. unfold ParseUint. pose proof (show_nonempty n) as Hs. destruct (show n) as [|b s] eqn:E; [done|].
  rewrite <- E, decimal_show by lia. by rewrite (proj2 (Z.ltb_lt _ _)) by lia.
Qed.

Lemma Atoi_show n : 0 <= n < 2 ^ 63 -> Atoi (show n) = Some n.
Proof.
  intros Hn. unfold Atoi. pose proof (show_nonempty n) as Hs. pose proof (show_digit_bytes n) as Hd.
  destruct (show n) as [|b s] eqn:E; [done|]. inversion_clear Hd as [|? ? Hb _].
  apply digit_byte_cases in Hb.
  assert (is_byte b Byte.x2d = false /\ is_byte b Byte.x2b = false) as [-> ->].
  { repeat (apply elem_of_cons in Hb as [->|Hb]; [done|]). by apply elem_of_nil in Hb. }
  rewrite <- E, decimal_show by lia.
  by rewrite (proj2 (Z.leb_le _ _)), (proj2 (Z.ltb_lt _ _)) by lia.
Qed.

(** *** Lines *)

Lemma Split_nonempty c s : Split c s <> [].
Proof. destruct s as [|b s]; cbn [Split]; [done|]. destruct (is_byte c b); [done|]. by destruct (Split c s). Qed.

Lemma Split_line c l r : c ∉ l -> Split c (l ++ c :: r) = l :: Split c r.
Proof.
  induction l as [|b l IH]; intros Hc; cbn [Split app]; [by rewrite is_byte_refl|].
  rewrite elem_of_cons in Hc. destruct (is_byte_spec c b) as [->|_]; [naive_solver|]. by rewrite IH by naive_solver.
Qed.

Lemma raw_lines_lines ls :
  Forall (fun l => newline ∉ l) ls -> raw_lines (concat (map (fun l => l ++ [newline]) ls)) = ls.
Proof.
  intros H. unfold raw_lines.
  assert (Split newline (concat (map (fun l => l ++ [newline]) ls)) = ls ++ [[]]) as ->.
  { induction H as [|l ls Hl _ IH]; [done|]. cbn [map concat]. rewrite <- app_assoc. cbn [app].
    by rewrite Split_line, IH. }
  rewrite rev_app_distr. cbn [rev app]. by rewrite rev_involutive.
Qed.
