(* ===== verification/ProtoParser.v ===== *)
(** * The parser of proto files ([codegen/parser.go], [avp.go], [command.go])

    Definitions of AVPs are shared by pointers: a field points at the
    definition that its parser knew, or at a placeholder, until
    [ResolveAVPReferences] redirects it.  The definitions are kept in a heap,
    which [NewProtoParser] takes over from the parsers before it, because
    [cmd/diameter-codegen] shares definitions between parsers.  A function that
    fails leaves what it has stored; its result is a pair. *)

From S2P Require Import Prelude DataTypes GoText.

Abbreviation pointer := Z.

Record AVPField := {
  AVP : pointer;
  FieldName : bytes;
  Fixed : bool;
  Required : bool;
  Repeated : bool;
  Position : Z }.

Record AVPDefinition := {
  Name : bytes;
  Code : Z;
  Type_ : Z;
  TypeName : bytes;
  Must : bool;
  MayEncrypt : bool;
  VendorID : Z;
  GroupedFields : list AVPField }.

Record CommandDefinition := {
  cmd_Name : bytes;
  Abbreviation_ : bytes;
  cmd_Code : Z;
  cmd_ApplicationID : Z;
  cmd_Request : bool;
  cmd_Proxiable : bool;
  cmd_Package : bytes;
  cmd_Fields : list AVPField }.

Record EnumDefinition := { enum_Name : bytes; Values : gmap bytes Z }.

Record ProtoParser := {
  heap : gmap pointer AVPDefinition;
  fresh_pointer : pointer;
  AVPs : gmap bytes pointer;
  Commands : list CommandDefinition;
  Consts : gmap bytes Z;
  Enums : gmap bytes EnumDefinition;
  Package : bytes;
  GoPackage : bytes;
  PackageName : bytes }.

Definition NewProtoParser (heap : gmap pointer AVPDefinition) (fresh : pointer) : ProtoParser :=
  {| heap := heap; fresh_pointer := fresh; AVPs := ∅; Commands := []; Consts := ∅; Enums := ∅;
     Package := []; GoPackage := []; PackageName := [] |}.

Definition alloc (a : AVPDefinition) (p : ProtoParser) : pointer * ProtoParser :=
  (fresh_pointer p, p <| heap ::= <[fresh_pointer p := a]> |> <| fresh_pointer ::= Z.succ |>).

Inductive proto_error : Type :=
| ErrTooLong
| ErrConstDeclaration (line : bytes)
| ErrConstValue (name : bytes)
| ErrAVPDeclaration (line : bytes)
| ErrAVPCode (name : bytes)
| ErrAVPVendor (name : bytes)
| ErrCommandDeclaration (line : bytes)
| ErrCommandCode (name : bytes)
| ErrCommandApplication (name : bytes)
| ErrFieldDefinition (line : bytes)
| ErrEnumDeclaration (line : bytes)
| ErrEnumValue (name value : bytes).

Abbreviation result A := (outcome proto_error A).

(** ** Characters and words of the language *)

Definition c_brace : byte := Byte.x7b.
Definition c_close : byte := Byte.x7d.
Definition c_semi : byte := Byte.x3b.
Definition c_equal : byte := Byte.x3d.
Definition c_space : byte := Byte.x20.
Definition c_slash : byte := Byte.x2f.
Definition w_comment : bytes := [c_slash; c_slash].

Definition is_word (s : bytes) (w : String.string) : bool := bool_decide (s = gostr w).

(** A line that every loop skips. *)
Definition skipped (line : bytes) : bool := bool_decide (line = []) || HasPrefix line w_comment.

Definition cut_comment (line : bytes) : bytes :=
  match Index line w_comment with Some idx => TrimSpace (take idx line) | None => line end.

(** The name in the first line of a block. *)
Definition block_name (part : bytes) : bytes := TrimSpace (TrimSuffix part [c_brace]).

(** ** [toCamelCase], [generateAbbreviation] *)

Definition toCamelCase (s : bytes) : bytes :=
  concat (map (fun part => match part with b :: t => ToUpper b :: t | [] => [] end) (Split Byte.x5f s)).

Definition generateAbbreviation (name : bytes) : bytes :=
  concat (map (fun part => match part with b :: _ => [ToUpper b] | [] => [] end) (Split Byte.x2d name)).

(** ** [parseConst] *)

Definition parseConst (line : bytes) (p : ProtoParser) : ProtoParser * result unit :=
  let line := TrimSuffix (cut_comment (TrimPrefix line (gostr "const "))) [c_semi] in
  match SplitN2 c_equal line with
  | None => (p, Err (ErrConstDeclaration line))
  | Some (l, r) =>
      let name := TrimSpace l in
      match ParseUint 64 (TrimSpace r) with
      | None => (p, Err (ErrConstValue name))
      | Some value => (p <| Consts ::= <[name := value]> |>, Ok tt)
      end
  end.

(** ** [parseEnumBlock] *)

(** Its loop, over the lines between the first and the last. *)
Fixpoint enum_values (name : bytes) (lines : list bytes) (vs : gmap bytes Z) : result (gmap bytes Z) :=
  match lines with
  | [] => Ok vs
  | line :: lines =>
      let line := TrimSpace line in
      if skipped line then enum_values name lines vs
      else
        match SplitN2 c_equal (TrimSuffix (cut_comment line) [c_semi]) with
        | None => enum_values name lines vs
        | Some (l, r) =>
            let valueName := TrimSpace l in
            match ParseUint 32 (TrimSpace r) with
            | None => Err (ErrEnumValue name valueName)
            | Some value => enum_values name lines (<[valueName := value]> vs)
            end
        end
  end.

Definition parseEnumBlock (first : bytes) (lines : list bytes) (p : ProtoParser)
  : ProtoParser * result unit :=
  let firstLine := TrimSpace first in
  match Fields firstLine with
  | _ :: part :: _ =>
      let name := block_name part in
      match enum_values name (removelast lines) ∅ with
      | Ok vs => (p <| Enums ::= <[name := {| enum_Name := name; Values := vs |}]> |>, Ok tt)
      | Err e => (p, Err e)
      | Panic => (p, Panic)
      end
  | _ => (p, Err (ErrEnumDeclaration firstLine))
  end.

(** ** Fields *)

(** The definition of a name that is not known, and of the generic [AVP]. *)
Definition placeholder (name : bytes) : AVPDefinition :=
  {| Name := name; Code := 0; Type_ := UnknownType; TypeName := gostr "OctetString"; Must := false;
     MayEncrypt := false; VendorID := 0; GroupedFields := [] |}.

Definition field_avp (avpName : bytes) (p : ProtoParser) : pointer * ProtoParser :=
  if is_word avpName "AVP" then alloc (placeholder avpName) p
  else match AVPs p !! avpName with
       | Some a => (a, p)
       | None => alloc (placeholder avpName) p
       end.

(** What follows the names: [= 3]. *)
Definition field_position (parts : list bytes) : Z :=
  match parts with
  | eq :: posStr :: _ =>
      if is_word eq "=" then default 0 (Atoi (TrimSuffix posStr [c_semi])) else 0
  | _ => 0
  end.

(** The names and the position, after the modifiers. *)
Definition field_names (parts : list bytes) (fixed required repeated : bool) (p : ProtoParser)
  : ProtoParser * result AVPField :=
  match parts with
  | avpName :: fieldName :: rest =>
      let '(a, p) := field_avp avpName p in
      (p, Ok {| AVP := a; FieldName := toCamelCase fieldName; Fixed := fixed; Required := required;
                Repeated := repeated; Position := field_position rest |})
  | _ => (p, Panic)
  end.

Definition one_field (r : ProtoParser * result AVPField) : ProtoParser * result (list AVPField) :=
  match r with
  | (p, Ok f) => (p, Ok [f])
  | (p, Err e) => (p, Err e)
  | (p, Panic) => (p, Panic)
  end.

(** One line of [parseGroupedFields]; it takes at most one modifier. *)
Definition grouped_field (line : bytes) (p : ProtoParser) : ProtoParser * result (list AVPField) :=
  let line := TrimSpace line in
  if skipped line then (p, Ok [])
  else
    let parts := Fields (TrimSuffix (cut_comment line) [c_semi]) in
    if (len parts <? 4) then (p, Ok [])
    else
      match parts with
      | w :: rest =>
          if is_word w "optional" then one_field (field_names rest false false false p)
          else if is_word w "required" then one_field (field_names rest false true false p)
          else if is_word w "repeated" then one_field (field_names rest false false true p)
          else one_field (field_names parts false false false p)
      | [] => (p, Panic)
      end.

Fixpoint parseGroupedFields (lines : list bytes) (fields : list AVPField) (p : ProtoParser)
  : ProtoParser * result (list AVPField) :=
  match lines with
  | [] => (p, Ok fields)
  | line :: lines =>
      match grouped_field line p with
      | (p, Ok fs) => parseGroupedFields lines (fields ++ fs) p
      | (p, Err e) => (p, Err e)
      | (p, Panic) => (p, Panic)
      end
  end.

(** The loop over the modifiers of [parseFieldDefinition]. *)
Fixpoint field_modifiers (parts : list bytes) (fixed required repeated : bool)
  : list bytes * (bool * bool * bool) :=
  match parts with
  | w :: rest =>
      if is_word w "fixed" then field_modifiers rest true required repeated
      else if is_word w "repeated" then field_modifiers rest fixed required true
      else if is_word w "required" then field_modifiers rest fixed true repeated
      else if is_word w "optional" then field_modifiers rest fixed false repeated
      else (parts, (fixed, required, repeated))
  | [] => ([], (fixed, required, repeated))
  end.

Definition parseFieldDefinition (line : bytes) (cmd : CommandDefinition) (p : ProtoParser)
  : ProtoParser * result CommandDefinition :=
  let parts := Fields line in
  if len parts <? 4 then (p, Err (ErrFieldDefinition line))
  else
    let '(parts, (fixed, required, repeated)) := field_modifiers parts false false false in
    match field_names parts fixed required repeated p with
    | (p, Ok f) => (p, Ok (cmd <| cmd_Fields ::= fun l => l ++ [f] |>))
    | (p, Err e) => (p, Err e)
    | (p, Panic) => (p, Panic)
    end.

(** ** [parseCommandBlock] *)

Definition command_line (line : bytes) (cmd : CommandDefinition) (p : ProtoParser)
  : ProtoParser * result CommandDefinition :=
  let line := TrimSpace line in
  if skipped line then (p, Ok cmd)
  else
    let line := TrimSuffix (cut_comment line) [c_semi] in
    match SplitN2 c_equal line with
    | None => (p, Ok cmd)
    | Some (l, r) =>
        let key := TrimSpace l in
        let value := TrimSpace r in
        if ContainsByte key c_space then parseFieldDefinition line cmd p
        else if is_word key "code" then
          match ParseUint 32 value with
          | Some code => (p, Ok (cmd <| cmd_Code := code |>))
          | None => (p, Err (ErrCommandCode (cmd_Name cmd)))
          end
        else if is_word key "application_id" then
          match ParseUint 32 value with
          | Some appID => (p, Ok (cmd <| cmd_ApplicationID := appID |>))
          | None => (p, Err (ErrCommandApplication (cmd_Name cmd)))
          end
        else if is_word key "request" then (p, Ok (cmd <| cmd_Request := is_word value "true" |>))
        else if is_word key "proxiable" then (p, Ok (cmd <| cmd_Proxiable := is_word value "true" |>))
        else (p, Ok cmd)
    end.

Fixpoint command_lines (lines : list bytes) (cmd : CommandDefinition) (p : ProtoParser)
  : ProtoParser * result CommandDefinition :=
  match lines with
  | [] => (p, Ok cmd)
  | line :: lines =>
      match command_line line cmd p with
      | (p, Ok cmd) => command_lines lines cmd p
      | r => r
      end
  end.

Definition new_command (name : bytes) : CommandDefinition :=
  {| cmd_Name := name; Abbreviation_ := []; cmd_Code := 0; cmd_ApplicationID := 0; cmd_Request := false;
     cmd_Proxiable := false; cmd_Package := []; cmd_Fields := [] |}.

Definition parseCommandBlock (first : bytes) (lines : list bytes) (p : ProtoParser)
  : ProtoParser * result unit :=
  let firstLine := TrimSpace first in
  match Fields firstLine with
  | _ :: part :: _ =>
      let name := block_name part in
      match command_lines (removelast lines) (new_command name) p with
      | (p, Ok cmd) =>
          let cmd := cmd <| Abbreviation_ := generateAbbreviation name |> <| cmd_Package := PackageName p |> in
          (p <| Commands ::= fun l => l ++ [cmd] |>, Ok tt)
      | (p, Err e) => (p, Err e)
      | (p, Panic) => (p, Panic)
      end
  | _ => (p, Err (ErrCommandDeclaration firstLine))
  end.

(** ** [parseAVPBlock] *)

(** One part of the body of a block on a single line. *)
Definition expand_part (part : bytes) : list bytes :=
  let part := TrimSpace part in
  if bool_decide (part = []) then []
  else if is_word part "grouped {" || is_word part "grouped { }" then [gostr "grouped {"; [c_close]]
  else if HasPrefix part (gostr "grouped {") then [part]
  else [part ++ [c_semi]].

(** A block on a single line becomes one on several. *)
Definition expand_single (first : bytes) (lines : list bytes) : bytes * list bytes :=
  match lines with
  | [] =>
      let line := TrimSpace first in
      match Index line [c_brace] with
      | Some openIdx =>
          if HasSuffix line [c_close] then
            let header := TrimSpace (take openIdx line) in
            let body := TrimSpace (slice line (Z.of_nat openIdx + 1) (len line - 1)) in
            (header ++ gostr " {", concat (map expand_part (Split c_semi body)) ++ [[c_close]])
          else (first, lines)
      | None => (first, lines)
      end
  | _ => (first, lines)
  end.

Definition avp_property (line : bytes) (avp : AVPDefinition) : result AVPDefinition :=
  match SplitN2 c_equal (TrimSuffix line [c_semi]) with
  | None => Ok avp
  | Some (l, r) =>
      let key := TrimSpace l in
      let value := TrimSpace r in
      if is_word key "code" then
        match ParseUint 32 value with
        | Some code => Ok (avp <| Code := code |>)
        | None => Err (ErrAVPCode (Name avp))
        end
      else if is_word key "type" then
        let avp := avp <| TypeName := value |> in
        match Available !! value with
        | Some typeID => Ok (avp <| Type_ := typeID |>)
        | None => Ok avp
        end
      else if is_word key "must" then Ok (avp <| Must := is_word value "true" |>)
      else if is_word key "may_encrypt" then Ok (avp <| MayEncrypt := is_word value "true" |>)
      else if is_word key "vendor_id" then
        match ParseUint 32 value with
        | Some vendorID => Ok (avp <| VendorID := vendorID |>)
        | None => Err (ErrAVPVendor (Name avp))
        end
      else Ok avp
  end.

(** The loop; [grouped] holds the lines of an open [grouped] block. *)
Fixpoint avp_lines (lines : list bytes) (grouped : option (list bytes)) (avp : AVPDefinition)
    (p : ProtoParser) : ProtoParser * result AVPDefinition :=
  match lines with
  | [] => (p, Ok avp)
  | line :: lines =>
      let line := TrimSpace line in
      if skipped line then avp_lines lines grouped avp p
      else if HasPrefix line (gostr "grouped {") then avp_lines lines (Some []) avp p
      else
        match grouped with
        | Some ls =>
            if bool_decide (line = [c_close]) then
              match parseGroupedFields ls (GroupedFields avp) p with
              | (p, Ok fs) => avp_lines lines None (avp <| GroupedFields := fs |>) p
              | (p, Err e) => (p, Err e)
              | (p, Panic) => (p, Panic)
              end
            else avp_lines lines (Some (ls ++ [line])) avp p
        | None =>
            match avp_property line avp with
            | Ok avp => avp_lines lines None avp p
            | r => (p, r)
            end
        end
  end.

Definition new_avp (name : bytes) : AVPDefinition :=
  {| Name := name; Code := 0; Type_ := UnknownType; TypeName := []; Must := false; MayEncrypt := false;
     VendorID := 0; GroupedFields := [] |}.

Definition parseAVPBlock (first : bytes) (lines : list bytes) (p : ProtoParser)
  : ProtoParser * result unit :=
  let '(first, lines) := expand_single first lines in
  let firstLine := TrimSpace first in
  match Fields firstLine with
  | _ :: part :: _ =>
      let name := block_name part in
      match avp_lines lines None (new_avp name) p with
      | (p, Ok avp) =>
          let '(a, p) := alloc avp p in
          (p <| AVPs ::= <[name := a]> |>, Ok tt)
      | (p, Err e) => (p, Err e)
      | (p, Panic) => (p, Panic)
      end
  | _ => (p, Err (ErrAVPDeclaration firstLine))
  end.

(** ** [ParseFile] *)

Inductive block_kind : Type := BlockAVP | BlockCommand | BlockEnum.

(** [currentBlock] and [blockLines]: the first line, and the others. *)
Abbreviation block := (option (block_kind * bytes * list bytes)).

Definition depth_of (depth : Z) (line : bytes) : Z :=
  foldl (fun d b => if is_byte b c_brace then d + 1 else if is_byte b c_close then d - 1 else d) depth line.
Definition block_depth (first : bytes) (lines : list bytes) : Z := foldl depth_of 0 (first :: lines).

Definition parse_block (k : block_kind) (first : bytes) (lines : list bytes) (p : ProtoParser)
  : ProtoParser * result unit :=
  match k with
  | BlockAVP => parseAVPBlock first lines p
  | BlockCommand => parseCommandBlock first lines p
  | BlockEnum => parseEnumBlock first lines p
  end.

(** Where a line leaves the blocks, before the braces are counted. *)
Definition in_block (line : bytes) (b : block) : block :=
  if HasPrefix line (gostr "avp ") then Some (BlockAVP, line, [])
  else if HasPrefix line (gostr "command ") then Some (BlockCommand, line, [])
  else if HasPrefix line (gostr "enum ") then Some (BlockEnum, line, [])
  else match b with Some (k, first, lines) => Some (k, first, lines ++ [line]) | None => None end.

Definition go_package_option (line : bytes) (p : ProtoParser) : ProtoParser :=
  match Split c_equal line with
  | _ :: part :: _ =>
      let goPackage := Trim (TrimSpace part) [Byte.x22; Byte.x27; c_semi] in
      p <| GoPackage := goPackage |> <| PackageName := List.last (Split c_slash goPackage) [] |>
  | _ => p
  end.

(** One iteration of the loop, on a line without the spaces around it. *)
Definition parse_line (line : bytes) (b : block) (p : ProtoParser) : ProtoParser * result block :=
  if skipped line then (p, Ok b)
  else if HasPrefix line (gostr "syntax") then (p, Ok b)
  else if HasPrefix line (gostr "package ") then
    match Fields line with
    | _ :: part :: _ => (p <| Package := TrimSuffix part [c_semi] |>, Ok b)
    | _ => (p, Ok b)
    end
  else if HasPrefix line (gostr "option go_package") then (go_package_option line p, Ok b)
  else if HasPrefix line (gostr "const ") then
    match parseConst line p with
    | (p, Ok _) => (p, Ok b)
    | (p, Err e) => (p, Err e)
    | (p, Panic) => (p, Panic)
    end
  else
    match in_block line b with
    | Some (k, first, lines) =>
        if block_depth first lines =? 0 then
          match parse_block k first lines p with
          | (p, Ok _) => (p, Ok None)
          | (p, Err e) => (p, Err e)
          | (p, Panic) => (p, Panic)
          end
        else (p, Ok (Some (k, first, lines)))
    | None => (p, Ok None)
    end.

Fixpoint parse_lines (lines : list bytes) (b : block) (p : ProtoParser) : ProtoParser * result unit :=
  match lines with
  | [] => (p, Ok tt)
  | raw :: lines =>
      if MaxScanTokenSize <=? len raw then (p, Err ErrTooLong)
      else
        match parse_line (TrimSpace (dropCR raw)) b p with
        | (p, Ok b) => parse_lines lines b p
        | (p, Err e) => (p, Err e)
        | (p, Panic) => (p, Panic)
        end
  end.

(** [ParseFile], on the contents of the file. *)
Definition ParseFile (text : bytes) (p : ProtoParser) : ProtoParser * result unit :=
  parse_lines (raw_lines text) None p.

(** ** [ResolveAVPReferences] *)

Definition resolve_field (p : ProtoParser) (field : AVPField) : AVPField :=
  match heap p !! AVP field with
  | Some a =>
      if is_word (Name a) "AVP" then field
      else match AVPs p !! Name a with
           | Some a' =>
               match heap p !! a' with
               | Some resolved => if Code resolved =? 0 then field else field <| AVP := a' |>
               | None => field
               end
           | None => field
           end
  | None => field
  end.

Definition resolve_command (p : ProtoParser) (cmd : CommandDefinition) : CommandDefinition :=
  cmd <| cmd_Fields ::= map (resolve_field p) |>.

(** One iteration of the loop over the definitions. *)
Definition resolve_avp (p : ProtoParser) (name : bytes) : ProtoParser :=
  match AVPs p !! name with
  | Some a => p <| heap ::= alter (fun avp => avp <| GroupedFields ::= map (resolve_field p) |>) a |>
  | None => p
  end.

(** The order of [range p.AVPs] is an argument. *)
Definition ResolveAVPReferences (order : list bytes) (p : ProtoParser) : ProtoParser :=
  foldl resolve_avp (p <| Commands ::= map (resolve_command p) |>) order.

(** ** The parsers of a directory ([cmd/diameter-codegen/main.go])

    [processProtoDirectory], up to what it gives the generator: every file is
    parsed twice, first to collect the definitions of all files in one
    registry, whose references are resolved, then for its commands, which are
    resolved against the registry.  [order k] is the order of the [k]-th range
    over the registry. *)

Fixpoint collect (files : list bytes) (complete : gmap bytes pointer) (heap_ : gmap pointer AVPDefinition)
    (fresh : pointer) : result ProtoParser :=
  match files with
  | [] => Ok ((NewProtoParser heap_ fresh) <| AVPs := complete |>)
  | text :: files =>
      match ParseFile text (NewProtoParser heap_ fresh) with
      | (p, Ok _) => collect files (AVPs p ∪ complete) (heap p) (fresh_pointer p)
      | (_, Err e) => Err e
      | (_, Panic) => Panic
      end
  end.

Fixpoint generate (order : nat -> list bytes) (k : nat) (files : list bytes) (complete : gmap bytes pointer)
    (heap_ : gmap pointer AVPDefinition) (fresh : pointer) : result (list ProtoParser) :=
  match files with
  | [] => Ok []
  | text :: files =>
      match ParseFile text (NewProtoParser heap_ fresh) with
      | (p, Ok _) =>
          let p := ResolveAVPReferences (order k) (p <| AVPs := complete |>) in
          match generate order (S k) files complete (heap p) (fresh_pointer p) with
          | Ok ps => Ok (p :: ps)
          | r => r
          end
      | (_, Err e) => Err e
      | (_, Panic) => Panic
      end
  end.

Definition processProtoDirectory (order : nat -> list bytes) (files : list bytes) : result (list ProtoParser) :=
  match collect files ∅ ∅ 0 with
  | Ok r =>
      let r := ResolveAVPReferences (order O) r in
      generate order 1 files (AVPs r) (heap r) (fresh_pointer r)
  | Err e => Err e
  | Panic => Panic
  end.
