(* ===== verification/ProtoTheorems.v ===== *)
(** * What the parser of proto files builds

    A well-formedness invariant of the parser, which every text preserves
    (numbers within their types, pointers that are defined, names under which
    definitions are filed), and the exact effect of [ResolveAVPReferences]. *)

From S2P Require Import Prelude DataTypes GoText ProtoParser.

(** ** Well-formed parsers *)

Record field_ok (h : gmap pointer AVPDefinition) (f : AVPField) : Prop := {
  fo_avp : is_Some (h !! AVP f);
  fo_name : Byte.x5f ∉ FieldName f;
  fo_position : i64 (Position f) }.

Record avp_ok (h : gmap pointer AVPDefinition) (d : AVPDefinition) : Prop := {
  ao_code : u32 (Code d);
  ao_vendor : u32 (VendorID d);
  ao_type : 0 <= Type_ d <= 18;
  ao_fields : Forall (field_ok h) (GroupedFields d) }.

Record command_ok (h : gmap pointer AVPDefinition) (c : CommandDefinition) : Prop := {
  co_code : u32 (cmd_Code c);
  co_application : u32 (cmd_ApplicationID c);
  co_fields : Forall (field_ok h) (cmd_Fields c) }.

Definition enum_ok (name : bytes) (e : EnumDefinition) : Prop :=
  enum_Name e = name /\ map_Forall (fun _ v => u32 v) (Values e).

Record parser_wf (p : ProtoParser) : Prop := {
  pw_fresh a : is_Some (heap p !! a) -> a < fresh_pointer p;
  pw_heap a d : heap p !! a = Some d -> avp_ok (heap p) d;
  pw_avps n a : AVPs p !! n = Some a -> exists d, heap p !! a = Some d /\ Name d = n;
  pw_commands : Forall (command_ok (heap p)) (Commands p);
  pw_consts : map_Forall (fun _ v => u64 v) (Consts p);
  pw_enums : map_Forall enum_ok (Enums p) }.

(** Definitions that are there stay as they are. *)
Definition extends (p p' : ProtoParser) : Prop := heap p ⊆ heap p'.

Lemma extends_refl p : extends p p.
Proof. unfold extends. reflexivity. Qed.
Lemma extends_trans p q r : extends p q -> extends q r -> extends p r.
Proof. unfold extends. intros H1 H2. by etrans. Qed.

Lemma field_ok_mono h h' f : h ⊆ h' -> field_ok h f -> field_ok h' f.
Proof. intros Hh [H1 H2 H3]. split; try done. by eapply lookup_weaken_is_Some. Qed.

Lemma fields_ok_mono h h' fs : h ⊆ h' -> Forall (field_ok h) fs -> Forall (field_ok h') fs.
Proof. intros Hh H. eapply Forall_impl; [exact H|]. intros f. by apply field_ok_mono. Qed.

Lemma avp_ok_mono h h' d : h ⊆ h' -> avp_ok h d -> avp_ok h' d.
Proof. intros Hh [H1 H2 H3 H4]. split; try done. by eapply fields_ok_mono. Qed.

Lemma command_ok_mono h h' c : h ⊆ h' -> command_ok h c -> command_ok h' c.
Proof. intros Hh [H1 H2 H3]. split; try done. by eapply fields_ok_mono. Qed.

Lemma avp_ok_same d d' :
  Code d' = Code d -> VendorID d' = VendorID d -> Type_ d' = Type_ d -> GroupedFields d' = GroupedFields d ->
  forall h, avp_ok h d -> avp_ok h d'.
Proof. intros H1 H2 H3 H4 h [I1 I2 I3 I4]. by split; rewrite ?H1, ?H2, ?H3, ?H4. Qed.

(** What a function of the parser does to it. *)
Record good (p p' : ProtoParser) : Prop := {
  go_wf : parser_wf p';
  go_extends : extends p p' }.

Lemma good_refl p : parser_wf p -> good p p.
Proof. split; [done|apply extends_refl]. Qed.
Lemma good_trans p q r : good p q -> good q r -> good p r.
Proof. intros [H1 H2] [H3 H4]. split; [done|by eapply extends_trans]. Qed.

Lemma alloc_good d p :
  parser_wf p -> avp_ok (heap p) d ->
  good p (alloc d p).2 /\ heap (alloc d p).2 !! (alloc d p).1 = Some d.
Proof.
  intros Hp Hd. destruct Hp as [I1 I2 I3 I4 I5 I6].
  assert (heap p !! fresh_pointer p = None) as Hn.
  { destruct (heap p !! fresh_pointer p) eqn:E; [|done]. specialize (I1 (fresh_pointer p) ltac:(by eexists)). lia. }
  assert (heap p ⊆ <[fresh_pointer p := d]> (heap p)) as Hs by by apply insert_subseteq.
  split; [|apply lookup_insert_eq]. split; [|exact Hs].
  unfold alloc. cbn [fst snd]. split; rsimpl; try done.
  - intros a [x Hx]. change (<[fresh_pointer p := d]> (heap p) !! a = Some x) in Hx. apply lookup_insert_Some in Hx as [[<- _]|[_ Hx]]; [lia|].
    specialize (I1 a ltac:(by eexists)). lia.
  - intros a x Hx. change (<[fresh_pointer p := d]> (heap p) !! a = Some x) in Hx.
    apply lookup_insert_Some in Hx as [[_ <-]|[_ Hx]]; eapply avp_ok_mono; eauto.
  - intros n a Ha. destruct (I3 n a Ha) as (x & Hx & Hnm). exists x. split; [|done]. by eapply lookup_weaken.
  - eapply Forall_impl; [exact I4|]. intros c. by apply command_ok_mono.
Qed.

(** ** Values of the right range *)

Lemma digit_of_nonneg b d : digit_of b = Some d -> 0 <= d.
Proof. unfold digit_of. destruct (_ && _) eqn:E; [|done]. intros [= <-]. b2p. lia. Qed.

Lemma decimal_nonneg s acc v : 0 <= acc -> decimal s acc = Some v -> 0 <= v.
Proof.
  revert acc. induction s as [|b s IH]; intros acc Ha; cbn [decimal]; [by intros [= <-]|].
  destruct (digit_of b) as [d|] eqn:Ed; [|done]. apply digit_of_nonneg in Ed. apply IH. lia.
Qed.

Lemma ParseUint_bound bits s v : ParseUint bits s = Some v -> 0 <= v < 2 ^ bits.
Proof.
  unfold ParseUint. destruct s as [|b s]; [done|]. destruct (decimal (b :: s) 0) as [n|] eqn:E; [|done].
  apply decimal_nonneg in E; [|done]. destruct (Z.ltb_spec n (2 ^ bits)); [|done]. intros [= <-]. lia.
Qed.

Lemma Atoi_i64 s v : Atoi s = Some v -> i64 v.
Proof.
  unfold Atoi, i64. destruct s as [|b t]; [done|].
  destruct (if is_byte b Byte.x2d then _ else _) as [neg [|c u]]; [done|].
  destruct (decimal (c :: u) 0) as [n|]; [|done]. destruct (_ && _) eqn:E; [|done].
  intros [= <-]. b2p. lia.
Qed.

Lemma field_position_i64 parts : i64 (field_position parts).
Proof.
  assert (i64 0) as H0 by (unfold i64; lia).
  unfold field_position. destruct parts as [|eq [|pos rest]]; [done..|].
  destruct (is_word eq _); [|done].
  destruct (Atoi _) as [v|] eqn:E; [by eapply Atoi_i64|done].
Qed.

Lemma Split_without c s : Forall (fun part => c ∉ part) (Split c s).
Proof.
  induction s as [|b s IH]; cbn [Split]; [apply Forall_singleton, not_elem_of_nil|].
  destruct (is_byte_spec c b) as [<-|Hn]; [constructor; [apply not_elem_of_nil|done]|].
  destruct (Split c s) as [|w ws]; [apply Forall_singleton; by rewrite list_elem_of_singleton|].
  inversion_clear IH as [|? ? Hw Hws]. constructor; [|done]. rewrite elem_of_cons. naive_solver.
Qed.

Lemma ToUpper_underscore b : ToUpper b = Byte.x5f -> b = Byte.x5f.
Proof. by destruct b. Qed.

Lemma toCamelCase_plain s : Byte.x5f ∉ toCamelCase s.
Proof.
  unfold toCamelCase. rewrite list_elem_of_In, in_concat. intros (l & Hl & Hb).
  apply in_map_iff in Hl as (part & <- & Hp). pose proof (Split_without Byte.x5f s) as Hs.
  rewrite Forall_forall in Hs. specialize (Hs part (proj2 (list_elem_of_In _ _) Hp)).
  destruct part as [|b t]; [done|]. rewrite elem_of_cons in Hs.
  destruct Hb as [Hb|Hb]; [apply Hs; left; symmetry; by apply ToUpper_underscore|].
  apply Hs. right. by apply list_elem_of_In.
Qed.

Lemma Available_bound v t : Available !! v = Some t -> 0 <= t <= 18.
Proof.
  unfold Available. intros H%elem_of_list_to_map_2. revert H.
  apply (proj1 (Forall_forall (fun kt => 0 <= kt.2 <= 18) _)).
  repeat (constructor; [by vm_compute|]). constructor.
Qed.

(** ** Every function keeps the parser well-formed *)

Lemma placeholder_ok h name : avp_ok h (placeholder name).
Proof. split; try done; cbn; lia. Qed.

Lemma field_avp_good name p :
  parser_wf p -> good p (field_avp name p).2 /\ is_Some (heap (field_avp name p).2 !! (field_avp name p).1).
Proof.
  intros Hp. unfold field_avp.
  assert (good p (alloc (placeholder name) p).2 /\
    is_Some (heap (alloc (placeholder name) p).2 !! (alloc (placeholder name) p).1)) as Ha.
  { destruct (alloc_good (placeholder name) p Hp) as [H1 H2]; [apply placeholder_ok|]. split; [done|by eexists]. }
  destruct (is_word name _); [done|]. destruct (AVPs p !! name) as [a|] eqn:E; [|done].
  split; [by apply good_refl|]. destruct (pw_avps p Hp name a E) as (d & Hd & _). by eexists.
Qed.

(** The outcome of a function on fields, with its parser. *)
Definition makes {A} (P : gmap pointer AVPDefinition -> A -> Prop) (p : ProtoParser)
    (r : ProtoParser * result A) : Prop :=
  good p r.1 /\ match r.2 with Ok x => P (heap r.1) x | _ => True end.

Lemma field_names_good parts fi re rp p :
  parser_wf p -> makes field_ok p (field_names parts fi re rp p).
Proof.
  intros Hp. unfold makes, field_names. destruct parts as [|a [|f rest]]; try (split; [by apply good_refl|done]).
  destruct (field_avp_good a p Hp) as [H1 H2]. destruct (field_avp a p) as [ptr p'].
  split; [done|]. split; [exact H2|apply toCamelCase_plain|apply field_position_i64].
Qed.

Lemma one_field_good p r : makes field_ok p r -> makes (fun h => Forall (field_ok h)) p (one_field r).
Proof. destruct r as [p1 [f|e|]]; intros [H1 H2]; (split; [done|]); [by apply Forall_singleton|done..]. Qed.

Lemma grouped_field_good line p :
  parser_wf p -> makes (fun h => Forall (field_ok h)) p (grouped_field line p).
Proof.
  intros Hp. unfold grouped_field.
  destruct (skipped _); [split; [by apply good_refl|constructor]|].
  destruct (_ <? 4); [split; [by apply good_refl|constructor]|].
  destruct (Fields _) as [|w rest]; [split; [by apply good_refl|done]|].
  repeat (match goal with |- context [is_word w ?x] => destruct (is_word w x) end;
    [by apply one_field_good, field_names_good|]).
  by apply one_field_good, field_names_good.
Qed.

Lemma parseGroupedFields_good lines fs p :
  parser_wf p -> Forall (field_ok (heap p)) fs ->
  makes (fun h => Forall (field_ok h)) p (parseGroupedFields lines fs p).
Proof.
  revert fs p. induction lines as [|line lines IH]; intros fs p Hp Hf; cbn [parseGroupedFields].
  { split; [by apply good_refl|done]. }
  destruct (grouped_field_good line p Hp) as [H1 H2]. destruct (grouped_field line p) as [p1 [fs1|e|]]; [|done..].
  cbn [fst snd] in *. destruct H1 as [H1 Hext].
  destruct (IH (fs ++ fs1) p1 H1) as [H3 H4].
  - apply Forall_app. split; [by eapply fields_ok_mono|done].
  - split; [by eapply good_trans|done].
Qed.

Lemma parseFieldDefinition_good line cmd p :
  parser_wf p -> command_ok (heap p) cmd -> makes command_ok p (parseFieldDefinition line cmd p).
Proof.
  intros Hp Hc. unfold parseFieldDefinition. destruct (_ <? 4); [split; [by apply good_refl|done]|].
  destruct (field_modifiers _ _ _ _) as [parts [[fi re] rp]].
  destruct (field_names_good parts fi re rp p Hp) as [H1 H2].
  destruct (field_names parts fi re rp p) as [p1 [f|e|]]; [|done..]. split; [done|]. cbn [fst snd] in *.
  destruct (command_ok_mono _ _ _ (go_extends _ _ H1) Hc) as [C1 C2 C3]. split; try done.
  rsimpl. apply Forall_app. split; [done|by apply Forall_singleton].
Qed.

Lemma command_line_good line cmd p :
  parser_wf p -> command_ok (heap p) cmd -> makes command_ok p (command_line line cmd p).
Proof.
  intros Hp Hc. pose proof Hc as [C1 C2 C3]. pose proof (good_refl p Hp) as Hg.
  unfold command_line. destruct (skipped _); [done|]. destruct (SplitN2 _ _) as [[l r]|]; [|done].
  destruct (ContainsByte _ _); [by apply parseFieldDefinition_good|].
  destruct (is_word _ _); [destruct (ParseUint _ _) as [v|] eqn:E; [|done]; apply ParseUint_bound in E; done|].
  destruct (is_word _ _); [destruct (ParseUint _ _) as [v|] eqn:E; [|done]; apply ParseUint_bound in E; done|].
  destruct (is_word _ _); [done|]. by destruct (is_word _ _).
Qed.

Lemma command_lines_good lines cmd p :
  parser_wf p -> command_ok (heap p) cmd -> makes command_ok p (command_lines lines cmd p).
Proof.
  revert cmd p. induction lines as [|line lines IH]; intros cmd p Hp Hc; cbn [command_lines].
  { split; [by apply good_refl|done]. }
  destruct (command_line_good line cmd p Hp Hc) as [H1 H2].
  destruct (command_line line cmd p) as [p1 [cmd1|e|]]; [|done..]. cbn [fst snd] in *.
  destruct (IH cmd1 p1 (go_wf _ _ H1) H2) as [H3 H4]. split; [by eapply good_trans|done].
Qed.

Lemma avp_property_ok line d d' h : avp_property line d = Ok d' -> avp_ok h d -> avp_ok h d' /\ Name d' = Name d.
Proof.
  unfold avp_property. intros H [D1 D2 D3 D4].
  destruct (SplitN2 _ _) as [[l r]|]; [|by simplify_eq].
  repeat case_match_in H; simplify_eq; (split; [|done]); split; rsimpl; try done;
    first [by eapply ParseUint_bound|by eapply Available_bound].
Qed.

Lemma avp_lines_good lines g d p :
  parser_wf p -> avp_ok (heap p) d ->
  makes (fun h d' => avp_ok h d' /\ Name d' = Name d) p (avp_lines lines g d p).
Proof.
  revert g d p. induction lines as [|line lines IH]; intros g d p Hp Hd; cbn [avp_lines].
  { split; [by apply good_refl|done]. }
  destruct (skipped _); [by apply IH|]. destruct (HasPrefix _ _); [by apply IH|].
  destruct g as [ls|].
  - destruct (bool_decide _); [|by apply IH].
    destruct (parseGroupedFields_good ls (GroupedFields d) p Hp (ao_fields _ _ Hd)) as [H1 H2].
    destruct (parseGroupedFields ls (GroupedFields d) p) as [p1 [fs|e|]]; [|done..]. cbn [fst snd] in *.
    destruct (IH None (d <| GroupedFields := fs |>) p1 (go_wf _ _ H1)) as [H3 H4].
    { destruct (avp_ok_mono _ _ _ (go_extends _ _ H1) Hd). by split. }
    split; [by eapply good_trans|done].
  - destruct (avp_property (TrimSpace line) d) as [d1|e|] eqn:E; [|split; [by apply good_refl|done]..].
    destruct (avp_property_ok _ _ _ _ E Hd) as [H1 H2].
    destruct (IH None d1 p Hp H1) as [H3 H4]. split; [done|].
    destruct (avp_lines _ _ _ _) as [p2 [d2|e|]]; [|done..]. cbn [fst snd] in *. by rewrite <- H2.
Qed.

Lemma enum_values_u32 name lines vs vs' :
  enum_values name lines vs = Ok vs' -> map_Forall (fun _ v => u32 v) vs -> map_Forall (fun _ v => u32 v) vs'.
Proof.
  revert vs. induction lines as [|line lines IH]; intros vs; cbn [enum_values]; [by intros [= <-]|].
  destruct (skipped _); [apply IH|]. destruct (SplitN2 _ _) as [[l r]|]; [|apply IH].
  destruct (ParseUint _ _) as [v|] eqn:E; [|done]. intros H Hv. apply (IH _ H).
  apply map_Forall_insert_2; [by eapply ParseUint_bound|done].
Qed.

(** *** Blocks and lines *)

Lemma parser_wf_same p p' :
  heap p' = heap p -> fresh_pointer p' = fresh_pointer p -> AVPs p' = AVPs p ->
  Forall (command_ok (heap p)) (Commands p') -> map_Forall (fun _ v => u64 v) (Consts p') ->
  map_Forall enum_ok (Enums p') -> parser_wf p -> good p p'.
Proof.
  intros H1 H2 H3 H4 H5 H6 [I1 I2 I3 I4 I5 I6]. split; [|unfold extends; by rewrite H1].
  split; rewrite ?H1, ?H2, ?H3; try done.
Qed.

Lemma parseConst_good line p : parser_wf p -> good p (parseConst line p).1.
Proof.
  intros Hp. unfold parseConst. destruct (SplitN2 _ _) as [[l r]|]; [|by apply good_refl].
  destruct (ParseUint _ _) as [v|] eqn:E; [|by apply good_refl]. destruct Hp as [I1 I2 I3 I4 I5 I6].
  apply parser_wf_same; try done. cbn [fst]. rsimpl. apply map_Forall_insert_2; [by eapply ParseUint_bound|done].
Qed.

Lemma parseEnumBlock_good first lines p : parser_wf p -> good p (parseEnumBlock first lines p).1.
Proof.
  intros Hp. unfold parseEnumBlock. destruct (Fields _) as [|w [|part rest]]; try by apply good_refl.
  destruct (enum_values _ _ _) as [vs|e|] eqn:E; try by apply good_refl.
  destruct Hp as [I1 I2 I3 I4 I5 I6]. apply parser_wf_same; try done. cbn [fst]. rsimpl.
  apply map_Forall_insert_2; [|done]. split; [done|]. by eapply enum_values_u32, map_Forall_empty.
Qed.

Lemma parseCommandBlock_good first lines p : parser_wf p -> good p (parseCommandBlock first lines p).1.
Proof.
  intros Hp. unfold parseCommandBlock. destruct (Fields _) as [|w [|part rest]]; try by apply good_refl.
  destruct (command_lines_good (removelast lines) (new_command (block_name part)) p Hp) as [H1 H2]; [by split|].
  destruct (command_lines _ _ _) as [p1 [cmd|e|]]; [|done..]. cbn [fst snd] in *.
  eapply good_trans; [exact H1|]. pose proof (go_wf _ _ H1) as Hp1. pose proof Hp1 as [I1 I2 I3 I4 I5 I6].
  apply parser_wf_same; try done. rsimpl. apply Forall_app. split; [done|]. apply Forall_singleton.
  by destruct H2.
Qed.

Lemma parseAVPBlock_good first lines p : parser_wf p -> good p (parseAVPBlock first lines p).1.
Proof.
  intros Hp. unfold parseAVPBlock. destruct (expand_single first lines) as [first' lines'].
  destruct (Fields _) as [|w [|part rest]]; try by apply good_refl.
  destruct (avp_lines_good lines' None (new_avp (block_name part)) p Hp) as [H1 H2]; [split; done|].
  destruct (avp_lines _ _ _ _) as [p1 [d|e|]]; [|done..]. cbn [fst snd] in *. destruct H2 as [Hd Hn].
  destruct (alloc_good d p1 (go_wf _ _ H1) Hd) as [H3 H4].
  destruct (alloc d p1) as [a p2]. cbn [fst snd] in *.
  eapply good_trans; [exact H1|]. eapply good_trans; [exact H3|].
  destruct (go_wf _ _ H3) as [I1 I2 I3 I4 I5 I6]. split; [|exact (extends_refl p2)]. split; try done.
  intros n b Hb. change (<[block_name part := a]> (AVPs p2) !! n = Some b) in Hb.
  apply lookup_insert_Some in Hb as [[<- <-]|[_ Hb]]; [by exists d|by apply I3].
Qed.

Lemma parse_block_good k first lines p : parser_wf p -> good p (parse_block k first lines p).1.
Proof.
  destruct k; [apply parseAVPBlock_good|apply parseCommandBlock_good|apply parseEnumBlock_good].
Qed.

Lemma parse_line_good line b p : parser_wf p -> good p (parse_line line b p).1.
Proof.
  intros Hp. pose proof (good_refl p Hp) as Hg. pose proof Hp as [I1 I2 I3 I4 I5 I6].
  unfold parse_line.
  destruct (skipped _); [done|]. destruct (HasPrefix _ _); [done|]. destruct (HasPrefix _ _).
  { destruct (Fields _) as [|w [|part rest]]; try done. by apply parser_wf_same. }
  destruct (HasPrefix _ _).
  { cbn [fst]. unfold go_package_option. destruct (Split _ _) as [|w [|part rest]]; try done.
    by apply parser_wf_same. }
  destruct (HasPrefix _ _).
  { pose proof (parseConst_good line p Hp) as H. by destruct (parseConst line p) as [p1 [u|e|]]. }
  destruct (in_block line b) as [[[k first] lines]|]; [|done]. destruct (_ =? 0); [|done].
  pose proof (parse_block_good k first lines p Hp) as H. by destruct (parse_block k first lines p) as [p1 [u|e|]].
Qed.

Lemma parse_lines_good lines b p : parser_wf p -> good p (parse_lines lines b p).1.
Proof.
  revert b p. induction lines as [|raw lines IH]; intros b p Hp; cbn [parse_lines]; [by apply good_refl|].
  destruct (_ <=? _); [by apply good_refl|]. pose proof (parse_line_good (TrimSpace (dropCR raw)) b p Hp) as H.
  destruct (parse_line (TrimSpace (dropCR raw)) b p) as [p1 [b1|e|]]; [|done..]. cbn [fst] in H.
  eapply good_trans; [exact H|]. by apply IH, (go_wf _ _ H).
Qed.

Lemma ParseFile_good text p : parser_wf p -> good p (ParseFile text p).1.
Proof. apply parse_lines_good. Qed.

(** ** [ResolveAVPReferences] *)

(** What [resolve_field] looks at. *)
Definition named (p : ProtoParser) (a : pointer) : option (bytes * Z) :=
  (fun d => (Name d, Code d)) <$> heap p !! a.

Definition resolve_pointer (p : ProtoParser) (a : pointer) : pointer :=
  match named p a with
  | Some (n, _) =>
      if is_word n "AVP" then a
      else match AVPs p !! n with
           | Some a' => match named p a' with Some (_, c) => if c =? 0 then a else a' | None => a end
           | None => a
           end
  | None => a
  end.

Lemma resolve_field_pointer p f : resolve_field p f = f <| AVP := resolve_pointer p (AVP f) |>.
Proof.
  assert (forall g : AVPField, g = g <| AVP := AVP g |>) as Hs by by intros [].
  unfold resolve_field, resolve_pointer, named. destruct (heap p !! AVP f) as [d|]; [|apply Hs].
  cbn [fmap option_fmap option_map]. destruct (is_word _ _); [apply Hs|].
  destruct (AVPs p !! Name d) as [a'|]; [|apply Hs].
  destruct (heap p !! a') as [d'|]; [|apply Hs]. cbn [fmap option_fmap option_map].
  destruct (_ =? 0); [apply Hs|done].
Qed.

Lemma resolve_field_stable p p' :
  AVPs p' = AVPs p -> (forall a, named p' a = named p a) -> forall f, resolve_field p' f = resolve_field p f.
Proof.
  intros HA Hn f. rewrite !resolve_field_pointer. f_equal. unfold resolve_pointer. rewrite HA, Hn.
  destruct (named p (AVP f)) as [[n c]|]; [|done]. destruct (is_word _ _); [done|].
  destruct (AVPs p !! n) as [a'|]; [|done]. by rewrite Hn.
Qed.

Lemma resolve_field_idem p f : parser_wf p -> resolve_field p (resolve_field p f) = resolve_field p f.
Proof.
  intros Hp. rewrite !resolve_field_pointer.
  change (f <| AVP := resolve_pointer p (AVP f) |> <| AVP := ?x |>) with (f <| AVP := x |>).
  f_equal. rsimpl. set (a := AVP f). unfold resolve_pointer at 2 3.
  destruct (named p a) as [[n c]|] eqn:E1.
  2: { unfold resolve_pointer. by rewrite E1. }
  destruct (is_word n "AVP") eqn:E2.
  { unfold resolve_pointer. by rewrite E1, E2. }
  destruct (AVPs p !! n) as [a'|] eqn:E3.
  2: { unfold resolve_pointer. by rewrite E1, E2, E3. }
  destruct (named p a') as [[n' c']|] eqn:E4.
  2: { unfold resolve_pointer. by rewrite E1, E2, E3, E4. }
  destruct (c' =? 0) eqn:E5; unfold resolve_pointer; [by rewrite E1, E2, E3, E4, E5|].
  rewrite E4. destruct (pw_avps p Hp n a' E3) as (d & Hd & Hn). unfold named in E4. rewrite Hd in E4.
  injection E4 as <- <-. rewrite Hn, E2, E3. unfold named. rewrite Hd. cbn. by rewrite E5.
Qed.

Definition resolve_definition (p : ProtoParser) (d : AVPDefinition) : AVPDefinition :=
  d <| GroupedFields ::= map (resolve_field p) |>.

Lemma groups_eq (d : AVPDefinition) fs fs' : fs = fs' -> d <| GroupedFields := fs |> = d <| GroupedFields := fs' |>.
Proof. by intros ->. Qed.

(** The definitions filed under the names of [l] are resolved. *)
Definition resolved_heap (l : list bytes) (p : ProtoParser) : gmap pointer AVPDefinition :=
  map_imap (fun a d => Some (if decide (AVPs p !! Name d = Some a /\ Name d ∈ l)
                             then resolve_definition p d else d)) (heap p).
Definition resolved (l : list bytes) (p : ProtoParser) : ProtoParser :=
  p <| Commands ::= map (resolve_command p) |> <| heap := resolved_heap l p |>.

Lemma resolved_named l p a : named (resolved l p) a = named p a.
Proof.
  unfold named. change (heap (resolved l p)) with (resolved_heap l p). unfold resolved_heap.
  rewrite map_lookup_imap. destruct (heap p !! a) as [d|]; [|done]. cbn. by case_decide.
Qed.

Lemma resolved_step l n p :
  parser_wf p -> resolve_avp (resolved l p) n = resolved (l ++ [n]) p.
Proof.
  intros Hp. unfold resolve_avp. change (AVPs (resolved l p)) with (AVPs p).
  assert (forall p' h, p' = resolved l p -> h = resolved_heap (l ++ [n]) p ->
    p' <| heap := h |> = resolved (l ++ [n]) p) as Hh by by intros ? ? -> ->.
  assert (forall d, map (resolve_field (resolved l p)) (GroupedFields d) = map (resolve_field p) (GroupedFields d))
    as Hst.
  { intros d. apply map_ext, resolve_field_stable; [done|]. intros. apply resolved_named. }
  destruct (AVPs p !! n) as [a|] eqn:Ea.
  - transitivity ((resolved l p) <| heap := alter (fun avp => avp <| GroupedFields ::=
      map (resolve_field (resolved l p)) |>) a (resolved_heap l p) |>); [reflexivity|]. apply Hh; [done|].
    apply map_eq. intros b. unfold resolved_heap. destruct (decide (b = a)) as [->|Hb].
    + rewrite lookup_alter_eq, !map_lookup_imap. destruct (pw_avps p Hp n a Ea) as (d & Hd & Hn). rewrite Hd. cbn.
      rewrite Hn, (decide_True (P := _ /\ n ∈ l ++ [n])) by (split; [done|]; rewrite elem_of_app, list_elem_of_singleton; by right).
      f_equal. case_decide; unfold resolve_definition.
      * change (d <| GroupedFields ::= ?f |> <| GroupedFields ::= ?g |>) with (d <| GroupedFields := g (f (GroupedFields d)) |>).
        change (d <| GroupedFields ::= ?f |>) with (d <| GroupedFields := f (GroupedFields d) |>). apply groups_eq.
        rewrite map_map. apply map_ext. intros f.
        rewrite (resolve_field_stable p (resolved l p)) by (done || intros; apply resolved_named).
        by apply resolve_field_idem.
      * change (d <| GroupedFields ::= ?f |>) with (d <| GroupedFields := f (GroupedFields d) |>). apply groups_eq, Hst.
    + rewrite lookup_alter_ne, !map_lookup_imap by done. destruct (heap p !! b) as [d|] eqn:Ed; [|done]. cbn.
      f_equal. apply decide_ext. rewrite elem_of_app, list_elem_of_singleton. naive_solver congruence.
  - change (resolved l p) with ((resolved l p) <| heap := resolved_heap l p |>). apply Hh; [done|].
    apply map_eq. intros b. unfold resolved_heap. rewrite !map_lookup_imap.
    destruct (heap p !! b) as [d|]; [|done]. cbn. f_equal. apply decide_ext.
    rewrite elem_of_app, list_elem_of_singleton. naive_solver congruence.
Qed.

Lemma resolve_prefix l order p :
  parser_wf p -> foldl resolve_avp (resolved l p) order = resolved (l ++ order) p.
Proof.
  intros Hp. revert l. induction order as [|n order IH]; intros l; cbn [foldl]; [by rewrite app_nil_r|].
  by rewrite resolved_step, IH, <- app_assoc.
Qed.

Lemma resolve_resolved order p : parser_wf p -> ResolveAVPReferences order p = resolved order p.
Proof.
  intros Hp. rewrite <- (app_nil_l order) at 2. rewrite <- resolve_prefix by done. unfold ResolveAVPReferences.
  f_equal. unfold resolved, resolved_heap. destruct p as [h fr av co cn en pk gp pn]. unfold set_field. cbn. f_equal.
  apply map_eq. intros a. rewrite map_lookup_imap. destruct (h !! a) as [d|]; [|done]. cbn.
  rewrite decide_False; [done|]. by intros [_ ?%elem_of_nil].
Qed.

(** Every name is visited. *)
Definition covers (order : list bytes) (p : ProtoParser) : Prop :=
  forall n, is_Some (AVPs p !! n) -> n ∈ order.

(** The field of the resolved parser for a field: it points at the definition
    that is filed under its target's name, if that has a code. *)
Record linked (p : ProtoParser) (f f' : AVPField) : Prop := {
  li_same : f' = f <| AVP := AVP f' |>;
  li_pointer d : heap p !! AVP f = Some d ->
    (Name d <> gostr "AVP" /\ exists a r, AVPs p !! Name d = Some a /\ heap p !! a = Some r /\ Code r <> 0 /\
       AVP f' = a) \/
    ((Name d = gostr "AVP" \/ forall a r, AVPs p !! Name d = Some a -> heap p !! a = Some r -> Code r = 0) /\
       AVP f' = AVP f) }.

Lemma resolve_linked p f : linked p f (resolve_field p f).
Proof.
  rewrite resolve_field_pointer. split; [done|]. intros d Hd. rsimpl.
  unfold resolve_pointer, named. rewrite Hd. cbn [fmap option_fmap option_map].
  unfold is_word. case_bool_decide as Hn; [right; auto|].
  destruct (AVPs p !! Name d) as [a|] eqn:Ea; [|right; split; [right; intros; congruence|done]].
  destruct (heap p !! a) as [r|] eqn:Er; [|right; split; [right; intros; congruence|done]].
  cbn [fmap option_fmap option_map]. destruct (Z.eqb_spec (Code r) 0) as [Hc|Hc].
  - right. split; [|done]. right. intros. congruence.
  - left. split; [done|]. by exists a, r.
Qed.

Lemma Forall2_map_r {A B} (P : A -> B -> Prop) (f : A -> B) l : (forall x, P x (f x)) -> Forall2 P l (map f l).
Proof. intros H. induction l; cbn [map]; by constructor. Qed.

Lemma resolved_covers l l' p : covers l p -> covers l' p -> resolved l p = resolved l' p.
Proof.
  intros H H'. unfold resolved. f_equal. unfold resolved_heap. f_equal.
  assert (forall h : gmap pointer AVPDefinition,
    map_imap (fun a d => Some (if decide (AVPs p !! Name d = Some a /\ Name d ∈ l) then resolve_definition p d else d)) h =
    map_imap (fun a d => Some (if decide (AVPs p !! Name d = Some a /\ Name d ∈ l') then resolve_definition p d else d)) h)
    as Hh; [|by rewrite Hh].
  intros h. apply map_eq. intros a. rewrite !map_lookup_imap. destruct (h !! a) as [d|]; [|done]. cbn.
  f_equal. apply decide_ext.
  split; intros [H1 _]; (split; [done|]); [apply H'|apply H]; by eexists.
Qed.

(** C31: what [ResolveAVPReferences] does.  Whatever the order in which
    [range] visits the definitions, the result is the same: every field of a
    command, and every field of a group whose definition is filed under its
    name, points at the definition filed under the name of its target when
    that has a code, and is unchanged otherwise (so that the generic [AVP] and
    names that no file defines keep their placeholders); nothing else of any
    command or definition changes. *)
Theorem resolve_exact p order :
  parser_wf p -> covers order p ->
  let p' := ResolveAVPReferences order p in
  (forall order', covers order' p -> ResolveAVPReferences order' p = p') /\
  AVPs p' = AVPs p /\
  Forall2 (fun c c' => c' = c <| cmd_Fields := cmd_Fields c' |> /\
    Forall2 (linked p) (cmd_Fields c) (cmd_Fields c')) (Commands p) (Commands p') /\
  forall a d, heap p !! a = Some d -> exists d', heap p' !! a = Some d' /\
    d' = d <| GroupedFields := GroupedFields d' |> /\
    ((AVPs p !! Name d = Some a /\ Forall2 (linked p) (GroupedFields d) (GroupedFields d')) \/
     (AVPs p !! Name d <> Some a /\ d' = d)).
Proof.
  intros Hp Hc p'. subst p'. rewrite resolve_resolved by done. split_and!; [|done| |].
  - intros order' Hc'. rewrite resolve_resolved by done. by apply resolved_covers.
  - apply Forall2_map_r. intros c. split; [done|]. apply Forall2_map_r, resolve_linked.
  - intros a d Hd. change (heap (resolved order p)) with (resolved_heap order p). unfold resolved_heap.
    rewrite map_lookup_imap, Hd. cbn. eexists. split; [done|]. case_decide as Ha.
    + split; [done|]. left. split; [apply Ha|]. apply Forall2_map_r, resolve_linked.
    + split; [by destruct d|]. right. split; [|done]. intros E. apply Ha. split; [done|]. apply Hc. by eexists.
Qed.

Lemma resolve_field_ok p p' f :
  (forall a, is_Some (heap p !! a) -> is_Some (heap p' !! a)) ->
  (forall n a, AVPs p !! n = Some a -> is_Some (heap p !! a)) ->
  field_ok (heap p) f -> field_ok (heap p') (resolve_field p f).
Proof.
  intros Hh HA [H1 H2 H3]. rewrite resolve_field_pointer. split; [|exact H2|exact H3]. rsimpl. apply Hh.
  unfold resolve_pointer. repeat case_match; try done. by eapply HA.
Qed.

Lemma resolved_wf l p : parser_wf p -> parser_wf (resolved l p).
Proof.
  intros Hp. pose proof Hp as [I1 I2 I3 I4 I5 I6].
  assert (forall a d', heap (resolved l p) !! a = Some d' -> exists d, heap p !! a = Some d /\
    (d' = d \/ d' = resolve_definition p d)) as Hinv.
  { intros a d'. change (heap (resolved l p)) with (resolved_heap l p). unfold resolved_heap.
    rewrite map_lookup_imap. destruct (heap p !! a) as [d|]; [|done]. cbn. intros [= <-].
    exists d. case_decide; auto. }
  assert (forall a, is_Some (heap p !! a) -> is_Some (heap (resolved l p) !! a)) as Hs.
  { intros a [d Hd]. change (heap (resolved l p)) with (resolved_heap l p). unfold resolved_heap.
    rewrite map_lookup_imap, Hd. cbn. by eexists. }
  assert (forall n a, AVPs p !! n = Some a -> is_Some (heap p !! a)) as HA.
  { intros n a Ha. destruct (I3 n a Ha) as (d & Hd & _). by eexists. }
  assert (forall f, field_ok (heap p) f -> field_ok (heap (resolved l p)) f) as Hf.
  { intros f [F1 F2 F3]. split; auto. }
  split; try done.
  - intros a [d' Hd']. destruct (Hinv a d' Hd') as (d & Hd & _). apply I1. by eexists.
  - intros a d' Hd'. destruct (Hinv a d' Hd') as (d & Hd & Hd''). destruct (I2 a d Hd) as [D1 D2 D3 D4].
    destruct Hd'' as [->| ->]; split; try done.
    + eapply Forall_impl; [exact D4|]. done.
    + apply Forall_map. eapply Forall_impl; [exact D4|]. intros f. by apply resolve_field_ok.
  - intros n a Ha. destruct (I3 n a Ha) as (d & Hd & Hn).
    destruct (Hs a ltac:(by eexists)) as [d' Hd']. exists d'. split; [done|].
    destruct (Hinv a d' Hd') as (d0 & Hd0 & Hd1). assert (d0 = d) as -> by congruence.
    by destruct Hd1 as [->| ->].
  - change (Commands (resolved l p)) with (map (resolve_command p) (Commands p)). apply Forall_map.
    eapply Forall_impl; [exact I4|]. intros c [C1 C2 C3]. split; try done.
    unfold resolve_command. rsimpl. apply Forall_map. eapply Forall_impl; [exact C3|]. intros f. by apply resolve_field_ok.
Qed.

Lemma NewProtoParser_wf h fresh : (forall a, is_Some (h !! a) -> a < fresh) -> (forall a d, h !! a = Some d -> avp_ok h d) ->
  parser_wf (NewProtoParser h fresh).
Proof. intros H1 H2. split; try done; cbn; apply map_Forall_empty. Qed.

(** C30: the parser builds well-formed values from any text.  Whether it
    succeeds, fails or panics, and in the middle of a directory as well as at
    its start: codes, vendors, applications and enum values fit 32 bits and
    constants 64, types are those of [models_base], positions are [int]s and
    field names have no underscores; every field points at a definition; each
    definition is filed under its own name, and each enum too; and no
    definition that was there is changed.  [ResolveAVPReferences] keeps this. *)
Theorem parser_stays_wf text order p :
  parser_wf p ->
  parser_wf (ParseFile text p).1 /\ heap p ⊆ heap (ParseFile text p).1 /\
  parser_wf (ResolveAVPReferences order p).
Proof.
  intros Hp. destruct (ParseFile_good text p Hp) as [H1 H2]. split; [done|]. split; [done|].
  rewrite resolve_resolved by done. by apply resolved_wf.
Qed.

(** ** The parsers of a directory *)

(** A field points at the definition filed under its target's name, if that
    has a code. *)
Definition settled (p : ProtoParser) (f : AVPField) : Prop :=
  forall d a r, heap p !! AVP f = Some d -> Name d <> gostr "AVP" -> AVPs p !! Name d = Some a ->
    heap p !! a = Some r -> Code r <> 0 -> AVP f = a.

Lemma settled_fixed p f : resolve_field p f = f -> settled p f.
Proof.
  intros Hf d a r Hd Hn Ha Hr Hc. destruct (resolve_linked p f) as [_ Hl]. rewrite Hf in Hl.
  destruct (Hl d Hd) as [(_ & a' & r' & Ha' & Hr' & _ & E)|[[E|E] _]]; [congruence|done|].
  by apply E in Hr.
Qed.

(** The definitions that are filed have been resolved. *)
Definition registry_fixed (p : ProtoParser) : Prop :=
  forall n a d, AVPs p !! n = Some a -> heap p !! a = Some d ->
    Forall (fun f => resolve_field p f = f) (GroupedFields d).

Lemma Forall_map_id {A} (f : A -> A) l : Forall (fun x => f x = x) l -> map f l = l.
Proof. induction 1 as [|x l Hx _ IH]; cbn [map]; [done|]. by rewrite Hx, IH. Qed.

Lemma resolve_noop l p : registry_fixed p -> resolved_heap l p = heap p.
Proof.
  intros Hf. apply map_eq. intros a. unfold resolved_heap. rewrite map_lookup_imap.
  destruct (heap p !! a) as [d|] eqn:Ed; [|done]. cbn. case_decide as Ha; [|done]. f_equal.
  unfold resolve_definition. pose proof (Hf (Name d) a d (proj1 Ha) Ed) as H. apply Forall_map_id in H.
  change (d <| GroupedFields ::= ?g |>) with (d <| GroupedFields := g (GroupedFields d) |>). rewrite H. by destruct d.
Qed.

(** After [ResolveAVPReferences] every field is at rest. *)
Lemma resolved_field_fixed l p f : parser_wf p -> resolve_field (resolved l p) (resolve_field p f) = resolve_field p f.
Proof.
  intros Hp. rewrite (resolve_field_stable p (resolved l p)) by (done || intros; apply resolved_named).
  by apply resolve_field_idem.
Qed.

Lemma resolved_registry_fixed l p : parser_wf p -> covers l p -> registry_fixed (resolved l p).
Proof.
  intros Hp Hc n a d' Ha. change (heap (resolved l p)) with (resolved_heap l p). unfold resolved_heap.
  rewrite map_lookup_imap. destruct (pw_avps p Hp n a Ha) as (d & Hd & Hn). rewrite Hd. cbn. intros [= <-].
  rewrite decide_True by (rewrite Hn; split; [done|apply Hc; by eexists]).
  apply Forall_map, Forall_true. intros f. by apply resolved_field_fixed.
Qed.

Lemma resolved_commands_fixed l p :
  parser_wf p -> Forall (fun c => Forall (fun f => resolve_field (resolved l p) f = f) (cmd_Fields c)) (Commands (resolved l p)).
Proof.
  intros Hp. apply Forall_map, Forall_true. intros c. unfold resolve_command. rsimpl.
  apply Forall_map, Forall_true. intros f. by apply resolved_field_fixed.
Qed.

(** A parser for the next file, with the registry of all files. *)
Definition with_registry (complete : gmap bytes pointer) (p : ProtoParser) : ProtoParser := p <| AVPs := complete |>.

Lemma registry_extends complete p p' :
  parser_wf (with_registry complete p) -> good p p' -> parser_wf (with_registry complete p').
Proof.
  intros [I1 I2 I3 I4 I5 I6] [[J1 J2 J3 J4 J5 J6] He]. split; try done.
  intros n a Ha. destruct (I3 n a Ha) as (d & Hd & Hn). exists d. split; [|done]. by eapply lookup_weaken.
Qed.

Lemma New_registry complete p :
  parser_wf (with_registry complete p) -> parser_wf (with_registry complete (NewProtoParser (heap p) (fresh_pointer p))).
Proof. intros [I1 I2 I3 I4 I5 I6]. split; try done; cbn; apply map_Forall_empty. Qed.

Lemma wf_no_registry complete p : parser_wf (with_registry complete p) -> AVPs p = ∅ -> parser_wf p.
Proof. intros [I1 I2 I3 I4 I5 I6] E. split; try done. intros n a. by rewrite E. Qed.

Lemma collect_wf files complete h fr r :
  parser_wf (with_registry complete (NewProtoParser h fr)) -> collect files complete h fr = Ok r -> parser_wf r.
Proof.
  revert complete h fr. induction files as [|text files IH]; intros complete h fr Hw; cbn [collect]; [by intros [= <-]|].
  pose proof (wf_no_registry _ _ Hw eq_refl) as Hp. pose proof (ParseFile_good text _ Hp) as Hg.
  destruct (ParseFile text (NewProtoParser h fr)) as [p [u|e|]]; [|done..]. cbn [fst] in Hg. apply IH.
  pose proof (registry_extends complete _ p Hw Hg) as Hc. destruct (go_wf _ _ Hg) as [J1 J2 J3 J4 J5 J6].
  apply (New_registry (AVPs p ∪ complete)). split; try done. intros n a Ha.
  change ((AVPs p ∪ complete) !! n = Some a) in Ha. apply lookup_union_Some_raw in Ha as [Ha|[_ Ha]];
    [by apply J3|by apply (pw_avps _ Hc)].
Qed.

Lemma fixed_extends complete p p' :
  parser_wf (with_registry complete p) -> registry_fixed (with_registry complete p) -> heap p ⊆ heap p' ->
  registry_fixed (with_registry complete p').
Proof.
  intros Hw Hf He n a d Ha Hd. destruct (pw_avps _ Hw n a Ha) as (d0 & Hd0 & _).
  assert (d0 = d) as -> by (pose proof (lookup_weaken _ _ _ _ Hd0 He) as Hd1; change (heap p' !! a = Some d) in Hd; congruence).
  assert (forall b, is_Some (heap p !! b) -> named (with_registry complete p') b = named (with_registry complete p) b) as Hn.
  { intros b [x Hx]. unfold named. change (heap (with_registry complete p')) with (heap p').
    change (heap (with_registry complete p)) with (heap p). by rewrite Hx, (lookup_weaken _ _ _ _ Hx He). }
  pose proof (ao_fields _ _ (pw_heap _ Hw a d Hd0)) as Hok. pose proof (Hf n a d Ha Hd0) as Hfix.
  rewrite Forall_forall in *. intros f Hin. rewrite <- (Hfix f Hin) at 2. rewrite !resolve_field_pointer. f_equal.
  unfold resolve_pointer. rewrite Hn by apply (fo_avp _ _ (Hok f Hin)).
  change (AVPs (with_registry complete p')) with complete. change (AVPs (with_registry complete p)) with complete.
  destruct (named (with_registry complete p) (AVP f)) as [[m c]|]; [|done]. destruct (is_word m _); [done|].
  destruct (complete !! m) as [a'|] eqn:Ea'; [|done]. rewrite Hn; [done|].
  destruct (pw_avps _ Hw m a' Ea') as (x & Hx & _). by eexists.
Qed.

(** What the generator gets for one file. *)
Record settled_parser (complete : gmap bytes pointer) (h : gmap pointer AVPDefinition) (p : ProtoParser) : Prop := {
  sp_wf : parser_wf p;
  sp_registry : AVPs p = complete;
  sp_definitions : h ⊆ heap p;
  sp_commands : Forall (fun c => Forall (settled p) (cmd_Fields c)) (Commands p);
  sp_groups n a d : complete !! n = Some a -> heap p !! a = Some d -> Forall (settled p) (GroupedFields d) }.

Lemma generate_settled order files k complete h fr ps :
  parser_wf (with_registry complete (NewProtoParser h fr)) ->
  registry_fixed (with_registry complete (NewProtoParser h fr)) ->
  generate order k files complete h fr = Ok ps ->
  length ps = length files /\ Forall (settled_parser complete h) ps.
Proof.
  revert k h fr ps. induction files as [|text files IH]; intros k h fr ps Hw Hf; cbn [generate]; [by intros [= <-]|].
  pose proof (wf_no_registry _ _ Hw eq_refl) as Hp. pose proof (ParseFile_good text _ Hp) as Hg.
  destruct (ParseFile text (NewProtoParser h fr)) as [p [u|e|]]; [|done..]. cbn [fst] in Hg. cbv zeta.
  fold (with_registry complete p).
  pose proof (registry_extends complete _ p Hw Hg) as Hc. pose proof (go_extends _ _ Hg) as He.
  pose proof (fixed_extends complete _ p Hw Hf He) as Hfix.
  rewrite resolve_resolved by done.
  pose proof (resolved_wf (order k) _ Hc) as Hrw.
  pose proof (resolve_noop (order k) _ Hfix) as Hno. change (heap (with_registry complete p)) with (heap p) in Hno.
  set (q := resolved (order k) (with_registry complete p)) in *.
  assert (heap q = heap p) as Hq by exact Hno.
  assert (registry_fixed q) as Hqf.
  { intros n a d Ha Hd. rewrite Hq in Hd. pose proof (Hfix n a d Ha Hd) as H. eapply Forall_impl; [exact H|].
    intros f Hff. rewrite <- Hff at 2. apply resolve_field_stable; [done|]. intros b. apply resolved_named. }
  destruct (generate order (S k) files complete (heap q) (fresh_pointer q)) as [ps'| |] eqn:E; [|done..].
  intros [= <-]. destruct (IH (S k) (heap q) (fresh_pointer q) ps') as [H1 H2]; [| |done|].
  - apply (New_registry complete q). exact Hrw.
  - intros n a d Ha Hd. eapply Forall_impl; [exact (Hqf n a d Ha Hd)|]. done.
  - split; [cbn [length]; by rewrite H1|]. constructor.
    + split; [done|done|by rewrite Hq| |].
      * eapply Forall_impl; [exact (resolved_commands_fixed (order k) _ Hc)|]. intros c Hcc.
        eapply Forall_impl; [exact Hcc|]. intros f. apply settled_fixed.
      * intros n a d Ha Hd. eapply Forall_impl; [exact (Hqf n a d Ha Hd)|]. intros f. apply settled_fixed.
    + eapply Forall_impl; [exact H2|]. intros p' [S1 S2 S3 S4 S5]. split; try done.
      rewrite Hq in S3. by etrans.
Qed.

(** The files of a directory share one set of definitions.  When all of
    them parse, and however [range] orders the registry, the parser that the
    generator gets for each file has one and the same registry of names, with
    the same definition behind each name; and every field of its commands, and
    of every group of the registry, points at the registry's definition of its
    target's name, unless that name is not in the registry, has no code there,
    or is the generic [AVP]. *)
Theorem directory_shares order files ps :
  processProtoDirectory order files = Ok ps ->
  (forall k r, collect files ∅ ∅ 0 = Ok r -> covers (order k) r) ->
  exists registry definitions,
    length ps = length files /\ Forall (settled_parser registry definitions) ps /\
    forall n a, registry !! n = Some a -> exists d, definitions !! a = Some d /\ Name d = n.
Proof.
  intros H Ho. unfold processProtoDirectory in H. destruct (collect files ∅ ∅ 0) as [r|e|] eqn:E; [|done..].
  cbv zeta in H. assert (parser_wf r) as Hr.
  { apply (collect_wf files ∅ ∅ 0 r); [|done]. apply (NewProtoParser_wf ∅ 0); [by intros a [x Hx]|done]. }
  specialize (Ho O r eq_refl). rewrite resolve_resolved in H by done.
  pose proof (resolved_wf (order O) r Hr) as Hw. pose proof (resolved_registry_fixed (order O) r Hr Ho) as Hf.
  set (q := resolved (order O) r) in *. exists (AVPs q), (heap q).
  destruct (generate_settled order files 1 (AVPs q) (heap q) (fresh_pointer q) ps) as [H1 H2]; [| |done|].
  - by apply (New_registry (AVPs q) q).
  - intros n a d Ha Hd. eapply Forall_impl; [exact (Hf n a d Ha Hd)|]. done.
  - split; [done|]. split; [done|]. exact (pw_avps _ Hw).
Qed.

(** ** A field without a name *)

(** [parseFieldDefinition] counts words, not what they are: when only one word
    is left after the modifiers it panics, and with it [ParseFile]. *)
Lemma field_without_name_panics line cmd p w fi re rp :
  4 <= len (Fields line) -> field_modifiers (Fields line) false false false = ([w], (fi, re, rp)) ->
  (parseFieldDefinition line cmd p).2 = Panic.
Proof. intros Hl Hm. unfold parseFieldDefinition. rewrite (proj2 (Z.ltb_ge _ _) Hl), Hm. done. Qed.

Lemma ParseFile_can_panic :
  (ParseFile (gostr "command X {
code = 1;
fixed required optional x=1;
}") (NewProtoParser ∅ 0)).2 = Panic.
Proof. by vm_compute. Qed.
