(* ===== verification/ProtoText.v ===== *)
(** * Proto files as they are meant

    The declarations of a proto file as data ([decl]), how they are written
    ([decl_lines], without indentation, blank lines and comment lines), and
    what they mean for the parser ([declare], which looks at no text).  The
    parser of [codegen/parser.go] does the second when it reads the first. *)

From S2P Require Import Prelude DataTypes GoText ProtoParser.

(** ** Declarations *)

(** [note] is a comment after a line, with the spaces before it. *)
Inductive modifier : Type := MOptional | MRequired | MRepeated.

Record group_field := {
  g_modifier : modifier;
  g_avp : bytes;
  g_name : bytes;
  g_position : Z;
  g_note : bytes }.

Record command_field := {
  f_fixed : bool;
  f_repeated : bool;
  f_required : bool;
  f_avp : bytes;
  f_name : bytes;
  f_position : Z;
  f_note : bytes }.

Record avp_decl := {
  a_name : bytes;
  a_code : Z;
  a_vendor : Z;
  a_type : bytes;
  a_must : bool;
  a_may_encrypt : bool;
  a_group : option (list group_field) }.

Record command_decl := {
  c_name : bytes;
  c_code : Z;
  c_application : Z;
  c_request : bool;
  c_proxiable : bool;
  c_fields : list command_field }.

Record enum_value := { v_name : bytes; v_value : Z; v_note : bytes }.

Inductive decl : Type :=
| DPackage (name : bytes)
| DGoPackage (path : bytes)
| DConst (name : bytes) (value : Z) (note : bytes)
| DEnum (name : bytes) (values : list enum_value)
| DAVP (a : avp_decl)
| DCommand (c : command_decl).

(** ** How they are written *)

Definition bool_text (b : bool) : bytes := if b then gostr "true" else gostr "false".

Definition assign (key value : bytes) : bytes := key ++ gostr " = " ++ value ++ [c_semi].

Definition modifier_text (m : modifier) : bytes :=
  match m with MOptional => gostr "optional" | MRequired => gostr "required" | MRepeated => gostr "repeated" end.

Definition group_words (f : group_field) : list bytes :=
  [modifier_text (g_modifier f); g_avp f; g_name f; [c_equal]; show (g_position f)].
Definition group_line (f : group_field) : bytes := unwords (group_words f) ++ [c_semi] ++ g_note f.

Definition command_words (f : command_field) : list bytes :=
  (if f_fixed f then [gostr "fixed"] else []) ++ (if f_repeated f then [gostr "repeated"] else []) ++
  [if f_required f then gostr "required" else gostr "optional"; f_avp f; f_name f; [c_equal]; show (f_position f)].
Definition command_field_line (f : command_field) : bytes := unwords (command_words f) ++ [c_semi] ++ f_note f.

Definition value_line (v : enum_value) : bytes := assign (v_name v) (show (v_value v)) ++ v_note v.

Definition block_line (word name : bytes) : bytes := word ++ [c_space] ++ name ++ gostr " {".

Definition quote : byte := Byte.x22.

Definition decl_lines (d : decl) : list bytes :=
  match d with
  | DPackage name => [gostr "package " ++ name ++ [c_semi]]
  | DGoPackage path => [gostr "option go_package = " ++ [quote] ++ path ++ [quote; c_semi]]
  | DConst name value note => [gostr "const " ++ assign name (show value) ++ note]
  | DEnum name values => block_line (gostr "enum") name :: map value_line values ++ [[c_close]]
  | DAVP a =>
      block_line (gostr "avp") (a_name a) ::
      [assign (gostr "code") (show (a_code a)); assign (gostr "vendor_id") (show (a_vendor a));
       assign (gostr "type") (a_type a); assign (gostr "must") (bool_text (a_must a));
       assign (gostr "may_encrypt") (bool_text (a_may_encrypt a))] ++
      match a_group a with
      | Some fs => gostr "grouped {" :: map group_line fs ++ [[c_close]]
      | None => []
      end ++ [[c_close]]
  | DCommand c =>
      block_line (gostr "command") (c_name c) ::
      [assign (gostr "code") (show (c_code c)); assign (gostr "application_id") (show (c_application c));
       assign (gostr "request") (bool_text (c_request c)); assign (gostr "proxiable") (bool_text (c_proxiable c))] ++
      map command_field_line (c_fields c) ++ [[c_close]]
  end.

(** ** What they mean *)

Definition declare_group_field (f : group_field) (p : ProtoParser) : AVPField * ProtoParser :=
  let '(a, p) := field_avp (g_avp f) p in
  ({| AVP := a; FieldName := toCamelCase (g_name f); Fixed := false;
      Required := match g_modifier f with MRequired => true | _ => false end;
      Repeated := match g_modifier f with MRepeated => true | _ => false end; Position := g_position f |}, p).

Definition declare_command_field (f : command_field) (p : ProtoParser) : AVPField * ProtoParser :=
  let '(a, p) := field_avp (f_avp f) p in
  ({| AVP := a; FieldName := toCamelCase (f_name f); Fixed := f_fixed f; Required := f_required f;
      Repeated := f_repeated f; Position := f_position f |}, p).

Fixpoint declare_all {A} (declare : A -> ProtoParser -> AVPField * ProtoParser) (l : list A) (p : ProtoParser)
  : list AVPField * ProtoParser :=
  match l with
  | [] => ([], p)
  | x :: l => let '(f, p) := declare x p in let '(fs, p) := declare_all declare l p in (f :: fs, p)
  end.

Definition enum_map (values : list enum_value) : gmap bytes Z :=
  foldl (fun vs v => <[v_name v := v_value v]> vs) ∅ values.

Definition declare (p : ProtoParser) (d : decl) : ProtoParser :=
  match d with
  | DPackage name => p <| Package := name |>
  | DGoPackage path => p <| GoPackage := path |> <| PackageName := List.last (Split c_slash path) [] |>
  | DConst name value _ => p <| Consts ::= <[name := value]> |>
  | DEnum name values => p <| Enums ::= <[name := {| enum_Name := name; Values := enum_map values |}]> |>
  | DAVP a =>
      let '(fs, p) := declare_all declare_group_field (default [] (a_group a)) p in
      let '(ptr, p) :=
        alloc {| Name := a_name a; Code := a_code a; Type_ := default UnknownType (Available !! a_type a);
                 TypeName := a_type a; Must := a_must a; MayEncrypt := a_may_encrypt a; VendorID := a_vendor a;
                 GroupedFields := fs |} p in
      p <| AVPs ::= <[a_name a := ptr]> |>
  | DCommand c =>
      let '(fs, p) := declare_all declare_command_field (c_fields c) p in
      p <| Commands ::= fun l => l ++
        [{| cmd_Name := c_name c; Abbreviation_ := generateAbbreviation (c_name c); cmd_Code := c_code c;
            cmd_ApplicationID := c_application c; cmd_Request := c_request c; cmd_Proxiable := c_proxiable c;
            cmd_Package := PackageName p; cmd_Fields := fs |}] |>
  end.

(** ** Declarations that can be written *)

(** The characters of names and types. *)
Definition plain (b : byte) : bool :=
  negb (is_space b) && negb (existsb (is_byte b) [c_brace; c_close; c_semi; c_equal; c_slash]).

Definition word (w : bytes) : Prop := w <> [] /\ Forall (fun b => plain b = true) w.

Definition no_brace (s : bytes) : Prop := (c_brace ∉ s) /\ (c_close ∉ s).

(** A comment after a line, or nothing. *)
Definition note_ok (note : bytes) : Prop :=
  note = [] \/ exists spaces text b, note = spaces ++ w_comment ++ text /\
    Forall (fun b => is_space b = true) spaces /\ no_brace text /\ last (w_comment ++ text) = Some b /\ is_space b = false.

(** A line that does not start a declaration. *)
Definition ordinary (line : bytes) : bool :=
  forallb (fun p => negb (HasPrefix line p))
    [gostr "syntax"; gostr "package "; gostr "option go_package"; gostr "const "; gostr "avp ";
     gostr "command "; gostr "enum "].

Definition group_field_ok (f : group_field) : Prop :=
  word (g_avp f) /\ word (g_name f) /\ 0 <= g_position f < 2 ^ 63 /\ note_ok (g_note f).

(** The name of an AVP is not a modifier. *)
Definition command_field_ok (f : command_field) : Prop :=
  word (f_avp f) /\ word (f_name f) /\ 0 <= f_position f < 2 ^ 63 /\ note_ok (f_note f) /\
  f_avp f ∉ [gostr "fixed"; gostr "repeated"; gostr "required"; gostr "optional"].

Definition value_ok (v : enum_value) : Prop :=
  word (v_name v) /\ u32 (v_value v) /\ note_ok (v_note v) /\ ordinary (value_line v) = true.

Definition decl_ok (d : decl) : Prop :=
  match d with
  | DPackage name => word name
  | DGoPackage path =>
      Forall (fun b => b ∉ [quote; Byte.x27; c_semi; c_equal]) path /\ path <> []
  | DConst name value note => word name /\ u64 value /\ note_ok note
  | DEnum name values => word name /\ Forall value_ok values
  | DAVP a =>
      word (a_name a) /\ u32 (a_code a) /\ u32 (a_vendor a) /\ word (a_type a) /\
      Forall group_field_ok (default [] (a_group a))
  | DCommand c =>
      word (c_name c) /\ u32 (c_code c) /\ u32 (c_application c) /\ Forall command_field_ok (c_fields c)
  end.

(** The lines of a text that the parser looks at, and a limit on all. *)
Definition lines_of (text : bytes) : list bytes :=
  filter (fun l => skipped l = false) (map (fun raw => TrimSpace (dropCR raw)) (raw_lines text)).

Definition lines_fit (text : bytes) : Prop := Forall (fun raw => len raw < MaxScanTokenSize) (raw_lines text).
