(* ===== verification/ProtoReads.v ===== *)
(** * The parser reads proto files as they are meant

    [ParseFile] on a text whose lines are those of a list of declarations does
    what [declare] does for each of them. *)

From S2P Require Import Prelude DataTypes GoText ProtoParser ProtoText.

(** ** Words and lines *)

Lemma plain_spec b : plain b = true ->
  is_space b = false /\ b <> c_brace /\ b <> c_close /\ b <> c_semi /\ b <> c_equal /\ b <> c_slash.
Proof.
  unfold plain. intros [H1 H2]%Bool.andb_true_iff. rewrite Bool.negb_true_iff in H1, H2. split; [done|].
  cbn [existsb] in H2. rewrite !Bool.orb_false_iff in H2. destruct_and? H2.
  split_and!; intros ->; by rewrite is_byte_refl in *.
Qed.

Lemma word_without w c : word w -> c ∈ [c_brace; c_close; c_semi; c_equal; c_slash; c_space] -> c ∉ w.
Proof.
  intros [_ Hw] Hc Hin. rewrite Forall_forall in Hw. destruct (plain_spec c (Hw c Hin)) as (Hs & H).
  rewrite !elem_of_cons, elem_of_nil in Hc. destruct_and? H. destruct_or? Hc; subst; done.
Qed.
(** Refutes that a word has a character of the punctuation. *)
Ltac not_in_word :=
  match goal with
  | H : ?c ∈ ?w, Hw : word ?w |- _ =>
      exfalso; revert H; apply (word_without w c Hw), (bool_decide_unpack _); by vm_compute
  end.

Lemma word_blank_free w : word w -> blank_free w.
Proof. intros [Hn Hw]. split; [done|]. eapply Forall_impl; [exact Hw|]. intros b Hb. by destruct (plain_spec b Hb). Qed.

Lemma word_head w : word w -> exists b t, w = b :: t /\ plain b = true.
Proof. intros [Hn Hw]. destruct Hw as [|b t Hb _]; [done|]. by exists b, t. Qed.

Lemma word_tight w : word w -> tight w.
Proof. intros Hw. by apply blank_free_tight, word_blank_free. Qed.

Lemma word_literal s : bool_decide (gostr s <> []) && forallb plain (gostr s) = true -> word (gostr s).
Proof.
  intros [H1%bool_decide_eq_true H2]%Bool.andb_true_iff. split; [done|]. rewrite forallb_forall in H2.
  rewrite Forall_forall. intros b Hb. by apply H2, list_elem_of_In.
Qed.

Lemma show_word n : word (show n).
Proof.
  split; [apply show_nonempty|]. eapply Forall_impl; [apply show_digit_bytes|]. intros b Hb%digit_byte_cases.
  repeat (apply elem_of_cons in Hb as [->|Hb]; [done|]). by apply elem_of_nil in Hb.
Qed.

Lemma bool_text_word b : word (bool_text b).
Proof. destruct b; by apply word_literal. Qed.

Lemma bool_text_is b : is_word (bool_text b) "true" = b.
Proof. by destruct b. Qed.

(** A line that starts like a word, and ends with a semicolon and a note. *)
Lemma tight_note a t note :
  is_space a = false -> last (a :: t) = Some c_semi -> note_ok note -> tight ((a :: t) ++ note).
Proof.
  intros Ha Hl [->|(sp & text & b & -> & _ & _ & Hb & Hbs)]; [rewrite app_nil_r; by apply (tight_ends a t c_semi)|].
  cbn [app]. apply (tight_ends a _ b); [done| |done]. rewrite app_comm_cons, app_assoc, last_app.
  change (w_comment ++ text) with (c_slash :: c_slash :: text) in *. by rewrite Hb.
Qed.

Lemma cut_note l note : c_slash ∉ l -> tight l -> l <> [] -> note_ok note -> cut_comment (l ++ note) = l.
Proof.
  intros Hc Ht Hn [->|(sp & text & b & -> & Hsp & _ & _ & _)]; unfold cut_comment, w_comment.
  - rewrite app_nil_r, Index_none by done. done.
  - rewrite app_assoc, (Index_app c_slash [c_slash]).
    + rewrite take_app_length. by apply (TrimSpace_pad [] l sp).
    + rewrite elem_of_app. intros [H|H]; [done|]. rewrite Forall_forall in Hsp. by apply Hsp in H.
Qed.

Lemma skipped_plain b t : is_byte c_slash b = false -> skipped (b :: t) = false.
Proof. intros Hb. unfold skipped. cbn [HasPrefix w_comment]. rewrite Hb. by rewrite bool_decide_eq_false_2. Qed.

Lemma skipped_word w t : word w -> skipped (w ++ t) = false.
Proof.
  intros (b & u & -> & Hb)%word_head. apply skipped_plain. destruct (plain_spec b Hb) as (_ & _ & _ & _ & _ & Hs).
  destruct (is_byte_spec c_slash b); [by subst|done].
Qed.

(** *** [key = value;] *)

Lemma assign_semi k v : assign k v = (k ++ gostr " = " ++ v) ++ [c_semi].
Proof. unfold assign. by rewrite <- !app_assoc. Qed.

Lemma assign_split k v :
  word k -> word v -> exists l r, SplitN2 c_equal (TrimSuffix (assign k v) [c_semi]) = Some (l, r) /\
    TrimSpace l = k /\ TrimSpace r = v.
Proof.
  intros Hk Hv. rewrite assign_semi, TrimSuffix_app. exists (k ++ [c_space]), (c_space :: v). split_and!.
  - change (gostr " = ") with ([c_space] ++ c_equal :: [c_space]). rewrite <- !app_assoc. cbn [app].
    change (k ++ c_space :: c_equal :: c_space :: v) with (k ++ [c_space] ++ c_equal :: c_space :: v).
    rewrite app_assoc. apply SplitN2_app. rewrite elem_of_app, list_elem_of_singleton.
    intros [H|H]; [|done]. not_in_word.
  - apply (TrimSpace_pad [] k [c_space]); [by apply word_tight|apply Hk|constructor|by repeat constructor].
  - rewrite <- (app_nil_r (c_space :: v)). apply (TrimSpace_pad [c_space] v []); [by apply word_tight|apply Hv|by repeat constructor|constructor].
Qed.

Lemma assign_last k v : last (assign k v) = Some c_semi.
Proof. rewrite assign_semi. apply last_snoc. Qed.

Lemma assign_tight k v note : word k -> note_ok note -> tight (assign k v ++ note).
Proof.
  intros Hk Hn. pose proof (assign_last k v) as Hl. destruct (word_head k Hk) as (b & t & -> & Hb).
  unfold assign in *. cbn [app] in *. apply tight_note; [|done|done]. by apply plain_spec.
Qed.

Lemma assign_no_slash k v : word k -> word v -> c_slash ∉ assign k v.
Proof.
  intros Hk Hv. unfold assign. rewrite !elem_of_app. intros [H|[H|[H|H]]].
  - not_in_word.
  - revert H. apply (bool_decide_unpack _). by vm_compute.
  - not_in_word.
  - by apply list_elem_of_singleton in H.
Qed.

Lemma assign_nonempty k v : assign k v <> [].
Proof. rewrite assign_semi. by destruct (k ++ _). Qed.

(** What a loop over [key = value;] lines sees. *)
Lemma assign_cut k v note : word k -> word v -> note_ok note ->
  TrimSpace (assign k v ++ note) = assign k v ++ note /\ skipped (assign k v ++ note) = false /\
  cut_comment (assign k v ++ note) = assign k v.
Proof.
  intros Hk Hv Hn. split_and!; [by apply assign_tight| |].
  - unfold assign. rewrite <- app_assoc. by apply skipped_word.
  - apply cut_note; [by apply assign_no_slash| |apply assign_nonempty|done].
    rewrite <- (app_nil_r (assign k v)). apply assign_tight; [done|by left].
Qed.

(** *** Lines of words *)

Definition item (w : bytes) : Prop := word w \/ w = [c_equal].

Lemma items_tail a n k : word a -> word n -> Forall item [a; n; [c_equal]; show k].
Proof.
  intros Ha Hn. apply Forall_cons_2; [by left|]. apply Forall_cons_2; [by left|].
  apply Forall_cons_2; [by right|]. apply Forall_singleton. left. apply show_word.
Qed.

Lemma item_blank_free w : item w -> blank_free w.
Proof. intros [H| ->]; [by apply word_blank_free|]. split; [done|]. by apply Forall_singleton. Qed.

Lemma item_without w c : item w -> c ∈ [c_brace; c_close; c_semi; c_slash; c_space] -> c ∉ w.
Proof.
  intros [H| ->] Hc; [apply (word_without w c H); set_solver|].
  rewrite list_elem_of_singleton. intros ->. revert Hc. apply (bool_decide_unpack _). by vm_compute.
Qed.

Lemma unwords_cons w ws : ws <> [] -> unwords (w :: ws) = w ++ c_space :: unwords ws.
Proof. by destruct ws. Qed.

Lemma unwords_app xs ys : xs <> [] -> ys <> [] -> unwords (xs ++ ys) = unwords xs ++ c_space :: unwords ys.
Proof.
  intros Hx Hy. induction xs as [|x xs IH]; [done|]. destruct xs as [|x' xs]; [by apply unwords_cons|].
  change ((x :: x' :: xs) ++ ys) with (x :: ((x' :: xs) ++ ys)).
  rewrite unwords_cons, (unwords_cons x) by done. rewrite IH by done. by rewrite <- app_assoc.
Qed.

Lemma words_items ws : Forall word ws -> Forall item ws.
Proof. intros H. eapply Forall_impl; [exact H|]. by left. Qed.

Lemma unwords_no_equal ws : Forall word ws -> c_equal ∉ unwords ws.
Proof.
  induction 1 as [|w ws Hw Hws IH]; [apply not_elem_of_nil|].
  destruct ws as [|w' ws]; [cbn [unwords]; intros H; not_in_word|].
  rewrite unwords_cons, elem_of_app, elem_of_cons by done. intros [H|[H|H]]; [not_in_word|done|done].
Qed.

Lemma unwords_last ws : Forall word ws -> ws <> [] -> exists b, last (unwords ws) = Some b /\ is_space b = false.
Proof.
  induction 1 as [|w ws Hw Hws IH]; [done|]. intros _. destruct ws as [|w' ws].
  - cbn [unwords]. destruct (tight_inv w (word_tight w Hw)) as [->|(a & t & b & _ & Hl & _ & Hb)]; [by destruct Hw|].
    by exists b.
  - destruct (IH ltac:(done)) as (b & Hl & Hb). exists b. split; [|done].
    by rewrite unwords_cons, last_app, last_cons, Hl by done.
Qed.

Lemma unwords_without ws c :
  Forall item ws -> c ∈ [c_brace; c_close; c_semi; c_slash] -> c ∉ unwords ws.
Proof.
  intros H Hc. induction H as [|w ws Hw Hws IH]; [apply not_elem_of_nil|].
  assert (c ∉ w) as Hcw by (apply item_without; [done|set_solver]).
  destruct ws as [|w' ws]; [done|]. rewrite unwords_cons by done. rewrite elem_of_app, elem_of_cons.
  intros [H|[->|H]]; [done| |done]. revert Hc. apply (bool_decide_unpack _). by vm_compute.
Qed.

Lemma unwords_head w ws : word w -> exists b t, unwords (w :: ws) = b :: t /\ plain b = true.
Proof. intros (b & t & -> & Hb)%word_head. destruct ws; cbn [unwords app]; by eexists _, _. Qed.

Lemma words_line w ws note :
  word w -> Forall item ws -> note_ok note ->
  let line := unwords (w :: ws) ++ [c_semi] ++ note in
  TrimSpace line = line /\ skipped line = false /\ cut_comment line = unwords (w :: ws) ++ [c_semi].
Proof.
  intros Hw Hws Hn line. subst line. destruct (unwords_head w ws Hw) as (b & t & E & Hb).
  pose proof (plain_spec b Hb) as (Hs & _ & _ & _ & _ & Hc).
  assert (Forall item (w :: ws)) as Hi by (constructor; [by left|done]).
  assert (tight ((unwords (w :: ws) ++ [c_semi]) ++ note)) as Ht.
  { rewrite E. cbn [app]. apply tight_note; [done| |done]. rewrite app_comm_cons. apply last_snoc. }
  rewrite app_assoc. split; [exact Ht|]. split.
  - rewrite E. cbn [app]. apply skipped_plain. by destruct (is_byte_spec c_slash b); [subst|].
  - apply cut_note; [| |by rewrite E|done].
    + rewrite elem_of_app, list_elem_of_singleton. intros [H|H]; [|done].
      revert H. apply unwords_without; [done|]. apply (bool_decide_unpack _). by vm_compute.
    + rewrite E. cbn [app]. rewrite <- (app_nil_r (b :: t ++ [c_semi])). apply tight_note; [done| |by left].
      rewrite app_comm_cons. apply last_snoc.
Qed.

Lemma unwords_fields ws : Forall item ws -> Fields (unwords ws) = ws.
Proof. intros H. apply Fields_unwords. eapply Forall_impl; [exact H|]. apply item_blank_free. Qed.

Lemma field_position_show n : 0 <= n < 2 ^ 63 -> field_position [[c_equal]; show n] = n.
Proof.
  intros Hn. unfold field_position. change (is_word [c_equal] "=") with true. cbv iota.
  rewrite TrimSuffix_not by (apply word_without; [apply show_word|apply (bool_decide_unpack _); by vm_compute]).
  by rewrite Atoi_show.
Qed.

(** ** Fields *)

Lemma field_names_read avp name n fi re rp p :
  0 <= n < 2 ^ 63 ->
  field_names [avp; name; [c_equal]; show n] fi re rp p =
    let '(a, p) := field_avp avp p in
    (p, Ok {| AVP := a; FieldName := toCamelCase name; Fixed := fi; Required := re; Repeated := rp; Position := n |}).
Proof. intros Hn. unfold field_names. by rewrite field_position_show. Qed.

Lemma modifier_word m : word (modifier_text m).
Proof. destruct m; by apply word_literal. Qed.

Lemma group_line_read f p :
  group_field_ok f ->
  grouped_field (group_line f) p = let '(x, p) := declare_group_field f p in (p, Ok [x]).
Proof.
  intros (Ha & Hn & Hp & Hnote). pose proof (modifier_word (g_modifier f)) as Hm.
  pose proof (items_tail _ _ (g_position f) Ha Hn) as Hi.
  destruct (words_line (modifier_text (g_modifier f)) _ (g_note f) Hm Hi Hnote) as (H1 & H2 & H3).
  unfold grouped_field, group_line, group_words. cbn [tail group_words] in *. rewrite H1, H2, H3, TrimSuffix_app.
  rewrite unwords_fields by (constructor; [by left|done]).
  change (len [_; _; _; _; _] <? 4) with false. cbv iota. unfold declare_group_field.
  destruct (g_modifier f); cbn [modifier_text];
    [change (is_word (gostr "optional") "optional") with true
    |change (is_word (gostr "required") "optional") with false; change (is_word (gostr "required") "required") with true
    |change (is_word (gostr "repeated") "optional") with false; change (is_word (gostr "repeated") "required") with false;
     change (is_word (gostr "repeated") "repeated") with true];
    cbv iota; rewrite field_names_read by done; by destruct (field_avp (g_avp f) p).
Qed.

Lemma group_lines_read fs fields p :
  Forall group_field_ok fs ->
  parseGroupedFields (map group_line fs) fields p =
    let '(xs, p) := declare_all declare_group_field fs p in (p, Ok (fields ++ xs)).
Proof.
  intros H. revert fields p. induction H as [|f fs Hf _ IH]; intros fields p; cbn [map parseGroupedFields declare_all].
  { by rewrite app_nil_r. }
  rewrite group_line_read by done. destruct (declare_group_field f p) as [x p1]. rewrite IH.
  destruct (declare_all _ _ _) as [xs p2]. by rewrite <- app_assoc.
Qed.

Definition command_modifiers (f : command_field) : list bytes :=
  (if f_fixed f then [gostr "fixed"] else []) ++ (if f_repeated f then [gostr "repeated"] else []) ++
  [if f_required f then gostr "required" else gostr "optional"].

Lemma command_words_split f : command_words f = command_modifiers f ++ [f_avp f; f_name f; [c_equal]; show (f_position f)].
Proof. unfold command_words, command_modifiers. by rewrite <- !app_assoc. Qed.

Lemma command_modifiers_words f : Forall word (command_modifiers f) /\ command_modifiers f <> [].
Proof.
  unfold command_modifiers.
  destruct (f_fixed f), (f_repeated f), (f_required f); (split; [|done]); repeat constructor; by apply word_literal.
Qed.

Lemma field_modifiers_read f :
  command_field_ok f ->
  field_modifiers (command_words f) false false false =
    ([f_avp f; f_name f; [c_equal]; show (f_position f)], (f_fixed f, f_required f, f_repeated f)).
Proof.
  intros (_ & _ & _ & _ & Hn). rewrite command_words_split.
  assert (forall fi re rp, field_modifiers [f_avp f; f_name f; [c_equal]; show (f_position f)] fi re rp =
    ([f_avp f; f_name f; [c_equal]; show (f_position f)], (fi, re, rp))) as Hend.
  { intros. cbn [field_modifiers]. unfold is_word. rewrite !bool_decide_eq_false_2; [done|..];
      intros E; rewrite E in Hn; apply Hn, (bool_decide_unpack _); by vm_compute. }
  unfold command_modifiers. destruct (f_fixed f), (f_repeated f), (f_required f); apply Hend.
Qed.

Lemma keys_split w w' ws v :
  Forall word (w :: w' :: ws) ->
  let keys := unwords (w :: w' :: ws) in
  SplitN2 c_equal (unwords ((w :: w' :: ws) ++ [[c_equal]; v])) = Some (keys ++ [c_space], c_space :: v) /\
  TrimSpace (keys ++ [c_space]) = keys /\ ContainsByte keys c_space = true.
Proof.
  intros H keys. assert (word w) as Hw by by inversion H. split_and!.
  - assert (unwords ((w :: w' :: ws) ++ [[c_equal]; v]) = (keys ++ [c_space]) ++ c_equal :: c_space :: v) as ->.
    { rewrite unwords_app by done. by rewrite <- app_assoc. }
    apply SplitN2_app. rewrite elem_of_app, list_elem_of_singleton.
    intros [Hin|Hin]; [by apply unwords_no_equal in Hin|done].
  - destruct (unwords_head w (w' :: ws) Hw) as (a & t & E & Ha). fold keys in E.
    destruct (unwords_last _ H ltac:(done)) as (b & Hl & Hb). fold keys in Hl.
    apply (TrimSpace_pad [] keys [c_space]); [|by rewrite E|constructor|by repeat constructor].
    rewrite E in *. apply (tight_ends a t b); [by apply plain_spec|done|done].
  - unfold ContainsByte. apply existsb_exists. exists c_space. split; [|by vm_compute].
    apply list_elem_of_In. subst keys. rewrite unwords_cons by done. rewrite elem_of_app, elem_of_cons. auto.
Qed.

Lemma parseFieldDefinition_read f cmd p :
  command_field_ok f ->
  parseFieldDefinition (unwords (command_words f)) cmd p =
    let '(x, p) := declare_command_field f p in (p, Ok (cmd <| cmd_Fields ::= fun l => l ++ [x] |>)).
Proof.
  intros Hf. pose proof Hf as (Ha & Hn & Hp & _).
  unfold parseFieldDefinition. rewrite unwords_fields.
  - rewrite (proj2 (Z.ltb_ge _ 4)).
    + rewrite field_modifiers_read, field_names_read by done. unfold declare_command_field.
      by destruct (field_avp (f_avp f) p).
    + rewrite command_words_split, len_app. unfold len. cbn [length]. lia.
  - rewrite command_words_split. apply Forall_app. split; [apply words_items, command_modifiers_words|].
    by apply items_tail.
Qed.

Lemma command_field_line_read f cmd p :
  command_field_ok f ->
  command_line (command_field_line f) cmd p =
    let '(x, p) := declare_command_field f p in (p, Ok (cmd <| cmd_Fields ::= fun l => l ++ [x] |>)).
Proof.
  intros Hf. pose proof Hf as (Ha & Hn & Hp & Hnote & _). rewrite <- parseFieldDefinition_read by done.
  destruct (command_modifiers_words f) as [Hm Hne].
  destruct (command_modifiers f) as [|w ms] eqn:Em; [done|]. apply Forall_cons in Hm as [Hw Hm].
  assert (exists w' ws, w :: ms ++ [f_avp f; f_name f] = w :: w' :: ws /\ Forall word (w' :: ws)) as (w' & ws & Ek & Hk).
  { assert (Forall word (ms ++ [f_avp f; f_name f])) as H by (apply Forall_app; split; [done|apply Forall_cons_2; [done|by apply Forall_singleton]]).
    destruct ms as [|m ms]; cbn [app] in *; by eexists _, _. }
  assert (command_words f = (w :: w' :: ws) ++ [[c_equal]; show (f_position f)]) as Ew.
  { rewrite command_words_split, Em, <- Ek. cbn [app]. by rewrite <- app_assoc. }
  destruct (keys_split w w' ws (show (f_position f))) as (H1 & H2 & H3); [by constructor|].
  destruct (words_line w ((w' :: ws) ++ [[c_equal]; show (f_position f)]) (f_note f)) as (L1 & L2 & L3); [done| |done|].
  { apply Forall_app. split; [by apply words_items|].
    apply Forall_cons_2; [by right|]. apply Forall_singleton. left. apply show_word. }
  unfold command_line, command_field_line. rewrite Ew. cbn [app] in *. rewrite L1, L2, L3, TrimSuffix_app.
  rewrite H1. cbv zeta iota beta. by rewrite H2, H3.
Qed.

(** ** The bodies of blocks *)

Lemma enum_values_read vs m :
  Forall value_ok vs ->
  forall name, enum_values name (map value_line vs) m = Ok (foldl (fun m v => <[v_name v := v_value v]> m) m vs).
Proof.
  intros H name. revert m. induction H as [|v vs (Hw & Hv & Hn & _) _ IH]; intros m; cbn [map enum_values foldl]; [done|].
  destruct (assign_cut (v_name v) (show (v_value v)) (v_note v) Hw (show_word _) Hn) as (H1 & H2 & H3).
  unfold value_line. rewrite H1, H2, H3.
  destruct (assign_split (v_name v) (show (v_value v)) Hw (show_word _)) as (l & r & -> & -> & ->).
  by rewrite ParseUint_show, IH by done.
Qed.

(** A property line of a command or of an AVP. *)
Lemma property_line_read k v : word k -> word v ->
  TrimSpace (assign k v) = assign k v /\ skipped (assign k v) = false /\ cut_comment (assign k v) = assign k v /\
  exists l r, SplitN2 c_equal (TrimSuffix (assign k v) [c_semi]) = Some (l, r) /\ TrimSpace l = k /\ TrimSpace r = v.
Proof.
  intros Hk Hv. destruct (assign_cut k v [] Hk Hv ltac:(by left)) as (H1 & H2 & H3). rewrite app_nil_r in *.
  destruct (assign_split k v Hk Hv) as (l & r & Hs). split_and!; try done. by exists l, r.
Qed.

Lemma command_fields_read fs cmd p :
  Forall command_field_ok fs ->
  command_lines (map command_field_line fs) cmd p =
    let '(xs, p) := declare_all declare_command_field fs p in (p, Ok (cmd <| cmd_Fields ::= fun l => l ++ xs |>)).
Proof.
  intros H. revert cmd p. induction H as [|f fs Hf _ IH]; intros cmd p; cbn [map command_lines declare_all].
  { destruct cmd. unfold set_field. cbn. by rewrite app_nil_r. }
  rewrite command_field_line_read by done. destruct (declare_command_field f p) as [x p1]. rewrite IH.
  destruct (declare_all _ _ _) as [xs p2]. do 2 f_equal. destruct cmd. unfold set_field. cbn. by rewrite <- app_assoc.
Qed.

Ltac property_of k v Hv :=
  let Hk := fresh in
  assert (word (gostr k)) as Hk by (by apply word_literal);
  let l := fresh "l" in let r := fresh "r" in let E1 := fresh in let E2 := fresh in let E3 := fresh in
  let E4 := fresh in let E5 := fresh in let E6 := fresh in
  destruct (property_line_read (gostr k) v Hk Hv) as (E1 & E2 & E3 & l & r & E4 & E5 & E6);
  rewrite ?E1, ?E2, ?E3, ?E4; cbv zeta iota beta; rewrite ?E5, ?E6; clear E1 E2 E3 E4 E5 E6 Hk.

Lemma command_line_code n cmd p : u32 n ->
  command_line (assign (gostr "code") (show n)) cmd p = (p, Ok (cmd <| cmd_Code := n |>)).
Proof.
  intros Hn. unfold command_line. property_of "code"%string (show n) (show_word n).
  change (ContainsByte (gostr "code") c_space) with false. change (is_word (gostr "code") "code") with true.
  cbv iota. by rewrite ParseUint_show.
Qed.

Lemma command_line_application n cmd p : u32 n ->
  command_line (assign (gostr "application_id") (show n)) cmd p = (p, Ok (cmd <| cmd_ApplicationID := n |>)).
Proof.
  intros Hn. unfold command_line. property_of "application_id"%string (show n) (show_word n).
  change (ContainsByte (gostr "application_id") c_space) with false.
  change (is_word (gostr "application_id") "code") with false.
  change (is_word (gostr "application_id") "application_id") with true. cbv iota. by rewrite ParseUint_show.
Qed.

Lemma command_line_request b cmd p :
  command_line (assign (gostr "request") (bool_text b)) cmd p = (p, Ok (cmd <| cmd_Request := b |>)).
Proof.
  unfold command_line. property_of "request"%string (bool_text b) (bool_text_word b).
  change (ContainsByte (gostr "request") c_space) with false.
  change (is_word (gostr "request") "code") with false.
  change (is_word (gostr "request") "application_id") with false.
  change (is_word (gostr "request") "request") with true. cbv iota. by rewrite bool_text_is.
Qed.

Lemma command_line_proxiable b cmd p :
  command_line (assign (gostr "proxiable") (bool_text b)) cmd p = (p, Ok (cmd <| cmd_Proxiable := b |>)).
Proof.
  unfold command_line. property_of "proxiable"%string (bool_text b) (bool_text_word b).
  change (ContainsByte (gostr "proxiable") c_space) with false.
  change (is_word (gostr "proxiable") "code") with false.
  change (is_word (gostr "proxiable") "application_id") with false.
  change (is_word (gostr "proxiable") "request") with false.
  change (is_word (gostr "proxiable") "proxiable") with true. cbv iota. by rewrite bool_text_is.
Qed.

Lemma avp_code n d : u32 n -> avp_property (assign (gostr "code") (show n)) d = Ok (d <| Code := n |>).
Proof.
  intros Hn. unfold avp_property. property_of "code"%string (show n) (show_word n).
  change (is_word (gostr "code") "code") with true. cbv iota. by rewrite ParseUint_show.
Qed.

Lemma avp_vendor n d : u32 n -> avp_property (assign (gostr "vendor_id") (show n)) d = Ok (d <| VendorID := n |>).
Proof.
  intros Hn. unfold avp_property. property_of "vendor_id"%string (show n) (show_word n).
  change (is_word (gostr "vendor_id") "code") with false. change (is_word (gostr "vendor_id") "type") with false.
  change (is_word (gostr "vendor_id") "must") with false. change (is_word (gostr "vendor_id") "may_encrypt") with false.
  change (is_word (gostr "vendor_id") "vendor_id") with true. cbv iota. by rewrite ParseUint_show.
Qed.

Lemma avp_type t d : word t -> Type_ d = UnknownType ->
  avp_property (assign (gostr "type") t) d =
    Ok (d <| TypeName := t |> <| Type_ := default UnknownType (Available !! t) |>).
Proof.
  intros Ht Hd. unfold avp_property. property_of "type"%string t Ht.
  change (is_word (gostr "type") "code") with false. change (is_word (gostr "type") "type") with true.
  cbv iota. destruct (Available !! t); [done|]. cbn [default]. destruct d. cbn in Hd. by subst.
Qed.

Lemma avp_must b d : avp_property (assign (gostr "must") (bool_text b)) d = Ok (d <| Must := b |>).
Proof.
  unfold avp_property. property_of "must"%string (bool_text b) (bool_text_word b).
  change (is_word (gostr "must") "code") with false. change (is_word (gostr "must") "type") with false.
  change (is_word (gostr "must") "must") with true. cbv iota. by rewrite bool_text_is.
Qed.

Lemma avp_may_encrypt b d : avp_property (assign (gostr "may_encrypt") (bool_text b)) d = Ok (d <| MayEncrypt := b |>).
Proof.
  unfold avp_property. property_of "may_encrypt"%string (bool_text b) (bool_text_word b).
  change (is_word (gostr "may_encrypt") "code") with false. change (is_word (gostr "may_encrypt") "type") with false.
  change (is_word (gostr "may_encrypt") "must") with false. change (is_word (gostr "may_encrypt") "may_encrypt") with true.
  cbv iota. by rewrite bool_text_is.
Qed.

(** *** The group of an AVP *)

Lemma group_line_shape f : group_field_ok f ->
  TrimSpace (group_line f) = group_line f /\ skipped (group_line f) = false /\
  HasPrefix (group_line f) (gostr "grouped {") = false /\ group_line f <> [c_close] /\ ordinary (group_line f) = true.
Proof.
  intros (Ha & Hn & Hp & Hnote).
  destruct (words_line (modifier_text (g_modifier f)) _ (g_note f) (modifier_word _)
    (items_tail _ _ (g_position f) Ha Hn) Hnote) as (H1 & H2 & _).
  split; [exact H1|]. split; [exact H2|]. unfold group_line, group_words. by destruct (g_modifier f).
Qed.

Lemma avp_lines_group fs ls d p rest :
  Forall group_field_ok fs ->
  avp_lines (map group_line fs ++ rest) (Some ls) d p = avp_lines rest (Some (ls ++ map group_line fs)) d p.
Proof.
  intros H. revert ls. induction H as [|f fs Hf _ IH]; intros ls; cbn [map app]; [by rewrite app_nil_r|].
  destruct (group_line_shape f Hf) as (H1 & H2 & H3 & H4 & _).
  cbn [avp_lines]. rewrite H1, H2, H3, bool_decide_eq_false_2 by done. rewrite IH. by rewrite <- app_assoc.
Qed.

Definition close_line : bytes := [c_close].

Lemma avp_lines_grouped fs d p rest :
  Forall group_field_ok fs -> GroupedFields d = [] ->
  avp_lines (gostr "grouped {" :: map group_line fs ++ close_line :: rest) None d p =
    let '(xs, p) := declare_all declare_group_field fs p in avp_lines rest None (d <| GroupedFields := xs |>) p.
Proof.
  intros H Hd. cbn [avp_lines]. change (TrimSpace (gostr "grouped {")) with (gostr "grouped {").
  change (skipped (gostr "grouped {")) with false. change (HasPrefix (gostr "grouped {") (gostr "grouped {")) with true.
  cbv iota. rewrite avp_lines_group by done. cbn [avp_lines app].
  change (TrimSpace close_line) with close_line. change (skipped close_line) with false.
  change (HasPrefix close_line (gostr "grouped {")) with false. change (bool_decide (close_line = [c_close])) with true.
  cbv iota. rewrite Hd, group_lines_read by done. by destruct (declare_all _ _ _) as [xs p1].
Qed.

Lemma avp_lines_close d p : avp_lines [close_line] None d p = (p, Ok d).
Proof. reflexivity. Qed.

Lemma avp_lines_property k v d d' p rest :
  word (gostr k) -> word v ->
  (forall s, HasPrefix (gostr k ++ gostr " = " ++ s) (gostr "grouped {") = false) ->
  avp_property (assign (gostr k) v) d = Ok d' ->
  avp_lines (assign (gostr k) v :: rest) None d p = avp_lines rest None d' p.
Proof.
  intros Hk Hv Hg Hp. destruct (property_line_read (gostr k) v Hk Hv) as (H1 & H2 & _).
  cbn [avp_lines]. rewrite H1, H2. unfold assign at 1. rewrite Hg. by rewrite Hp.
Qed.

(** *** First lines *)

Lemma block_line_words w name : block_line w name = unwords [w; name; [c_brace]].
Proof. unfold block_line. cbn [unwords app]. done. Qed.

Lemma block_line_read w name : word w -> word name ->
  TrimSpace (block_line w name) = block_line w name /\ Fields (block_line w name) = [w; name; [c_brace]] /\
  block_name name = name.
Proof.
  intros Hw Hn. rewrite block_line_words. split_and!.
  - destruct (unwords_head w [name; [c_brace]] Hw) as (a & t & E & Ha). rewrite E.
    apply (tight_ends a t c_brace); [by apply plain_spec| |done]. rewrite <- E.
    cbn [unwords]. rewrite last_app, last_cons, last_app. done.
  - apply Fields_unwords. apply Forall_cons_2; [by apply word_blank_free|].
    apply Forall_cons_2; [by apply word_blank_free|]. apply Forall_singleton. split; [done|by apply Forall_singleton].
  - unfold block_name. rewrite TrimSuffix_not; [by apply word_tight|].
    apply (word_without name c_brace Hn), (bool_decide_unpack _). by vm_compute.
Qed.

(** ** Each block does what it declares *)

Lemma parseEnumBlock_read name values p :
  word name -> Forall value_ok values ->
  parseEnumBlock (block_line (gostr "enum") name) (map value_line values ++ [close_line]) p =
    (declare p (DEnum name values), Ok tt).
Proof.
  intros Hn Hv. destruct (block_line_read (gostr "enum") name ltac:(by apply word_literal) Hn) as (H1 & H2 & H3).
  unfold parseEnumBlock. rewrite H1, H2, H3, removelast_last, enum_values_read by done. done.
Qed.

Lemma parseCommandBlock_read c p :
  decl_ok (DCommand c) ->
  parseCommandBlock (block_line (gostr "command") (c_name c)) (tail (decl_lines (DCommand c))) p =
    (declare p (DCommand c), Ok tt).
Proof.
  intros (Hn & Hc & Ha & Hf).
  destruct (block_line_read (gostr "command") (c_name c) ltac:(by apply word_literal) Hn) as (H1 & H2 & H3).
  unfold parseCommandBlock. rewrite H1, H2, H3. cbn [decl_lines tail]. rewrite app_assoc, removelast_last.
  cbn [app command_lines].
  rewrite command_line_code, command_line_application, command_line_request, command_line_proxiable by done.
  rewrite command_fields_read by done. unfold declare. by destruct (declare_all _ _ _) as [xs p1].
Qed.

Lemma parseAVPBlock_read a p :
  decl_ok (DAVP a) ->
  parseAVPBlock (block_line (gostr "avp") (a_name a)) (tail (decl_lines (DAVP a))) p =
    (declare p (DAVP a), Ok tt).
Proof.
  intros (Hn & Hc & Hv & Ht & Hf).
  destruct (block_line_read (gostr "avp") (a_name a) ltac:(by apply word_literal) Hn) as (H1 & H2 & H3).
  unfold parseAVPBlock. cbn [decl_lines tail app expand_single]. rewrite H1, H2, H3.
  erewrite (avp_lines_property "code"); [|by apply word_literal|apply show_word|done|by apply avp_code].
  erewrite (avp_lines_property "vendor_id"); [|by apply word_literal|apply show_word|done|by apply avp_vendor].
  erewrite (avp_lines_property "type"); [|by apply word_literal|done|done|by apply avp_type].
  erewrite (avp_lines_property "must"); [|by apply word_literal|apply bool_text_word|done|apply avp_must].
  erewrite (avp_lines_property "may_encrypt"); [|by apply word_literal|apply bool_text_word|done|apply avp_may_encrypt].
  unfold declare. destruct (a_group a) as [fs|]; cbn [default] in *.
  - cbn [app]. rewrite <- app_assoc. cbn [app]. fold close_line. rewrite avp_lines_grouped by done.
    destruct (declare_all _ _ _) as [xs p1]. by rewrite avp_lines_close.
  - cbn [app]. fold close_line. by rewrite avp_lines_close.
Qed.

(** ** From lines to blocks *)

Fixpoint parse_contents (lines : list bytes) (b : block) (p : ProtoParser) : ProtoParser * result unit :=
  match lines with
  | [] => (p, Ok tt)
  | line :: lines =>
      match parse_line line b p with
      | (p, Ok b) => parse_contents lines b p
      | (p, Err e) => (p, Err e)
      | (p, Panic) => (p, Panic)
      end
  end.

Lemma ParseFile_contents text p : lines_fit text -> ParseFile text p = parse_contents (lines_of text) None p.
Proof.
  unfold ParseFile, lines_fit, lines_of. generalize (None : block). generalize (raw_lines text). intros ls b H.
  revert b p. induction H as [|raw ls Hr _ IH]; intros b p; cbn [parse_lines map]; [done|].
  rewrite (proj2 (Z.leb_gt _ _)) by lia. set (line := TrimSpace (dropCR raw)).
  change (line :: map _ ls) with ([line] ++ map (fun raw => TrimSpace (dropCR raw)) ls).
  destruct (skipped line) eqn:E.
  - unfold parse_line. rewrite E. rewrite filter_app, filter_cons_False by congruence. apply IH.
  - rewrite filter_app, filter_cons_True by done. cbn [app filter list_filter parse_contents].
    destruct (parse_line line b p) as [p1 [b1|e|]]; [apply IH|done..].
Qed.

(** How much deeper a line leads. *)
Definition delta (line : bytes) : Z := depth_of 0 line.

Lemma depth_of_delta d line : depth_of d line = d + delta line.
Proof.
  unfold delta, depth_of. revert d. induction line as [|b line IH]; intros d; cbn [foldl]; [lia|].
  rewrite IH. symmetry. rewrite IH. destruct (is_byte b c_brace), (is_byte b c_close); lia.
Qed.

Lemma delta_app a b : delta (a ++ b) = delta a + delta b.
Proof. unfold delta at 1, depth_of. rewrite foldl_app. apply depth_of_delta. Qed.

Lemma delta_no_brace s : no_brace s -> delta s = 0.
Proof.
  intros [H1 H2]. induction s as [|b s IH]; [done|]. rewrite elem_of_cons in H1, H2.
  change (b :: s) with ([b] ++ s). rewrite delta_app, IH by naive_solver. unfold delta, depth_of. cbn [foldl].
  destruct (is_byte_spec b c_brace); [naive_solver|]. by destruct (is_byte_spec b c_close); [naive_solver|].
Qed.

Lemma block_depth_snoc first ls line : block_depth first (ls ++ [line]) = block_depth first ls + delta line.
Proof. unfold block_depth. rewrite app_comm_cons, foldl_app. cbn [foldl]. apply depth_of_delta. Qed.

(** Lines that keep a block at depth [d] open. *)
Fixpoint stays (d : Z) (ls : list bytes) : Prop :=
  match ls with
  | [] => True
  | l :: ls => d + delta l <> 0 /\ stays (d + delta l) ls
  end.

Lemma stays_app d l k : stays d (l ++ k) <-> stays d l /\ stays (d + delta (concat l)) k.
Proof.
  revert d. induction l as [|x l IH]; intros d; cbn [app stays concat].
  - change (delta []) with 0. rewrite Z.add_0_r. naive_solver.
  - rewrite IH, delta_app, Z.add_assoc. naive_solver.
Qed.

Lemma stays_flat d ls : d <> 0 -> Forall (fun l => delta l = 0) ls -> stays d ls /\ delta (concat ls) = 0.
Proof.
  intros Hd. induction 1 as [|l ls Hl _ [IH1 IH2]]; cbn [stays concat]; [done|].
  rewrite delta_app, Hl, IH2, Z.add_0_r. done.
Qed.

Definition body_line (line : bytes) : Prop := skipped line = false /\ ordinary line = true.

Lemma ordinary_prefixes line : ordinary line = true ->
  HasPrefix line (gostr "syntax") = false /\ HasPrefix line (gostr "package ") = false /\
  HasPrefix line (gostr "option go_package") = false /\ HasPrefix line (gostr "const ") = false /\
  HasPrefix line (gostr "avp ") = false /\ HasPrefix line (gostr "command ") = false /\
  HasPrefix line (gostr "enum ") = false.
Proof.
  unfold ordinary. cbn [forallb]. rewrite !Bool.andb_true_iff, !Bool.negb_true_iff. naive_solver.
Qed.

Lemma parse_body_line line k first ls p :
  body_line line ->
  parse_line line (Some (k, first, ls)) p =
    if block_depth first (ls ++ [line]) =? 0 then
      match parse_block k first (ls ++ [line]) p with
      | (p, Ok _) => (p, Ok None)
      | (p, Err e) => (p, Err e)
      | (p, Panic) => (p, Panic)
      end
    else (p, Ok (Some (k, first, ls ++ [line]))).
Proof.
  intros [Hs Ho]. destruct (ordinary_prefixes line Ho) as (H1 & H2 & H3 & H4 & H5 & H6 & H7).
  unfold parse_line, in_block. by rewrite Hs, H1, H2, H3, H4, H5, H6, H7.
Qed.

Lemma parse_body ls rest k first acc p :
  Forall body_line ls -> stays (block_depth first acc) ls ->
  parse_contents (ls ++ rest) (Some (k, first, acc)) p = parse_contents rest (Some (k, first, acc ++ ls)) p.
Proof.
  intros H. revert acc. induction H as [|l ls Hl _ IH]; intros acc Hs; cbn [app parse_contents]; [by rewrite app_nil_r|].
  cbn [stays] in Hs. destruct Hs as [Hd Hs]. rewrite parse_body_line by done.
  rewrite <- block_depth_snoc in Hd, Hs. rewrite (proj2 (Z.eqb_neq _ _) Hd), IH by done. by rewrite <- app_assoc.
Qed.

(** A block: its first line, its body and the closing brace. *)
Lemma parse_whole_block k first body rest p p' :
  parse_line first None p = (p, Ok (Some (k, first, []))) -> delta first = 1 ->
  Forall body_line body -> stays 1 body -> delta (concat body) = 0 ->
  parse_block k first (body ++ [close_line]) p = (p', Ok tt) ->
  parse_contents (first :: (body ++ [close_line]) ++ rest) None p = parse_contents rest None p'.
Proof.
  intros Hf Hd Hb Hs Hc Hp. cbn [parse_contents]. rewrite Hf, <- app_assoc.
  assert (block_depth first [] = 1) as H1 by exact Hd.
  rewrite parse_body by (done || by rewrite H1). cbn [app parse_contents].
  rewrite parse_body_line by done.
  assert (block_depth first (body ++ [close_line]) = 0) as ->.
  { rewrite block_depth_snoc. change (delta close_line) with (-1).
    assert (block_depth first body = delta first + delta (concat body)) as ->; [|lia].
    clear. unfold block_depth. cbn [foldl]. fold (delta first). generalize (delta first) as d.
    induction body as [|l body IH]; intros d; cbn [foldl concat]; [change (delta []) with 0; lia|].
    rewrite depth_of_delta, IH, delta_app. lia. }
  cbn [Z.eqb]. by rewrite Hp.
Qed.

(** ** Each declaration *)

Lemma word_no_brace w : word w -> no_brace w.
Proof. intros Hw. split; intros H; not_in_word. Qed.

Lemma no_brace_app a b : no_brace a -> no_brace b -> no_brace (a ++ b).
Proof. unfold no_brace. rewrite !elem_of_app. naive_solver. Qed.

Lemma no_brace_literal s : forallb (fun b => negb (is_byte b c_brace) && negb (is_byte b c_close)) s = true -> no_brace s.
Proof.
  rewrite forallb_forall. intros H.
  split; intros Hin%list_elem_of_In%H; by vm_compute in Hin.
Qed.

Lemma note_no_brace note : note_ok note -> no_brace note.
Proof.
  intros [->|(sp & text & b & -> & Hsp & Ht & _)]; [by apply no_brace_literal|].
  apply no_brace_app; [|by apply no_brace_app; [apply no_brace_literal|]].
  rewrite Forall_forall in Hsp. split; intros H%Hsp; done.
Qed.

Lemma assign_no_brace k v : word k -> word v -> no_brace (assign k v).
Proof.
  intros Hk Hv. unfold assign. apply no_brace_app; [by apply word_no_brace|].
  apply no_brace_app; [by apply no_brace_literal|]. apply no_brace_app; [by apply word_no_brace|by apply no_brace_literal].
Qed.

Lemma words_line_no_brace ws note : Forall item ws -> note_ok note -> no_brace (unwords ws ++ [c_semi] ++ note).
Proof.
  intros Hw Hn. apply no_brace_app; [|apply no_brace_app; [by apply no_brace_literal|by apply note_no_brace]].
  split; apply unwords_without; try done; apply (bool_decide_unpack _); by vm_compute.
Qed.

Lemma block_line_delta w name : word w -> word name -> delta (block_line w name) = 1.
Proof.
  intros Hw Hn. unfold block_line. rewrite !delta_app, (delta_no_brace w), (delta_no_brace name) by (by apply word_no_brace). done.
Qed.

Lemma property_body k v : word (gostr k) -> word v -> ordinary (assign (gostr k) v) = true ->
  body_line (assign (gostr k) v) /\ delta (assign (gostr k) v) = 0.
Proof.
  intros Hk Hv Ho. destruct (property_line_read (gostr k) v Hk Hv) as (_ & H & _).
  split; [done|]. by apply delta_no_brace, assign_no_brace.
Qed.

Lemma value_line_body v : value_ok v -> body_line (value_line v) /\ delta (value_line v) = 0.
Proof.
  intros (Hw & Hv & Hn & Ho).
  destruct (assign_cut (v_name v) (show (v_value v)) (v_note v) Hw (show_word _) Hn) as (_ & H2 & _).
  split; [done|]. apply delta_no_brace, no_brace_app; [apply assign_no_brace; [done|apply show_word]|by apply note_no_brace].
Qed.

Lemma group_line_body f : group_field_ok f -> body_line (group_line f) /\ delta (group_line f) = 0.
Proof.
  intros Hf. destruct (group_line_shape f Hf) as (_ & H2 & _ & _ & Ho). split; [done|].
  destruct Hf as (Ha & Hn & _ & Hnote). apply delta_no_brace, words_line_no_brace; [|done].
  constructor; [left; apply modifier_word|by apply items_tail].
Qed.

Lemma command_field_line_body f : command_field_ok f -> body_line (command_field_line f) /\ delta (command_field_line f) = 0.
Proof.
  intros (Ha & Hn & _ & Hnote & _).
  assert (Forall item (command_words f)) as Hi.
  { rewrite command_words_split. apply Forall_app. split; [apply words_items, command_modifiers_words|by apply items_tail]. }
  split; [|by apply delta_no_brace, words_line_no_brace].
  unfold command_field_line. rewrite command_words_split. unfold command_modifiers.
  by destruct (f_fixed f), (f_repeated f), (f_required f).
Qed.

Lemma flat_body {A} (line : A -> bytes) (ok : A -> Prop) l :
  (forall x, ok x -> body_line (line x) /\ delta (line x) = 0) -> Forall ok l ->
  Forall body_line (map line l) /\ forall d, d <> 0 -> stays d (map line l) /\ delta (concat (map line l)) = 0.
Proof.
  intros H Hl. assert (Forall (fun s => body_line s /\ delta s = 0) (map line l)) as Hm.
  { apply Forall_map. eapply Forall_impl; [exact Hl|]. exact H. }
  split; [eapply Forall_impl; [exact Hm|]; by intros s [? _]|].
  intros d Hd. apply stays_flat; [done|]. eapply Forall_impl; [exact Hm|]. by intros s [_ ?].
Qed.

Lemma parse_first_line line k p :
  skipped line = false -> HasPrefix line (gostr "syntax") = false -> HasPrefix line (gostr "package ") = false ->
  HasPrefix line (gostr "option go_package") = false -> HasPrefix line (gostr "const ") = false ->
  in_block line None = Some (k, line, []) -> delta line = 1 ->
  parse_line line None p = (p, Ok (Some (k, line, []))).
Proof.
  intros H1 H2 H3 H4 H5 H6 Hd. unfold parse_line. rewrite H1, H2, H3, H4, H5, H6.
  change (block_depth line []) with (delta line). by rewrite Hd.
Qed.

Lemma read_enum name values p rest : decl_ok (DEnum name values) ->
  parse_contents (decl_lines (DEnum name values) ++ rest) None p =
    parse_contents rest None (declare p (DEnum name values)).
Proof.
  intros [Hn Hv]. destruct (flat_body value_line value_ok values value_line_body Hv) as [H1 H2].
  destruct (H2 1 ltac:(done)) as [H3 H4].
  assert (delta (block_line (gostr "enum") name) = 1) as Hd by (apply block_line_delta; [by apply word_literal|done]).
  cbn [decl_lines app]. apply (parse_whole_block BlockEnum); try done.
  - by apply parse_first_line.
  - by apply parseEnumBlock_read.
Qed.

Lemma read_command c p rest : decl_ok (DCommand c) ->
  parse_contents (decl_lines (DCommand c) ++ rest) None p = parse_contents rest None (declare p (DCommand c)).
Proof.
  intros Hok. pose proof Hok as (Hn & Hc & Ha & Hf).
  destruct (flat_body command_field_line command_field_ok (c_fields c) command_field_line_body Hf) as [H1 H2].
  destruct (H2 1 ltac:(done)) as [H3 H4].
  assert (delta (block_line (gostr "command") (c_name c)) = 1) as Hd by (apply block_line_delta; [by apply word_literal|done]).
  pose proof (parseCommandBlock_read c p Hok) as Hr.
  cbn [decl_lines tail] in Hr. rewrite app_assoc in Hr. cbn [decl_lines app].
  match goal with |- context [block_line _ _ :: ?l] => set (tl := l) end.
  match type of Hr with context [parseCommandBlock _ (?b ++ _) _] => set (body := b) in * end.
  change tl with ((body ++ [close_line]) ++ rest). clear tl.
  destruct (property_body "code" (show (c_code c))) as [B1 D1]; [by apply word_literal|apply show_word|done|].
  destruct (property_body "application_id" (show (c_application c))) as [B2 D2]; [by apply word_literal|apply show_word|done|].
  destruct (property_body "request" (bool_text (c_request c))) as [B3 D3]; [by apply word_literal|apply bool_text_word|done|].
  destruct (property_body "proxiable" (bool_text (c_proxiable c))) as [B4 D4]; [by apply word_literal|apply bool_text_word|done|].
  apply (parse_whole_block BlockCommand); try done.
  - by apply parse_first_line.
  - subst body. repeat (apply Forall_cons_2; [done|]). done.
  - subst body. cbn [app stays]. rewrite D1, D2, D3, D4. done.
  - subst body. cbn [app concat]. rewrite !delta_app, D1, D2, D3, D4. done.
Qed.

Lemma group_body fs : Forall group_field_ok fs ->
  let ls := gostr "grouped {" :: map group_line fs ++ [close_line] in
  Forall body_line ls /\ stays 1 ls /\ delta (concat ls) = 0.
Proof.
  intros Hf ls. destruct (flat_body group_line group_field_ok fs group_line_body Hf) as [H1 H2].
  destruct (H2 2 ltac:(done)) as [H3 H4]. subst ls. split_and!.
  - apply Forall_cons_2; [done|]. apply Forall_app. split; [done|]. by apply Forall_singleton.
  - cbn [stays]. change (delta (gostr "grouped {")) with 1. split; [done|]. apply stays_app. split; [done|].
    rewrite H4. done.
  - cbn [concat]. rewrite delta_app, concat_app, delta_app, H4. done.
Qed.

Lemma read_avp a p rest : decl_ok (DAVP a) ->
  parse_contents (decl_lines (DAVP a) ++ rest) None p = parse_contents rest None (declare p (DAVP a)).
Proof.
  intros Hok. pose proof Hok as (Hn & Hc & Hv & Ht & Hf).
  assert (delta (block_line (gostr "avp") (a_name a)) = 1) as Hd by (apply block_line_delta; [by apply word_literal|done]).
  pose proof (parseAVPBlock_read a p Hok) as Hr.
  set (group := match a_group a with Some fs => gostr "grouped {" :: map group_line fs ++ [close_line] | None => [] end).
  assert (Forall body_line group /\ stays 1 group /\ delta (concat group) = 0) as (G1 & G2 & G3).
  { subst group. destruct (a_group a) as [fs|]; [by apply group_body|done]. }
  set (props := [assign (gostr "code") (show (a_code a)); assign (gostr "vendor_id") (show (a_vendor a));
    assign (gostr "type") (a_type a); assign (gostr "must") (bool_text (a_must a));
    assign (gostr "may_encrypt") (bool_text (a_may_encrypt a))]).
  assert (decl_lines (DAVP a) = block_line (gostr "avp") (a_name a) :: (props ++ group) ++ [close_line]) as E.
  { subst group. cbn [decl_lines]. by rewrite <- app_assoc. }
  rewrite E in *. cbn [tail app] in Hr. clear E.
  assert (Forall (fun l => body_line l /\ delta l = 0) props) as Hp.
  { subst props. repeat (apply Forall_cons_2; [|]); [..|by constructor];
      (apply property_body; [by apply word_literal| |done]); first [apply show_word|apply bool_text_word|done]. }
  destruct (stays_flat 1 props) as [P1 P2]; [done|eapply Forall_impl; [exact Hp|]; by intros l [_ ?]|].
  apply (parse_whole_block BlockAVP); try done.
  - by apply parse_first_line.
  - apply Forall_app. split; [|done]. eapply Forall_impl; [exact Hp|]. by intros l [? _].
  - apply stays_app. rewrite P2. done.
  - by rewrite concat_app, delta_app, P2, G3.
Qed.

Lemma read_const name value note p rest : decl_ok (DConst name value note) ->
  parse_contents (decl_lines (DConst name value note) ++ rest) None p =
    parse_contents rest None (declare p (DConst name value note)).
Proof.
  intros (Hn & Hv & Hnote). cbn [decl_lines app parse_contents].
  assert (forall r, parse_line (gostr "const " ++ r) None p =
    match parseConst (gostr "const " ++ r) p with
    | (p, Ok _) => (p, Ok None) | (p, Err e) => (p, Err e) | (p, Panic) => (p, Panic) end) as -> by done.
  unfold parseConst. rewrite TrimPrefix_app.
  destruct (assign_cut name (show value) note Hn (show_word _) Hnote) as (_ & _ & ->).
  destruct (assign_split name (show value) Hn (show_word _)) as (l & r & -> & -> & ->).
  by rewrite ParseUint_show.
Qed.

Lemma read_package name p rest : decl_ok (DPackage name) ->
  parse_contents (decl_lines (DPackage name) ++ rest) None p = parse_contents rest None (declare p (DPackage name)).
Proof.
  intros Hn. cbn [decl_lines app parse_contents].
  assert (forall r, parse_line (gostr "package " ++ r) None p =
    match Fields (gostr "package " ++ r) with
    | _ :: part :: _ => (p <| Package := TrimSuffix part [c_semi] |>, Ok None)
    | _ => (p, Ok None)
    end) as -> by done.
  change (gostr "package " ++ name ++ [c_semi]) with (unwords [gostr "package"; name ++ [c_semi]]).
  rewrite Fields_unwords; [by rewrite TrimSuffix_app|].
  apply Forall_cons_2; [by apply word_blank_free, word_literal|]. apply Forall_singleton.
  destruct (word_blank_free name Hn) as [H1 H2]. split; [by destruct name|]. apply Forall_app. split; [done|by apply Forall_singleton].
Qed.

Lemma Split_none c s : c ∉ s -> Split c s = [s].
Proof.
  induction s as [|b s IH]; intros Hc; cbn [Split]; [done|]. rewrite elem_of_cons in Hc.
  destruct (is_byte_spec c b) as [->|_]; [naive_solver|]. by rewrite IH by naive_solver.
Qed.

Lemma read_go_package path p rest : decl_ok (DGoPackage path) ->
  parse_contents (decl_lines (DGoPackage path) ++ rest) None p = parse_contents rest None (declare p (DGoPackage path)).
Proof.
  intros [Hp Hne]. cbn [decl_lines app parse_contents].
  assert (forall r, parse_line (gostr "option go_package = " ++ r) None p =
    (go_package_option (gostr "option go_package = " ++ r) p, Ok None)) as -> by done.
  unfold go_package_option.
  change (gostr "option go_package = " ++ ?r) with (gostr "option go_package " ++ c_equal :: c_space :: r).
  assert (forall c, c ∈ [quote; Byte.x27; c_semi; c_equal] -> c ∉ path) as Hno.
  { intros c Hc Hin. rewrite Forall_forall in Hp. by apply (Hp c Hin). }
  rewrite Split_line by (apply (bool_decide_unpack _); by vm_compute).
  assert (c_equal ∉ c_space :: [quote] ++ path ++ [quote; c_semi]) as Hq.
  { apply not_elem_of_cons. split; [done|]. apply not_elem_of_app. split; [by rewrite list_elem_of_singleton|].
    apply not_elem_of_app. split; [apply Hno|]; apply (bool_decide_unpack _); by vm_compute. }
  rewrite Split_none by exact Hq. cbv iota.
  assert (TrimSpace (c_space :: [quote] ++ path ++ [quote; c_semi]) = [quote] ++ path ++ [quote; c_semi]) as Ets.
  { rewrite <- (app_nil_r (c_space :: _)). apply (TrimSpace_pad [c_space] ([quote] ++ path ++ [quote; c_semi]) []);
      [|done|by repeat constructor|constructor].
    apply (tight_ends quote _ c_semi); [done| |done]. by rewrite app_comm_cons, last_app. }
  assert (Trim ([quote] ++ path ++ [quote; c_semi]) [Byte.x22; Byte.x27; c_semi] = path) as Et; [|cbn [app] in *; by rewrite Ets, Et].
  destruct path as [|a t]; [done|]. destruct (last (a :: t)) as [b|] eqn:El; [|by apply last_None in El].
  assert (forall c, c ∈ a :: t -> existsb (is_byte c) [Byte.x22; Byte.x27; c_semi] = false) as Hc.
  { intros c Hc. apply Bool.not_true_is_false. rewrite existsb_exists. intros (x & Hx & Hb).
    destruct (is_byte_spec c x) as [->|]; [|done]. apply list_elem_of_In in Hx. revert Hc. apply Hno.
    repeat (apply elem_of_cons in Hx as [->|Hx]; [apply (bool_decide_unpack _); by vm_compute|]).
    by apply elem_of_nil in Hx. }
  unfold Trim. apply (trim_ends _ [quote] a t b [quote; c_semi]); [by repeat constructor|by repeat constructor| | |done].
  - apply Hc. by left.
  - apply Hc. by apply last_Some_elem_of.
Qed.

Lemma read_decl d p rest : decl_ok d ->
  parse_contents (decl_lines d ++ rest) None p = parse_contents rest None (declare p d).
Proof.
  destruct d; intros Hd; [by apply read_package|by apply read_go_package|by apply read_const|by apply read_enum
    |by apply read_avp|by apply read_command].
Qed.

(** A text whose lines, without the spaces around them and leaving out the
    empty ones and the comments, are those of the declarations. *)
Definition writes (text : bytes) (decls : list decl) : Prop :=
  lines_fit text /\ lines_of text = concat (map decl_lines decls).

(** C29: the parser reads what was written.  For a text of lines below the
    scanner's limit that writes a list of declarations (packages, constants,
    enums, AVPs with or without groups, commands), with any indentation, any
    comment lines, and comments after values and fields, [ParseFile] succeeds
    and does to the parser what each declaration means, in order: the values
    it stores, the definitions it files, the fields with their modifiers and
    positions, and the placeholders for names that are not known yet. *)
Theorem ParseFile_reads text decls p :
  Forall decl_ok decls -> writes text decls -> ParseFile text p = (foldl declare p decls, Ok tt).
Proof.
  intros Hd [Hf Hl]. rewrite ParseFile_contents, Hl by done. clear Hf Hl text. revert p.
  induction Hd as [|d decls Hd _ IH]; intros p; cbn [map concat foldl]; [done|]. by rewrite read_decl, IH.
Qed.

(** The plainest such text: one line after the other. *)
Definition write (decls : list decl) : bytes := concat (map (fun l => l ++ [newline]) (concat (map decl_lines decls))).

