(* ===== verification/Generator.v ===== *)
(** * The code generator ([codegen/generator.go])

    What [Generate] and [GenerateConstants] print for a parser: the package of
    structs and methods, and the file of constants.  A buffer is the text
    written to it.  [format.Source], through which the text goes to the file,
    and the generated tests are not modelled. *)

From S2P Require Import Prelude GoText ProtoParser.

(** ** Printing *)

(** The text of a Go string: [\n] and [\t] are its escapes; a tilde, of which
    the templates have none, stands for a quotation mark. *)
Fixpoint unescape (s : bytes) : bytes :=
  match s with
  | Byte.x5c :: Byte.x6e :: s => Byte.x0a :: unescape s
  | Byte.x5c :: Byte.x74 :: s => Byte.x09 :: unescape s
  | Byte.x7e :: s => Byte.x22 :: unescape s
  | b :: s => b :: unescape s
  | [] => []
  end.

(** [fmt.Sprintf], its arguments as texts: every verb takes the next one. *)
Fixpoint format_args (s : bytes) (args : list bytes) : bytes :=
  match s with
  | Byte.x25 :: Byte.x25 :: s => Byte.x25 :: format_args s args
  | Byte.x25 :: _ :: s =>
      match args with
      | a :: args => a ++ format_args s args
      | [] => format_args s []
      end
  | b :: s => b :: format_args s args
  | [] => []
  end.

Definition W (s : String.string) : bytes := unescape (gostr s).
Definition F (s : String.string) (args : list bytes) : bytes := format_args (W s) args.

Definition show_bool (b : bool) : bytes := if b then gostr "true" else gostr "false".

(** [for _, x := range l { ... }], what it prints. *)
Definition each {A} (l : list A) (f : A -> bytes) : bytes := concat (map f l).

(** [sort.Strings]. *)
Fixpoint bytes_leb (s t : bytes) : bool :=
  match s, t with
  | [], _ => true
  | _ :: _, [] => false
  | a :: s, b :: t => if is_byte a b then bytes_leb s t else byteZ a <? byteZ b
  end.
Definition bytes_le (s t : bytes) : Prop := bytes_leb s t = true.
#[global] Instance bytes_le_dec : RelDecision bytes_le := fun s t => decide (bytes_leb s t = true).

Definition sort_Strings (l : list bytes) : list bytes := merge_sort bytes_le l.

(** ** Names *)

(** [strings.ReplaceAll(s, "-", "_")]. *)
Definition dashes_to_underscores (s : bytes) : bytes := map (fun b => if is_byte b Byte.x2d then Byte.x5f else b) s.

Definition struct_name (name : bytes) : bytes := toCamelCase (dashes_to_underscores name).

Definition toConstantCase (s : bytes) : bytes := map ToUpper (filter (fun b => b <> Byte.x2d) s).

Definition getAVPCodeConstant (avpName : bytes) : bytes := F "AVPCode%s" [toConstantCase avpName].

Definition getVendorIDConstant (vendorID : Z) : bytes :=
  if vendorID =? 0 then gostr "0" else F "%d" [show vendorID].

Definition known_types : list String.string :=
  ["Unsigned32"; "Unsigned64"; "Integer32"; "Integer64"; "Float32"; "Float64"; "OctetString"; "UTF8String";
   "DiameterIdentity"; "DiameterURI"; "Enumerated"; "Address"; "Time"; "IPFilterRule"; "QoSFilterRule";
   "Grouped"]%string.

Definition known_type (typeName : bytes) : bool := existsb (is_word typeName) known_types.

Definition getBaseGoType (typeName : bytes) : bytes :=
  if known_type typeName then W "models_base." ++ typeName else W "models_base.OctetString".

Definition getDecoder (typeName : bytes) : bytes :=
  if known_type typeName then W "models_base.Decode" ++ typeName else W "models_base.DecodeOctetString".

Section Generator.

(** The parser's heap, in which the definition of a field's AVP is. *)
Variable h : gmap pointer AVPDefinition.

(** [field.AVP]; a parser's fields point into its heap ([parser_wf]). *)
Definition def_of (field : AVPField) : AVPDefinition := default (placeholder []) (h !! AVP field).

Definition is_grouped (d : AVPDefinition) : bool := is_word (TypeName d) "Grouped".
Definition has_code (field : AVPField) : bool := negb (Code (def_of field) =? 0).
Definition has_vendor (field : AVPField) : bool := negb (VendorID (def_of field) =? 0).

Definition getBaseGoTypeForField (field : AVPField) : bytes :=
  if is_grouped (def_of field) then struct_name (Name (def_of field)) else getBaseGoType (TypeName (def_of field)).

Definition getGoType (field : AVPField) : bytes :=
  let baseType := getBaseGoTypeForField field in
  if Repeated field then
    if is_grouped (def_of field) then W "[]*" ++ baseType else W "[]" ++ baseType
  else if negb (Required field) then W "*" ++ baseType
  else if is_grouped (def_of field) then W "*" ++ baseType
  else baseType.

(** A field of a struct. *)
Definition struct_field (field : AVPField) : bytes :=
  let comment :=
    if negb (has_code field) then
      if Required field then W " // Required - WARNING: AVP code not defined, DO NOT USE"
      else W " // Optional - WARNING: AVP code not defined, DO NOT USE"
    else if Required field then W " // Required" else W " // Optional" in
  F "\t%s %s%s\n" [FieldName field; getGoType field; comment].

(** ** [New], [Validate], [Len], [String] *)

Definition generateConstructor (cmd : CommandDefinition) (structName : bytes) : bytes :=
  F "// New%s creates a new %s message\n" [structName; Abbreviation_ cmd] ++
  F "func New%s() *%s {\n" [structName; structName] ++
  F "\treturn &%s{\n" [structName] ++
  W "\t\tHeader: DiameterHeader{\n" ++
  W "\t\t\tVersion:       1,\n" ++
  F "\t\t\tCommandCode:   %d,\n" [show (cmd_Code cmd)] ++
  F "\t\t\tApplicationID: %d,\n" [show (cmd_ApplicationID cmd)] ++
  W "\t\t\tFlags: CommandFlags{\n" ++
  F "\t\t\t\tRequest:   %v,\n" [show_bool (cmd_Request cmd)] ++
  F "\t\t\t\tProxiable: %v,\n" [show_bool (cmd_Proxiable cmd)] ++
  W "\t\t\t},\n" ++
  W "\t\t},\n" ++
  W "\t}\n" ++
  W "}\n\n".

Definition text_types : list String.string := ["UTF8String"; "DiameterIdentity"; "DiameterURI"; "OctetString"]%string.

(** The check of one field. *)
Definition validate_field (field : AVPField) : bytes :=
  let fieldName := FieldName field in
  let avpName := Name (def_of field) in
  if Required field && negb (Repeated field) then
    if existsb (is_word (TypeName (def_of field))) text_types then
      F "\tif m.%s == ~~ {\n" [fieldName] ++
      F "\t\treturn fmt.Errorf(~required field %s is empty~)\n" [avpName] ++
      W "\t}\n"
    else if is_grouped (def_of field) then
      F "\tif m.%s == nil {\n" [fieldName] ++
      F "\t\treturn fmt.Errorf(~required field %s is nil~)\n" [avpName] ++
      W "\t}\n"
    else []
  else if Required field && Repeated field then
    F "\tif len(m.%s) == 0 {\n" [fieldName] ++
    F "\t\treturn fmt.Errorf(~required repeated field %s is empty~)\n" [avpName] ++
    W "\t}\n"
  else [].

Definition generateValidate (cmd : CommandDefinition) (structName : bytes) : bytes :=
  F "// Validate checks if all required fields are set in %s\n" [structName] ++
  F "func (m *%s) Validate() error {\n" [structName] ++
  if negb (existsb (fun field => Required field && negb (Repeated field)) (cmd_Fields cmd)) then
    W "\t// No required fields to validate\n" ++
    W "\treturn nil\n" ++
    W "}\n\n"
  else
    W "\t// Validate required fields\n" ++
    each (cmd_Fields cmd) validate_field ++
    W "\n\treturn nil\n" ++
    W "}\n\n".

Definition generateLen (structName : bytes) : bytes :=
  F "// Len returns the total length of the %s message\n" [structName] ++
  F "func (m *%s) Len() int {\n" [structName] ++
  W "\tdata, _ := m.Marshal()\n" ++
  W "\treturn len(data)\n" ++
  W "}\n\n".

Fixpoint separated (sep : bytes) (l : list bytes) : bytes :=
  match l with
  | [] => []
  | [x] => x
  | x :: l => x ++ sep ++ separated sep l
  end.

Definition generateString (cmd : CommandDefinition) (structName : bytes) : bytes :=
  F "// String returns a string representation of %s\n" [structName] ++
  F "func (m *%s) String() string {\n" [structName] ++
  F "\treturn fmt.Sprintf(~%s{" [structName] ++
  separated (W ", ") (map (fun field => F "%s:%%v" [FieldName field]) (cmd_Fields cmd)) ++
  W "}~" ++
  each (cmd_Fields cmd) (fun field => W ", m." ++ FieldName field) ++
  W ")\n" ++
  W "}\n\n".

(** ** [Marshal] *)

(** The call that writes one AVP, [data] being its contents. *)
Definition write_call (data : bytes) (field : AVPField) : bytes :=
  let d := def_of field in
  let avpCodeConst := getAVPCodeConstant (Name d) in
  if has_vendor field then
    F "buf.Write(marshalAVPWithVendor(%s, %s, %v, %v, %s))"
      [avpCodeConst; data; show_bool (Must d); show_bool (MayEncrypt d); getVendorIDConstant (VendorID d)]
  else
    F "buf.Write(marshalAVP(%s, %s, %v, %v))"
      [avpCodeConst; data; show_bool (Must d); show_bool (MayEncrypt d)].

Definition marshal_call (indent data : bytes) (field : AVPField) (tail : bytes) : bytes :=
  indent ++ write_call data field ++ tail.

(** The same code writes the field of a command and of a group, where the
    source repeats it with the receiver [g]. *)
Definition generateFieldMarshalToBufferWithReceiver (receiver : bytes) (field : AVPField) : bytes :=
  let fieldName := FieldName field in
  let grouped := W "models_base.Grouped(groupedData)" in
  if negb (has_code field) then F "\t// Skipping %s - AVP code not defined\n\n" [fieldName]
  else if is_grouped (def_of field) then
    if Repeated field then
      F "\t// Marshal %s (repeated, grouped)\n" [fieldName] ++
      F "\tfor _, v := range %s.%s {\n" [receiver; fieldName] ++
      W "\t\tif v != nil {\n" ++
      W "\t\t\tif groupedData, err := v.Marshal(); err == nil {\n" ++
      marshal_call (W "\t\t\t\t") grouped field (W "\n") ++
      W "\t\t\t}\n" ++
      W "\t\t}\n" ++
      W "\t}\n\n"
    else
      F "\t// Marshal %s (grouped)\n" [fieldName] ++
      F "\tif %s.%s != nil {\n" [receiver; fieldName] ++
      F "\t\tif groupedData, err := %s.%s.Marshal(); err == nil {\n" [receiver; fieldName] ++
      marshal_call (W "\t\t\t") grouped field (W "\n") ++
      W "\t\t}\n" ++
      W "\t}\n\n"
  else if Repeated field then
    F "\t// Marshal %s (repeated)\n" [fieldName] ++
    F "\tfor _, v := range %s.%s {\n" [receiver; fieldName] ++
    marshal_call (W "\t\t") (W "v") field (W "\n") ++
    W "\t}\n\n"
  else if negb (Required field) then
    F "\t// Marshal %s (optional)\n" [fieldName] ++
    F "\tif %s.%s != nil {\n" [receiver; fieldName] ++
    marshal_call (W "\t\t") (F "*%s.%s" [receiver; fieldName]) field (W "\n") ++
    W "\t}\n\n"
  else
    F "\t// Marshal %s (required)\n" [fieldName] ++
    marshal_call (W "\t") (F "%s.%s" [receiver; fieldName]) field (W "\n\n").

Definition generateFieldMarshalToBuffer : AVPField -> bytes := generateFieldMarshalToBufferWithReceiver (W "m").

Definition generateMarshal (cmd : CommandDefinition) (structName : bytes) : bytes :=
  F "// Marshal serializes the %s to bytes using a buffer for optimal performance\n" [structName] ++
  F "func (m *%s) Marshal() ([]byte, error) {\n" [structName] ++
  W "\t// Validate required fields before marshaling\n" ++
  W "\tif err := m.Validate(); err != nil {\n" ++
  W "\t\treturn nil, fmt.Errorf(~validation failed: %w~, err)\n" ++
  W "\t}\n\n" ++
  W "\t// Use a buffer to avoid multiple allocations\n" ++
  W "\tvar buf bytes.Buffer\n" ++
  W "\tbuf.Grow(256) // Pre-allocate reasonable size\n\n" ++
  W "\t// Reserve space for header (we'll write it at the end)\n" ++
  W "\theaderPlaceholder := make([]byte, 20)\n" ++
  W "\tbuf.Write(headerPlaceholder)\n\n" ++
  W "\t// Marshal AVPs directly to buffer\n" ++
  each (cmd_Fields cmd) generateFieldMarshalToBuffer ++
  W "\n\t// Get the final message\n" ++
  W "\tresult := buf.Bytes()\n\n" ++
  W "\t// Update message length and write header\n" ++
  W "\tm.Header.Length = uint32(len(result))\n" ++
  W "\theader := marshalHeader(&m.Header)\n" ++
  W "\tcopy(result[:20], header)\n\n" ++
  W "\treturn result, nil\n" ++
  W "}\n\n".

(** A group's fields are written as those of a command, from [g]. *)
Definition generateGroupedMarshal (structName : bytes) (avp : AVPDefinition) : bytes :=
  F "// Marshal serializes %s to bytes\n" [structName] ++
  F "func (g *%s) Marshal() ([]byte, error) {\n" [structName] ++
  match GroupedFields avp with
  | [] =>
      W "\treturn g.Data, nil\n" ++
      W "}\n\n"
  | _ =>
      W "\tvar buf bytes.Buffer\n\n" ++
      each (GroupedFields avp) (generateFieldMarshalToBufferWithReceiver (W "g")) ++
      W "\n\treturn buf.Bytes(), nil\n" ++
      W "}\n\n"
  end.

(** ** [Unmarshal] *)

Definition case_line (d : AVPDefinition) : bytes := F "\t\tcase %s: // %s\n" [getAVPCodeConstant (Name d); Name d].

(** The case of one field, which is the same in a command and in a group but
    for the receiver. *)
Definition unmarshal_case (receiver : bytes) (field : AVPField) : bytes :=
  let d := def_of field in
  if negb (has_code field) then F "\t\t// case 0: // %s (AVP code not defined)\n" [Name d]
  else
    case_line d ++
    (if has_vendor field then
       F "\t\t\tif vendorID != %s {\n" [getVendorIDConstant (VendorID d)] ++
       W "\t\t\t\tbreak // Vendor ID mismatch\n" ++
       W "\t\t\t}\n"
     else []) ++
    if is_grouped d then
      F "\t\t\tgrouped := &%s{}\n" [getBaseGoTypeForField field] ++
      W "\t\t\tif err := grouped.Unmarshal(avpValue); err == nil {\n" ++
      (if Repeated field then
         F "\t\t\t\t%s.%s = append(%s.%s, grouped)\n" [receiver; FieldName field; receiver; FieldName field]
       else F "\t\t\t\t%s.%s = grouped\n" [receiver; FieldName field]) ++
      W "\t\t\t}\n"
    else
      F "\t\t\tval, err := %s(avpValue)\n" [getDecoder (TypeName d)] ++
      W "\t\t\tif err == nil {\n" ++
      (if Repeated field then
         F "\t\t\t\t%s.%s = append(%s.%s, val.(%s))\n"
           [receiver; FieldName field; receiver; FieldName field; getBaseGoType (TypeName d)]
       else if negb (Required field) then
         F "\t\t\t\tv := val.(%s)\n" [getBaseGoType (TypeName d)] ++
         F "\t\t\t\t%s.%s = &v\n" [receiver; FieldName field]
       else F "\t\t\t\t%s.%s = val.(%s)\n" [receiver; FieldName field; getBaseGoType (TypeName d)]) ++
      W "\t\t\t}\n".

(** The head of the loop, up to the length of the data. *)
Definition unmarshal_head (avpCode : bytes) (fields : list AVPField) : bytes :=
  let hasVendorSpecificFields := existsb has_vendor fields in
  W "\tfor len(avpData) > 0 {\n" ++
  W "\t\tif len(avpData) < 8 {\n" ++
  W "\t\t\tbreak // Not enough data for AVP header\n" ++
  W "\t\t}\n\n" ++
  W "\t\t// Parse AVP header\n" ++
  avpCode ++
  W "\t\tavpFlags := avpData[4]\n" ++
  W "\t\tavpLength := binary.BigEndian.Uint32([]byte{0, avpData[5], avpData[6], avpData[7]})\n\n" ++
  W "\t\tif int(avpLength) > len(avpData) {\n" ++
  W "\t\t\treturn fmt.Errorf(~AVP length exceeds remaining data~)\n" ++
  W "\t\t}\n\n" ++
  W "\t\t// Extract AVP data\n" ++
  W "\t\theaderSize := 8\n" ++
  (if hasVendorSpecificFields then W "\t\tvar vendorID uint32\n" else []) ++
  W "\t\tif avpFlags&0x80 != 0 { // V-bit set\n" ++
  W "\t\t\tif len(avpData) < 12 {\n" ++
  W "\t\t\t\treturn fmt.Errorf(~AVP data too short for vendor ID~)\n" ++
  W "\t\t\t}\n" ++
  (if hasVendorSpecificFields then W "\t\t\tvendorID = binary.BigEndian.Uint32(avpData[8:12])\n"
   else W "\t\t\t_ = binary.BigEndian.Uint32(avpData[8:12]) // vendorID not used\n") ++
  W "\t\t\theaderSize = 12\n" ++
  W "\t\t}\n" ++
  W "\t\tavpDataLen := int(avpLength) - headerSize\n" ++
  W "\t\tif avpDataLen < 0 {\n" ++
  W "\t\t\treturn fmt.Errorf(~invalid AVP data length~)\n" ++
  W "\t\t}\n".

Definition unmarshal_tail : bytes :=
  W "\t\t// Move to next AVP (with padding)\n" ++
  W "\t\tpaddedLength := int(avpLength)\n" ++
  W "\t\tif paddedLength%4 != 0 {\n" ++
  W "\t\t\tpaddedLength += 4 - (paddedLength % 4)\n" ++
  W "\t\t}\n" ++
  W "\t\tif paddedLength > len(avpData) {\n" ++
  W "\t\t\tbreak\n" ++
  W "\t\t}\n" ++
  W "\t\tavpData = avpData[paddedLength:]\n" ++
  W "\t}\n\n" ++
  W "\treturn nil\n" ++
  W "}\n\n".

Definition generateUnmarshal (cmd : CommandDefinition) (structName : bytes) : bytes :=
  F "// Unmarshal deserializes bytes into %s\n" [structName] ++
  F "func (m *%s) Unmarshal(data []byte) error {\n" [structName] ++
  W "\tif len(data) < 20 {\n" ++
  W "\t\treturn fmt.Errorf(~data too short for Diameter header~)\n" ++
  W "\t}\n\n" ++
  W "\t// Unmarshal header\n" ++
  W "\theader, err := unmarshalHeader(data[:20])\n" ++
  W "\tif err != nil {\n" ++
  W "\t\treturn err\n" ++
  W "\t}\n" ++
  W "\tm.Header = *header\n\n" ++
  W "\t// Unmarshal AVPs\n" ++
  W "\tavpData := data[20:]\n" ++
  unmarshal_head (W "\t\tavpCode := binary.BigEndian.Uint32(avpData[0:4])\n") (cmd_Fields cmd) ++
  (if existsb has_code (cmd_Fields cmd) then W "\t\tavpValue := avpData[headerSize : headerSize+avpDataLen]\n\n"
   else W "\t\t_ = avpDataLen // avpValue not needed when no fields are defined\n\n") ++
  W "\t\t// Parse AVP based on code and vendor ID\n" ++
  W "\t\tswitch avpCode {\n" ++
  each (cmd_Fields cmd) (unmarshal_case (W "m")) ++
  W "\t\t}\n\n" ++
  unmarshal_tail.

Definition generateGroupedUnmarshal (structName : bytes) (avp : AVPDefinition) : bytes :=
  F "// Unmarshal deserializes bytes into %s\n" [structName] ++
  F "func (g *%s) Unmarshal(data []byte) error {\n" [structName] ++
  match GroupedFields avp with
  | [] =>
      W "\tg.Data = make([]byte, len(data))\n" ++
      W "\tcopy(g.Data, data)\n" ++
      W "\treturn nil\n" ++
      W "}\n\n"
  | fields =>
      let hasValidCodes := existsb has_code fields in
      W "\t// Parse AVPs in the grouped data\n" ++
      W "\tavpData := data\n" ++
      unmarshal_head
        (if hasValidCodes then W "\t\tavpCode := binary.BigEndian.Uint32(avpData[0:4])\n"
         else W "\t\t_ = binary.BigEndian.Uint32(avpData[0:4]) // avpCode\n") fields ++
      (if hasValidCodes then
         W "\t\tavpValue := avpData[headerSize : headerSize+avpDataLen]\n\n" ++
         W "\t\t// Parse AVP based on code and vendor ID\n" ++
         W "\t\tswitch avpCode {\n" ++
         each fields (unmarshal_case (W "g")) ++
         W "\t\t}\n\n"
       else W "\t\t_ = avpDataLen // avpValue not needed when no fields are defined\n\n") ++
      unmarshal_tail
  end.

(** ** The structs *)

Definition generateCommandStruct (cmd : CommandDefinition) : bytes :=
  let structName := struct_name (cmd_Name cmd) in
  F "// %s represents the %s (%s) Diameter command\n" [structName; cmd_Name cmd; Abbreviation_ cmd] ++
  F "// Command Code: %d, Application ID: %d\n" [show (cmd_Code cmd); show (cmd_ApplicationID cmd)] ++
  F "type %s struct {\n" [structName] ++
  W "\tHeader DiameterHeader\n\n" ++
  each (cmd_Fields cmd) struct_field ++
  W "}\n\n" ++
  generateConstructor cmd structName ++
  generateValidate cmd structName ++
  generateMarshal cmd structName ++
  generateUnmarshal cmd structName ++
  generateLen structName ++
  generateString cmd structName.

(** The struct of a definition, when it is a group. *)
Definition grouped_struct (name : bytes) (avp : AVPDefinition) : bytes :=
  if is_grouped avp then
    let structName := struct_name name in
    F "// %s represents the %s grouped AVP (AVP Code %d)\n" [structName; name; show (Code avp)] ++
    F "type %s struct {\n" [structName] ++
    match GroupedFields avp with
    | [] =>
        W "\t// No fields defined - using raw data\n" ++
        W "\tData []byte\n"
    | fields => each fields struct_field
    end ++
    W "}\n\n" ++
    generateGroupedMarshal structName avp ++
    generateGroupedUnmarshal structName avp
  else [].

Definition generateTypeDefinitions : bytes :=
  W "// CommandFlags represents Diameter command header flags
type CommandFlags struct {
	Request       bool // R-bit
	Proxiable     bool // P-bit
	Error         bool // E-bit
	Retransmitted bool // T-bit
}

// DiameterHeader represents the Diameter message header (20 bytes)
type DiameterHeader struct {
	Version       uint8        // 1 byte - Must be 1
	Length        uint32       // 3 bytes - Total message length
	Flags         CommandFlags // 1 byte
	CommandCode   uint32       // 3 bytes
	ApplicationID uint32       // 4 bytes
	HopByHopID    uint32       // 4 bytes
	EndToEndID    uint32       // 4 bytes
}

".

Definition generateHelperFunctions : bytes :=
  W "
// Helper functions

// marshalHeader serializes a Diameter header
func marshalHeader(h *DiameterHeader) []byte {
	b := make([]byte, 20)

	b[0] = h.Version

	// Message Length (3 bytes)
	binary.BigEndian.PutUint32(b[0:4], h.Length)
	b[0] = h.Version // Restore version after length write

	// Command Flags
	var flags byte
	if h.Flags.Request {
		flags |= 0x80
	}
	if h.Flags.Proxiable {
		flags |= 0x40
	}
	if h.Flags.Error {
		flags |= 0x20
	}
	if h.Flags.Retransmitted {
		flags |= 0x10
	}
	b[4] = flags

	// Command Code (3 bytes)
	binary.BigEndian.PutUint32(b[4:8], h.CommandCode)
	b[4] = flags // Restore flags

	// Application ID
	binary.BigEndian.PutUint32(b[8:12], h.ApplicationID)

	// Hop-by-Hop Identifier
	binary.BigEndian.PutUint32(b[12:16], h.HopByHopID)

	// End-to-End Identifier
	binary.BigEndian.PutUint32(b[16:20], h.EndToEndID)

	return b
}

// unmarshalHeader deserializes a Diameter header
func unmarshalHeader(data []byte) (*DiameterHeader, error) {
	if len(data) < 20 {
		return nil, fmt.Errorf(~data too short for Diameter header~)
	}

	h := &DiameterHeader{}
	h.Version = data[0]

	// Message Length (3 bytes, big-endian)
	h.Length = binary.BigEndian.Uint32([]byte{0, data[1], data[2], data[3]})

	// Command Flags
	flags := data[4]
	h.Flags.Request = (flags & 0x80) != 0
	h.Flags.Proxiable = (flags & 0x40) != 0
	h.Flags.Error = (flags & 0x20) != 0
	h.Flags.Retransmitted = (flags & 0x10) != 0

	// Command Code (3 bytes, big-endian)
	h.CommandCode = binary.BigEndian.Uint32([]byte{0, data[5], data[6], data[7]})

	// Application ID
	h.ApplicationID = binary.BigEndian.Uint32(data[8:12])

	// Hop-by-Hop Identifier
	h.HopByHopID = binary.BigEndian.Uint32(data[12:16])

	// End-to-End Identifier
	h.EndToEndID = binary.BigEndian.Uint32(data[16:20])

	return h, nil
}

// marshalAVP serializes an AVP
func marshalAVP(code uint32, data models_base.Type, mandatory, protected bool) []byte {
	// Serialize data
	serialized := data.Serialize()

	// Calculate header size
	headerSize := 8 // No vendor ID

	// Calculate total length
	totalLen := headerSize + len(serialized)

	// Create buffer
	buf := make([]byte, headerSize)

	// AVP Code
	binary.BigEndian.PutUint32(buf[0:4], code)

	// AVP Flags
	var flags byte
	if mandatory {
		flags |= 0x40 // M-bit
	}
	if protected {
		flags |= 0x20 // P-bit
	}
	buf[4] = flags

	// AVP Length (3 bytes)
	binary.BigEndian.PutUint32(buf[4:8], uint32(totalLen))
	buf[4] = flags // Restore flags

	// Append data
	buf = append(buf, serialized...)

	// Add padding to 32-bit boundary
	padding := (4 - (len(buf) % 4)) % 4
	for i := 0; i < padding; i++ {
		buf = append(buf, 0)
	}

	return buf
}

// marshalAVPWithVendor serializes an AVP with optional vendor ID
func marshalAVPWithVendor(code uint32, data models_base.Type, mandatory, protected bool, vendorID uint32) []byte {
	// Serialize data
	serialized := data.Serialize()

	// Determine if we need vendor ID in header
	hasVendor := vendorID != 0

	// Calculate header size
	headerSize := 8
	if hasVendor {
		headerSize = 12 // With vendor ID
	}

	// Calculate total length
	totalLen := headerSize + len(serialized)

	// Create buffer
	buf := make([]byte, headerSize)

	// AVP Code
	binary.BigEndian.PutUint32(buf[0:4], code)

	// AVP Flags
	var flags byte
	if hasVendor {
		flags |= 0x80 // V-bit
	}
	if mandatory {
		flags |= 0x40 // M-bit
	}
	if protected {
		flags |= 0x20 // P-bit
	}
	buf[4] = flags

	// AVP Length (3 bytes)
	binary.BigEndian.PutUint32(buf[4:8], uint32(totalLen))
	buf[4] = flags // Restore flags

	// Vendor ID (if needed)
	if hasVendor {
		binary.BigEndian.PutUint32(buf[8:12], vendorID)
	}

	// Append data
	buf = append(buf, serialized...)

	// Add padding to 32-bit boundary
	padding := (4 - (len(buf) % 4)) % 4
	for i := 0; i < padding; i++ {
		buf = append(buf, 0)
	}

	return buf
}

// Pointer helper functions for grouped AVP field assignments in tests
func ptrUTF8String(s string) *models_base.UTF8String {
	v := models_base.UTF8String(s)
	return &v
}

func ptrOctetString(b []byte) *models_base.OctetString {
	v := models_base.OctetString(b)
	return &v
}

func ptrUnsigned32(u uint32) *models_base.Unsigned32 {
	v := models_base.Unsigned32(u)
	return &v
}

func ptrUnsigned64(u uint64) *models_base.Unsigned64 {
	v := models_base.Unsigned64(u)
	return &v
}

func ptrEnumerated(e uint32) *models_base.Enumerated {
	v := models_base.Enumerated(e)
	return &v
}

func ptrDiameterIdentity(d string) *models_base.DiameterIdentity {
	v := models_base.DiameterIdentity(d)
	return &v
}

func ptrAddress(a models_base.Address) *models_base.Address {
	return &a
}

func ptrTime(t models_base.Time) *models_base.Time {
	return &t
}

func ptrFloat32(f float32) *models_base.Float32 {
	v := models_base.Float32(f)
	return &v
}

func ptrFloat64(f float64) *models_base.Float64 {
	v := models_base.Float64(f)
	return &v
}
".

End Generator.

(** ** [Generate], [GenerateConstants] *)

(** A definition of the registry. *)
Definition registered (p : ProtoParser) (name : bytes) : AVPDefinition :=
  default (placeholder []) (AVPs p !! name ≫= fun a => heap p !! a).

(** [avps] is the order of [range g.Parser.AVPs]. *)
Definition Generate (avps : list bytes) (PackageName : bytes) (p : ProtoParser) : bytes :=
  W "// Code generated by diameter-codegen. DO NOT EDIT.\n\n" ++
  F "package %s\n\n" [PackageName] ++
  W "import (\n" ++
  W "\t~bytes~\n" ++
  W "\t~encoding/binary~\n" ++
  W "\t~fmt~\n" ++
  W "\n" ++
  W "\t~github.com/hsdfat/diam-gw/models_base~\n" ++
  W ")\n\n" ++
  generateTypeDefinitions ++
  W "// Grouped AVP structures\n\n" ++
  each (sort_Strings avps) (fun name => grouped_struct (heap p) name (registered p name)) ++
  each (Commands p) (generateCommandStruct (heap p)) ++
  generateHelperFunctions.

(** The keys of the map [vendorIDs]. *)
Definition vendor_ids (avps : list bytes) (p : ProtoParser) : gset Z :=
  list_to_set (filter (fun v => v <> 0) (map (fun name => VendorID (registered p name)) avps)).

(** [ranges]: the orders of [range] over the maps of the generator: the
    constants, the registry, the vendors, the enumerations and the values of
    each of these.  [sort_commands] is [sort.Slice] on the commands' names,
    which leaves the order of equal names open. *)
Record Ranges := {
  r_Consts : list bytes;
  r_AVPs : list bytes;
  r_vendorIDs : list Z;
  r_Enums : list bytes;
  r_Values : bytes -> list bytes }.

Definition constant_line (name : bytes) (code : Z) : bytes :=
  F "\tAVPCode%s uint32 = %d\n" [toConstantCase name; show code].

Definition enum_type (r : Ranges) (p : ProtoParser) (enumName : bytes) : bytes :=
  let values := default ∅ (Values <$> Enums p !! enumName) in
  let typeName := toCamelCase enumName in
  F "// %s represents the %s enumerated type\n" [typeName; enumName] ++
  F "type %s uint32\n\n" [typeName] ++
  F "// %s values\n" [enumName] ++
  W "const (\n" ++
  each (sort_Strings (r_Values r enumName)) (fun valueName =>
    F "\t%s %s = %d\n" [typeName ++ gostr "_" ++ valueName; typeName; show (default 0 (values !! valueName))]) ++
  W ")\n\n".

Definition GenerateConstants (sort_commands : list CommandDefinition -> list CommandDefinition) (r : Ranges)
    (PackageName : bytes) (p : ProtoParser) : bytes :=
  W "// Code generated by diameter-codegen. DO NOT EDIT.\n\n" ++
  F "package %s\n\n" [PackageName] ++
  (if bool_decide (Consts p = ∅) then []
   else
     W "// Protocol Constants\n" ++
     W "const (\n" ++
     each (sort_Strings (r_Consts r)) (fun name => F "\t%s = %d\n" [name; show (default 0 (Consts p !! name))]) ++
     W ")\n\n") ++
  W "// AVP Codes\n" ++
  W "const (\n" ++
  each (sort_Strings (r_AVPs r)) (fun name => constant_line name (Code (registered p name))) ++
  W ")\n\n" ++
  (if bool_decide (vendor_ids (r_AVPs r) p = ∅) then []
   else
     W "// Vendor IDs\n" ++
     W "const (\n" ++
     each (merge_sort Z.le (r_vendorIDs r)) (fun vendorID =>
       F "\tVendorID%d uint32 = %d\n" [show vendorID; show vendorID]) ++
     W ")\n\n") ++
  (if bool_decide (Commands p = []) then []
   else
     W "// Command Codes\n" ++
     W "const (\n" ++
     each (sort_commands (Commands p)) (fun cmd =>
       F "\tCommandCode%s uint32 = %d\n" [toConstantCase (cmd_Name cmd); show (cmd_Code cmd)]) ++
     W ")\n\n") ++
  each (sort_Strings (r_Enums r)) (enum_type r p).
