(* ===== verification/GeneratorTheorems.v ===== *)
(** * What the generator prints

    The text depends on the definitions only, not on the order in which Go
    visits a map; and the constants that the methods name are declared in the
    other file, with the codes of their AVPs. *)

From S2P Require Import Prelude GoText ProtoParser ProtoTheorems Generator.

(** ** The order of strings *)

Lemma bytes_le_cons a b s t :
  bytes_le (a :: s) (b :: t) <-> byteZ a < byteZ b \/ (a = b /\ bytes_le s t).
Proof.
  unfold bytes_le. cbn [bytes_leb]. destruct (is_byte_spec a b) as [->|Hn].
  - split; [by right|]. intros [H|[_ H]]; [lia|done].
  - rewrite Z.ltb_lt. naive_solver.
Qed.

#[global] Instance bytes_le_order : PartialOrder bytes_le.
Proof.
  split; [split|].
  - intros s. induction s; [done|]. apply bytes_le_cons. by right.
  - intros s. induction s as [|a s IH]; intros [|b t] [|c u] H1 H2; try done.
    apply bytes_le_cons in H1, H2. apply bytes_le_cons.
    destruct H1 as [H1|[-> H1]], H2 as [H2|[-> H2]]; [left; lia|by left|by left|right; split; [done|by eapply IH]].
  - intros s. induction s as [|a s IH]; intros [|b t] H1 H2; try done.
    apply bytes_le_cons in H1, H2. destruct H1 as [H1|[-> H1]], H2 as [H2|[E H2]]; [lia|subst; lia|lia|].
    f_equal. by apply IH.
Qed.

#[global] Instance bytes_le_total : Total bytes_le.
Proof.
  intros s. induction s as [|a s IH]; intros [|b t]; [by left|by left|by right|].
  rewrite !bytes_le_cons. destruct (Z.lt_trichotomy (byteZ a) (byteZ b)) as [H|[H|H]]; [auto| |auto].
  apply byteZ_inj in H as ->. destruct (IH t); auto.
Qed.

(** Sorting forgets the order. *)
Lemma merge_sort_perm {A} (R : relation A) `{!RelDecision R, !PartialOrder R, !Total R} l k :
  l ≡ₚ k -> merge_sort R l = merge_sort R k.
Proof.
  intros H. apply (StronglySorted_unique R); [apply StronglySorted_merge_sort; apply _..|].
  by rewrite !merge_sort_Permutation.
Qed.

Lemma sort_Strings_perm l k : l ≡ₚ k -> sort_Strings l = sort_Strings k.
Proof. apply merge_sort_perm; apply _. Qed.

Lemma elem_of_sort l x : x ∈ sort_Strings l <-> x ∈ l.
Proof. unfold sort_Strings. by rewrite merge_sort_Permutation. Qed.

(** ** Determinism *)

(** The keys of a map, in some order. *)
Definition keys_of {A} (m : gmap bytes A) (l : list bytes) : Prop := l ≡ₚ (map_to_list m).*1.

Record ranges_ok (p : ProtoParser) (r : Ranges) : Prop := {
  ro_Consts : keys_of (Consts p) (r_Consts r);
  ro_AVPs : keys_of (AVPs p) (r_AVPs r);
  ro_vendorIDs : r_vendorIDs r ≡ₚ elements (vendor_ids (r_AVPs r) p);
  ro_Enums : keys_of (Enums p) (r_Enums r);
  ro_Values n e : Enums p !! n = Some e -> keys_of (Values e) (r_Values r n) }.

Lemma keys_of_elem {A} (m : gmap bytes A) l n : keys_of m l -> n ∈ l <-> is_Some (m !! n).
Proof.
  intros ->. rewrite list_elem_of_fmap. split.
  - intros ([n' x] & -> & H). apply elem_of_map_to_list in H. by eexists.
  - intros [x H]. exists (n, x). split; [done|]. by apply elem_of_map_to_list.
Qed.

Lemma vendor_ids_perm l k p : l ≡ₚ k -> vendor_ids l p = vendor_ids k p.
Proof.
  intros H. apply set_eq. intros v. unfold vendor_ids.
  rewrite !elem_of_list_to_set, !list_elem_of_filter, !list_elem_of_fmap. by setoid_rewrite H.
Qed.

Lemma each_ext {A} (l : list A) f g : (forall x, x ∈ l -> f x = g x) -> each l f = each l g.
Proof.
  intros H. unfold each. induction l as [|x l IH]; [done|]. cbn [map concat].
  rewrite H by apply list_elem_of_here. rewrite IH; [done|]. intros y Hy. by apply H, list_elem_of_further.
Qed.

(** C39: the text does not depend on the order in which Go's [range] visits the
    maps of the parser and of the generator: any two orders of all of them
    give the same package and the same constants, byte for byte. *)
Theorem generator_deterministic p r r' sort_commands PackageName :
  ranges_ok p r -> ranges_ok p r' ->
  Generate (r_AVPs r) PackageName p = Generate (r_AVPs r') PackageName p /\
  GenerateConstants sort_commands r PackageName p = GenerateConstants sort_commands r' PackageName p.
Proof.
  intros [A1 A2 A3 A4 A5] [B1 B2 B3 B4 B5].
  assert (r_AVPs r ≡ₚ r_AVPs r') as H2 by by rewrite A2, B2.
  split; [unfold Generate; by rewrite (sort_Strings_perm _ _ H2)|].
  unfold GenerateConstants.
  rewrite (sort_Strings_perm (r_Consts r) (r_Consts r')) by (by rewrite A1, B1).
  rewrite (sort_Strings_perm _ _ H2), (sort_Strings_perm (r_Enums r) (r_Enums r')) by (by rewrite A4, B4).
  rewrite (vendor_ids_perm _ _ p H2) in A3 |- *.
  rewrite (merge_sort_perm Z.le (r_vendorIDs r) (r_vendorIDs r')) by (by rewrite A3, B3).
  rewrite (each_ext (sort_Strings (r_Enums r')) (enum_type r p) (enum_type r' p)); [done|].
  intros n Hn. apply (proj1 (elem_of_sort _ _)) in Hn.
  apply (keys_of_elem _ _ _ B4) in Hn as [e He]. unfold enum_type. rewrite He.
  by rewrite (sort_Strings_perm (r_Values r n) (r_Values r' n)) by (by rewrite (A5 n e He), (B5 n e He)).
Qed.

(** ** The constants that the methods name *)

Definition infix (s t : bytes) : Prop := exists l r, t = l ++ s ++ r.

Lemma infix_refl s : infix s s.
Proof. exists [], []. by rewrite app_nil_r. Qed.
Lemma infix_app_l s t u : infix s t -> infix s (u ++ t).
Proof. intros (l & r & ->). exists (u ++ l), r. by rewrite app_assoc. Qed.
Lemma infix_app_r s t u : infix s t -> infix s (t ++ u).
Proof. intros (l & r & ->). exists l, (r ++ u). by rewrite <- !app_assoc. Qed.
Lemma infix_each {A} (l : list A) f x s : x ∈ l -> infix s (f x) -> infix s (each l f).
Proof.
  intros Hx Hs. unfold each. induction Hx as [x l|x y l Hx IH]; cbn [map concat].
  - by apply infix_app_r.
  - by apply infix_app_l, IH.
Qed.

(** Finds a piece of a text that is put together with [++]. *)
Ltac find_piece piece := first [exact piece | apply infix_app_r; find_piece piece | apply infix_app_l; find_piece piece].
Ltac find_infix := find_piece uconstr:(infix_refl _).

(** The Go identifier of an AVP's code: its name in capitals, without dashes. *)
Definition go_ident (d : AVPDefinition) : bytes :=
  W "AVPCode" ++ map ToUpper (filter (fun b => b <> Byte.x2d) (Name d)).

(** The statement that writes [data] as this AVP, with its flags and vendor. *)
Definition written_as (d : AVPDefinition) (data : bytes) : bytes :=
  if VendorID d =? 0 then
    W "buf.Write(marshalAVP(" ++ go_ident d ++ W ", " ++ data ++ W ", " ++ show_bool (Must d) ++ W ", " ++
    show_bool (MayEncrypt d) ++ W "))"
  else
    W "buf.Write(marshalAVPWithVendor(" ++ go_ident d ++ W ", " ++ data ++ W ", " ++ show_bool (Must d) ++ W ", " ++
    show_bool (MayEncrypt d) ++ W ", " ++ show (VendorID d) ++ W "))".

(** What a method gives it: an encoded group, an element of the field, or the
    field itself. *)
Definition field_data (field : AVPField) (data : bytes) : Prop :=
  data = W "models_base.Grouped(groupedData)" \/ data = W "v" \/
  exists receiver, (receiver = W "m" \/ receiver = W "g") /\
    (data = receiver ++ W "." ++ FieldName field \/ data = W "*" ++ receiver ++ W "." ++ FieldName field).

(** The label under which the AVP is read. *)
Definition read_under (d : AVPDefinition) : bytes := W "\t\tcase " ++ go_ident d ++ W ": // " ++ Name d ++ W "\n".

(** The declaration of the constant. *)
Definition declared_as (d : AVPDefinition) : bytes := W "\t" ++ go_ident d ++ W " uint32 = " ++ show (Code d) ++ W "\n".

(** The methods name a constant where they write the AVP and where they read it. *)
Definition names_constant (h : gmap pointer AVPDefinition) (field : AVPField) (text : bytes) : Prop :=
  (exists data, field_data field data /\ infix (written_as (def_of h field) data) text) /\
  infix (read_under (def_of h field)) text.

(** The templates, with what they print for their arguments. *)
Lemma F_ident n : F "AVPCode%s" [n] = W "AVPCode" ++ n.
Proof. transitivity (W "AVPCode" ++ n ++ []); [reflexivity|]. f_equal. apply app_nil_r. Qed.

Lemma F_vendor n : F "%d" [n] = n.
Proof. apply app_nil_r. Qed.

Lemma F_write i data must may :
  F "buf.Write(marshalAVP(%s, %s, %v, %v))" [i; data; must; may] =
  W "buf.Write(marshalAVP(" ++ i ++ W ", " ++ data ++ W ", " ++ must ++ W ", " ++ may ++ W "))".
Proof. reflexivity. Qed.

Lemma F_write_vendor i data must may vendor :
  F "buf.Write(marshalAVPWithVendor(%s, %s, %v, %v, %s))" [i; data; must; may; vendor] =
  W "buf.Write(marshalAVPWithVendor(" ++ i ++ W ", " ++ data ++ W ", " ++ must ++ W ", " ++ may ++ W ", " ++ vendor ++ W "))".
Proof. reflexivity. Qed.

Lemma F_case i n : F "\t\tcase %s: // %s\n" [i; n] = W "\t\tcase " ++ i ++ W ": // " ++ n ++ W "\n".
Proof. reflexivity. Qed.

Lemma F_constant n code : F "\tAVPCode%s uint32 = %d\n" [n; code] = W "\t" ++ (W "AVPCode" ++ n) ++ W " uint32 = " ++ code ++ W "\n".
Proof. reflexivity. Qed.

Lemma F_field r n : F "%s.%s" [r; n] = r ++ W "." ++ n.
Proof. transitivity (r ++ W "." ++ n ++ []); [reflexivity|]. do 2 f_equal. apply app_nil_r. Qed.

Lemma F_field_deref r n : F "*%s.%s" [r; n] = W "*" ++ r ++ W "." ++ n.
Proof. transitivity (W "*" ++ r ++ W "." ++ n ++ []); [reflexivity|]. do 3 f_equal. apply app_nil_r. Qed.

#[local] Opaque W F.

Lemma ident_printed d : getAVPCodeConstant (Name d) = go_ident d.
Proof. apply F_ident. Qed.

Lemma write_call_written h data field : write_call h data field = written_as (def_of h field) data.
Proof.
  unfold write_call, written_as, has_vendor, getVendorIDConstant. rewrite ident_printed.
  destruct (Z.eqb_spec (VendorID (def_of h field)) 0); cbn [negb].
  - apply F_write.
  - rewrite F_vendor. apply F_write_vendor.
Qed.

Lemma case_line_read d : case_line d = read_under d.
Proof. unfold case_line. rewrite ident_printed. apply F_case. Qed.

Lemma constant_line_declared d : constant_line (Name d) (Code d) = declared_as d.
Proof. apply F_constant. Qed.

Lemma field_written h receiver field :
  (receiver = W "m" \/ receiver = W "g") -> has_code h field = true ->
  exists data, field_data field data /\
    infix (written_as (def_of h field) data) (generateFieldMarshalToBufferWithReceiver h receiver field).
Proof.
  intros Hr Hc. unfold generateFieldMarshalToBufferWithReceiver, marshal_call. rewrite Hc. cbn [negb].
  destruct (is_grouped _), (Repeated field), (Required field); cbn [negb]; eexists;
    (split; [|rewrite <- write_call_written; find_infix]);
    rewrite ?F_field, ?F_field_deref; unfold field_data; eauto 7.
Qed.

Lemma field_read h receiver field :
  has_code h field = true -> infix (read_under (def_of h field)) (unmarshal_case h receiver field).
Proof. intros Hc. unfold unmarshal_case. rewrite Hc. cbn [negb]. rewrite case_line_read. find_infix. Qed.

Lemma command_names h cmd field :
  field ∈ cmd_Fields cmd -> has_code h field = true -> names_constant h field (generateCommandStruct h cmd).
Proof.
  intros Hf Hc. unfold generateCommandStruct. split.
  - destruct (field_written h (W "m") field) as (data & Hw & Hd); [by left|done|]. exists data. split; [done|].
    apply (infix_each _ _ field _ Hf) in Hd. unfold generateMarshal, generateFieldMarshalToBuffer. find_piece Hd.
  - pose proof (infix_each _ _ field _ Hf (field_read h (W "m") field Hc)) as Hr.
    unfold generateUnmarshal. find_piece Hr.
Qed.

Lemma group_names h name g field :
  is_grouped g = true -> field ∈ GroupedFields g -> has_code h field = true ->
  names_constant h field (grouped_struct h name g).
Proof.
  intros Hg Hf Hc. unfold grouped_struct. rewrite Hg. cbv zeta. unfold generateGroupedMarshal, generateGroupedUnmarshal.
  destruct (GroupedFields g) as [|f0 fs] eqn:E; [by apply not_elem_of_nil in Hf|]. rewrite <- E in *. split.
  - destruct (field_written h (W "g") field) as (data & Hw & Hd); [by right|done|]. exists data. split; [done|].
    apply (infix_each _ _ field _ Hf) in Hd. find_piece Hd.
  - pose proof (infix_each _ _ field _ Hf (field_read h (W "g") field Hc)) as Hr.
    assert (existsb (has_code h) (GroupedFields g) = true) as -> by (apply existsb_exists; exists field; by rewrite <- list_elem_of_In).
    find_piece Hr.
Qed.

(** A field whose AVP the registry defines, with a code. *)
Definition registered_field (p : ProtoParser) (field : AVPField) : Prop :=
  exists a r, Name (def_of (heap p) field) <> gostr "AVP" /\
    AVPs p !! Name (def_of (heap p) field) = Some a /\ heap p !! a = Some r /\ Code r <> 0.

Lemma settled_constant complete h p field :
  settled_parser complete h p -> settled p field -> is_Some (heap p !! AVP field) -> registered_field p field ->
  has_code (heap p) field = true /\ registered p (Name (def_of (heap p) field)) = def_of (heap p) field.
Proof.
  intros Hp Hs [d Hd] (a & r & Hn & Ha & Hr & Hc). unfold has_code, registered, def_of in *. rewrite Hd in *.
  cbn [default] in *. rewrite Ha. cbn. rewrite Hr. cbn.
  assert (AVP field = a) as E by by eapply Hs. assert (r = d) as -> by congruence.
  split; [|done]. by apply negb_true_iff, Z.eqb_neq.
Qed.

(** The fields that are printed. *)
Definition printed (p : ProtoParser) (field : AVPField) : Prop :=
  (exists cmd, cmd ∈ Commands p /\ field ∈ cmd_Fields cmd) \/
  (exists n, is_Some (AVPs p !! n) /\ is_grouped (registered p n) = true /\ field ∈ GroupedFields (registered p n)).

Lemma printed_settled complete h p field :
  settled_parser complete h p -> printed p field -> settled p field /\ is_Some (heap p !! AVP field).
Proof.
  intros [Hw Hreg _ Hcmds Hgroups] [(cmd & Hcmd & Hf)|(n & [a Ha] & _ & Hf)].
  - pose proof (pw_commands _ Hw) as Hok. rewrite Forall_forall in Hcmds, Hok.
    pose proof (Hcmds cmd Hcmd) as H1. pose proof (co_fields _ _ (Hok cmd Hcmd)) as H2.
    rewrite Forall_forall in H1, H2. split; [by apply H1|by apply fo_avp, H2].
  - destruct (pw_avps _ Hw n a Ha) as (g & Hg & _). unfold registered in Hf. rewrite Ha in Hf. cbn in Hf. rewrite Hg in Hf.
    rewrite Hreg in Ha. pose proof (Hgroups n a g Ha Hg) as H1. pose proof (ao_fields _ _ (pw_heap _ Hw a g Hg)) as H2.
    rewrite Forall_forall in H1, H2. split; [by apply H1|by apply fo_avp, H2].
Qed.

Lemma printed_named p field avps PackageName :
  keys_of (AVPs p) avps -> printed p field -> has_code (heap p) field = true ->
  names_constant (heap p) field (Generate avps PackageName p).
Proof.
  intros Hk [(cmd & Hcmd & Hf)|(n & Hn & Hg & Hf)] Hc; unfold Generate.
  - destruct (command_names (heap p) cmd field Hf Hc) as [(data & Hw & H1) H2].
    apply (infix_each _ _ cmd _ Hcmd) in H1, H2. split; [exists data; split; [exact Hw|find_piece H1]|find_piece H2].
  - apply (keys_of_elem _ _ _ Hk), elem_of_sort in Hn.
    destruct (group_names (heap p) n _ field Hg Hf Hc) as [(data & Hw & H1) H2].
    apply (infix_each _ (fun name => grouped_struct (heap p) name (registered p name)) n _ Hn) in H1, H2.
    split; [exists data; split; [exact Hw|find_piece H1]|find_piece H2].
Qed.

Lemma constant_printed p r sort_commands PackageName n :
  ranges_ok p r -> is_Some (AVPs p !! n) ->
  infix (constant_line n (Code (registered p n))) (GenerateConstants sort_commands r PackageName p).
Proof.
  intros Hr Hn. apply (keys_of_elem _ _ _ (ro_AVPs _ _ Hr)), elem_of_sort in Hn.
  pose proof (infix_each _ (fun name => constant_line name (Code (registered p name))) n _ Hn (infix_refl _)) as H.
  unfold GenerateConstants. find_piece H.
Qed.

(** C40: the two generated files fit together.  In what is generated for a file
    of a directory, each field of a command, and of a group of the registry,
    whose AVP the registry defines with a code is written, with the flags and
    the vendor of its definition, and read under the identifier AVPCode
    followed by the AVP's name in capitals without dashes; and the file of
    constants declares this identifier, with the code of the very definition
    that the field was resolved to. *)
Theorem constants_declared order files ps p r sort_commands PackageName field :
  processProtoDirectory order files = Ok ps ->
  (forall k q, collect files ∅ ∅ 0 = Ok q -> covers (order k) q) ->
  p ∈ ps -> ranges_ok p r -> printed p field -> registered_field p field ->
  let d := def_of (heap p) field in
  (exists data, field_data field data /\ infix (written_as d data) (Generate (r_AVPs r) PackageName p)) /\
  infix (W "\t\tcase " ++ go_ident d ++ W ": // ") (Generate (r_AVPs r) PackageName p) /\
  infix (W "\t" ++ go_ident d ++ W " uint32 = " ++ show (Code d) ++ W "\n")
    (GenerateConstants sort_commands r PackageName p).
Proof.
  intros Hps Hcov Hin Hr Hf Hreg d.
  destruct (directory_shares order files ps Hps Hcov) as (complete & defs & _ & Hall & _).
  rewrite Forall_forall in Hall. pose proof (Hall p Hin) as Hp.
  destruct (printed_settled _ _ _ _ Hp Hf) as [Hs Hd].
  destruct (settled_constant _ _ _ _ Hp Hs Hd Hreg) as [Hc Ed].
  destruct (printed_named p field (r_AVPs r) PackageName) as [Hw Hread]; [apply Hr|done|done|].
  split; [exact Hw|]. split.
  - destruct Hread as (x & y & ->). exists x, (Name d ++ W "\n" ++ y). unfold read_under. by rewrite <- !app_assoc.
  - pose proof (constant_printed p r sort_commands PackageName (Name d) Hr) as Hk. unfold d in Hk. rewrite Ed in Hk.
    rewrite constant_line_declared in Hk. apply Hk. destruct Hreg as (a & q & _ & Ha & _). by eexists.
Qed.
