(* ===== verification/GeneratedCode.v ===== *)
(** * What the generated methods do

    The meaning of the code that Generator prints, for any definition: a
    struct holds a list of values per field, its methods go through the
    definition's fields as the printed statements do.  A nested group is read
    and written to the depth [n] of fuel.  BaseMessages, SessionMessages and
    S13 translate such code as it stands in the repository; here it is a
    function of the definition. *)

From S2P Require Import Prelude DataTypes Wire Message GoText ProtoParser ProtoTheorems Generator.

(** ** Values of the fields *)

(** What a field holds: one value of a required field, at most one of an
    optional field or a group (a pointer, nil when there is none), any number
    of a repeated field.  [Raw] is a group without fields, [Nil] a nil pointer
    in a slice of groups. *)
Inductive dyn : Type :=
| Scalar (v : Value)
| Struct (vs : list (list dyn))
| Raw (data : bytes)
| Nil.

(** The name of a value's type in [models_base]. *)
Definition dynamic_type (v : Value) : String.string :=
  match v with
  | VUnknown _ => "Unknown"
  | VAddress _ => "Address"
  | VDiameterIdentity _ => "DiameterIdentity"
  | VDiameterURI _ => "DiameterURI"
  | VEnumerated _ => "Enumerated"
  | VFloat32 _ => "Float32"
  | VFloat64 _ => "Float64"
  | VGrouped _ => "Grouped"
  | VIPFilterRule _ => "IPFilterRule"
  | VIPv4 _ => "IPv4"
  | VIPv6 _ => "IPv6"
  | VInteger32 _ => "Integer32"
  | VInteger64 _ => "Integer64"
  | VOctetString _ => "OctetString"
  | VQoSFilterRule _ => "QoSFilterRule"
  | VTime _ => "Time"
  | VTimePtr _ => "*Time"
  | VUTF8String _ => "UTF8String"
  | VUnsigned32 _ => "Unsigned32"
  | VUnsigned64 _ => "Unsigned64"
  end%string.

(** Of each type that [getBaseGoType] and [getDecoder] know: its decoder and
    its zero value. *)
Definition types : list (String.string * ((bytes -> decoded) * Value)) := [
  ("Unsigned32", (DecodeUnsigned32, VUnsigned32 0));
  ("Unsigned64", (DecodeUnsigned64, VUnsigned64 0));
  ("Integer32", (DecodeInteger32, VInteger32 0));
  ("Integer64", (DecodeInteger64, VInteger64 0));
  ("Float32", (DecodeFloat32, VFloat32 0));
  ("Float64", (DecodeFloat64, VFloat64 0));
  ("OctetString", (DecodeOctetString, VOctetString []));
  ("UTF8String", (DecodeUTF8String, VUTF8String []));
  ("DiameterIdentity", (DecodeDiameterIdentity, VDiameterIdentity []));
  ("DiameterURI", (DecodeDiameterURI, VDiameterURI []));
  ("Enumerated", (DecodeEnumerated, VEnumerated 0));
  ("Address", (DecodeAddress, VAddress []));
  ("Time", (DecodeTime, VTime zero_time));
  ("IPFilterRule", (DecodeIPFilterRule, VIPFilterRule []));
  ("QoSFilterRule", (DecodeQoSFilterRule, VQoSFilterRule []));
  ("Grouped", (DecodeGrouped, VGrouped []))]%string.

Definition go_type (typeName : bytes) : bytes := if known_type typeName then typeName else gostr "OctetString".
Definition type_entry (typeName : bytes) : (bytes -> decoded) * Value :=
  match find (fun x => is_word typeName x.1) types with
  | Some x => x.2
  | None => (DecodeOctetString, VOctetString [])
  end.

(** [models_base.DecodeT(avpValue)], and the assertion [val.(models_base.T)]. *)
Definition decode_as (typeName : bytes) (b : bytes) : decoded :=
  match (type_entry typeName).1 b with
  | Ok v => if bool_decide (gostr (dynamic_type v) = go_type typeName) then Ok v else Panic
  | Err e => Err e
  | Panic => Panic
  end.

Section Code.
Variable h : gmap pointer AVPDefinition.
#[local] Abbreviation def_of := (def_of h).
#[local] Abbreviation has_code := (has_code h).
#[local] Abbreviation has_vendor := (has_vendor h).

(** A field of type [T], not a pointer or a slice. *)
Definition plain (field : AVPField) : bool :=
  Required field && negb (Repeated field) && negb (is_grouped (def_of field)).

Definition zero_field (field : AVPField) : list dyn :=
  if plain field then [Scalar (type_entry (TypeName (def_of field))).2] else [].

(** [&X{}] of a group. *)
Definition zero_group (d : AVPDefinition) : dyn :=
  match GroupedFields d with [] => Raw [] | fields => Struct (map zero_field fields) end.

(** ** [Marshal] *)

Definition write_avp (d : AVPDefinition) (data : Value) : bytes :=
  if negb (VendorID d =? 0) then marshalAVPWithVendor (Code d) data (Must d) (MayEncrypt d) (VendorID d)
  else marshalAVP (Code d) data (Must d) (MayEncrypt d).

(** The statements for one field; [marshal] is the group's own [Marshal]. *)
Definition write_field (marshal : AVPDefinition -> dyn -> bytes) (field : AVPField) (vs : list dyn) : bytes :=
  let d := def_of field in
  if negb (has_code field) then []
  else write_all vs (fun v =>
    match v with
    | Nil => []
    | Scalar x => write_avp d x
    | _ => write_avp d (VGrouped (marshal d v))
    end).

Definition write_fields (marshal : AVPDefinition -> dyn -> bytes) (fields : list AVPField) (vs : list (list dyn)) : bytes :=
  concat (zip_with (write_field marshal) fields vs).

Fixpoint group_Marshal (n : nat) (d : AVPDefinition) (g : dyn) : bytes :=
  match n, g with
  | S n, Struct vs => write_fields (group_Marshal n) (GroupedFields d) vs
  | S n, Raw data => data
  | _, _ => []
  end.

(** ** [Unmarshal] *)

(** [m.F = ...], [m.F = &v] and [m.F = append(m.F, ...)]. *)
Definition store (field : AVPField) (i : nat) (v : dyn) (vs : list (list dyn)) : list (list dyn) :=
  alter (fun old => if Repeated field then old ++ [v] else [v]) i vs.

Definition read_field (unmarshal : AVPDefinition -> bytes -> dyn -> dyn * outcome parse_error unit)
    (field : AVPField) (i : nat) (vendorID : Z) (avpValue : bytes) (vs : list (list dyn))
  : outcome parse_error (list (list dyn)) :=
  let d := def_of field in
  if has_vendor field && negb (vendorID =? VendorID d) then Ok vs
  else if is_grouped d then
    assign_group (unmarshal d avpValue (zero_group d)) (fun grouped => store field i grouped vs) vs
  else assign (decode_as (TypeName d) avpValue) Some (fun v => store field i (Scalar v) vs) vs.

(** The [switch]: its cases in the order of the fields, of which the first is
    field [i] of the struct. *)
Fixpoint switch_from (unmarshal : AVPDefinition -> bytes -> dyn -> dyn * outcome parse_error unit) (i : nat)
    (fields : list AVPField) (avpCode vendorID : Z) (avpValue : bytes) (vs : list (list dyn))
  : outcome parse_error (list (list dyn)) :=
  match fields with
  | [] => Ok vs
  | field :: fields =>
      if has_code field && (avpCode =? Code (def_of field)) then read_field unmarshal field i vendorID avpValue vs
      else switch_from unmarshal (S i) fields avpCode vendorID avpValue vs
  end.
Definition switch (unmarshal : AVPDefinition -> bytes -> dyn -> dyn * outcome parse_error unit) :=
  switch_from unmarshal O.

Fixpoint group_Unmarshal (n : nat) (d : AVPDefinition) (data : bytes) (g : dyn) : dyn * outcome parse_error unit :=
  match n with
  | O => (g, Err ErrFuel)
  | S n =>
      match GroupedFields d, g with
      | [], _ => (Raw data, Ok tt)
      | fields, Struct vs =>
          let '(vs, r) := scan (switch (group_Unmarshal n) fields) data vs in (Struct vs, r)
      | _, _ => (g, Panic)
      end
  end.

(** ** Commands *)

Record dmessage := { d_Header : DiameterHeader; d_fields : list (list dyn) }.

Variable n : nat.
Variable cmd : CommandDefinition.

Definition text_of (v : Value) : option bytes :=
  match v with
  | VUTF8String s | VDiameterIdentity s | VDiameterURI s | VOctetString s => Some s
  | _ => None
  end.

Definition check_field (field : AVPField) (vs : list dyn) : option marshal_error :=
  let name := Name (def_of field) in
  if Required field && negb (Repeated field) then
    if existsb (is_word (TypeName (def_of field))) text_types then
      match vs with
      | [Scalar v] => if bool_decide (text_of v = Some []) then Some (ErrRequiredEmpty name) else None
      | _ => None
      end
    else if is_grouped (def_of field) then
      if bool_decide (vs = []) then Some (ErrRequiredNil name) else None
    else None
  else if Required field && Repeated field then
    if bool_decide (vs = []) then Some (ErrRequiredEmpty name) else None
  else None.

Fixpoint first_error (l : list (option marshal_error)) : option marshal_error :=
  match l with
  | [] => None
  | Some e :: _ => Some e
  | None :: l => first_error l
  end.

Definition d_New : dmessage :=
  {| d_Header := new_header (cmd_Code cmd) (cmd_ApplicationID cmd) (cmd_Request cmd) (cmd_Proxiable cmd);
     d_fields := map zero_field (cmd_Fields cmd) |}.
Definition d_zero : dmessage := {| d_Header := zero_header; d_fields := map zero_field (cmd_Fields cmd) |}.

(** Without a required field that holds one value, nothing is printed but
    [return nil]: the repeated fields are not checked. *)
Definition d_Validate (m : dmessage) : option marshal_error :=
  if existsb (fun field => Required field && negb (Repeated field)) (cmd_Fields cmd) then
    first_error (zip_with check_field (cmd_Fields cmd) (d_fields m))
  else None.

Definition d_body (m : dmessage) : bytes := write_fields (group_Marshal n) (cmd_Fields cmd) (d_fields m).

Definition d_Marshal (m : dmessage) : dmessage * outcome marshal_error bytes :=
  match d_Validate m with
  | Some e => (m, Err e)
  | None =>
      let m := m <| d_Header := (d_Header m) <| Length := to_u32 (20 + len (d_body m)) |> |> in
      (m, Ok (marshalHeader (d_Header m) ++ d_body m))
  end.

Definition d_switch (avpCode vendorID : Z) (avpValue : bytes) (m : dmessage) : outcome parse_error dmessage :=
  match switch (group_Unmarshal n) (cmd_Fields cmd) avpCode vendorID avpValue (d_fields m) with
  | Ok vs => Ok (m <| d_fields := vs |>)
  | Err e => Err e
  | Panic => Panic
  end.

Definition d_Unmarshal (data : bytes) (m : dmessage) : dmessage * outcome parse_error unit :=
  if len data <? 20 then (m, Err ErrHeaderTooShort)
  else match read_header data with
       | Ok header => scan_from d_switch data 20 (m <| d_Header := header |>)
       | Err e => (m, Err e)
       | Panic => (m, Panic)
       end.

(** ** Well-formed values *)

(** A value of the field's type, which fits an AVP. *)
Definition value_ok (d : AVPDefinition) (v : Value) : Prop :=
  gostr (dynamic_type v) = go_type (TypeName d) /\ wf_value v /\ len (Serialize v) < room.

Definition elem_ok (group_ok : AVPDefinition -> dyn -> Prop) (marshal : AVPDefinition -> dyn -> bytes)
    (d : AVPDefinition) (v : dyn) : Prop :=
  match v with
  | Scalar x => is_grouped d = false /\ value_ok d x
  | Nil => False
  | _ => is_grouped d = true /\ group_ok d v /\ len (marshal d v) < room
  end.

Definition field_wf (group_ok : AVPDefinition -> dyn -> Prop) (marshal : AVPDefinition -> dyn -> bytes)
    (field : AVPField) (vs : list dyn) : Prop :=
  if has_code field then
    Forall (elem_ok group_ok marshal (def_of field)) vs /\
    (if plain field then length vs = 1%nat else if Repeated field then True else (length vs <= 1)%nat)
  else vs = zero_field field.

(** The [switch] of these fields compiles: no code is in two cases. *)
Definition distinct_cases (fields : list AVPField) : Prop :=
  NoDup (map (fun f => Code (def_of f)) (filter (fun f => has_code f = true) fields)).

Definition fields_wf (group_ok : AVPDefinition -> dyn -> Prop) (marshal : AVPDefinition -> dyn -> bytes)
    (fields : list AVPField) (vs : list (list dyn)) : Prop :=
  distinct_cases fields /\ Forall2 (field_wf group_ok marshal) fields vs.

Fixpoint group_wf (n : nat) (d : AVPDefinition) (g : dyn) : Prop :=
  match n with
  | O => False
  | S n =>
      match GroupedFields d, g with
      | [], Raw data => True
      | _ :: _, Struct vs => fields_wf (group_wf n) (group_Marshal n) (GroupedFields d) vs
      | _, _ => False
      end
  end.

Definition message_wf (m : dmessage) : Prop :=
  fields_wf (group_wf n) (group_Marshal n) (cmd_Fields cmd) (d_fields m).

End Code.
