(* ===== verification/GeneratedTheorems.v ===== *)
(** * The generated methods are inverse to each other

    For any definition whose switch compiles: what [Marshal] writes of a
    well-formed struct, [Unmarshal] reads back, through all nested groups. *)

From S2P Require Import Prelude DataTypes Wire Message GoText ProtoParser ProtoTheorems Generator GeneratedCode.

(** ** Types *)

Lemma known_or_not (ty : bytes) :
  (exists x, In x types /\ ty = gostr x.1 /\ type_entry ty = x.2 /\ go_type ty = ty) \/
  (type_entry ty = (DecodeOctetString, VOctetString []) /\ go_type ty = gostr "OctetString").
Proof.
  unfold type_entry, go_type, known_type.
  destruct (find (fun x => is_word ty x.1) types) as [x|] eqn:E.
  - left. exists x. pose proof (find_some _ _ E) as [Hin Hx]. unfold is_word in Hx. apply bool_decide_eq_true in Hx.
    split; [done|]. split; [done|]. split; [done|].
    assert (existsb (is_word ty) known_types = true) as ->; [|done].
    apply existsb_exists. exists x.1. split; [|by apply bool_decide_eq_true].
    change known_types with (map fst types). by apply in_map.
  - right. split; [done|].
    assert (existsb (is_word ty) known_types = false) as ->; [|done].
    change known_types with (map fst types). rewrite <- not_true_iff_false. intros (w & Hw & Hty)%existsb_exists.
    apply in_map_iff in Hw as (x & <- & Hx). by rewrite (find_none _ _ E x Hx) in Hty.
Qed.

(** What a decoder makes of a serialised value of its type. *)
Lemma decoder_Serialize x v :
  In x types -> dynamic_type v = x.1 -> wf_value v -> x.2.1 (Serialize v) = Ok v.
Proof.
  intros Hin Hv Hw. pose proof (Decode_TypeOf_Serialize v Hw) as Hd.
  repeat destruct Hin as [<-|Hin]; [..|done]; cbn [fst snd] in *; destruct v; try discriminate Hv; clear Hv.
  all: first [exact (Hd I) | reflexivity].
Qed.

Lemma decode_as_Serialize ty v :
  gostr (dynamic_type v) = go_type ty -> wf_value v -> decode_as ty (Serialize v) = Ok v.
Proof.
  intros Ht Hw. unfold decode_as. destruct (known_or_not ty) as [(x & Hin & -> & -> & Eg)|[-> Eg]].
  - assert (dynamic_type v = x.1) as Hv by (apply gostr_inj; congruence).
    rewrite (decoder_Serialize x v Hin Hv Hw), Eg, Hv. by rewrite bool_decide_true.
  - rewrite Eg in Ht. apply gostr_inj in Ht. destruct v; try done. cbn. by rewrite Eg.
Qed.

(** ** The fields of a struct *)

Section Fields.
Context (h : gmap pointer AVPDefinition).
Context (marshal_ : AVPDefinition -> dyn -> bytes).
Context (unmarshal : AVPDefinition -> bytes -> dyn -> dyn * outcome parse_error unit).
Context (group_ok : AVPDefinition -> dyn -> Prop).

(** The definitions of the registry are within their types ([parser_wf]), and
    groups are read back from their own bytes. *)
Hypothesis codes : forall f, u32 (Code (def_of h f)) /\ u32 (VendorID (def_of h f)).
Hypothesis groups : forall d g, group_ok d g -> unmarshal d (marshal_ d g) (zero_group h d) = (g, Ok tt).

(** The AVPs of a field. *)
Definition elem_value (d : AVPDefinition) (v : dyn) : Value :=
  match v with Scalar x => x | _ => VGrouped (marshal_ d v) end.
Definition elem_avp (d : AVPDefinition) (v : dyn) : avp :=
  av (Code d) (elem_value d v) (Must d) (MayEncrypt d) (VendorID d).
Definition elem_avps (d : AVPDefinition) (v : dyn) : list avp :=
  match v with Nil => [] | _ => [elem_avp d v] end.
Definition field_avps (field : AVPField) (vs : list dyn) : list avp :=
  if has_code h field then flat_map (elem_avps (def_of h field)) vs else [].
Definition fields_avps (fields : list AVPField) (vs : list (list dyn)) : list avp :=
  concat (zip_with field_avps fields vs).

#[local] Abbreviation field_wf := (field_wf h group_ok marshal_).
#[local] Abbreviation elem_ok := (elem_ok group_ok marshal_).
#[local] Abbreviation switch := (switch h unmarshal).

Lemma elem_avps_ok d vs : Forall (elem_ok d) vs -> flat_map (elem_avps d) vs = map (elem_avp d) vs.
Proof. induction 1 as [|v vs Hv _ IH]; [done|]. cbn [flat_map map]. rewrite IH. by destruct v. Qed.

Lemma write_avp_marshal d data : write_avp d data = marshal (av (Code d) data (Must d) (MayEncrypt d) (VendorID d)).
Proof. unfold write_avp. by destruct (Z.eqb_spec (VendorID d) 0) as [->|]. Qed.

Lemma write_field_avps field vs : write_field h marshal_ field vs = concat (map marshal (field_avps field vs)).
Proof.
  unfold write_field, field_avps. destruct (has_code h field); [|done]. cbn [negb].
  rewrite concat_flat_map_avp. unfold write_all. f_equal. apply map_ext. intros v.
  destruct v; cbn [elem_avps]; rewrite ?write_avp_marshal, ?concat_one_avp; done.
Qed.

Lemma write_fields_avps fields vs : write_fields h marshal_ fields vs = concat (map marshal (fields_avps fields vs)).
Proof.
  unfold write_fields, fields_avps. revert vs. induction fields as [|f fs IH]; intros [|v vs]; try done.
  cbn [zip_with concat]. by rewrite map_app, concat_app, <- IH, <- write_field_avps.
Qed.

Lemma field_avps_wf field vs : field_wf field vs -> Forall wf_avp (field_avps field vs).
Proof.
  unfold field_wf, field_avps. destruct (has_code h field); [|done]. intros [Hvs _].
  rewrite elem_avps_ok by done. apply Forall_map. eapply Forall_impl; [exact Hvs|]. intros v Hv.
  apply wf_av; [apply codes..|]. destruct v; cbn [elem_value]; [apply Hv|apply Hv|apply Hv|done].
Qed.

Lemma fields_avps_wf fields vs : Forall2 field_wf fields vs -> Forall wf_avp (fields_avps fields vs).
Proof.
  unfold fields_avps. induction 1 as [|f v fs vs Hf _ IH]; [done|]. cbn [zip_with concat].
  apply Forall_app. split; [by apply field_avps_wf|done].
Qed.

(** One AVP is stored by its case. *)
Lemma read_elem field i d v vs :
  d = def_of h field -> elem_ok d v ->
  read_field h unmarshal field i (VendorID d) (Serialize (elem_value d v)) vs = Ok (store field i v vs).
Proof.
  intros -> Hv. unfold read_field. rewrite Z.eqb_refl, andb_false_r.
  destruct v as [x|s|data|]; cbn in Hv; [| | |done]; destruct Hv as [-> Hok].
  - destruct Hok as (Ht & Hw & _). cbn [elem_value]. by rewrite decode_as_Serialize.
  - cbn [elem_value Serialize]. unfold Grouped_Serialize. by rewrite groups by apply Hok.
  - cbn [elem_value Serialize]. unfold Grouped_Serialize. by rewrite groups by apply Hok.
Qed.

(** The only case of a code is its field's. *)
Lemma switch_finds pre f suf i w v vs :
  distinct_cases h (pre ++ f :: suf) -> has_code h f = true ->
  switch_from h unmarshal i (pre ++ f :: suf) (Code (def_of h f)) w v vs = read_field h unmarshal f (i + length pre) w v vs.
Proof.
  intros Hd Hc. revert i Hd. induction pre as [|g pre IH]; intros i Hd; cbn [app switch_from].
  { by rewrite Hc, Z.eqb_refl, Nat.add_0_r. }
  unfold distinct_cases in Hd. cbn [app] in Hd. rewrite filter_cons in Hd. case_decide as Hg.
  - cbn [map] in Hd. apply NoDup_cons in Hd as [Hno Hd]. rewrite (proj2 (Z.eqb_neq _ _)), andb_false_r.
    + rewrite IH by done. f_equal. cbn [length]. lia.
    + intros E. apply Hno. rewrite <- E. apply list_elem_of_fmap. exists f. split; [done|].
      apply list_elem_of_filter. split; [done|]. apply elem_of_app. right. by left.
  - apply not_true_is_false in Hg. rewrite Hg. cbn [andb]. rewrite IH by done. f_equal. cbn [length]. lia.
Qed.

Definition stored (field : AVPField) (v : dyn) (old : list dyn) : list dyn :=
  if Repeated field then old ++ [v] else [v].

Lemma fold_field fields pre f suf pvs cur svs vs rest :
  fields = pre ++ f :: suf -> distinct_cases h fields -> length pvs = length pre -> has_code h f = true ->
  Forall (elem_ok (def_of h f)) vs ->
  fold_fields (switch fields) (map avp_seen (map (elem_avp (def_of h f)) vs) ++ rest) (pvs ++ cur :: svs) =
  fold_fields (switch fields) rest (pvs ++ foldl (fun old v => stored f v old) cur vs :: svs).
Proof.
  intros -> Hd Hl Hc Hvs. revert cur. induction Hvs as [|v vs Hv _ IH]; intros cur; [done|].
  cbn [map app foldl]. unfold elem_avp at 1, av, avp_seen at 1. cbn [avp_code avp_vendor avp_data fold_fields].
  unfold GeneratedCode.switch at 1. rewrite switch_finds, read_elem by done. cbn [Nat.add].
  unfold store. rewrite <- Hl, (alter_app_r_alt _ pvs), Nat.sub_diag by lia. apply IH.
Qed.

Lemma stored_all f vs :
  has_code h f = true -> field_wf f vs ->
  foldl (fun old v => stored f v old) (zero_field h f) vs = vs.
Proof.
  intros Hc. unfold field_wf, stored, zero_field. rewrite Hc. intros [_ Hl].
  destruct (Repeated f) eqn:Hr.
  - unfold plain in *. rewrite Hr, andb_false_r in *. cbn [andb].
    assert (forall l, foldl (fun old v => old ++ [v]) l vs = l ++ vs) as E; [|apply E].
    clear. induction vs as [|v vs IH]; intros l; cbn [foldl]; [by rewrite app_nil_r|]. by rewrite IH, <- app_assoc.
  - destruct (plain h f); destruct vs as [|v [|w vs]]; cbn in *; try done; lia.
Qed.

(** The whole switch, from the zero struct. *)
Lemma fold_struct fields vs :
  distinct_cases h fields -> Forall2 field_wf fields vs ->
  fold_fields (switch fields) (map avp_seen (fields_avps fields vs)) (map (zero_field h) fields) = (vs, Ok tt).
Proof.
  intros Hd Hw.
  assert (forall pre suf pvs svs, fields = pre ++ suf -> Forall2 field_wf suf svs -> length pvs = length pre ->
    fold_fields (switch fields) (map avp_seen (fields_avps suf svs)) (pvs ++ map (zero_field h) suf) = (pvs ++ svs, Ok tt))
    as H; [|by apply (H [] fields [] vs)].
  intros pre suf. revert pre. induction suf as [|f suf IH]; intros pre pvs svs E Hs Hl.
  { apply Forall2_nil_inv_l in Hs as ->. done. }
  apply Forall2_cons_inv_l in Hs as (v & svs' & Hv & Hs & ->).
  unfold fields_avps. cbn [zip_with concat map]. rewrite map_app. fold (fields_avps suf svs').
  assert (fold_fields (switch fields) (map avp_seen (field_avps f v) ++ map avp_seen (fields_avps suf svs'))
      (pvs ++ zero_field h f :: map (zero_field h) suf) =
    fold_fields (switch fields) (map avp_seen (fields_avps suf svs')) (pvs ++ v :: map (zero_field h) suf)) as ->.
  { pose proof Hv as Hv'. unfold field_wf in Hv. unfold field_avps. destruct (has_code h f) eqn:Hc; [|by subst v].
    rewrite elem_avps_ok by apply Hv.
    rewrite (fold_field fields pre f suf) by (done || apply Hv). by rewrite stored_all. }
  specialize (IH (pre ++ [f]) (pvs ++ [v]) svs'). rewrite <- !app_assoc in IH. apply IH; [done|done|].
  rewrite !length_app. cbn. lia.
Qed.
End Fields.

(** ** Groups, to any depth *)

Section Messages.
Context (h : gmap pointer AVPDefinition).
Hypothesis codes : forall f, u32 (Code (def_of h f)) /\ u32 (VendorID (def_of h f)).

Lemma group_roundtrip n d g :
  group_wf h n d g -> group_Unmarshal h n d (group_Marshal h n d g) (zero_group h d) = (g, Ok tt).
Proof.
  revert d g. induction n as [|n IH]; intros d g; cbn [group_wf group_Unmarshal group_Marshal]; [done|].
  unfold zero_group. destruct (GroupedFields d) as [|f fs], g as [x|vs|data|]; try done.
  intros [Hd Hw]. rewrite write_fields_avps, scan_marshal by by eapply fields_avps_wf.
  by rewrite (fold_struct h _ _ (group_wf h n)).
Qed.

Context (n : nat) (cmd : CommandDefinition).

Definition message_avps (m : dmessage) : list avp := fields_avps h (group_Marshal h n) (cmd_Fields cmd) (d_fields m).

Definition message_start (m : dmessage) : dmessage :=
  {| d_Header := d_Header m; d_fields := map (zero_field h) (cmd_Fields cmd) |}.

Lemma fold_message l hd vs :
  fold_fields (d_switch h n cmd) l {| d_Header := hd; d_fields := vs |} =
  let '(vs', r) := fold_fields (switch h (group_Unmarshal h n) (cmd_Fields cmd)) l vs in
  ({| d_Header := hd; d_fields := vs' |}, r).
Proof.
  revert vs. induction l as [|[[c w] v] l IH]; intros vs; [done|]. cbn [fold_fields].
  unfold d_switch at 1. cbn [d_fields]. destruct (switch _ _ _ _ _ _ _); [apply IH|done..].
Qed.

#[local] Program Instance message_wire : WireMessage dmessage := {|
  wire_start := message_start; wire_wf := message_wf h n cmd; wire_avps := message_avps;
  wire_field := d_switch h n cmd |}.
Next Obligation. intros m [_ Hw]. by eapply fields_avps_wf. Qed.
Next Obligation.
  intros m [Hd Hw]. unfold message_start, message_avps. rewrite fold_message.
  rewrite (fold_struct h _ _ (group_wf h n)) by (done || apply group_roundtrip). by destruct m.
Qed.

#[local] Program Instance message_command : WireCommand dmessage := {|
  cmd_header := d_Header; cmd_with_header := fun hd m => m <| d_Header := hd |>; cmd_zero := d_zero h cmd;
  cmd_validate := d_Validate h cmd; cmd_body := d_body h n cmd; cmd_marshal := d_Marshal h n cmd;
  cmd_unmarshal := d_Unmarshal h n cmd |}.
Solve Obligations with (try done; intros m; apply write_fields_avps).

Lemma generated_command_roundtrip :
  roundtrip_spec (message_wf h n cmd) d_Header (d_body h n cmd) (d_Validate h cmd) (d_Marshal h n cmd)
    (d_Unmarshal h n cmd) (d_zero h cmd).
Proof. exact (@command_roundtrip dmessage message_wire message_command). Qed.
End Messages.

(** C37: every message that the generator makes from a command of a parsed file
    is read back as it was sent.  Whatever the definitions: for a message whose
    fields hold values of their types, to the depth [n] of nested groups, that
    passes the generated [Validate] and fits the 24-bit length, [Marshal]
    succeeds, sets the header's length to the number of bytes it returns, a
    multiple of four, and [Unmarshal] of those bytes into a zero struct gives
    the message back.  The definitions must be such that the switches compile:
    no AVP code twice in one struct; then this also holds of the groups. *)
Theorem generated_roundtrip p n cmd :
  parser_wf p ->
  roundtrip_spec (message_wf (heap p) n cmd) d_Header (d_body (heap p) n cmd) (d_Validate (heap p) cmd)
    (d_Marshal (heap p) n cmd) (d_Unmarshal (heap p) n cmd) (d_zero (heap p) cmd).
Proof.
  intros Hp. apply generated_command_roundtrip. intros f. unfold def_of.
  destruct (heap p !! AVP f) as [d|] eqn:E; [|done]. cbn. split; apply (pw_heap p Hp _ _ E).
Qed.
