(* ===== verification/GeneratedS13.v ===== *)
(** * ME-Identity-Check-Request, from the proto file to the code

    The definition of the request and of the AVPs it contains, as
    [proto/s13.proto] has them (without comments and descriptions), through
    the parser and the generator: what the generator makes of it is what S13
    translates from the repository. *)

From S2P Require Import Prelude Binary DataTypes Wire Message BaseMessages SessionMessages S13.
From S2P Require Import GoText ProtoParser ProtoTheorems Generator GeneratedCode GeneratedTheorems.

(** ** The definitions *)

Definition micr_proto : bytes := gostr "
avp User-Name {
  code = 1;
  type = UTF8String;
  must = true;
  may_encrypt = true;
}
avp Session-Id {
  code = 263;
  type = UTF8String;
  must = true;
  may_encrypt = false;
}
avp Auth-Session-State {
  code = 277;
  type = Enumerated;
  must = true;
  may_encrypt = false;
}
avp Origin-Host {
  code = 264;
  type = DiameterIdentity;
  must = true;
  may_encrypt = false;
}
avp Origin-Realm {
  code = 296;
  type = DiameterIdentity;
  must = true;
  may_encrypt = false;
}
avp Destination-Host {
  code = 293;
  type = DiameterIdentity;
  must = true;
  may_encrypt = false;
}
avp Destination-Realm {
  code = 283;
  type = DiameterIdentity;
  must = true;
  may_encrypt = false;
}
avp Vendor-Id {
  code = 266;
  type = Unsigned32;
  must = true;
  may_encrypt = false;
}
avp Vendor-Specific-Application-Id {
  code = 260;
  type = Grouped;
  must = true;
  may_encrypt = false;
  grouped {
    optional Vendor-Id vendor_id = 1;
    optional Auth-Application-Id auth_application_id = 2;
    optional Acct-Application-Id acct_application_id = 3;
  }
}
avp Auth-Application-Id {
  code = 258;
  type = Unsigned32;
  must = true;
  may_encrypt = false;
}
avp Acct-Application-Id {
  code = 259;
  type = Unsigned32;
  must = true;
  may_encrypt = false;
}
avp Proxy-Info {
  code = 284;
  type = Grouped;
  must = true;
  may_encrypt = false;
  grouped {
    required Proxy-Host proxy_host = 1;
    optional Proxy-State proxy_state = 2;
  }
}
avp Proxy-Host {
  code = 280;
  type = DiameterIdentity;
  must = true;
  may_encrypt = false;
}
avp Proxy-State {
  code = 33;
  type = OctetString;
  must = true;
  may_encrypt = false;
}
avp Route-Record {
  code = 282;
  type = DiameterIdentity;
  must = true;
  may_encrypt = false;
}
avp DRMP {
  code = 301;
  type = Enumerated;
  must = false;
  may_encrypt = false;
}
avp Terminal-Information {
  code = 1401;
  vendor_id = 10415;
  type = Grouped;
  must = true;
  may_encrypt = false;
  grouped {
    optional IMEI imei = 1;
    optional 3GPP2-MEID meid = 2;
    optional Software-Version software_version = 3;
  }
}
avp IMEI {
  code = 1402;
  vendor_id = 10415;
  type = UTF8String;
  must = true;
  may_encrypt = false;
}
avp Software-Version {
  code = 1403;
  vendor_id = 10415;
  type = UTF8String;
  must = true;
  may_encrypt = false;
}
avp 3GPP2-MEID {
  code = 1471;
  vendor_id = 10415;
  type = OctetString;
  must = true;
  may_encrypt = false;
}
command ME-Identity-Check-Request {
  code = 324;
  application_id = 16777252;
  request = true;
  proxiable = true;
  fixed required Session-Id session_id = 1;
  fixed required Auth-Session-State auth_session_state = 2;
  fixed required Origin-Host origin_host = 3;
  fixed required Origin-Realm origin_realm = 4;
  fixed required Destination-Realm destination_realm = 5;
  fixed required Terminal-Information terminal_information = 6;
  optional DRMP drmp = 7;
  optional Vendor-Specific-Application-Id vendor_specific_application_id = 8;
  optional Destination-Host destination_host = 9;
  optional User-Name user_name = 10;
  repeated optional AVP avp = 11;
  repeated optional Proxy-Info proxy_info = 12;
  repeated optional Route-Record route_record = 13;
}
".

Definition micr_read : ProtoParser := (ParseFile micr_proto (NewProtoParser ∅ 0)).1.
Definition micr_parser : ProtoParser := ResolveAVPReferences ((map_to_list (AVPs micr_read)).*1) micr_read.

Definition micr_heap : gmap pointer AVPDefinition := Eval vm_compute in heap micr_parser.
Definition micr : CommandDefinition := Eval vm_compute in List.hd (new_command []) (Commands micr_parser).

Lemma micr_parsed : (ParseFile micr_proto (NewProtoParser ∅ 0)).2 = Ok tt.
Proof. by vm_compute. Qed.
Lemma micr_heap_eq : heap micr_parser = micr_heap.
Proof. by vm_compute. Qed.
Lemma micr_command : Commands micr_parser = [micr].
Proof. by vm_compute. Qed.

#[local] Abbreviation h := micr_heap.

(** The text that is printed for [Validate] is the one in
    [commands/s13/s13.pb.go]. *)
Lemma validate_text :
  generateValidate h micr (struct_name (cmd_Name micr)) = W "// Validate checks if all required fields are set in MEIdentityCheckRequest
func (m *MEIdentityCheckRequest) Validate() error {
	// Validate required fields
	if m.SessionId == ~~ {
		return fmt.Errorf(~required field Session-Id is empty~)
	}
	if m.OriginHost == ~~ {
		return fmt.Errorf(~required field Origin-Host is empty~)
	}
	if m.OriginRealm == ~~ {
		return fmt.Errorf(~required field Origin-Realm is empty~)
	}
	if m.DestinationRealm == ~~ {
		return fmt.Errorf(~required field Destination-Realm is empty~)
	}
	if m.TerminalInformation == nil {
		return fmt.Errorf(~required field Terminal-Information is nil~)
	}

	return nil
}

".
Proof. by vm_compute. Qed.

(** ** Structs as lists of fields *)

Definition opt {A} (e : A -> dyn) (o : option A) : list dyn := match o with Some x => [e x] | None => [] end.
Definition ptr {A} (e : A -> dyn) (o : option A) : dyn := match o with Some x => e x | None => Nil end.

Definition of_vsai (g : VendorSpecificApplicationId.t) : dyn :=
  Struct [opt (fun x => Scalar (VUnsigned32 x)) (VendorSpecificApplicationId.VendorId g);
          opt (fun x => Scalar (VUnsigned32 x)) (VendorSpecificApplicationId.AuthApplicationId g);
          opt (fun x => Scalar (VUnsigned32 x)) (VendorSpecificApplicationId.AcctApplicationId g)].

Definition of_proxy (g : ProxyInfo.t) : dyn :=
  Struct [[Scalar (VDiameterIdentity (ProxyInfo.ProxyHost g))];
          opt (fun x => Scalar (VOctetString x)) (ProxyInfo.ProxyState g)].

Definition of_terminal (g : TerminalInformation.t) : dyn :=
  Struct [opt (fun x => Scalar (VUTF8String x)) (TerminalInformation.Imei g);
          opt (fun x => Scalar (VOctetString x)) (TerminalInformation.Meid g);
          opt (fun x => Scalar (VUTF8String x)) (TerminalInformation.SoftwareVersion g)].

Definition of_micr (m : MEIdentityCheckRequest.t) : dmessage :=
  {| d_Header := MEIdentityCheckRequest.Header m;
     d_fields :=
       [[Scalar (VUTF8String (MEIdentityCheckRequest.SessionId m))];
        [Scalar (VEnumerated (MEIdentityCheckRequest.AuthSessionState m))];
        [Scalar (VDiameterIdentity (MEIdentityCheckRequest.OriginHost m))];
        [Scalar (VDiameterIdentity (MEIdentityCheckRequest.OriginRealm m))];
        [Scalar (VDiameterIdentity (MEIdentityCheckRequest.DestinationRealm m))];
        opt of_terminal (MEIdentityCheckRequest.TerminalInformation m);
        opt (fun x => Scalar (VEnumerated x)) (MEIdentityCheckRequest.Drmp m);
        opt of_vsai (MEIdentityCheckRequest.VendorSpecificApplicationId m);
        opt (fun x => Scalar (VDiameterIdentity x)) (MEIdentityCheckRequest.DestinationHost m);
        opt (fun x => Scalar (VUTF8String x)) (MEIdentityCheckRequest.UserName m);
        map (fun x => Scalar (VOctetString x)) (MEIdentityCheckRequest.Avp m);
        map (ptr of_proxy) (MEIdentityCheckRequest.ProxyInfo m);
        map (fun x => Scalar (VDiameterIdentity x)) (MEIdentityCheckRequest.RouteRecord m)] |}.

(** ** [Marshal] *)

Section Write.
Context (M : AVPDefinition -> dyn -> bytes) (d : AVPDefinition).

(** The contents of one element of a field. *)
Definition written (v : dyn) : bytes :=
  match v with
  | Nil => []
  | Scalar x => write_avp d x
  | _ => write_avp d (VGrouped (M d v))
  end.

Lemma write_field_coded f vs :
  has_code h f = true -> def_of h f = d -> write_field h M f vs = write_all vs written.
Proof. unfold write_field. by intros -> ->. Qed.

Lemma write_one v : write_all [v] written = written v.
Proof. apply app_nil_r. Qed.
Lemma write_opt_dyn {A} (e : A -> dyn) o : write_all (opt e o) written = write_opt o (fun x => written (e x)).
Proof. destruct o; [apply app_nil_r|done]. Qed.
Lemma write_map {A} (e : A -> dyn) l : write_all (map e l) written = write_all l (fun x => written (e x)).
Proof. unfold write_all. by rewrite map_map. Qed.

(** Groups are written as their own [Marshal] says. *)
Context {A : Type} (e : A -> dyn) (w : A -> bytes).
Hypothesis group : forall x, written (e x) = write_avp d (VGrouped (w x)).

Lemma write_opt_group o : write_all (opt e o) written = write_opt o (fun x => write_avp d (VGrouped (w x))).
Proof. destruct o; [|done]. cbn. rewrite <- group. apply app_nil_r. Qed.
Lemma write_groups l :
  write_all (map (ptr e) l) written = write_all l (fun p => write_opt p (fun x => write_avp d (VGrouped (w x)))).
Proof. rewrite write_map. unfold write_all. f_equal. apply map_ext. intros [x|]; [apply group|done]. Qed.
End Write.

(** Computes the definitions of the fields of [micr_heap]. *)
Ltac resolve :=
  repeat match goal with
  | |- context [def_of micr_heap ?f] =>
      let d := eval vm_compute in (def_of micr_heap f) in change (def_of micr_heap f) with d
  | |- context [has_code micr_heap ?f] =>
      let b := eval vm_compute in (has_code micr_heap f) in change (has_code micr_heap f) with b
  | |- context [has_vendor micr_heap ?f] =>
      let b := eval vm_compute in (has_vendor micr_heap f) in change (has_vendor micr_heap f) with b
  end.


Definition d_field (i : nat) : AVPDefinition := def_of h (nth i (cmd_Fields micr) (Build_AVPField 0 [] false false false 0)).
Definition d_terminal : AVPDefinition := Eval vm_compute in d_field 5.
Definition d_vsai : AVPDefinition := Eval vm_compute in d_field 7.
Definition d_proxy : AVPDefinition := Eval vm_compute in d_field 11.

(** Writes the fields of a struct one by one. *)
Ltac write_fields_ :=
  unfold write_fields; cbn [zip_with concat];
  repeat (erewrite write_field_coded by (vm_compute; reflexivity));
  rewrite ?write_one, ?write_opt_dyn, ?write_map, ?app_nil_r.

Lemma Marshal_terminal n g : group_Marshal h (S n) d_terminal (of_terminal g) = TerminalInformation.Marshal g.
Proof. cbn [group_Marshal of_terminal GroupedFields d_terminal]. write_fields_. reflexivity. Qed.
Lemma Marshal_vsai n g : group_Marshal h (S n) d_vsai (of_vsai g) = VendorSpecificApplicationId.Marshal g.
Proof. cbn [group_Marshal of_vsai GroupedFields d_vsai]. write_fields_. reflexivity. Qed.
Lemma Marshal_proxy n g : group_Marshal h (S n) d_proxy (of_proxy g) = ProxyInfo.Marshal g.
Proof. cbn [group_Marshal of_proxy GroupedFields d_proxy]. write_fields_. reflexivity. Qed.

Lemma body_micr m : d_body h 1 micr (of_micr m) = MEIdentityCheckRequest.body m.
Proof.
  unfold d_body. cbn [cmd_Fields micr of_micr d_fields].
  assert (forall f vs, has_code h f = false -> write_field h (group_Marshal h 1) f vs = []) as Hno
    by (unfold write_field; by intros f vs ->).
  unfold write_fields; cbn [zip_with concat]. rewrite (Hno _ (map _ (MEIdentityCheckRequest.Avp m))) by by vm_compute.
  repeat (erewrite write_field_coded by (vm_compute; reflexivity)). fold d_terminal d_vsai d_proxy.
  rewrite (write_opt_group _ _ of_terminal TerminalInformation.Marshal) by (intros x; cbn [written of_terminal]; by rewrite <- (Marshal_terminal 0)).
  rewrite (write_opt_group _ _ of_vsai VendorSpecificApplicationId.Marshal) by (intros x; cbn [written of_vsai]; by rewrite <- (Marshal_vsai 0)).
  rewrite (write_groups _ _ of_proxy ProxyInfo.Marshal) by (intros x; cbn [written of_proxy]; by rewrite <- (Marshal_proxy 0)).
  rewrite ?write_one, ?write_opt_dyn, ?write_map, ?app_nil_r. reflexivity.
Qed.

Lemma check_text f v t :
  Required f && negb (Repeated f) && existsb (is_word (TypeName (def_of h f))) text_types = true -> text_of v = Some t ->
  check_field h f [Scalar v] = if len t =? 0 then Some (ErrRequiredEmpty (Name (def_of h f))) else None.
Proof.
  unfold check_field. intros [-> ->]%andb_true_iff ->. destruct t as [|b t].
  { rewrite bool_decide_true by reflexivity. reflexivity. }
  rewrite bool_decide_false by done. by rewrite (proj2 (Z.eqb_neq _ _)).
Qed.

Lemma check_group {A} f (e : A -> dyn) o :
  Required f && negb (Repeated f) && is_grouped (def_of h f) = true ->
  check_field h f (opt e o) = if is_nil o then Some (ErrRequiredNil (Name (def_of h f))) else None.
Proof.
  unfold check_field. intros [-> Hg]%andb_true_iff. rewrite Hg. unfold is_grouped, is_word in Hg.
  apply bool_decide_eq_true in Hg. rewrite Hg. by destruct o.
Qed.

Lemma Validate_micr m : d_Validate h micr (of_micr m) = MEIdentityCheckRequest.Validate m.
Proof.
  unfold d_Validate, MEIdentityCheckRequest.Validate. cbn [cmd_Fields micr of_micr d_fields zip_with].
  repeat match goal with
  | |- context [check_field h ?f ?vs] =>
      first [ erewrite (check_text f) by (vm_compute; reflexivity)
            | rewrite (check_group f) by by vm_compute
            | change (check_field h f vs) with (@None marshal_error) ]
  end.
  repeat (destruct (len _ =? 0); [reflexivity|]). by destruct (is_nil _).
Qed.

(** ** [Unmarshal] *)

(** Two loops that do the same to a message and to its fields. *)
Lemma scan_map {M N} (e : M -> N) f g d m :
  (forall c w v m, g c w v (e m) = match f c w v m with Ok m => Ok (e m) | Err x => Err x | Panic => Panic end) ->
  scan g d (e m) = (e (scan f d m).1, (scan f d m).2).
Proof.
  intros H. unfold scan. generalize (S (length d)) as k. intros k. revert d m.
  induction k as [|k IH]; intros d m; cbn [scan_fuel]; [done|].
  destruct (negb _); [done|]. destruct (next_avp d) as [[|c w v q]|x|]; [done| |done..]. rewrite H.
  destruct (f c w v m); [|done..]. destruct (_ <? _); [done|]. destruct (Binary.slice_from d q); [apply IH|done..].
Qed.

Lemma scan_from_map {M N} (e : M -> N) f g d i m :
  (forall c w v m, g c w v (e m) = match f c w v m with Ok m => Ok (e m) | Err x => Err x | Panic => Panic end) ->
  scan_from g d i (e m) = (e (scan_from f d i m).1, (scan_from f d i m).2).
Proof. intros H. unfold scan_from. destruct (Binary.slice_from d i); [by apply scan_map|done..]. Qed.

Lemma decode_UTF8String v : decode_as (gostr "UTF8String") v = Ok (VUTF8String v).
Proof. by vm_compute. Qed.
Lemma decode_DiameterIdentity v : decode_as (gostr "DiameterIdentity") v = Ok (VDiameterIdentity v).
Proof. by vm_compute. Qed.
Lemma decode_OctetString v : decode_as (gostr "OctetString") v = Ok (VOctetString v).
Proof. by vm_compute. Qed.
Lemma decode_Unsigned32 v : decode_as (gostr "Unsigned32") v = DecodeUnsigned32 v.
Proof.
  unfold decode_as. change (type_entry (gostr "Unsigned32")).1 with DecodeUnsigned32. rewrite DecodeUnsigned32_eq.
  destruct (negb _); by rewrite bool_decide_true by (vm_compute; reflexivity).
Qed.
Lemma decode_Enumerated v : decode_as (gostr "Enumerated") v = DecodeEnumerated v.
Proof.
  unfold decode_as. change (type_entry (gostr "Enumerated")).1 with DecodeEnumerated. unfold DecodeEnumerated. rewrite DecodeInteger32_eq.
  destruct (negb _); by rewrite bool_decide_true by (vm_compute; reflexivity).
Qed.

(** Computes the tests of a code, which is a constant, or known not to be one. *)
Ltac eval_code c :=
  repeat match goal with
  | |- context [c =? ?k] =>
      first [ rewrite (proj2 (Z.eqb_neq c k)) by assumption
            | let t := eval vm_compute in (c =? k) in
              lazymatch t with true => idtac | false => idtac end; change (c =? k) with t ];
      cbn [andb]; cbv iota
  end.

Ltac eval_switch_ c :=
  cbn [switch switch_from];
  repeat match goal with
  | |- context [has_code micr_heap ?f && (c =? Code (def_of micr_heap ?f))] =>
      let k := eval vm_compute in (Code (def_of micr_heap f)) in
      let b := eval vm_compute in (has_code micr_heap f) in
      change (has_code micr_heap f && (c =? Code (def_of micr_heap f))) with (b && (c =? k))
  end;
  cbn [andb]; eval_code c.

Ltac decode_value v :=
  first
    [ change (decode_as _ v) with (decode_as (gostr "UTF8String") v); rewrite decode_UTF8String
    | change (decode_as _ v) with (decode_as (gostr "DiameterIdentity") v); rewrite decode_DiameterIdentity
    | change (decode_as _ v) with (decode_as (gostr "OctetString") v); rewrite decode_OctetString
    | change (decode_as _ v) with (decode_as (gostr "Unsigned32") v); rewrite decode_Unsigned32, DecodeUnsigned32_eq;
      destruct (negb (len v =? 4))
    | change (decode_as _ v) with (decode_as (gostr "Enumerated") v); rewrite decode_Enumerated;
      unfold DecodeEnumerated; rewrite DecodeInteger32_eq; destruct (negb (len v =? 4)) ].

(** One case, at a constant code [c]. *)
Ltac read_case c w v field :=
  eval_switch_ c; unfold field; eval_code c; unfold read_field; resolve; cbn [andb VendorID];
  repeat match goal with
  | |- context [is_grouped ?d] => let b := eval vm_compute in (is_grouped d) in change (is_grouped d) with b
  end; cbv iota;
  try (destruct (w =? 10415); cbn [negb]; cbv iota; [|reflexivity]);
  try (decode_value v; reflexivity).

Ltac on_code c k w v field :=
  let H := fresh in destruct (Z.eq_dec c k) as [->|H]; [read_case k w v field|].
Ltac no_case c field := eval_switch_ c; unfold field; eval_code c; reflexivity.

(** The fields of a group. *)
Definition fields_of (g : dyn) : list (list dyn) := match g with Struct vs => vs | _ => [] end.

Definition same {M} (e : M -> list (list dyn)) (r : outcome parse_error M) : outcome parse_error (list (list dyn)) :=
  match r with Ok m => Ok (e m) | Err x => Err x | Panic => Panic end.

Lemma switch_terminal U c w v g :
  switch h U (GroupedFields d_terminal) c w v (fields_of (of_terminal g)) =
  same (fun g => fields_of (of_terminal g)) (TerminalInformation.field c w v g).
Proof.
  cbn [GroupedFields d_terminal]. destruct g as [imei meid version].
  on_code c AVPCodeIMEI w v TerminalInformation.field. on_code c AVPCode3GPP2MEID w v TerminalInformation.field.
  on_code c AVPCodeSOFTWAREVERSION w v TerminalInformation.field. no_case c TerminalInformation.field.
Qed.

Lemma switch_vsai U c w v g :
  switch h U (GroupedFields d_vsai) c w v (fields_of (of_vsai g)) =
  same (fun g => fields_of (of_vsai g)) (VendorSpecificApplicationId.field c w v g).
Proof.
  cbn [GroupedFields d_vsai]. destruct g as [vendor auth acct].
  on_code c AVPCodeVENDORID w v VendorSpecificApplicationId.field.
  on_code c AVPCodeAUTHAPPLICATIONID w v VendorSpecificApplicationId.field.
  on_code c AVPCodeACCTAPPLICATIONID w v VendorSpecificApplicationId.field. no_case c VendorSpecificApplicationId.field.
Qed.

Lemma switch_proxy U c w v g :
  switch h U (GroupedFields d_proxy) c w v (fields_of (of_proxy g)) =
  same (fun g => fields_of (of_proxy g)) (ProxyInfo.field c w v g).
Proof.
  cbn [GroupedFields d_proxy]. destruct g as [host state].
  on_code c AVPCodePROXYHOST w v ProxyInfo.field. on_code c AVPCodePROXYSTATE w v ProxyInfo.field.
  no_case c ProxyInfo.field.
Qed.

(** A group's loop. *)
Lemma Unmarshal_group {M} (e : M -> dyn) field d data g :
  GroupedFields d <> [] -> (forall g, e g = Struct (fields_of (e g))) ->
  (forall c w v g, switch h (group_Unmarshal h 0) (GroupedFields d) c w v (fields_of (e g)) =
     same (fun g => fields_of (e g)) (field c w v g)) ->
  group_Unmarshal h 1 d data (e g) = (e (scan field data g).1, (scan field data g).2).
Proof.
  intros Hd He Hs. cbn [group_Unmarshal]. destruct (GroupedFields d) as [|f fs] eqn:E; [done|]. rewrite <- E in *.
  rewrite (He g). rewrite (scan_map (fun g => fields_of (e g)) field) by apply Hs. by rewrite (He (scan field data g).1).
Qed.

Lemma Unmarshal_terminal data g :
  group_Unmarshal h 1 d_terminal data (of_terminal g) =
  (of_terminal (TerminalInformation.Unmarshal data g).1, (TerminalInformation.Unmarshal data g).2).
Proof. apply Unmarshal_group; [done|done|]. intros. apply switch_terminal. Qed.
Lemma Unmarshal_vsai data g :
  group_Unmarshal h 1 d_vsai data (of_vsai g) =
  (of_vsai (VendorSpecificApplicationId.Unmarshal data g).1, (VendorSpecificApplicationId.Unmarshal data g).2).
Proof. apply Unmarshal_group; [done|done|]. intros. apply switch_vsai. Qed.
Lemma Unmarshal_proxy data g :
  group_Unmarshal h 1 d_proxy data (of_proxy g) =
  (of_proxy (ProxyInfo.Unmarshal data g).1, (ProxyInfo.Unmarshal data g).2).
Proof. apply Unmarshal_group; [done|done|]. intros. apply switch_proxy. Qed.

(** A value at the end of a repeated field. *)
Ltac appended := unfold same, assign, assign_group, store, set_field; cbn; rewrite map_app; reflexivity.

(** No case touches the header. *)
Lemma field_header c w v m m' :
  MEIdentityCheckRequest.field c w v m = Ok m' -> MEIdentityCheckRequest.Header m' = MEIdentityCheckRequest.Header m.
Proof.
  unfold MEIdentityCheckRequest.field, assign, assign_group. intros H.
  repeat case_match; simplify_eq; reflexivity.
Qed.

Lemma switch_micr c w v m :
  switch h (group_Unmarshal h 1) (cmd_Fields micr) c w v (d_fields (of_micr m)) =
  same (fun m => d_fields (of_micr m)) (MEIdentityCheckRequest.field c w v m).
Proof.
  cbn [cmd_Fields micr]. destruct m.
  on_code c AVPCodeSESSIONID w v MEIdentityCheckRequest.field.
  on_code c AVPCodeAUTHSESSIONSTATE w v MEIdentityCheckRequest.field.
  on_code c AVPCodeORIGINHOST w v MEIdentityCheckRequest.field.
  on_code c AVPCodeORIGINREALM w v MEIdentityCheckRequest.field.
  on_code c AVPCodeDESTINATIONREALM w v MEIdentityCheckRequest.field.
  on_code c AVPCodeTERMINALINFORMATION w v MEIdentityCheckRequest.field.
  { fold d_terminal. change (zero_group h d_terminal) with (of_terminal TerminalInformation.zero).
    rewrite Unmarshal_terminal. destruct (TerminalInformation.Unmarshal v TerminalInformation.zero) as [g [[]| |]]; reflexivity. }
  on_code c AVPCodeDRMP w v MEIdentityCheckRequest.field.
  on_code c AVPCodeVENDORSPECIFICAPPLICATIONID w v MEIdentityCheckRequest.field.
  { fold d_vsai. change (zero_group h d_vsai) with (of_vsai VendorSpecificApplicationId.zero).
    rewrite Unmarshal_vsai. destruct (VendorSpecificApplicationId.Unmarshal v VendorSpecificApplicationId.zero) as [g [[]| |]]; reflexivity. }
  on_code c AVPCodeDESTINATIONHOST w v MEIdentityCheckRequest.field.
  on_code c AVPCodeUSERNAME w v MEIdentityCheckRequest.field.
  on_code c AVPCodePROXYINFO w v MEIdentityCheckRequest.field.
  { fold d_proxy. change (zero_group h d_proxy) with (of_proxy ProxyInfo.zero).
    rewrite Unmarshal_proxy. destruct (ProxyInfo.Unmarshal v ProxyInfo.zero) as [g [[]| |]]; [appended|reflexivity..]. }
  on_code c AVPCodeROUTERECORD w v MEIdentityCheckRequest.field; [decode_value v; appended|].
  no_case c MEIdentityCheckRequest.field.
Qed.

(** C38: the model of the repository's code is the meaning of what the generator
    prints.  For the definition of the request in [proto/s13.proto], as the
    parser reads it: [New], [Validate], [Marshal] and [Unmarshal] of S13's
    MEIdentityCheckRequest do, on every message and on every input, what the
    code generated for the definition does on the message's fields. *)
Theorem micr_generated :
  Commands micr_parser = [micr] /\ heap micr_parser = micr_heap /\
  of_micr MEIdentityCheckRequest.New = d_New h micr /\
  (forall m, d_Validate h micr (of_micr m) = MEIdentityCheckRequest.Validate m) /\
  (forall m, d_Marshal h 1 micr (of_micr m) =
     (of_micr (MEIdentityCheckRequest.Marshal m).1, (MEIdentityCheckRequest.Marshal m).2)) /\
  (forall data m, d_Unmarshal h 1 micr data (of_micr m) =
     (of_micr (MEIdentityCheckRequest.Unmarshal data m).1, (MEIdentityCheckRequest.Unmarshal data m).2)).
Proof.
  split; [exact micr_command|]. split; [exact micr_heap_eq|]. split; [by vm_compute|].
  split; [exact Validate_micr|]. split.
  - intros m. unfold d_Marshal, MEIdentityCheckRequest.Marshal. rewrite Validate_micr, body_micr.
    destruct (MEIdentityCheckRequest.Validate m); [done|]. cbv zeta. cbn [fst snd].
    pose proof (body_micr (m <| MEIdentityCheckRequest.Header :=
      (MEIdentityCheckRequest.Header m) <| Length := to_u32 (20 + len (MEIdentityCheckRequest.body m)) |> |>)) as E.
    rewrite <- E. reflexivity.
  - intros data m. unfold d_Unmarshal, MEIdentityCheckRequest.Unmarshal.
    destruct (len data <? 20); [done|]. destruct (read_header _) as [hd|e|]; [|done..].
    change ((of_micr m) <| d_Header := hd |>) with (of_micr (m <| MEIdentityCheckRequest.Header := hd |>)).
    rewrite (scan_from_map of_micr MEIdentityCheckRequest.field); [done|]. intros c w v m'. unfold d_switch. rewrite switch_micr.
    destruct (MEIdentityCheckRequest.field c w v m') as [m2|e|] eqn:E; [|done..]. cbn [same]. f_equal.
    unfold of_micr at 2. by rewrite <- (field_header _ _ _ _ _ E).
Qed.
