(* ===== verification/AppConfig.v ===== *)
(** * The configuration of the gateway ([internal/config], [pkg/config/env])

    One Module per Go struct, with its [Validate]: the text of the error it
    returns, if any.  [Load] is given what viper and envconfig return: whether
    a file was read, the decoded struct, and the environment.  Durations are
    nanoseconds; [%d] of an index or of a port is [ClientSetup.dec]. *)

From Stdlib Require Import Floats.SpecFloat.
From S2P Require Import Prelude DataTypes GoText ClientSetup.

(** A check that returns an error, or goes on with [k]. *)
Definition reject_if (bad : bool) (msg : string) (k : option bytes) : option bytes :=
  if bad then Some (gostr msg) else k.

#[local] Notation "'reject' b 'with' msg ;; k" := (reject_if b msg%string k)
  (at level 10, b at level 99, msg at level 0, k at level 200, only parsing).

Lemma reject_None b msg k : reject_if b msg k = None <-> b = false /\ k = None.
Proof. destruct b; cbn; naive_solver. Qed.

(** [fmt.Errorf] with a prefix and [%w]. *)
Definition wrap (prefix : bytes) (e : option bytes) : option bytes := (fun e => prefix ++ e) <$> e.

Lemma wrap_None prefix e : wrap prefix e = None <-> e = None.
Proof. by destruct e. Qed.

(** [a] fails, or else [b] decides. *)
Definition and_then (a b : option bytes) : option bytes := match a with Some e => Some e | None => b end.

Lemma and_then_None a b : and_then a b = None <-> a = None /\ b = None.
Proof. destruct a; naive_solver. Qed.

Definition empty (s : bytes) : bool := len s =? 0.

Lemma empty_false s : empty s = false <-> s <> [].
Proof. unfold empty, len. destruct s; cbn; [naive_solver|]. rewrite Z.eqb_neq. naive_solver lia. Qed.

(** [f <= 0] on [float64]. *)
Definition not_positive (f : spec_float) : bool := SFleb f (S754_zero false).

(** ** The sections *)

Module GatewayConfig.
Record t := {
  OriginHost : bytes;
  OriginRealm : bytes;
  ProductName : bytes;
  VendorID : Z;
  SessionTimeout : Z;
  EnableReqLog : bool;
  EnableRespLog : bool;
  StatsInterval : Z }.

Definition Validate (c : t) : option bytes :=
  reject empty (OriginHost c) with "originHost is required" ;;
  reject empty (OriginRealm c) with "originRealm is required" ;;
  reject empty (ProductName c) with "productName is required" ;;
  reject SessionTimeout c <? 0 with "sessionTimeout must be non-negative" ;;
  reject StatsInterval c <? 0 with "statsInterval must be non-negative" ;;
  None.
End GatewayConfig.

Module ServerConfig.
Record t := {
  ListenAddr : bytes;
  MaxConnections : Z;
  ReadTimeout : Z;
  WriteTimeout : Z;
  WatchdogInterval : Z;
  WatchdogTimeout : Z;
  MaxMessageSize : Z;
  SendChannelSize : Z;
  RecvChannelSize : Z;
  HandleWatchdog : bool }.

Definition Validate (c : t) : option bytes :=
  reject empty (ListenAddr c) with "listenAddr is required" ;;
  reject MaxConnections c <? 1 with "maxConnections must be at least 1" ;;
  reject ReadTimeout c <? 0 with "readTimeout must be non-negative" ;;
  reject WriteTimeout c <? 0 with "writeTimeout must be non-negative" ;;
  reject WatchdogInterval c <? 0 with "watchdogInterval must be non-negative" ;;
  reject WatchdogTimeout c <? 0 with "watchdogTimeout must be non-negative" ;;
  reject MaxMessageSize c <? 1 with "maxMessageSize must be at least 1" ;;
  reject SendChannelSize c <? 1 with "sendChannelSize must be at least 1" ;;
  reject RecvChannelSize c <? 1 with "recvChannelSize must be at least 1" ;;
  None.
End ServerConfig.

Module DRAConfig.
Record t := {
  Name : bytes;
  Host : bytes;
  Port : Z;
  Priority : Z;
  Weight : Z }.

Definition Validate (c : t) : option bytes :=
  reject empty (Name c) with "name is required" ;;
  reject empty (Host c) with "host is required" ;;
  if (Port c <? 1) || (65535 <? Port c)
  then Some (gostr "port must be between 1 and 65535, got " ++ dec (Port c)) else
  reject Priority c <? 1 with "priority must be at least 1" ;;
  reject Weight c <? 1 with "weight must be at least 1" ;;
  None.
End DRAConfig.

Module DRAPoolConfig.
Record t := {
  DRAs : list DRAConfig.t;
  Supported : bool;
  ConnectionsPerDRA : Z;
  ConnectTimeout : Z;
  CERTimeout : Z;
  DWRInterval : Z;
  DWRTimeout : Z;
  MaxDWRFailures : Z;
  HealthCheckInterval : Z;
  ReconnectInterval : Z;
  MaxReconnectDelay : Z;
  ReconnectBackoff : spec_float;
  SendBufferSize : Z;
  RecvBufferSize : Z }.

(** The loop over [c.DRAs], from the index [i]. *)
Fixpoint validate_DRAs (i : Z) (l : list DRAConfig.t) : option bytes :=
  match l with
  | [] => None
  | dra :: l =>
      and_then (wrap (gostr "dra[" ++ dec i ++ gostr "]: ") (DRAConfig.Validate dra)) (validate_DRAs (i + 1) l)
  end.

Definition Validate (c : t) : option bytes :=
  reject Supported c && (len (DRAs c) =? 0)
    with "at least one DRA is required when DRA support is enabled" ;;
  and_then (validate_DRAs 0 (DRAs c)) (
  reject ConnectionsPerDRA c <? 1 with "connectionsPerDRA must be at least 1" ;;
  reject ConnectTimeout c <? 0 with "connectTimeout must be non-negative" ;;
  reject CERTimeout c <? 0 with "cerTimeout must be non-negative" ;;
  reject DWRInterval c <? 0 with "dwrInterval must be non-negative" ;;
  reject DWRTimeout c <? 0 with "dwrTimeout must be non-negative" ;;
  reject MaxDWRFailures c <? 1 with "maxDWRFailures must be at least 1" ;;
  reject HealthCheckInterval c <? 0 with "healthCheckInterval must be non-negative" ;;
  reject ReconnectInterval c <? 0 with "reconnectInterval must be non-negative" ;;
  reject MaxReconnectDelay c <? 0 with "maxReconnectDelay must be non-negative" ;;
  reject not_positive (ReconnectBackoff c) with "reconnectBackoff must be positive" ;;
  reject SendBufferSize c <? 1 with "sendBufferSize must be at least 1" ;;
  reject RecvBufferSize c <? 1 with "recvBufferSize must be at least 1" ;;
  None).
End DRAPoolConfig.

Module ClientConfig.
Record t := {
  DialTimeout : Z;
  SendTimeout : Z;
  CERTimeout : Z;
  DWRInterval : Z;
  DWRTimeout : Z;
  MaxDWRFailures : Z;
  AuthAppIDs : list Z;
  SendBufferSize : Z;
  RecvBufferSize : Z;
  ReconnectEnabled : bool;
  ReconnectInterval : Z;
  MaxReconnectDelay : Z;
  ReconnectBackoff : spec_float;
  HealthCheckInterval : Z }.

Definition Validate (c : t) : option bytes :=
  reject DialTimeout c <? 0 with "dialTimeout must be non-negative" ;;
  reject SendTimeout c <? 0 with "sendTimeout must be non-negative" ;;
  reject CERTimeout c <? 0 with "cerTimeout must be non-negative" ;;
  reject DWRInterval c <? 0 with "dwrInterval must be non-negative" ;;
  reject DWRTimeout c <? 0 with "dwrTimeout must be non-negative" ;;
  reject MaxDWRFailures c <? 1 with "maxDWRFailures must be at least 1" ;;
  reject SendBufferSize c <? 1 with "sendBufferSize must be at least 1" ;;
  reject RecvBufferSize c <? 1 with "recvBufferSize must be at least 1" ;;
  and_then
    (if ReconnectEnabled c then
       reject ReconnectInterval c <? 0 with "reconnectInterval must be non-negative" ;;
       reject MaxReconnectDelay c <? 0 with "maxReconnectDelay must be non-negative" ;;
       reject not_positive (ReconnectBackoff c) with "reconnectBackoff must be positive" ;;
       None
     else None) (
  reject HealthCheckInterval c <? 0 with "healthCheckInterval must be non-negative" ;;
  None).
End ClientConfig.

(** The settings of the centralized logger, which nothing validates, are left
    out. *)
Module LoggingConfig.
Record t := { Level : bytes; Format : bytes }.

Definition Validate (c : t) : option bytes :=
  reject negb (bool_decide (Level c ∈ [gostr "debug"; gostr "info"; gostr "warn"; gostr "error"]))
    with "level must be one of: debug, info, warn, error" ;;
  reject negb (bool_decide (Format c ∈ [gostr "json"; gostr "text"]))
    with "format must be one of: json, text" ;;
  None.
End LoggingConfig.

Module MetricsConfig.
Record t := { Enabled : bool; Port : Z; Path : bytes }.

Definition Validate (c : t) : option bytes :=
  if negb (Enabled c) then None else
  if (Port c <? 1) || (65535 <? Port c)
  then Some (gostr "port must be between 1 and 65535, got " ++ dec (Port c)) else
  reject empty (Path c) with "path is required when metrics is enabled" ;;
  reject negb (bool_decide (head (Path c) = Some Byte.x2f)) with "path must start with /" ;;
  None.
End MetricsConfig.

Module GovernanceConfig.
Record t := {
  Enabled : bool;
  URL : bytes;
  ServiceName : bytes;
  PodName : bytes;
  Subscriptions : list bytes;
  FailOnError : bool;
  ServiceIP : bytes;
  ServicePort : Z;
  GovBackendPort : Z }.

Definition Validate (c : t) : option bytes :=
  if negb (Enabled c) then None else
  reject empty (URL c) with "url is required when governance is enabled" ;;
  reject empty (ServiceName c) with "serviceName is required when governance is enabled" ;;
  None.
End GovernanceConfig.

Record Config := {
  Gateway : GatewayConfig.t;
  Server : ServerConfig.t;
  DRAPool : DRAPoolConfig.t;
  Client : ClientConfig.t;
  Logging : LoggingConfig.t;
  Metrics : MetricsConfig.t;
  Governance : GovernanceConfig.t }.

Definition Validate (c : Config) : option bytes :=
  and_then (wrap (gostr "gateway config: ") (GatewayConfig.Validate (Gateway c)))
  (and_then (wrap (gostr "server config: ") (ServerConfig.Validate (Server c)))
  (and_then (wrap (gostr "draPool config: ") (DRAPoolConfig.Validate (DRAPool c)))
  (and_then (wrap (gostr "client config: ") (ClientConfig.Validate (Client c)))
  (and_then (wrap (gostr "logging config: ") (LoggingConfig.Validate (Logging c)))
  (and_then (wrap (gostr "metrics config: ") (MetricsConfig.Validate (Metrics c)))
            (wrap (gostr "governance config: ") (GovernanceConfig.Validate (Governance c)))))))).

(** ** The environment ([pkg/config/env]) *)

Record EnvConfigs := {
  ConfigAddr : bytes;
  TargetGov : bytes;
  env_GovBackendPort : Z;
  env_Governance : bool;
  GovFail : bool;
  env_ServiceIP : bytes;
  env_ServicePort : Z;
  ConfdExpose : bool;
  ConfdServiceAddr : bytes }.

(** An address of an interface; [IPNet] is the only type that is looked at. *)
Inductive interface_addr : Type :=
| IPNet (ip : bytes)
| OtherAddr.

(** [IP.IsLoopback] and, for an IPv4 address, [IP.String]. *)
Definition IsLoopback (ip : bytes) : bool :=
  match To4 ip with
  | Some ip4 => bool_decide (head ip4 = Some (Zbyte 127))
  | None => bool_decide (ip = replicate 15 Byte.x00 ++ [Byte.x01])
  end.

Definition dotted (ip4 : bytes) : bytes :=
  match ip4 with
  | [a; b; c; d] =>
      dec (byteZ a) ++ gostr "." ++ dec (byteZ b) ++ gostr "." ++ dec (byteZ c) ++ gostr "." ++ dec (byteZ d)
  | _ => []
  end.

(** [addrs] is the result of [net.InterfaceAddrs], [None] an error. *)
Fixpoint first_ipv4 (addrs : list interface_addr) : bytes :=
  match addrs with
  | [] => gostr "0.0.0.0"
  | IPNet ip :: addrs =>
      if IsLoopback ip then first_ipv4 addrs
      else match To4 ip with Some ip4 => dotted ip4 | None => first_ipv4 addrs end
  | OtherAddr :: addrs => first_ipv4 addrs
  end.
Definition GetLocalIP (addrs : option (list interface_addr)) : bytes :=
  match addrs with None => [] | Some addrs => first_ipv4 addrs end.

Definition DefaultValues (addrs : option (list interface_addr)) : EnvConfigs :=
  {| ConfigAddr := []; TargetGov := gostr "127.0.0.1:18000"; env_GovBackendPort := 2345; env_Governance := true;
     GovFail := true; env_ServiceIP := GetLocalIP addrs; env_ServicePort := 3868; ConfdExpose := false;
     ConfdServiceAddr := [] |}.

(** ** [Load] *)

Inductive file_read : Type :=
| FileRead
| FileNotFound
| FileError (e : bytes).

(** The environment overrides the section on governance. *)
Definition override (e : EnvConfigs) (c : Config) : Config :=
  let target := TargetGov e in
  let url :=
    if HasPrefix target (gostr "http://") || HasPrefix target (gostr "https://") then target
    else gostr "http://" ++ target in
  c <| Governance ::= fun g =>
    {| GovernanceConfig.Enabled := env_Governance e;
       GovernanceConfig.URL := if empty target then GovernanceConfig.URL g else url;
       GovernanceConfig.ServiceName := GovernanceConfig.ServiceName g;
       GovernanceConfig.PodName := GovernanceConfig.PodName g;
       GovernanceConfig.Subscriptions := GovernanceConfig.Subscriptions g;
       GovernanceConfig.FailOnError := GovFail e;
       GovernanceConfig.ServiceIP := env_ServiceIP e;
       GovernanceConfig.ServicePort := env_ServicePort e;
       GovernanceConfig.GovBackendPort := env_GovBackendPort e |} |>.

(** [read] and [read_default] are the two calls of [ReadInConfig],
    [unmarshalled] the result of [Unmarshal]; [env_load] is what envconfig
    makes of the defaults, its error being only a warning. *)
Definition Load (read read_default : file_read) (unmarshalled : outcome bytes Config)
    (addrs : option (list interface_addr)) (env_load : EnvConfigs -> EnvConfigs) : outcome bytes Config :=
  let file :=
    match read with
    | FileRead => None
    | FileNotFound =>
        match read_default with
        | FileError e => Some (gostr "failed to read default config file: " ++ e)
        | _ => None
        end
    | FileError e => Some (gostr "failed to read config file: " ++ e)
    end in
  match file with
  | Some e => Err e
  | None =>
      match unmarshalled with
      | Ok config =>
          let config := override (env_load (DefaultValues addrs)) config in
          match Validate config with
          | Some e => Err (gostr "invalid configuration: " ++ e)
          | None => Ok config
          end
      | Err e => Err (gostr "failed to unmarshal config: " ++ e)
      | Panic => Panic
      end
  end.

(** What viper makes of [setDefaults] alone. *)
Definition setDefaults : Config :=
  let s := 1000000000 in
  let one_and_a_half := S754_finite false 6755399441055744 (-52) in
  let dra name port priority :=
    {| DRAConfig.Name := gostr name; DRAConfig.Host := gostr "127.0.0.1"; DRAConfig.Port := port;
       DRAConfig.Priority := priority; DRAConfig.Weight := 100 |} in
  {| Gateway :=
       {| GatewayConfig.OriginHost := gostr "diameter-gw.example.com"; GatewayConfig.OriginRealm := gostr "example.com";
          GatewayConfig.ProductName := gostr "Diameter-Gateway"; GatewayConfig.VendorID := 10415;
          GatewayConfig.SessionTimeout := 30 * s; GatewayConfig.EnableReqLog := false;
          GatewayConfig.EnableRespLog := false; GatewayConfig.StatsInterval := 60 * s |};
     Server :=
       {| ServerConfig.ListenAddr := gostr "0.0.0.0:3868"; ServerConfig.MaxConnections := 1000;
          ServerConfig.ReadTimeout := 30 * s; ServerConfig.WriteTimeout := 10 * s;
          ServerConfig.WatchdogInterval := 30 * s; ServerConfig.WatchdogTimeout := 10 * s;
          ServerConfig.MaxMessageSize := 65535; ServerConfig.SendChannelSize := 100;
          ServerConfig.RecvChannelSize := 1000; ServerConfig.HandleWatchdog := true |};
     DRAPool :=
       {| DRAPoolConfig.DRAs := [dra "DRA-1"%string 3869 1; dra "DRA-2"%string 3870 2];
          DRAPoolConfig.Supported := true; DRAPoolConfig.ConnectionsPerDRA := 1;
          DRAPoolConfig.ConnectTimeout := 10 * s; DRAPoolConfig.CERTimeout := 5 * s;
          DRAPoolConfig.DWRInterval := 30 * s; DRAPoolConfig.DWRTimeout := 10 * s;
          DRAPoolConfig.MaxDWRFailures := 3; DRAPoolConfig.HealthCheckInterval := 10 * s;
          DRAPoolConfig.ReconnectInterval := 5 * s; DRAPoolConfig.MaxReconnectDelay := 30 * s;
          DRAPoolConfig.ReconnectBackoff := one_and_a_half;
          DRAPoolConfig.SendBufferSize := 100; DRAPoolConfig.RecvBufferSize := 100 |};
     Client :=
       {| ClientConfig.DialTimeout := 5 * s; ClientConfig.SendTimeout := 10 * s; ClientConfig.CERTimeout := 5 * s;
          ClientConfig.DWRInterval := 30 * s; ClientConfig.DWRTimeout := 10 * s; ClientConfig.MaxDWRFailures := 3;
          ClientConfig.AuthAppIDs := [16777251; 16777252];
          ClientConfig.SendBufferSize := 1000; ClientConfig.RecvBufferSize := 1000;
          ClientConfig.ReconnectEnabled := false; ClientConfig.ReconnectInterval := 2 * s;
          ClientConfig.MaxReconnectDelay := 30 * s; ClientConfig.ReconnectBackoff := one_and_a_half;
          ClientConfig.HealthCheckInterval := 10 * s |};
     Logging := {| LoggingConfig.Level := gostr "info"; LoggingConfig.Format := gostr "json" |};
     Metrics := {| MetricsConfig.Enabled := true; MetricsConfig.Port := 9091; MetricsConfig.Path := gostr "/metrics" |};
     Governance :=
       {| GovernanceConfig.Enabled := false; GovernanceConfig.URL := []; GovernanceConfig.ServiceName := gostr "diam-gw";
          GovernanceConfig.PodName := []; GovernanceConfig.Subscriptions := [gostr "eir-diameter"];
          GovernanceConfig.FailOnError := false; GovernanceConfig.ServiceIP := [];
          GovernanceConfig.ServicePort := 0; GovernanceConfig.GovBackendPort := 0 |} |}.

(** ** What a validated configuration guarantees *)

Ltac checks H :=
  repeat (rewrite ?and_then_None, ?reject_None, ?wrap_None in H; cbv beta in H).

Record agent_ok (d : DRAConfig.t) : Prop := {
  ao_name : DRAConfig.Name d <> [];
  ao_host : DRAConfig.Host d <> [];
  ao_port : 1 <= DRAConfig.Port d <= 65535;
  ao_priority : 1 <= DRAConfig.Priority d;
  ao_weight : 1 <= DRAConfig.Weight d }.

Lemma agent_Validate d : DRAConfig.Validate d = None <-> agent_ok d.
Proof.
  unfold DRAConfig.Validate. rewrite !reject_None, !empty_false. split.
  - intros (H1 & H2 & H3). destruct (_ || _) eqn:E; [done|]. rewrite !reject_None in H3. b2p. by split; try lia.
  - intros [H1 H2 H3 H4 H5]. split; [done|]. split; [done|].
    destruct (_ || _) eqn:E; [b2p; lia|]. rewrite !reject_None. b2p. by split_and!.
Qed.

Lemma validate_DRAs_ok i l : DRAPoolConfig.validate_DRAs i l = None <-> Forall agent_ok l.
Proof.
  revert i. induction l as [|d l IH]; intros i; cbn [DRAPoolConfig.validate_DRAs]; [done|].
  by rewrite and_then_None, wrap_None, agent_Validate, IH, Forall_cons.
Qed.

(** What the rest of the program relies on. *)
Record validated (c : Config) : Prop := {
  va_host : GatewayConfig.OriginHost (Gateway c) <> [];
  va_realm : GatewayConfig.OriginRealm (Gateway c) <> [];
  va_product : GatewayConfig.ProductName (Gateway c) <> [];
  va_session : 0 <= GatewayConfig.SessionTimeout (Gateway c);
  va_stats : 0 <= GatewayConfig.StatsInterval (Gateway c);
  va_listen : ServerConfig.ListenAddr (Server c) <> [];
  va_conns : 1 <= ServerConfig.MaxConnections (Server c);
  va_some : DRAPoolConfig.Supported (DRAPool c) = true -> DRAPoolConfig.DRAs (DRAPool c) <> [];
  va_agents : Forall agent_ok (DRAPoolConfig.DRAs (DRAPool c));
  va_per : 1 <= DRAPoolConfig.ConnectionsPerDRA (DRAPool c);
  va_max : 1 <= DRAPoolConfig.MaxDWRFailures (DRAPool c);
  va_health : 0 <= DRAPoolConfig.HealthCheckInterval (DRAPool c);
  va_cmax : 1 <= ClientConfig.MaxDWRFailures (Client c) }.

Lemma Validate_validated c : Validate c = None -> validated c.
Proof.
  unfold Validate. rewrite !and_then_None, !wrap_None. intros (H1 & H2 & H3 & H4 & _).
  unfold GatewayConfig.Validate in H1. unfold ServerConfig.Validate in H2.
  unfold DRAPoolConfig.Validate in H3. unfold ClientConfig.Validate in H4. checks H1; checks H2; checks H3; checks H4.
  rewrite validate_DRAs_ok in H3. rewrite !empty_false in *. destruct_and!. b2p.
  split; try done; try lia. intros Hs Hl.
  match goal with H : _ \/ _ |- _ => destruct H as [H|H]; [congruence|apply H; by rewrite Hl] end.
Qed.
