(* ===== verification/GatewayMain.v ===== *)
(** * The gateway command ([cmd/gateway/main.go])

    [main] turns the loaded configuration into those of the gateway's parts,
    makes the gateway and starts it.  An [Err] here is [log.Fatalw], a [Panic]
    is a goroutine that panics, which ends the process as well: no part of it
    recovers.  [time.NewTicker] panics for a period that is not positive.
    Signals, logs, the statistics server and the heartbeat are left out. *)

From Stdlib Require Import Floats.SpecFloat.
From S2P Require Import Prelude DataTypes GoNet GoText ConnPool DraPool ClientConn ClientPool ClientSetup Gateway AppConfig.
From S2P Require Server AddrPool.

(** ** The configurations of the parts *)

(** Of a server's configuration, the fields that Server knows. *)
Definition in_server_config (cfg : Config) : Server.ServerConfig :=
  {| Server.ListenAddress := ServerConfig.ListenAddr (AppConfig.Server cfg);
     Server.MaxConnections := ServerConfig.MaxConnections (AppConfig.Server cfg);
     Server.srv_ConnectionConfig :=
       {| Server.OriginHost := GatewayConfig.OriginHost (AppConfig.Gateway cfg);
          Server.OriginRealm := GatewayConfig.OriginRealm (AppConfig.Gateway cfg);
          Server.ProductName := GatewayConfig.ProductName (AppConfig.Gateway cfg) |} |}.

Definition dra_server_config (d : DRAConfig.t) : DRAServerConfig :=
  {| Name := DRAConfig.Name d; DraPool.Host := DRAConfig.Host d; DraPool.Port := DRAConfig.Port d;
     Priority := DRAConfig.Priority d; Weight := DRAConfig.Weight d |}.

Definition dra_pool_config (cfg : Config) : DRAPoolConfig :=
  let g := AppConfig.Gateway cfg in
  let d := AppConfig.DRAPool cfg in
  {| pool_Name := []; DRAs := map dra_server_config (DRAPoolConfig.DRAs d);
     pool_LocalAddr := []; pool_LocalPortMin := 0; pool_LocalPortMax := 0;
     pool_OriginHost := GatewayConfig.OriginHost g; pool_OriginRealm := GatewayConfig.OriginRealm g;
     pool_ProductName := GatewayConfig.ProductName g; pool_VendorID := GatewayConfig.VendorID g;
     pool_AuthAppIDs := []; pool_AcctAppIDs := [];
     DraPool.ConnectionsPerDRA := DRAPoolConfig.ConnectionsPerDRA d;
     pool_ConnectTimeout := DRAPoolConfig.ConnectTimeout d; pool_CERTimeout := DRAPoolConfig.CERTimeout d;
     pool_DWRInterval := DRAPoolConfig.DWRInterval d; pool_DWRTimeout := DRAPoolConfig.DWRTimeout d;
     pool_MaxDWRFailures := DRAPoolConfig.MaxDWRFailures d;
     DraPool.HealthCheckInterval := DRAPoolConfig.HealthCheckInterval d;
     pool_ReconnectInterval := DRAPoolConfig.ReconnectInterval d;
     pool_MaxReconnectDelay := DRAPoolConfig.MaxReconnectDelay d;
     pool_ReconnectBackoff := DRAPoolConfig.ReconnectBackoff d;
     pool_SendBufferSize := DRAPoolConfig.SendBufferSize d; pool_RecvBufferSize := DRAPoolConfig.RecvBufferSize d |}.

Definition in_client_config (cfg : Config) : AddrPool.PoolConfig :=
  let g := AppConfig.Gateway cfg in
  let c := AppConfig.Client cfg in
  {| AddrPool.OriginHost := GatewayConfig.OriginHost g; AddrPool.OriginRealm := GatewayConfig.OriginRealm g;
     AddrPool.ProductName := GatewayConfig.ProductName g; AddrPool.VendorID := GatewayConfig.VendorID g;
     AddrPool.DialTimeout := ClientConfig.DialTimeout c; AddrPool.SendTimeout := ClientConfig.SendTimeout c;
     AddrPool.CERTimeout := ClientConfig.CERTimeout c; AddrPool.pc_DWRInterval := ClientConfig.DWRInterval c;
     AddrPool.pc_DWRTimeout := ClientConfig.DWRTimeout c;
     AddrPool.pc_MaxDWRFailures := ClientConfig.MaxDWRFailures c;
     AddrPool.ReconnectEnabled := ClientConfig.ReconnectEnabled c;
     AddrPool.pc_ReconnectInterval := ClientConfig.ReconnectInterval c;
     AddrPool.pc_MaxReconnectDelay := ClientConfig.MaxReconnectDelay c;
     AddrPool.pc_ReconnectBackoff := ClientConfig.ReconnectBackoff c;
     AddrPool.pc_SendBufferSize := ClientConfig.SendBufferSize c;
     AddrPool.pc_RecvBufferSize := ClientConfig.RecvBufferSize c;
     AddrPool.pc_AuthAppIDs := ClientConfig.AuthAppIDs c; AddrPool.pc_AcctAppIDs := [];
     AddrPool.IdleTimeout := 0; AddrPool.MaxConnLifetime := 0;
     AddrPool.HealthCheckInterval := ClientConfig.HealthCheckInterval c |}.

Definition createGatewayConfig (cfg : Config) : Proxy.GatewayConfig :=
  let g := AppConfig.Gateway cfg in
  {| Proxy.InServerConfig := Some (in_server_config cfg); Proxy.InClientConfig := Some (in_client_config cfg);
     Proxy.OutServerConfig := None; Proxy.OutServerSupported := false;
     Proxy.DRASupported := DRAPoolConfig.Supported (AppConfig.DRAPool cfg);
     Proxy.gw_DRAPoolConfig := Some (dra_pool_config cfg);
     Proxy.OriginHost := GatewayConfig.OriginHost g; Proxy.OriginRealm := GatewayConfig.OriginRealm g;
     Proxy.ProductName := GatewayConfig.ProductName g; Proxy.VendorID := GatewayConfig.VendorID g;
     Proxy.SessionTimeout := GatewayConfig.SessionTimeout g;
     Proxy.EnableRequestLogging := GatewayConfig.EnableReqLog g;
     Proxy.EnableResponseLogging := GatewayConfig.EnableRespLog g |}.

(** ** Registration *)

Record ServiceRegistration := {
  reg_ServiceName : bytes;
  reg_PodName : bytes;
  reg_IP : bytes;
  reg_Port : Z;
  HealthCheckURL : bytes;
  NotificationURL : bytes;
  reg_Subscriptions : list bytes }.

Definition first_nonempty (l : list bytes) : bytes := default [] (list_find (fun s => s <> []) l ≫= fun x => Some x.2).

(** What [registerWithGovernance] sends: [pod_env] is the variable POD_NAME,
    [hostname] the name of the host, [eir] the models' name of the service. *)
Definition registration (pod_env hostname eir : bytes) (cfg : Config) : ServiceRegistration :=
  let g := AppConfig.Governance cfg in
  let gov_port :=
    if GovernanceConfig.GovBackendPort g =? 0 then 2345 else GovernanceConfig.GovBackendPort g in
  let ip := GovernanceConfig.ServiceIP g in
  let ip := if empty ip || bool_decide (ip = gostr "0.0.0.0") then hostname else ip in
  let port :=
    if GovernanceConfig.ServicePort g =? 0 then
      let port :=
        match Split Byte.x3a (ServerConfig.ListenAddr (AppConfig.Server cfg)) with
        | _ :: p :: _ => default 0 (scan_int p)
        | _ => 0
        end in
      if port =? 0 then 3868 else port
    else GovernanceConfig.ServicePort g in
  let url path := gostr "http://" ++ ip ++ gostr ":" ++ dec gov_port ++ gostr path in
  {| reg_ServiceName := GovernanceConfig.ServiceName g;
     reg_PodName := first_nonempty [GovernanceConfig.PodName g; pod_env; hostname];
     reg_IP := ip; reg_Port := port; HealthCheckURL := url "/health"%string;
     NotificationURL := url "/notify"%string; reg_Subscriptions := [eir] |}.

(** ** [main] *)

Section Main.
Context {P : Type}.
Variable ps : P. (* no connection of the gateway draws source ports *)

(** [sort] is [sort.Slice] on the agents; [registers] tells whether the
    governance manager takes a registration. *)
Variable sort : list DRAServerConfig -> list DRAServerConfig.
Variables pod_env hostname eir : bytes.
Variable registers : ServiceRegistration -> bool.

Definition new_dra_pool (d : DRAPoolConfig) : outcome dra_pool_error (DraPool.DRAPool managed) :=
  make_dra_pool (sort (DRAs d)) d ps.

(** [Gateway.Start]: the tickers of the health monitor of the agents and of
    [sessionCleanup]. *)
Definition Start (gw : Proxy.Gateway (C := managed (P := P))) : outcome bytes unit :=
  let c := Proxy.config gw in
  if Proxy.DRASupported c &&
     (match Proxy.gw_DRAPoolConfig c with Some d => DraPool.HealthCheckInterval d | None => 0 end <=? 0) then Panic
  else if Z.quot (Proxy.SessionTimeout c) 2 <=? 0 then Panic
  else Ok tt.

(** [registerWithGovernance]. *)
Definition registerWithGovernance (cfg : Config) : outcome bytes unit :=
  if registers (registration pod_env hostname eir cfg) then Ok tt
  else if GovernanceConfig.FailOnError (AppConfig.Governance cfg) then Panic
  else Ok tt.

(** [main] after [Load], up to the wait for a signal; [RegisterDraPoolServer]
    dereferences the agent pool. *)
Definition boot (cfg : Config) : outcome bytes (Proxy.Gateway (C := managed (P := P))) :=
  match Proxy.NewGateway new_dra_pool (Some (createGatewayConfig cfg)) with
  | Err _ => Err (gostr "Failed to create gateway")
  | Panic => Panic
  | Ok gw =>
      match Start gw with
      | Err _ => Err (gostr "Failed to start gateway")
      | Panic => Panic
      | Ok _ =>
          if GatewayConfig.StatsInterval (AppConfig.Gateway cfg) <=? 0 then Panic
          else
            match (if GovernanceConfig.Enabled (AppConfig.Governance cfg) then registerWithGovernance cfg else Ok tt) with
            | Err e => Err e
            | Panic => Panic
            | Ok _ => match Proxy.draPool gw with None => Panic | Some _ => Ok gw end
            end
      end
  end.

Definition main (loaded : outcome bytes Config) : outcome bytes (Proxy.Gateway (C := managed (P := P))) :=
  match loaded with
  | Ok cfg => boot cfg
  | Err e => Err (gostr "Failed to load configuration: " ++ e)
  | Panic => Panic
  end.

(** *** The agent pool *)

Lemma create_pools_all {C} (create : DRAServerConfig -> option (ConnectionPool C)) (l : list DRAServerConfig) m :
  create_pools create l m <> Panic /\
  ((exists m', create_pools create l m = Ok m') <-> Forall (fun dra => is_Some (create dra)) l).
Proof.
  revert m. induction l as [|dra l IH]; intros m; cbn [create_pools].
  - split; [done|]. split; [by constructor|eauto].
  - rewrite Forall_cons. destruct (create dra) as [p|] eqn:Ec.
    + destruct (IH (<[Name dra:=p]> m)) as [H1 H2]. split; [done|]. rewrite H2. split; [|by intros [_ ?]].
      intros Hl. split; [by eexists|done].
    + split; [done|]. split; [by intros [? ?]|]. by intros [[? ?] _].
Qed.

Lemma validate_DRAs_complete names l :
  NoDup (map Name l) -> (forall dra, dra ∈ l -> (Name dra ∉ names) /\ 0 < Priority dra) ->
  validate_DRAs names l = None.
Proof.
  revert names. induction l as [|dra l IH]; intros names Hn Hl; cbn [validate_DRAs]; [done|].
  cbn [map] in Hn. apply NoDup_cons in Hn as [Hd Hn].
  destruct (Hl dra) as [H1 H2]; [set_solver|]. rewrite decide_False by done.
  destruct (Z.leb_spec (Priority dra) 0); [lia|]. apply IH; [done|]. intros x Hx. destruct (Hl x) as [H3 H4]; [set_solver|].
  split; [|done]. intros [He%elem_of_singleton|?]%elem_of_union; [|done]. apply Hd.
  apply list_elem_of_fmap. by exists x.
Qed.

(** *** When it runs *)

Hypothesis sort_sorts : forall l, sorts l (sort l).

(** What [Config.Validate] does not ask for. *)
Record bootable (cfg : Config) : Prop := {
  bo_supported : DRAPoolConfig.Supported (AppConfig.DRAPool cfg) = true;
  bo_names : NoDup (map DRAConfig.Name (DRAPoolConfig.DRAs (AppConfig.DRAPool cfg)));
  bo_dwr : 0 < DRAPoolConfig.DWRTimeout (AppConfig.DRAPool cfg) < DRAPoolConfig.DWRInterval (AppConfig.DRAPool cfg);
  bo_health : 0 < DRAPoolConfig.HealthCheckInterval (AppConfig.DRAPool cfg);
  bo_dial : 0 < ClientConfig.DialTimeout (AppConfig.Client cfg);
  bo_client_dwr :
    0 < ClientConfig.DWRTimeout (AppConfig.Client cfg) < ClientConfig.DWRInterval (AppConfig.Client cfg);
  bo_backoff : SFltb (ClientConfig.ReconnectBackoff (AppConfig.Client cfg)) (float64 1) = false;
  bo_session : GatewayConfig.SessionTimeout (AppConfig.Gateway cfg) <> 1;
  bo_stats : 0 < GatewayConfig.StatsInterval (AppConfig.Gateway cfg);
  bo_registered :
    GovernanceConfig.Enabled (AppConfig.Governance cfg) = true ->
    GovernanceConfig.FailOnError (AppConfig.Governance cfg) = true ->
    registers (registration pod_env hostname eir cfg) = true }.

Lemma empty_len (s : bytes) : s <> [] -> (len s =? 0) = false.
Proof. apply empty_false. Qed.

(** The pool of the inbound client. *)
Lemma in_client_accepted cfg :
  validated cfg ->
  AddrPool.Validate (in_client_config cfg) = None <->
  0 < ClientConfig.DialTimeout (AppConfig.Client cfg) /\
  0 < ClientConfig.DWRTimeout (AppConfig.Client cfg) < ClientConfig.DWRInterval (AppConfig.Client cfg) /\
  SFltb (ClientConfig.ReconnectBackoff (AppConfig.Client cfg)) (float64 1) = false.
Proof.
  intros V. unfold AddrPool.Validate. cbn [in_client_config AddrPool.OriginHost AddrPool.OriginRealm
    AddrPool.ProductName AddrPool.DialTimeout AddrPool.pc_DWRInterval AddrPool.pc_DWRTimeout
    AddrPool.pc_MaxDWRFailures AddrPool.pc_ReconnectBackoff].
  rewrite (empty_len _ (va_host _ V)), (empty_len _ (va_realm _ V)), (empty_len _ (va_product _ V)).
  pose proof (va_cmax _ V). repeat case_match; b2p; split; try done; try lia; intros; destruct_and?; try lia; done.
Qed.

(** The configuration of an agent's connections. *)
Lemma agent_accepted cfg d :
  validated cfg -> d ∈ DRAPoolConfig.DRAs (AppConfig.DRAPool cfg) ->
  ClientConn.Validate (pool_config (dra_pool_config cfg) (dra_server_config d)) = None <->
  0 < DRAPoolConfig.DWRTimeout (AppConfig.DRAPool cfg) < DRAPoolConfig.DWRInterval (AppConfig.DRAPool cfg).
Proof.
  intros V Hd. pose proof (va_agents _ V) as Ha. rewrite Forall_forall in Ha. specialize (Ha d Hd) as [_ Hh Hp _ _].
  pose proof (va_max _ V). pose proof (va_per _ V).
  unfold ClientConn.Validate. cbn [pool_config dra_pool_config dra_server_config ClientConn.Host ClientConn.Port cfg_OriginHost
    cfg_OriginRealm cfg_ProductName ConnectionCount DWRInterval DWRTimeout MaxDWRFailures LocalAddr LocalPortMin
    LocalPortMax DraPool.Host DraPool.Port pool_OriginHost pool_OriginRealm pool_ProductName
    DraPool.ConnectionsPerDRA pool_DWRInterval pool_DWRTimeout pool_MaxDWRFailures pool_LocalAddr
    pool_LocalPortMin pool_LocalPortMax].
  rewrite (empty_len _ Hh), (empty_len _ (va_host _ V)), (empty_len _ (va_realm _ V)), (empty_len _ (va_product _ V)).
  repeat case_match; b2p; split; try done; try lia; intros; destruct_and?; destruct_or?; try lia; done.
Qed.

(** The connection pools of all agents can be made. *)
Definition pools_made (cfg : Config) : Prop :=
  Forall (fun dra => is_Some (make_pool (pool_config (dra_pool_config cfg) dra) ps)) (sort (DRAs (dra_pool_config cfg))).

Lemma pools_made_iff cfg :
  validated cfg -> DRAPoolConfig.DRAs (AppConfig.DRAPool cfg) <> [] ->
  pools_made cfg <->
  0 < DRAPoolConfig.DWRTimeout (AppConfig.DRAPool cfg) < DRAPoolConfig.DWRInterval (AppConfig.DRAPool cfg).
Proof.
  intros V Hne. unfold pools_made. destruct (sort_sorts (DRAs (dra_pool_config cfg))) as [Hperm _].
  rewrite Hperm. cbn [DRAs dra_pool_config]. rewrite Forall_map, Forall_forall. split.
  - intros Hf. destruct (DRAPoolConfig.DRAs (AppConfig.DRAPool cfg)) as [|d l] eqn:Ea; [done|].
    destruct (Hf d) as [p Hp]; [set_solver|].
    apply (agent_accepted cfg d V); [rewrite Ea; set_solver|].
    cbn in Hp. unfold make_pool in Hp. by destruct (ClientConn.Validate _).
  - intros Hd d Hin. cbn. unfold make_pool. apply (agent_accepted cfg d V) in Hd; [|done]. by rewrite Hd.
Qed.

Lemma pool_config_accepted cfg :
  validated cfg -> DRAPoolConfig.DRAs (AppConfig.DRAPool cfg) <> [] ->
  validateDRAPoolConfig (dra_pool_config cfg) = None <->
  NoDup (map DRAConfig.Name (DRAPoolConfig.DRAs (AppConfig.DRAPool cfg))).
Proof.
  intros V Hne. unfold validateDRAPoolConfig.
  cbn [pool_OriginHost pool_OriginRealm DraPool.ConnectionsPerDRA DRAs dra_pool_config].
  rewrite (empty_len _ (va_host _ V)), (empty_len _ (va_realm _ V)). pose proof (va_per _ V).
  destruct (Z.leb_spec (DRAPoolConfig.ConnectionsPerDRA (AppConfig.DRAPool cfg)) 0); [lia|].
  destruct (len _ =? 0) eqn:El.
  { exfalso. apply Z.eqb_eq in El. unfold len in El. rewrite length_map in El.
    destruct (DRAPoolConfig.DRAs (AppConfig.DRAPool cfg)); [done|]. cbn in El. lia. }
  assert (map Name (map dra_server_config (DRAPoolConfig.DRAs (AppConfig.DRAPool cfg))) =
          map DRAConfig.Name (DRAPoolConfig.DRAs (AppConfig.DRAPool cfg))) as <- by (by rewrite map_map).
  split; [by intros [? _]%validate_DRAs_spec|]. intros Hnd. apply validate_DRAs_complete; [done|].
  intros x (a & -> & Ha)%list_elem_of_fmap. split; [set_solver|].
  pose proof (va_agents _ V) as Hag. rewrite Forall_forall in Hag. destruct (Hag a Ha). cbn. lia.
Qed.

Lemma dra_pool_made cfg :
  validated cfg -> DRAPoolConfig.Supported (AppConfig.DRAPool cfg) = true ->
  (exists p, new_dra_pool (dra_pool_config cfg) = Ok p) <->
  NoDup (map DRAConfig.Name (DRAPoolConfig.DRAs (AppConfig.DRAPool cfg))) /\
  0 < DRAPoolConfig.DWRTimeout (AppConfig.DRAPool cfg) < DRAPoolConfig.DWRInterval (AppConfig.DRAPool cfg).
Proof.
  intros V Hs. pose proof (va_some _ V Hs) as Hne.
  rewrite <- (pool_config_accepted cfg V Hne), <- (pools_made_iff cfg V Hne).
  unfold new_dra_pool, make_dra_pool, NewDRAPool.
  destruct (create_pools_all (fun dra => make_pool (pool_config (dra_pool_config cfg) dra) ps)
    (sort (DRAs (dra_pool_config cfg))) ∅) as [Hnp Hall]. fold (pools_made cfg) in Hall. rewrite <- Hall.
  destruct (validateDRAPoolConfig (dra_pool_config cfg)); [by split; [intros [? ?]|intros [? _]]|].
  destruct (create_pools _ _ _); naive_solver.
Qed.

(** *** The gateway that is made *)

Definition made (cfg : Config) (pool : AddrPool.Pool) (dra : option (DraPool.DRAPool managed))
  : Proxy.Gateway (C := managed (P := P)) :=
  let c := createGatewayConfig cfg in
  let c := if Proxy.SessionTimeout c <=? 0 then c <| Proxy.SessionTimeout := 30 * 1000000000 |> else c in
  {| Proxy.config := c; Proxy.inServer := in_server_config cfg; Proxy.inClient := pool; Proxy.outServer := None;
     Proxy.draPool := dra; Proxy.sessions := Sessions.empty_table |}.

Lemma NewGateway_made cfg :
  validated cfg ->
  Proxy.NewGateway new_dra_pool (Some (createGatewayConfig cfg)) =
    match AddrPool.NewAddressConnectionPool (Some (in_client_config cfg)) with
    | None => Panic
    | Some pool =>
        if DRAPoolConfig.Supported (AppConfig.DRAPool cfg) then
          match new_dra_pool (dra_pool_config cfg) with Ok p => Ok (made cfg pool (Some p)) | _ => Panic end
        else Ok (made cfg pool None)
    end.
Proof.
  intros V. unfold Proxy.NewGateway, Proxy.ValidateGatewayConfig.
  cbn [createGatewayConfig Proxy.OriginHost Proxy.OriginRealm Proxy.gw_DRAPoolConfig].
  rewrite (empty_len _ (va_host _ V)), (empty_len _ (va_realm _ V)). unfold made. cbv zeta.
  change (Proxy.SessionTimeout (createGatewayConfig cfg)) with (GatewayConfig.SessionTimeout (AppConfig.Gateway cfg)).
  by destruct (GatewayConfig.SessionTimeout (AppConfig.Gateway cfg) <=? 0).
Qed.

Lemma Start_made cfg pool dra :
  validated cfg ->
  Start (made cfg pool dra) =
    if DRAPoolConfig.Supported (AppConfig.DRAPool cfg) && (DRAPoolConfig.HealthCheckInterval (AppConfig.DRAPool cfg) <=? 0)
    then Panic
    else if GatewayConfig.SessionTimeout (AppConfig.Gateway cfg) =? 1 then Panic else Ok tt.
Proof.
  intros V. pose proof (va_session _ V) as Ht. unfold Start, made. cbv zeta. cbn [Proxy.config].
  change (Proxy.SessionTimeout (createGatewayConfig cfg)) with (GatewayConfig.SessionTimeout (AppConfig.Gateway cfg)).
  destruct (Z.leb_spec (GatewayConfig.SessionTimeout (AppConfig.Gateway cfg)) 0) as [H0|H0]; rsimpl;
    cbn [createGatewayConfig Proxy.DRASupported Proxy.gw_DRAPoolConfig Proxy.SessionTimeout dra_pool_config
         DraPool.HealthCheckInterval];
    destruct (_ && _); try done.
  - by replace (GatewayConfig.SessionTimeout (AppConfig.Gateway cfg)) with 0 by lia.
  - destruct (Z.eqb_spec (GatewayConfig.SessionTimeout (AppConfig.Gateway cfg)) 1) as [->|H1]; [done|].
    rewrite Z.quot_div_nonneg by lia.
    assert (1 <= GatewayConfig.SessionTimeout (AppConfig.Gateway cfg) / 2) by (apply Z.div_le_lower_bound; lia).
    by rewrite (proj2 (Z.leb_gt _ _)) by lia.
Qed.

Lemma in_client_made cfg :
  validated cfg ->
  (exists pool, AddrPool.NewAddressConnectionPool (Some (in_client_config cfg)) = Some pool) <->
  0 < ClientConfig.DialTimeout (AppConfig.Client cfg) /\
  0 < ClientConfig.DWRTimeout (AppConfig.Client cfg) < ClientConfig.DWRInterval (AppConfig.Client cfg) /\
  SFltb (ClientConfig.ReconnectBackoff (AppConfig.Client cfg)) (float64 1) = false.
Proof.
  intros V. rewrite <- in_client_accepted by done. unfold AddrPool.NewAddressConnectionPool.
  destruct (AddrPool.Validate _); split; try done; [by intros [? ?]|eauto].
Qed.

(** [boot] by its checks. *)
Lemma boot_cases cfg :
  validated cfg ->
  boot cfg = Panic \/
  exists pool dra,
    boot cfg = Ok (made cfg pool (Some dra)) /\
    AddrPool.NewAddressConnectionPool (Some (in_client_config cfg)) = Some pool /\
    DRAPoolConfig.Supported (AppConfig.DRAPool cfg) = true /\
    new_dra_pool (dra_pool_config cfg) = Ok dra /\
    0 < DRAPoolConfig.HealthCheckInterval (AppConfig.DRAPool cfg) /\
    GatewayConfig.SessionTimeout (AppConfig.Gateway cfg) <> 1 /\
    0 < GatewayConfig.StatsInterval (AppConfig.Gateway cfg) /\
    (GovernanceConfig.Enabled (AppConfig.Governance cfg) = true ->
     GovernanceConfig.FailOnError (AppConfig.Governance cfg) = true ->
     registers (registration pod_env hostname eir cfg) = true).
Proof.
  intros V. unfold boot. rewrite NewGateway_made by done.
  destruct (AddrPool.NewAddressConnectionPool _) as [pool|]; [|by left].
  destruct (DRAPoolConfig.Supported _) eqn:Es; [destruct (new_dra_pool _) as [p| |] eqn:Ep; [|by left..]|];
    rewrite Start_made, Es by done; cbn [andb].
  - destruct (_ <=? 0) eqn:E1; [by left|]. destruct (_ =? 1) eqn:E2; [by left|].
    destruct (GatewayConfig.StatsInterval _ <=? 0) eqn:E3; [by left|]. b2p.
    unfold registerWithGovernance.
    destruct (GovernanceConfig.Enabled (AppConfig.Governance cfg)), (registers (registration pod_env hostname eir cfg)), (GovernanceConfig.FailOnError (AppConfig.Governance cfg));
      try (by left); right; exists pool, p; by split_and!.
  - left. destruct (_ =? 1); [done|]. destruct (_ <=? 0); [done|]. unfold registerWithGovernance.
    by destruct (GovernanceConfig.Enabled (AppConfig.Governance cfg)), (registers (registration pod_env hostname eir cfg)), (GovernanceConfig.FailOnError (AppConfig.Governance cfg)).
Qed.

(** C33: which of the configurations that [Validate] accepts give a gateway.
    Exactly those that satisfy [bootable]; from any other the process panics,
    and none makes [main] end with an error. *)
Theorem gateway_boots cfg :
  Validate cfg = None ->
  ((exists gw, boot cfg = Ok gw) <-> bootable cfg) /\ (boot cfg = Panic <-> ~ bootable cfg) /\
  forall e, boot cfg <> Err e.
Proof.
  intros V%Validate_validated.
  assert (bootable cfg -> boot cfg <> Panic) as Hb.
  { intros [B1 B2 B3 B4 B5 B6 B7 B8 B9 B10]. unfold boot. rewrite NewGateway_made by done.
    destruct (proj2 (in_client_made cfg V)) as [pool ->]; [done|].
    destruct (proj2 (dra_pool_made cfg V B1)) as [p Hp]; [done|]. rewrite B1, Hp, Start_made, B1 by done.
    rewrite (proj2 (Z.leb_gt _ _) B4), (proj2 (Z.eqb_neq _ _) B8), (proj2 (Z.leb_gt _ _) B9). cbn [andb].
    unfold registerWithGovernance.
    destruct (GovernanceConfig.Enabled (AppConfig.Governance cfg)), (registers (registration pod_env hostname eir cfg)), (GovernanceConfig.FailOnError (AppConfig.Governance cfg)); try done.
    by specialize (B10 eq_refl eq_refl). }
  assert (boot cfg <> Panic -> exists gw, boot cfg = Ok gw /\ bootable cfg) as Hok.
  { intros Hn. destruct (boot_cases cfg V) as [?|(pool & dra & E1 & Hpool & Hs & Hdra & H1 & H2 & H3 & H4)]; [done|].
    destruct (proj1 (in_client_made cfg V)) as (C1 & C2 & C3); [by exists pool|].
    destruct (proj1 (dra_pool_made cfg V Hs)) as (D1 & D2); [by exists dra|].
    eexists. split; [exact E1|]. by split. }
  destruct (boot cfg) as [gw|e|]; split_and!; try naive_solver.
  all: destruct Hok as (? & ? & ?); naive_solver.
Qed.

(** *** What it is made of *)









End Main.
