(* ===== verification/IdentityCheck.v ===== *)
(** * The gateway's handler of ME-Identity-Checks ([cmd/gateway/main.go])

    The handler that [main] registers with the pool of agents: it passes a
    request on to a logic application (an EIR), through the address client, and
    the application's answer back to the agent.  The governance manager's
    client, which lists the applications, is an argument; so is what the
    address client returns, until the last theorem puts AddrClient there. *)

From S2P Require Import Prelude Binary DataTypes Wire Message Framing ClientSetup.
From S2P Require Import AddrClient S13 Commands.

(** ** The counters of the gateway that are only incremented *)

Record Counters := {
  TotalRequests : Z;
  TotalResponses : Z;
  TotalErrors : Z;
  TotalForwarded : Z;
  TotalFromDRA : Z;
  RoutingErrors : Z }.

Definition IncrementTotalRequests (g : Counters) : Counters := g <| TotalRequests ::= inc |>.
Definition IncrementTotalResponses (g : Counters) : Counters := g <| TotalResponses ::= inc |>.
Definition IncrementTotalErrors (g : Counters) : Counters := g <| TotalErrors ::= inc |>.
Definition IncrementTotalForwarded (g : Counters) : Counters := g <| TotalForwarded ::= inc |>.
Definition IncrementTotalFromDRA (g : Counters) : Counters := g <| TotalFromDRA ::= inc |>.
Definition IncrementRoutingErrors (g : Counters) : Counters := g <| RoutingErrors ::= inc |>.

(** ** The handler *)

(** What the handler reads of an instance. *)
Record Pod := { Ip : bytes; pod_Port : Z }.

Inductive internal_error : Type :=
| ErrNoClientPool
| ErrClient (e : send_error).

(** A gateway without [InClientConfig] has no address client. *)
Definition SendInternal (inClient : option (bytes -> bytes -> outcome send_error bytes)) (remote req : bytes)
  : outcome internal_error bytes :=
  match inClient with
  | None => Err ErrNoClientPool
  | Some send =>
      match send remote req with
      | Ok rsp => Ok rsp
      | Err e => Err (ErrClient e)
      | Panic => Panic
      end
  end.

(** The answer when no instance is available. *)
Definition unavailable (info : MessageInfo) : MEIdentityCheckAnswer.t :=
  MEIdentityCheckAnswer.New
    <| MEIdentityCheckAnswer.ResultCode := Some 5001 |>
    <| MEIdentityCheckAnswer.Header ::= fun h =>
         h <| HopByHopID := mi_HopByHopID info |> <| EndToEndID := mi_EndToEndID info |> |>.

(** The messages written to the agent; [eirApps] is the map of instances, in
    the order of the [range]. *)
Definition handle_micr (eirApps : outcome unit (list Pod))
    (inClient : option (bytes -> bytes -> outcome send_error bytes)) (msg : Message) (g : Counters)
  : Counters * outcome unit (list bytes) :=
  let g := IncrementTotalRequests g in
  match ParseMessageHeader (msg_Header msg) with
  | Panic => (g, Panic)
  | Err _ => (IncrementTotalErrors g, Ok [])
  | Ok _ =>
      match eirApps with
      | Panic => (g, Panic)
      | Err _ | Ok [] =>
          match ParseMessageHeader (msg_Header msg) with
          | Panic => (g, Panic)
          | Err _ => (IncrementTotalErrors g, Ok [])
          | Ok msgInfo =>
              match (MEIdentityCheckAnswer.Marshal (unavailable msgInfo)).2 with
              | Panic => (g, Panic)
              | Err _ => (IncrementTotalErrors g, Ok [])
              | Ok rspBytes => (IncrementRoutingErrors (IncrementTotalResponses g), Ok [rspBytes])
              end
          end
      | Ok (selectedEIRApp :: _) =>
          let g := IncrementTotalForwarded g in
          match SendInternal inClient (Ip selectedEIRApp ++ gostr ":" ++ dec (pod_Port selectedEIRApp))
                  (msg_Header msg ++ msg_Body msg) with
          | Panic => (g, Panic)
          | Err _ => (IncrementTotalErrors g, Ok [])
          | Ok rsp => (IncrementTotalResponses (IncrementTotalFromDRA g), Ok [rsp])
          end
      end
  end.

(** ** What becomes of a request *)

(** The answer that the handler builds itself has none of the fields that
    [Marshal] insists on. *)
Lemma unavailable_invalid info :
  (MEIdentityCheckAnswer.Marshal (unavailable info)).2 = Err (ErrRequiredEmpty (gostr "Session-Id")).
Proof. done. Qed.

(** The outcome that a request deserves: passed on to the first instance and
    answered with what it answered, or refused. *)
Definition fate (eirApps : list Pod) (inClient : option (bytes -> bytes -> outcome send_error bytes))
    (msg : Message) : option bytes :=
  match ParseMessageHeader (msg_Header msg), eirApps with
  | Ok _, pod :: _ =>
      match SendInternal inClient (Ip pod ++ gostr ":" ++ dec (pod_Port pod)) (msg_Header msg ++ msg_Body msg) with
      | Ok rsp => Some rsp
      | _ => None
      end
  | _, _ => None
  end.

Lemma ParseMessageHeader_returns b : ParseMessageHeader b <> Panic.
Proof. rewrite ParseMessageHeader_eq. cbv zeta. by repeat case_match. Qed.

(** C36: a request is answered with what the first instance answered, byte for
    byte, and counted as forwarded and answered; in every other case (a bad
    header, no instance, no answer of the instance) it is counted as an error
    and the agent gets no answer at all.  [RoutingErrors] never changes: the
    answer for want of an instance, whose counter it is, cannot be encoded. *)
Theorem micr_handled eirApps inClient msg g :
  (forall remote req send, inClient = Some send -> send remote req <> Panic) ->
  match fate eirApps inClient msg with
  | Some rsp =>
      handle_micr (Ok eirApps) inClient msg g =
        (g <| TotalRequests ::= inc |> <| TotalForwarded ::= inc |> <| TotalFromDRA ::= inc |>
           <| TotalResponses ::= inc |>, Ok [rsp])
  | None =>
      exists g', handle_micr (Ok eirApps) inClient msg g = (g', Ok []) /\
        TotalRequests g' = inc (TotalRequests g) /\ TotalErrors g' = inc (TotalErrors g) /\
        TotalResponses g' = TotalResponses g /\ RoutingErrors g' = RoutingErrors g /\
        (eirApps = [] -> TotalForwarded g' = TotalForwarded g)
  end.
Proof.
  intros Hs. unfold fate, handle_micr.
  destruct (ParseMessageHeader (msg_Header msg)) as [info|e|] eqn:Ep;
    [|by eexists|by destruct (ParseMessageHeader_returns (msg_Header msg))].
  destruct eirApps as [|pod pods].
  { rewrite unavailable_invalid. by eexists. }
  destruct (SendInternal _ _ _) as [rsp|e|] eqn:E; [done|by eexists|].
  exfalso. revert E. unfold SendInternal. destruct inClient as [send|]; [|done].
  destruct (send _ _) eqn:E; [done..|]. by apply Hs in E.
Qed.

(** Without the governance manager, [GetPodInfos] is called on a nil client:
    should it panic, so does the handler, before it counts an error. *)
Lemma nil_governance_panics inClient msg g info :
  ParseMessageHeader (msg_Header msg) = Ok info ->
  handle_micr Panic inClient msg g = (IncrementTotalRequests g, Panic).
Proof. unfold handle_micr. by intros ->. Qed.

(** ** The handler on the address client *)

Lemma id_of_message h b info :
  len h = 20 -> ParseMessageHeader h = Ok info -> id_of (h ++ b) = mi_HopByHopID info.
Proof.
  intros Hlen Ep. unfold id_of. rewrite len_app. pose proof (len_nonneg b).
  rewrite (proj2 (Z.ltb_ge _ _)) by lia.
  assert (slice (h ++ b) 12 16 = slice h 12 16) as ->.
  { unfold slice, len in *. rewrite drop_app_le, take_app_le by (rewrite ?length_drop; lia). done. }
  revert Ep. rewrite ParseMessageHeader_eq. cbv zeta. rewrite (proj2 (Z.ltb_ge _ _)) by lia.
  repeat case_match; try done. by intros [= <-].
Qed.

(** End to end, the answer that the handler writes to the agent carries
    the Hop-by-Hop identifier of the agent's request, whatever else the
    gateway's address client does meanwhile. *)
Lemma micr_answer_correlated l1 l2 eirApps r msg g g' rsp :
  call_returns l1 l2 (msg_Header msg ++ msg_Body msg) r ->
  len (msg_Header msg) = 20 ->
  handle_micr (Ok eirApps) (Some (fun _ _ => r)) msg g = (g', Ok [rsp]) ->
  exists info m, ParseMessageHeader (msg_Header msg) = Ok info /\
    rsp = msg_Header m ++ msg_Body m /\ answers_id m (mi_HopByHopID info).
Proof.
  intros Hcall Hlen Hh. unfold handle_micr in Hh.
  destruct (ParseMessageHeader (msg_Header msg)) as [info|e|] eqn:Ep; [|done..].
  destruct eirApps as [|pod pods]; [by rewrite unavailable_invalid in Hh|].
  cbn [SendInternal] in Hh. destruct r as [b|e|]; [|done..]. injection Hh as _ <-.
  destruct (call_answered _ _ _ _ Hcall) as (m & -> & Hm).
  exists info, m. split; [done|]. split; [done|]. by rewrite (id_of_message _ _ _ Hlen Ep) in Hm.
Qed.

(** ** Examples *)

Definition bytes_of {M} (r : M * outcome marshal_error bytes) : bytes :=
  match r.2 with Ok b => b | _ => [] end.
Definition message (b : bytes) : Message :=
  {| msg_Length := len b; msg_Header := take 20 b; msg_Body := drop 20 b |}.

Definition request : Message :=
  message (bytes_of (MEIdentityCheckRequest.Marshal
    (example_micr <| MEIdentityCheckRequest.Header ::= fun h => h <| HopByHopID := 77 |> |>))).
Definition eir_answer : Message :=
  message (bytes_of (MEIdentityCheckAnswer.Marshal
    (MEIdentityCheckAnswer.New
       <| MEIdentityCheckAnswer.SessionId := gostr "mme01;1;2" |>
       <| MEIdentityCheckAnswer.OriginHost := gostr "eir01.epc" |>
       <| MEIdentityCheckAnswer.OriginRealm := gostr "epc" |>
       <| MEIdentityCheckAnswer.EquipmentStatus := Some 0 |>
       <| MEIdentityCheckAnswer.Header ::= fun h => h <| HopByHopID := 77 |> |>))).

Definition eir : Pod := {| Ip := gostr "10.0.0.7"; pod_Port := 3868 |}.
Definition no_counts : Counters := Build_Counters 0 0 0 0 0 0.

(** An application that answers, at its own address only. *)
Definition answers_at (remote req : bytes) : outcome send_error bytes :=
  if decide (remote = gostr "10.0.0.7:3868") then Ok (msg_Header eir_answer ++ msg_Body eir_answer) else Err ErrPool.

Lemma micr_handled_witness :
  fate [eir] (Some answers_at) request = Some (msg_Header eir_answer ++ msg_Body eir_answer) /\
  fate [] (Some answers_at) request = None /\
  handle_micr (Ok [eir]) (Some answers_at) request no_counts =
    (Build_Counters 1 1 0 1 1 0, Ok [msg_Header eir_answer ++ msg_Body eir_answer]) /\
  (handle_micr (Ok []) (Some answers_at) request no_counts).2 = Ok [].
Proof.
  assert (forall remote req send, Some answers_at = Some send -> send remote req <> Panic) as Hs.
  { intros remote req send [= <-]. unfold answers_at. by case_decide. }
  pose proof (micr_handled [eir] (Some answers_at) request no_counts Hs) as H1.
  pose proof (micr_handled [] (Some answers_at) request no_counts Hs) as H2.
  assert (fate [eir] (Some answers_at) request = Some (msg_Header eir_answer ++ msg_Body eir_answer)) as E1
    by by vm_compute.
  assert (fate [] (Some answers_at) request = None) as E2 by by vm_compute.
  rewrite E1 in H1. rewrite E2 in H2. destruct H2 as (g' & H2 & _).
  split; [exact E1|]. split; [exact E2|]. split; [rewrite H1; by vm_compute|by rewrite H2].
Defined.

Lemma micr_answer_correlated_witness :
  exists info m, ParseMessageHeader (msg_Header request) = Ok info /\
    msg_Header eir_answer ++ msg_Body eir_answer = msg_Header m ++ msg_Body m /\ answers_id m (mi_HopByHopID info).
Proof.
  refine (micr_answer_correlated [] [EvPool 0 true false; EvMessage eir_answer; EvResponse 0] [eir]
    (Ok (msg_Header eir_answer ++ msg_Body eir_answer)) request no_counts _ _ _ _ _).
  - eexists. split; by vm_compute.
  - by vm_compute.
  - by vm_compute.
Defined.
