(* ===== verification/ClientExamples.v ===== *)
(** * Runs of a client connection

    Connections wired to a port pool of three ports, run through a handshake,
    through failures and through [Close]: two defects that such runs exhibit,
    and instances of the properties of [ClientTheorems], [ClientRuns] and
    [ClientLife]. *)

From Stdlib Require Import Floats.SpecFloat.
From S2P Require Import Prelude Binary DataTypes Wire Message BaseMessages Framing.
From S2P Require PortPool.
From S2P Require Import ClientConn ClientTheorems ClientRuns ClientLife ClientPool.

Definition ex_cfg : DRAConfig :=
  {| Host := gostr "dra.example"; Port := 3868; LocalAddr := []; LocalPortMin := 0; LocalPortMax := 0;
     cfg_OriginHost := gostr "gw.example"; cfg_OriginRealm := gostr "example"; cfg_ProductName := gostr "gw";
     cfg_VendorID := 10415; ConnectionCount := 1; ConnectTimeout := one_second; cfg_CERTimeout := one_second; DWRInterval := 30 * one_second; DWRTimeout := 10 * one_second;
     MaxDWRFailures := 3; ReconnectInterval := 5 * one_second; MaxReconnectDelay := 300 * one_second;
     ReconnectBackoff := float64 2; SendBufferSize := 4; RecvBufferSize := 4; AuthAppIDs := [];
     AcctAppIDs := []; AcquireLocalAddr := true |}.

Definition ex_ports : PortPool.Pool :=
  match PortPool.New {| PortPool.SourceIP := Some [Byte.x0a; Byte.x00; Byte.x00; Byte.x01];
    PortPool.MinPort := 50000; PortPool.MaxPort := 50002; PortPool.QuarantineDuration := 60 * one_second |} with
  | Ok p => p
  | _ => {| PortPool.cfg := {| PortPool.SourceIP := None; PortPool.MinPort := 0; PortPool.MaxPort := 0;
              PortPool.QuarantineDuration := 0 |}; PortPool.free := []; PortPool.inUse := ∅;
            PortPool.quarantine := ∅; PortPool.failures := 0 |}
  end.

Definition ex_new : Connection PortPool.Pool := NewConnection (gostr "c1") ex_cfg ex_ports.

Definition ex_message (data : bytes) : Message :=
  {| msg_Length := len data; msg_Header := take 20 data; msg_Body := drop 20 data |}.

(** A successful CEA with this identifier. *)
Definition ex_CEA (h : Z) : Message :=
  match (CapabilitiesExchangeAnswer.Marshal
    (CapabilitiesExchangeAnswer.New
       <| CapabilitiesExchangeAnswer.ResultCode := 2001 |>
       <| CapabilitiesExchangeAnswer.OriginHost := gostr "dra.example" |>
       <| CapabilitiesExchangeAnswer.OriginRealm := gostr "example" |>
       <| CapabilitiesExchangeAnswer.HostIpAddress := [[Byte.x0a; Byte.x00; Byte.x00; Byte.x02]] |>
       <| CapabilitiesExchangeAnswer.ProductName := gostr "dra" |>
       <| CapabilitiesExchangeAnswer.Header ::= fun hd => hd <| HopByHopID := h |> |>)).2 with
  | Ok data => ex_message data
  | _ => ex_message []
  end.
Definition ex_ip : option (option bytes) := Some (Some [Byte.x0a; Byte.x00; Byte.x00; Byte.x01]).

Abbreviation ev := (ClientConn.event Z).
Definition ex_up : list ev :=
  [EStart 1; EDial 2 Starter ex_ip; EEnqueue 3 Starter true; EWrite 4 true;
   ERead 5 true 1 (Some (ex_CEA 1)); EWait 6 Starter GotCEA].

(** CEA received, then the connection fails before [performHandshake] resumes:
    the attempt ends in [StateOpen] without a socket, with a watchdog running
    beside the reconnect loop. *)
Definition ex_open_dead : list ev :=
  [EStart 1; EDial 2 Starter ex_ip; EEnqueue 3 Starter true; EWrite 4 true;
   ERead 5 true 1 (Some (ex_CEA 1)); ERead 6 true 1 None; EWait 7 Starter GotCEA].

(** Then a tick of that watchdog while the loop dials queues another failure,
    and the loop that has just brought up a connection dials again. *)
Definition ex_leak : list ev :=
  ex_open_dead ++
  [EDelay 8 true 0; ETick 9 true; EDial 10 Reconnector ex_ip; EEnqueue 11 Reconnector true;
   EWrite 12 true; ERead 13 true 3 (Some (ex_CEA 2)); EWait 14 Reconnector GotCEA;
   EDelay 15 true 0; EDial 16 Reconnector ex_ip; EEnqueue 17 Reconnector true;
   EWrite 18 true; ERead 19 true 4 (Some (ex_CEA 3)); EWait 20 Reconnector GotCEA].

(** [Close] while [Start] is about to send its CER. *)
Definition ex_close : list ev :=
  [EStart 1; EDial 2 Starter ex_ip; EClose 3; ERead 4 true 1 None; ECloseEnd].

(** The dial of [Start] is refused. *)
Definition ex_refused : list ev := [EStart 1; EDial 2 Starter None].
Definition ex_later : list ev := [EHealth 3 0; EHealth 60 0; ESend true []; EHealth 600 0].

Ltac decided :=
  match goal with
  | |- ?P => let H := fresh in assert (bool_decide P = true) as H by (vm_compute; reflexivity);
             exact (bool_decide_eq_true_1 P H)
  end.

Ltac ran := apply run_after; vm_compute; reflexivity.

Lemma ex_ports_wf : PortPool.wf ex_ports.
Proof.
  assert (match PortPool.New (PortPool.cfg ex_ports) with Ok p => p = ex_ports | _ => False end) as H
    by (vm_compute; reflexivity).
  destruct (PortPool.New _) as [p|er|] eqn:E; [|done..]. apply PortPool.New_wf in E as [E _]. by rewrite <- H.
Qed.

(** An address leak.  There is a run without any error of the port source
    after which the connection is open, its reconnect loop has ended, and the
    pool still counts as in use by it an address that it neither dials with
    nor is bound to, so that nothing will ever release it; the socket bound to
    that address is still being read. *)
Theorem address_leak :
  exists evs c a, run ex_new evs c /\ state c = StateOpen /\ reconnecting c = false /\
    a ∈ held (ports c) /\ (a ∉ held ex_ports) /\ (a ∉ own c) /\
    exists g, g ∈ readLoops c /\ conn c <> Some g.
Proof.
  exists ex_leak, (after ex_leak ex_new), 50001. split; [ran|].
  split; [by vm_compute|]. split; [by vm_compute|].
  split; [apply elem_of_dom; by vm_compute; eexists|].
  split; [apply not_elem_of_dom; by vm_compute|].
  split; [decided|].
  exists 3. split; [decided|by vm_compute].
Qed.

(** [Close] races with the handshake.  There is a run in which [Close]
    waits for its goroutines, which the caller of [Start] is not, closes the
    channels, and [performHandshake] then sends its CER on the closed
    [sendCh]: the program panics. *)
Theorem close_panics_handshake :
  exists evs c, run ex_new evs c /\ closing c = true /\
    enabled (EEnqueue 5 Starter true) c /\ step (EEnqueue 5 Starter true) c = Panic.
Proof.
  exists ex_close, (after ex_close ex_new). split; [ran|]. split; [by vm_compute|].
  split; [apply enabledb_ok; by vm_compute|by vm_compute].
Qed.

(** ** Instances *)

Lemma addresses_safe_witness :
  good ex_ports /\ run ex_new ex_up (after ex_up ex_new) /\
  held ex_ports ⊆ held (ports (after ex_up ex_new)) /\ NoDup (own (after ex_up ex_new)) /\
  forall a, a ∈ own (after ex_up ex_new) -> a ∈ held (ports (after ex_up ex_new)) /\ (a ∉ held ex_ports).
Proof.
  split; [exact ex_ports_wf|]. split; [ran|].
  apply (addresses_safe (gostr "c1") ex_cfg ex_ports ex_up); [exact ex_ports_wf|ran].
Defined.

Lemma watchdog_threshold_witness :
  let c := after ex_up ex_new in
  conn c = Some 1 /\ state_IsActive (state c) = true /\ ctx_done c = false /\
  (connGeneration c = 1 -> dwrFailureCount c + 1 < MaxDWRFailures (config c) ->
    dwrFailureCount (DWA_result 9 DWATimeout 1 2 c) = 1).
Proof.
  cbv zeta. split; [by vm_compute|]. split; [by vm_compute|]. split; [by vm_compute|].
  intros Hg Hlt.
  destruct (watchdog_threshold 9 (after ex_up ex_new) 1 2 []) as [H1 _];
    [vm_compute; reflexivity..|vm_compute; split; [discriminate|reflexivity]|].
  destruct (H1 Hg) as [H2 _]. destruct (H2 Hlt) as (_ & _ & H3). exact H3.
Defined.

Lemma waiters_get_their_answers_witness :
  let c := after (take 5 ex_up) ex_new in
  exists data, pending c !! 1 = Some (Some data) /\
    exists e pick g m, ERead e pick g (Some m) ∈ take 5 ex_up /\ answers m 1 data.
Proof.
  cbv zeta. exists (msg_Header (ex_CEA 1) ++ msg_Body (ex_CEA 1)).
  split; [vm_compute; reflexivity|].
  apply (waiters_get_their_answers (gostr "c1") ex_cfg ex_ports (take 5 ex_up) (after (take 5 ex_up) ex_new));
    [ran|vm_compute; reflexivity].
Defined.

Lemma lifecycle_refines_witness :
  arun (vitals ex_new) (map act_of ex_leak) (vitals (after ex_leak ex_new)).
Proof. apply (lifecycle_refines (gostr "c1") ex_cfg ex_ports ex_leak). ran. Defined.

Lemma one_reconnect_loop_witness :
  let c := after ex_open_dead ex_new in
  (closing c = false -> reconnecting c = loop_running c) /\
  (forall g, conn c = Some g -> forall g', isCurrentGeneration g' c = true <-> g' = g).
Proof. cbv zeta. apply (one_reconnect_loop (gostr "c1") ex_cfg ex_ports ex_open_dead). ran. Defined.

Lemma backoff_bounded_witness :
  let c := after ex_open_dead ex_new in
  reconnector c = PDelay /\
  0 < ceiling c <= ceiling_bound ex_cfg /\
  0 < to_i64 (ceiling c + 1) /\
  (forall delay, delay_ok (ceiling c) delay <-> 0 <= delay <= ceiling c).
Proof.
  cbv zeta. split; [vm_compute; reflexivity|].
  apply (backoff_bounded (gostr "c1") ex_cfg ex_ports ex_open_dead);
    [vm_compute; reflexivity|vm_compute; reflexivity|ran|vm_compute; reflexivity].
Defined.

Lemma initial_failure_is_final_witness :
  let c := after ex_refused ex_new in
  let c' := after ex_later c in
  state c = StateFailed /\ run c ex_later c' /\
  state c' = StateFailed /\ conn c' = None /\ reconnecting c' = false /\
  ReconnectAttempts c' = 0 /\ onFailures c' = 0.
Proof.
  cbv zeta. split; [vm_compute; reflexivity|]. split; [ran|].
  apply (initial_failure_is_final (gostr "c1") ex_cfg ex_ports ex_refused (after ex_refused ex_new) ex_later);
    [ran|vm_compute; reflexivity|vm_compute; reflexivity|ran|].
  decided.
Defined.
