(* ===== verification/PoolExamples.v ===== *)
(** * Pools of real connections

    Instances of the properties of [ConnPool] and [DraPool] for pools whose
    connections are those of [ClientConn]: three agents, two of them of the
    first priority, with two connections each, brought up by the run
    [ClientExamples.ex_up]. *)

From S2P Require Import Prelude.
From S2P Require PortPool ClientConn ClientPool ClientSetup ClientExamples.
#[local] Existing Instance ClientPool.pool_source.
From S2P Require Import ConnPool DraPool.

Definition conn_t : Type := ClientPool.managed (P := PortPool.Pool).

Lemma up_sane : ClientPool.sane (ClientPool.after ClientExamples.ex_up ClientExamples.ex_new) = true.
Proof. vm_compute. reflexivity. Qed.
Lemma down_sane : ClientPool.sane ClientExamples.ex_new = true.
Proof. vm_compute. reflexivity. Qed.

Definition m_up : conn_t := ClientPool.Build_managed _ up_sane.
Definition m_down : conn_t := ClientPool.Build_managed _ down_sane.

#[local] Instance ops : ConnOps conn_t := ClientPool.managed_ops 0.
#[local] Instance laws : ConnLaws conn_t := ClientPool.managed_laws 0.

Definition p_up : ConnectionPool conn_t := NewConnectionPool [m_up; m_up; m_up].
Definition p_down : ConnectionPool conn_t := NewConnectionPool [m_down; m_down].

Lemma p_up_active : all_active p_up.
Proof. repeat constructor. Qed.

Lemma round_robin_fair_witness :
  exists idxs, sends (fun _ => true) p_up [[]; []; []] idxs /\ idxs ≡ₚ map Z.of_nat (seq 0 3).
Proof.
  apply (round_robin_fair (fun _ => true) [[]; []; []] p_up);
    [vm_compute; split; reflexivity|reflexivity|exact p_up_active|vm_compute; discriminate|reflexivity..].
Defined.

Definition agent (name : bytes) (priority weight : Z) : DRAServerConfig :=
  {| Name := name; Host := name; Port := 3868; Priority := priority; Weight := weight |}.

Definition a1 := agent (gostr "a1") 1 50.
Definition a2 := agent (gostr "a2") 1 100.
Definition b1 := agent (gostr "b1") 2 100.

Definition ex_config : DRAPoolConfig :=
  DefaultDRAPoolConfig <| DRAs := [b1; a1; a2] |> <| pool_OriginHost := gostr "gw.example" |>
    <| pool_OriginRealm := gostr "example" |> <| ConnectionsPerDRA := 2 |>.
Definition ex_sorted : list DRAServerConfig := [a2; a1; b1].

(** Only [a1] and [b1] come up. *)
Definition ex_create (dra : DRAServerConfig) : option (ConnectionPool conn_t) :=
  Some (if decide (Name dra = gostr "a2") then p_down else p_up).

Definition ex_dra : DRAPool conn_t :=
  match NewDRAPool ex_create ex_sorted ex_config with
  | Ok d => d
  | _ => {| draPools := ∅; draConfigs := []; priorityGroups := ∅; priorityRR := ∅; activePriority := 0;
            stats := zero_stats |}
  end.

Lemma ex_sorts : sorts (DRAs ex_config) ex_sorted.
Proof.
  split; [|repeat constructor].
  change (DRAs ex_config) with [b1; a1; a2]. change ex_sorted with (reverse [b1; a1; a2]).
  apply reverse_Permutation.
Qed.

Lemma ex_create_small dra p : ex_create dra = Some p -> small p.
Proof. intros [= <-]. unfold small. by destruct (decide _). Qed.

Lemma ex_dra_new : NewDRAPool ex_create ex_sorted ex_config = Ok ex_dra.
Proof. vm_compute. reflexivity. Qed.

Lemma ex_dra_wf : wf_pools ex_dra.
Proof.
  apply (NewDRAPool_spec ex_create ex_sorted ex_config ex_dra ex_sorts ex_create_small ex_dra_new).
Qed.

(** The first agent in turn is [a1], since [a2] is down. *)
Lemma dra_Send_exact_witness :
  match dra_Send (fun _ _ => true) [] ex_dra with
  | (d', Ok tt) => exists pre dra post, [a1; a2] = pre ++ dra :: post /\ healthy ex_dra dra = true
  | (_, Err e) => e = ErrSendFailed 1
  | (_, Panic) => False
  end.
Proof.
  pose proof (dra_Send_exact (fun _ _ => true) [] ex_dra 0 ex_dra_wf
    ltac:(vm_compute; split; reflexivity) ltac:(vm_compute; reflexivity)
    ltac:(vm_compute; discriminate) ltac:(vm_compute; reflexivity)) as H.
  destruct (dra_Send (fun _ _ => true) [] ex_dra) as [d' [[]|e|]].
  - destruct H as (pre & dra & post & p & p' & H1 & _ & H2 & H3 & _).
    exists pre, dra, post. split; [exact H1|]. unfold healthy. rewrite H2. exact H3.
  - exact (proj1 H).
  - exact H.
Defined.

Lemma ex_sent : (dra_Send (fun _ _ => true) [] ex_dra).2 = Ok tt.
Proof. vm_compute. reflexivity. Qed.

Lemma checkAndUpdatePriority_exact_witness :
  i32 (activePriority ex_dra) /\ draPools (checkAndUpdatePriority ex_dra) = draPools ex_dra /\
  FailoverCount (stats (checkAndUpdatePriority ex_dra)) =
    (if activePriority (checkAndUpdatePriority ex_dra) =? activePriority ex_dra
     then FailoverCount (stats ex_dra) else to_u32 (FailoverCount (stats ex_dra) + 1)).
Proof.
  assert (i32 (activePriority ex_dra)) as Hi by (vm_compute; split; [discriminate|reflexivity]).
  split; [exact Hi|].
  destruct (checkAndUpdatePriority_exact ex_dra Hi) as (_ & _ & _ & H1 & H2 & _).
  split; [exact H2|exact H1].
Defined.

(** ** A pool built from its configuration *)

Definition ex_built : DRAPool conn_t :=
  match ClientSetup.make_dra_pool ex_sorted ex_config ClientExamples.ex_ports with
  | Ok d => d
  | _ => ex_dra
  end.

Lemma ex_built_eq :
  ClientSetup.make_dra_pool ex_sorted ex_config ClientExamples.ex_ports = Ok ex_built.
Proof. vm_compute. reflexivity. Qed.

Lemma make_dra_pool_correct_witness :
  wf_pools ex_built /\
  exists p, draPools ex_built !! Name a1 = Some p /\ count p = 2 /\ NoDup (map ID (connections p)).
Proof.
  destruct (ClientSetup.make_dra_pool_correct 0 ex_sorted ex_config ClientExamples.ex_ports
    ex_built ex_sorts ltac:(vm_compute; reflexivity) ex_built_eq) as (Hw & Hp & _).
  split; [exact Hw|]. destruct (Hp a1) as (p & H1 & H2 & H3 & _).
  - change (DRAs ex_config) with [b1; a1; a2]. right. left.
  - exists p. split; [exact H1|]. split; [exact H2|exact H3].
Defined.

(** Ports 50000 to 50002, of which 50001 is free. *)
Definition ex_bind_cfg : ClientConn.DRAConfig :=
  ClientExamples.ex_cfg <| ClientConn.LocalPortMin := 50000 |> <| ClientConn.LocalPortMax := 50002 |>.

Definition ex_dial (port : Z) : ClientSetup.dial_outcome Z :=
  if port =? 50001 then ClientSetup.Dialled port else ClientSetup.AddrInUse.

Lemma dialWithLocalBind_exact_witness :
  match ClientSetup.dialWithLocalBind ex_dial ex_bind_cfg (2 ^ 32 - 1) with
  | (k', Ok s) => k' = 0 /\ exists port, ex_dial port = ClientSetup.Dialled s
  | (_, Err ClientSetup.ErrNoPort) => False
  | (_, Err ClientSetup.ErrDial) => exists port, ex_dial port = ClientSetup.DialError
  | (_, Err ClientSetup.ErrLocalAddr) | (_, Panic) => False
  end.
Proof.
  destruct (ClientSetup.dialWithLocalBind_exact ex_dial ex_bind_cfg (2 ^ 32 - 1)
    ltac:(vm_compute; reflexivity) ltac:(vm_compute; reflexivity)
    ltac:(vm_compute; split; [discriminate|reflexivity])) as (order & _ & _ & H).
  destruct (ClientSetup.dialWithLocalBind _ _ _) as [k' [s|[| |]|]].
  - destruct H as (H1 & pre & port & post & _ & H2 & _). split; [exact H1|]. exists port. exact H2.
  - exact H.
  - destruct H as (port & _ & H). exists port. exact H.
  - specialize (H 50001 ltac:(vm_compute; split; discriminate)). discriminate H.
  - exact H.
Defined.
