(* ===== verification/ManagerExamples.v ===== *)
(** * Runs of the connection manager

    Two agents with two interfaces each: instances of the properties of
    ConnManager, at a run in which three slots come up on ports of their own
    and the first dial of the fourth is refused. *)

From Stdlib Require Import Floats.SpecFloat.
From S2P Require Import Prelude Binary DataTypes Wire Message BaseMessages Framing.
From S2P Require PortPool ClientPool ClientExamples.
From S2P Require Import ClientConn ClientTheorems ClientLife ConnManager.
#[local] Existing Instance ClientPool.pool_source.

Definition ex_manager_cfg : Config :=
  {| SourceIP := Some [Byte.x0a; Byte.x00; Byte.x00; Byte.x01]; MinPort := 50000; MaxPort := 50007;
     QuarantineDuration := 0;
     DRAs := [{| d_Name := gostr "DRA-1"; d_Host := gostr "10.0.0.2"; d_Port := 3868 |};
              {| d_Name := gostr "DRA-2"; d_Host := gostr "10.0.0.3"; d_Port := 3868 |}];
     Interfaces := []; m_OriginHost := gostr "gw.example"; m_OriginRealm := gostr "example";
     m_ProductName := []; m_VendorID := 0; m_ConnectTimeout := 0; m_CERTimeout := 0; m_DWRInterval := 0;
     m_DWRTimeout := 0; m_MaxDWRFailures := 0; m_ReconnectInterval := 0; m_MaxReconnectDelay := 0;
     m_ReconnectBackoff := float64 0; m_SendBufferSize := 0; m_RecvBufferSize := 0 |}.

Definition no_pool : PortPool.Pool :=
  {| PortPool.cfg := {| PortPool.SourceIP := None; PortPool.MinPort := 0; PortPool.MaxPort := 0;
                        PortPool.QuarantineDuration := 0 |};
     PortPool.free := []; PortPool.inUse := ∅; PortPool.quarantine := ∅; PortPool.failures := 0 |}.

Definition ex_manager : Manager :=
  match New ex_manager_cfg with
  | Ok m => m
  | _ => {| cfg := ex_manager_cfg; pool := no_pool; slots := ∅; keys := []; m_ctx_done := true |}
  end.

Lemma ex_manager_new : New ex_manager_cfg = Ok ex_manager.
Proof.
  assert (match New ex_manager_cfg with Ok _ => true | _ => false end = true) as Hn by (vm_compute; reflexivity).
  unfold ex_manager. destruct (New ex_manager_cfg) as [m|e|]; [reflexivity|discriminate Hn..].
Qed.

Definition key_of (dra iface : bytes) : Key := {| k_DRA := dra; k_Interface := iface |}.
Definition k1 : Key := key_of (gostr "DRA-1") InterfaceS6a.
Definition k2 : Key := key_of (gostr "DRA-1") InterfaceS13.
Definition k3 : Key := key_of (gostr "DRA-2") InterfaceS6a.
Definition k4 : Key := key_of (gostr "DRA-2") InterfaceS13.

(** What [Manager.Start] begins, interleaved; the dial of [k4] is refused. *)
Definition ex_manager_start : list (Key * ClientConn.event Z) :=
  [(k1, EStart 1); (k2, EStart 1); (k4, EStart 1); (k3, EStart 1);
   (k2, EDial 2 Starter ClientExamples.ex_ip); (k4, EDial 2 Starter None);
   (k1, EDial 2 Starter ClientExamples.ex_ip); (k2, EEnqueue 3 Starter true); (k2, EWrite 4 true);
   (k2, ERead 5 true 1 (Some (ClientExamples.ex_CEA 1))); (k2, EWait 6 Starter GotCEA)].

(** Then the socket of [k2] is lost and [k2] reconnects, through the port that
    [k4] gave back. *)
Definition ex_manager_later : list (Key * ClientConn.event Z) :=
  [(k2, ERead 7 true 1 None); (k2, EDelay 8 true 0); (k4, EHealth 60 0);
   (k2, EDial 9 Reconnector ClientExamples.ex_ip)].

Definition m_after (l : list (Key * ClientConn.event Z)) (m : Manager) : Manager := default m (mexec l m).

Lemma m_after_run l m : bool_decide (is_Some (mexec l m)) = true -> mrun m l (m_after l m).
Proof. intros [m' Hm]%bool_decide_eq_true. unfold m_after. rewrite Hm. by apply mexec_run. Qed.

Definition m_started : Manager := m_after ex_manager_start ex_manager.
Definition m_later : Manager := m_after ex_manager_later m_started.

Lemma started_run : mrun ex_manager ex_manager_start m_started.
Proof. apply m_after_run. vm_compute. reflexivity. Qed.
Lemma later_run : mrun m_started ex_manager_later m_later.
Proof. apply m_after_run. vm_compute. reflexivity. Qed.

Definition port_of (k : Key) (m : Manager) : option (list Z) := (fun s => own (s_conn s)) <$> slots m !! k.

Lemma source_ports_exclusive_witness :
  map (fun k => port_of k m_started) [k1; k2; k3; k4] = [Some [50000]; Some [50001]; Some [50003]; Some []] /\
  (forall k k' s s' a, slots m_started !! k = Some s -> slots m_started !! k' = Some s' -> k <> k' ->
     a ∈ own (s_conn s) -> a ∉ own (s_conn s')).
Proof.
  split; [vm_compute; reflexivity|].
  exact (proj2 (source_ports_exclusive ex_manager_cfg ex_manager ex_manager_start m_started
    ex_manager_new started_run)).
Defined.

Lemma one_application_per_slot_witness :
  is_Some (slots m_started !! k3) /\ NoDup (keys ex_manager) /\ len (keys ex_manager) = 4.
Proof.
  destruct (one_application_per_slot ex_manager_cfg ex_manager ex_manager_start m_started
    ex_manager_new started_run) as (H1 & _ & H3).
  split; [|split; [apply H3, (bool_decide_unpack _); vm_compute; exact I|vm_compute; reflexivity]].
  apply H1. exists {| d_Name := gostr "DRA-2"; d_Host := gostr "10.0.0.3"; d_Port := 3868 |},
    {| Interface := InterfaceS6a; ApplicationID := 16777251 |}.
  split; [right; left|]. split; [left|reflexivity].
Defined.

Lemma slot_never_retried_witness :
  exists s2, slots m_later !! k4 = Some s2 /\ state (s_conn s2) = StateFailed /\
    conn (s_conn s2) = None /\ reconnecting (s_conn s2) = false /\ ReconnectAttempts (s_conn s2) = 0.
Proof.
  destruct (slots m_started !! k4) as [s1|] eqn:Hs1; [|vm_compute in Hs1; discriminate].
  apply (slot_never_retried ex_manager_cfg ex_manager ex_manager_start m_started ex_manager_later m_later k4 s1);
    [exact ex_manager_new|exact started_run|vm_compute; reflexivity|exact Hs1| |exact later_run|].
  - assert ((fun s => state (s_conn s)) <$> slots m_started !! k4 = Some StateFailed) as Hf
      by (vm_compute; reflexivity).
    rewrite Hs1 in Hf. injection Hf as Hf. exact Hf.
  - vm_compute. intros H. repeat apply elem_of_cons in H as [H|H]; try discriminate H.
    by apply elem_of_nil in H.
Defined.

(** The other slots do come back. *)
Lemma established_slot_retried :
  port_of k2 m_later = Some [50004] /\
  (fun s => state (s_conn s)) <$> slots m_later !! k2 = Some StateCERSent.
Proof. vm_compute. by split. Qed.
