(* ===== verification/AddrExamples.v ===== *)
(** * Runs of the address pool, the address client and the gateways

    Instances of the properties of AddrPool, AddrClient and Gateway, and the
    runs that show what happens to a waiter whose establishment fails, to the
    counter of active connections when a connection dies, and to two requests
    with one identifier. *)

From S2P Require Import Prelude Binary Wire Message.
From S2P Require PortPool ConnPool DraPool PoolExamples.
From S2P Require Import Framing AddrPool.
From S2P Require AddrClient Gateway.

(** ** The address pool *)

Definition ex_config : PoolConfig :=
  (DefaultPoolConfig) <| OriginHost := gostr "gw.example.com" |> <| OriginRealm := gostr "example.com" |>.

Definition ex_pool : Pool :=
  Eval vm_compute in match NewAddressConnectionPool (Some ex_config) with
                     | Some s => s
                     | None => Build_Pool ex_config ∅ ∅ 0 ∅ ∅ 0 ∅ 0 [] true true zero_metrics
                     end.

Lemma ex_pool_new : NewAddressConnectionPool (Some ex_config) = Some ex_pool.
Proof. vm_compute. reflexivity. Qed.

Definition after (l : list event) (s : Pool) : Pool := foldl (fun s e => step e s) s l.

(** [enabled], as a test. *)
Definition ready (e : event) (s : Pool) : bool :=
  match e with
  | EvSend _ _ | EvHealthCheck | EvClose => true
  | EvStep i =>
      match callers s !! i with
      | Some c => match c_pc c with Fast | Slow | Adding _ _ | Notifying _ _ => true | _ => false end
      | None => false
      end
  | EvStart i _ =>
      match callers s !! i with
      | Some c => match c_pc c with Starting _ _ => true | _ => false end
      | None => false
      end
  | EvWait i w =>
      match callers s !! i with
      | Some c =>
          match c_pc c, w with
          | Waiting ch, Received =>
              match waits s !! ch with Some b => buffered b || wait_closed b | None => false end
          | Waiting _, CtxDone => c_ctx c
          | Waiting _, PoolDone => ctx_done s
          | _, _ => false
          end
      | None => false
      end
  | EvSent i _ =>
      match callers s !! i with
      | Some c => match c_pc c with Sending _ => true | _ => false end
      | None => false
      end
  | EvNotifier k =>
      match notifiers s !! k with
      | Some (_, true) => true
      | Some (ch, false) => match waits s !! ch with Some b => negb (buffered b) | None => false end
      | None => false
      end
  | EvFail m => match managed s !! m with Some c => mc_active c | None => false end
  | EvOnFailure m => match managed s !! m with Some c => negb (mc_active c) | None => false end
  | EvLifecycle m why =>
      match managed s !! m with
      | Some c =>
          mc_lifecycle c && match why with
                            | Cancelled => mc_cancelled c
                            | Idle => 0 <? IdleTimeout (config s)
                            | Lifetime => 0 <? MaxConnLifetime (config s)
                            end
      | None => false
      end
  | EvContext i => bool_decide (is_Some (callers s !! i))
  end.

Fixpoint ready_run (l : list event) (s : Pool) : bool :=
  match l with
  | [] => true
  | e :: l => ready e s && ready_run l (step e s)
  end.

Lemma ready_enabled e s : ready e s = true -> enabled e s.
Proof.
  destruct e; cbn; intros H; try done; repeat case_match_in H; try done.
  all: try (apply Nat.leb_le in H; lia).
  all: repeat match goal with
    | |- exists _, _ => eexists
    | H : ?x = _ |- ?x = _ /\ _ => split; [exact H|]
    | |- Some _ = Some _ /\ _ => split; [reflexivity|]
    | H : ?x = _ |- match ?x with _ => _ end => rewrite H
    end; try done.
  all: b2p; naive_solver.
Qed.

Lemma ready_runs l s : ready_run l s = true -> run s l (after l s).
Proof.
  revert s. induction l as [|e l IH]; intros s H; [constructor|]. cbn in H. b2p.
  destruct H as [H1 H2]. constructor; [by apply ready_enabled|]. by apply IH.
Qed.

Definition ex_addr : bytes := gostr "10.0.0.7:3869".

(** Two calls for one address: the second waits for the first. *)
Definition ex_two : list event :=
  [EvSend ex_addr 100; EvSend ex_addr 200; EvStep 0; EvStep 0; EvStep 1; EvStep 1].
(** The establishment succeeds, and both send. *)
Definition ex_both : list event :=
  ex_two ++ [EvStart 0 true; EvStep 0; EvStep 0; EvNotifier 0; EvWait 1 Received; EvSent 0 true;
             EvSent 1 true; EvNotifier 0].

Lemma one_establishment_witness :
  let s := after ex_two ex_pool in
  (exists ch, c_pc <$> callers s !! 1 = Some (Waiting ch)) /\
  (forall i j ci cj, callers s !! i = Some ci -> callers s !! j = Some cj ->
     c_addr ci = c_addr cj -> establishes ci <> None -> establishes cj <> None -> i = j) /\
  (forall i ci ch, callers s !! i = Some ci -> c_pc ci = Waiting ch ->
     (exists j cj, callers s !! j = Some cj /\ c_addr cj = c_addr ci /\ establishes cj = Some ch) \/
     (exists b, (ch, b) ∈ notifiers s) \/ wait_is_closed s ch).
Proof.
  split; [exists 0; by vm_compute|].
  apply (one_establishment (Some ex_config) ex_pool ex_two);
    [apply ex_pool_new|apply ready_runs; by vm_compute].
Defined.

(** The second call waits for the first: both return in the end. *)
Lemma calls_can_return_witness :
  let s := after ex_two ex_pool in
  c_pc <$> callers s !! 1 = Some (Waiting 0) /\
  ((forall i ci, callers s !! i = Some ci -> returned ci \/ exists e, unaided e = true /\ enabled e s) /\
   (forall l' s', run s l' s' -> Forall (fun e => new_call e = false) l' ->
      len (List.filter call_step l') <= work s) /\
   (exists l' s', run s l' s' /\ Forall (fun e => unaided e = true) l' /\
      forall i ci, callers s' !! i = Some ci -> returned ci)).
Proof.
  split; [by vm_compute|].
  apply (calls_can_return (Some ex_config) ex_pool ex_two);
    [apply ex_pool_new|apply ready_runs; by vm_compute].
Defined.

Lemma sends_to_its_peer_witness :
  let s := after ex_both ex_pool in
  GetConnection ex_addr s = Some 0 /\
  (exists c, managed s !! 0 = Some c /\ ClientConn.Port <$> mc_config c = Some 3869) /\
  ((forall i ci m, callers s !! i = Some ci -> uses ci = Some m -> made_for s m (c_addr ci)) /\
   (forall a m, GetConnection a s = Some m -> made_for s m a)).
Proof.
  split; [by vm_compute|]. split; [eexists; by vm_compute|].
  apply (sends_to_its_peer (Some ex_config) ex_pool ex_both);
    [apply ex_pool_new|apply ready_runs; by vm_compute].
Defined.

(** The establishment fails: the waiter receives [nil] from the closed channel
    and reports a connection that is not found, not the failure. *)
Lemma failed_waiter :
  let l := ex_two ++ [EvStart 0 false; EvStep 0; EvWait 1 Received] in
  ready_run l ex_pool = true /\
  c_pc <$> callers (after l ex_pool) !! 1 = Some (Returned (Some ErrNotFound)).
Proof. by vm_compute. Qed.

(** The connection fails and another call comes before its removal: that call
    closes its own new connection and gets the dead one, and both lifecycle
    managers count a removal. *)
Lemma dead_connection_kept :
  let l := ex_both ++ [EvFail 0; EvOnFailure 0; EvSend ex_addr 300; EvStep 2; EvStep 2;
                       EvStart 2 true; EvStep 2; EvStep 2; EvSent 2 true;
                       EvLifecycle 0 Cancelled; EvLifecycle 1 Cancelled] in
  let s := after l ex_pool in
  ready_run l ex_pool = true /\
  c_pc <$> callers s !! 2 = Some (Returned (Some ErrSend)) /\
  ActiveConnections (metrics s) = -1 /\ connections s = ∅.
Proof. by vm_compute. Qed.

(** ** The address client *)

(** A request with a Hop-by-Hop identifier and an End-to-End identifier. *)
Definition ex_request (hop e2e : Z) : bytes :=
  marshalHeader ((new_header 316 16777251 true true) <| Length := 20 |>
    <| HopByHopID := hop |> <| EndToEndID := e2e |>).

Definition ex_answer (hop : Z) : Message :=
  {| msg_Length := 20; msg_Header := ex_request hop 9; msg_Body := [] |}.

Definition ex_calls : list AddrClient.event :=
  [AddrClient.EvSend (ex_request 7 1); AddrClient.EvSend (ex_request 8 2); AddrClient.EvPool 0 true false;
   AddrClient.EvMessage (ex_answer 8); AddrClient.EvMessage (ex_answer 7);
   AddrClient.EvPool 1 true false; AddrClient.EvResponse 0; AddrClient.EvResponse 1].

Lemma responses_match_witness :
  exists m, msg_Header (ex_answer 7) ++ msg_Body (ex_answer 7) = msg_Header m ++ msg_Body m /\
    AddrClient.answers_id m 7.
Proof.
  refine (AddrClient.responses_match [] (tail ex_calls) (ex_request 7 1) _ _).
  eexists. split; vm_compute; reflexivity.
Defined.

(** Two calls with one identifier: the answer goes to the second, which has
    replaced the session of the first, and the first never gets one. *)
Lemma shared_identifier :
  let l := [AddrClient.EvSend (ex_request 7 1); AddrClient.EvSend (ex_request 7 2);
            AddrClient.EvPool 0 true false; AddrClient.EvPool 1 true false;
            AddrClient.EvMessage (ex_answer 7); AddrClient.EvResponse 0; AddrClient.EvResponse 1;
            AddrClient.EvMessage (ex_answer 7); AddrClient.EvResponse 0] in
  let s := AddrClient.run l AddrClient.NewAddressClient in
  AddrClient.k_pc <$> AddrClient.calls s !! 0 = Some AddrClient.Waiting /\
  AddrClient.sessions s = ∅.
Proof. by vm_compute. Qed.

(** ** The gateways *)

Import Gateway.

(** A session is stored, another expires and a third completes; the counters
    of the store lag behind. *)
Definition ex_sessions : list Sessions.event :=
  [Sessions.EvStore 1 0; Sessions.EvStore 2 50; Sessions.EvCount 0; Sessions.EvStore 3 60;
   Sessions.EvCount 1; Sessions.EvCount 1; Sessions.EvDelete 2; Sessions.EvCleanup 40 60;
   Sessions.EvCount 2; Sessions.EvCount 3; Sessions.EvCount 0; Sessions.EvCount 2; Sessions.EvCount 3].

Lemma sessions_accounted_witness :
  let s := Sessions.run ex_sessions Sessions.empty_table in
  Sessions.stats s = Sessions.Build_GatewayStats 1 1 3 1 1 /\
  to_u64 (Sessions.ActiveSessions (Sessions.stats s)) = to_u64 (Z.of_nat (size (Sessions.sessions s))).
Proof.
  split; [by vm_compute|].
  apply (Sessions.sessions_accounted ex_sessions). unfold Sessions.quiet. vm_compute. repeat constructor.
Defined.

Definition ex_gateway_config : Proxy.GatewayConfig :=
  Proxy.DefaultGatewayConfig <| Proxy.InClientConfig := Some ex_config |> <| Proxy.DRASupported := true |>
    <| Proxy.OutServerSupported := true |> <| Proxy.gw_DRAPoolConfig := Some PoolExamples.ex_config |>
    <| Proxy.SessionTimeout := 0 |>.

#[local] Existing Instance PoolExamples.ops.

Definition ex_newDRAPool : DraPool.DRAPoolConfig -> outcome DraPool.dra_pool_error (DraPool.DRAPool PoolExamples.conn_t) :=
  DraPool.NewDRAPool PoolExamples.ex_create PoolExamples.ex_sorted.

Lemma ex_gateway_new :
  match Proxy.NewGateway ex_newDRAPool (Some ex_gateway_config) with Ok _ => True | _ => False end.
Proof. by vm_compute. Qed.

Lemma gateway_identity_witness :
  match Proxy.NewGateway ex_newDRAPool (Some ex_gateway_config) with
  | Ok gw => Proxy.OriginHost (Proxy.config gw) = gostr "diameter-gw.example.com" /\
             0 < Proxy.SessionTimeout (Proxy.config gw) /\
             Server.OriginHost (Server.srv_ConnectionConfig (Proxy.inServer gw)) = Proxy.OriginHost (Proxy.config gw)
  | _ => False
  end.
Proof.
  pose proof ex_gateway_new as Hn.
  destruct (Proxy.NewGateway ex_newDRAPool (Some ex_gateway_config)) as [gw| |] eqn:E; [|exact Hn..].
  destruct (Proxy.gateway_identity ex_newDRAPool (Some ex_gateway_config) gw E) as (_ & _ & H3 & [H4 _] & _).
  split; [|split; [exact H3|exact H4]].
  clear - E. vm_compute in E. by injection E as <-.
Defined.

(** Without the configuration of the inbound client, the construction panics;
    without agents that are not wanted, it fails. *)
Lemma ex_gateway_incomplete :
  Proxy.NewGateway ex_newDRAPool
    (Some (Proxy.DefaultGatewayConfig <| Proxy.gw_DRAPoolConfig := Some PoolExamples.ex_config |>)) = Panic /\
  Proxy.NewGateway ex_newDRAPool
    (Some (Proxy.DefaultGatewayConfig <| Proxy.InClientConfig := Some ex_config |>)) = Err Proxy.ErrDRAPoolConfig.
Proof. by vm_compute. Qed.
