(* ===== verification/ServerExamples.v ===== *)
(** * Runs of the server

    A server with an application handler that panics, run through accepts,
    messages and handlers: instances of the properties of ServerTheorems and
    Handshake, and two defects. *)

From S2P Require Import Prelude Binary DataTypes Wire Message BaseMessages Framing GoNet.
From S2P Require PortPool.
From S2P Require Import ClientConn ClientPool ClientExamples Handshake.
From S2P Require Import Server ServerTheorems.

Abbreviation srv := (Server.Server Z).
Abbreviation sev := (Server.event Z).

Definition net_up (c : Z) (n : nat) : bool := true.

Definition ex_cer_bytes : bytes :=
  Server.marshalled (CapabilitiesExchangeRequest.Marshal example_cer).

(** A request of S6a with no AVPs. *)
Definition ex_app_header : DiameterHeader :=
  (new_header 316 16777251 true true) <| Length := 20 |>.
Definition ex_app_bytes : bytes := marshalHeader ex_app_header.
Definition ex_app_command : Command := {| Interface := 16777251; Code := 316; cmd_Request := true |}.

(** Counts its calls, answers, and panics. *)
Definition ex_handler : Handler Z := fun msg c w =>
  (((response_Write net_up c (msg_Header msg) w).1) <| app_state := app_state w + 1 |>, Panicked).

Lemma ex_handler_behaves : behaves net_up ex_handler.
Proof.
  intros msg c w. eapply act_then; [apply act_write|]. apply relations.rtc_once, act_app.
Qed.

Definition ex_peer : bytes := gostr "10.0.0.1:40000".
Definition ex_events : list sev :=
  [EvUse RecoveryMiddleware; EvHandleFunc ex_app_command ex_handler; EvStart;
   EvAccept (Accepted ex_peer (ex_cer_bytes ++ ex_app_bytes)); EvServe 0 false; EvServe 0 false;
   EvTask 1; EvTask 0; EvTask 0; EvBroadcast ex_app_bytes; EvServe 0 false].

Definition ex_run : srv := Server.run net_up ex_events (NewServer net_up None 0 0).

Lemma ex_events_behave : Forall (event_behaves net_up) ex_events.
Proof.
  unfold ex_events. repeat apply Forall_cons_2; try exact I.
  - apply recovery_behaving.
  - apply ex_handler_behaves.
  - by apply Forall_nil_2.
Qed.

Lemma server_counters_agree_witness :
  let st := stats (world ex_run) in
  counters_agree st /\ (MessagesReceived st, MessagesSent st, ActiveConnections st) = (2, 4, 0) /\
  (ifsnap_MessagesSent <$> GetInterfaceStats 16777251 st) = Some 2.
Proof.
  cbv zeta. split; [|by vm_compute].
  apply (server_counters_agree net_up None 0 0 ex_events); [done|apply ex_events_behave].
Defined.

Lemma connections_bounded_witness :
  NoDup (serving ex_run) /\ ActiveConnections (stats (world ex_run)) = len (serving ex_run) /\
  len (serving ex_run) <= 1000.
Proof. apply (connections_bounded net_up None 0 0 ex_events); [done|apply ex_events_behave]. Defined.

Lemma recovery_protects_witness : crashed ex_run = false /\ Errors (stats (world ex_run)) = 1.
Proof.
  split; [|by vm_compute].
  apply (recovery_protects net_up None 0 0 (tail ex_events)).
  unfold ex_events. cbn [tail]. repeat apply Forall_cons_2; try exact I; [|by apply Forall_nil_2].
  by intros msg c w.
Defined.

(** The same server without the middleware. *)
Definition ex_bare : srv :=
  Server.run net_up (take 5 (tail ex_events)) (NewServer net_up None 0 0).

Lemma unrecovered_panic_crashes_witness :
  crashed ex_bare = false /\ crashed (Server.run net_up [EvTask 1; EvTask 1] ex_bare) = true.
Proof.
  split; [by vm_compute|].
  apply (unrecovered_panic_crashes net_up ex_bare 1 1 ex_handler (split_message ex_app_bytes) 0);
    [by vm_compute| |done|by vm_compute].
  reflexivity.
Defined.

(** Ten requests at a limit of two: the two at the end of one window and the
    two at the beginning of the next are within one second. *)
Lemma rate_limit_bound_witness :
  let ms := millisecond in
  let ts := [900 * ms; 910 * ms; 950 * ms; 1000 * ms; 1010 * ms; 1020 * ms] in
  let '(w, m) := RateLimitMiddleware 2 (world (NewServer net_up None 0 [])) in
  let w' := foldl (request_at m (split_message ex_app_bytes) 0) (w <| app_state := [] |>) ts in
  len (filter (fun x => 900 * ms <= x < 900 * ms + second) (app_state w')) <= 2 * 2 /\
  app_state w' = [900 * ms; 910 * ms; 1000 * ms; 1010 * ms].
Proof.
  cbv zeta. split; [|by vm_compute].
  apply (rate_limit_bound 2 (world (NewServer net_up None 0 [])) (split_message ex_app_bytes) 0
    [900 * millisecond; 910 * millisecond; 950 * millisecond; 1000 * millisecond; 1010 * millisecond;
     1020 * millisecond] (900 * millisecond)); [done|].
  repeat (constructor; try (by vm_compute)).
Defined.

Definition ex_listening : srv :=
  Server.run net_up
    [EvHandleFunc ex_app_command ex_handler; EvStart;
     EvAccept (Accepted ex_peer (concat [ex_cer_bytes; ex_app_bytes] ++ take 7 ex_app_bytes))]
    (NewServer net_up None 0 0).

Lemma serve_starts_handlers_witness :
  let s' := Server.run net_up (repeat (EvServe 0 false) 3) ex_listening in
  length (tasks s') = 2%nat /\ serving s' = filter (fun c' => c' <> 0) (serving ex_listening).
Proof.
  cbv zeta. split; [by vm_compute|].
  apply (serve_starts_handlers net_up 0 [ex_cer_bytes; ex_app_bytes] (take 7 ex_app_bytes) ex_listening).
  - repeat constructor; by vm_compute.
  - done.
  - eexists. split_and!; [vm_compute; reflexivity|done|by vm_compute].
  - by vm_compute.
  - by vm_compute; left.
Defined.

Lemma handshake_completes_witness :
  exists h request c1,
    dial_result 1 None ex_ip ex_new = (c1, Continue (PEnqueue h request)) /\
    pending c1 !! h = Some None /\
    let s := Server.run net_up [EvStart; EvAccept (Accepted ex_peer (request ++ ex_app_bytes))]
      (NewServer net_up None 0 0) in
    exists answer l',
      links (world (Server.run net_up [EvServe 0 false; EvTask 0] s)) !! 0 = Some l' /\
      out l' = [answer] /\
      exists m, ReadMessage None (answer ++ []) = (Ok m, []).
Proof.
  destruct (handshake_completes (A := Z) net_up 1 None [Byte.x0a; Byte.x00; Byte.x00; Byte.x01] ex_new
    DefaultServerConfig) as (h & request & c1 & H1 & H2 & H3);
    [vm_compute; reflexivity..|].
  exists h, request, c1. split; [exact H1|]. split; [exact H2|]. cbv zeta.
  destruct (H3 (Server.run net_up [EvStart; EvAccept (Accepted ex_peer (request ++ ex_app_bytes))]
      (NewServer net_up None 0 0))
    {| remote_addr := ex_peer; unread := request ++ ex_app_bytes; out := []; writes := 0;
       broken := false; rwc_closed := false |} 0 ex_app_bytes) as (answer & l' & E1 & E2 & _ & E4).
  { split; try reflexivity. by left. }
  exists answer, l'. split; [exact E1|]. split; [exact E2|].
  destruct (E4 true [] c1 H2) as (m & _ & E & _). by exists m.
Defined.

(** The address of the CEA is empty for the default listen address. *)
Lemma host_ip_empty :
  CapabilitiesExchangeAnswer.HostIpAddress (cea_of DefaultServerConfig example_cer) = [[]].
Proof. vm_compute. reflexivity. Qed.
