(* ===== verification/ServerConnExamples.v ===== *)
(** * Runs of the server's buffered connection

    Instances of the properties of ServerConn and ServerConnHandshake: an idle
    connection that is closed, a request of the server that is answered, and a
    CER. *)

From S2P Require Import Prelude Binary DataTypes Wire Message BaseMessages Framing ClientConn.
From S2P Require Import ServerConn ServerConnHandshake.

Fixpoint exec (l : list event) (c : Connection) : option Connection :=
  match l with
  | [] => Some c
  | e :: l => match step e c with Ok c => exec l c | _ => None end
  end.

Lemma conn_exec_run l c c' : exec l c = Some c' -> run c l c'.
Proof.
  revert c. induction l as [|e l IH]; intros c; cbn [exec].
  - intros [= <-]. constructor.
  - destruct (step e c) as [c1| |] eqn:Es; [|done..]. intros H. econstructor; [exact Es|by apply IH].
Qed.

Definition after (l : list event) (c : Connection) : Connection := default c (exec l c).

Lemma after_run l c : bool_decide (is_Some (exec l c)) = true -> run c l (after l c).
Proof. intros [c' Hc]%bool_decide_eq_true. unfold after. rewrite Hc. by apply conn_exec_run. Qed.

Definition ex_ip : option bytes := Some [Byte.x7f; Byte.x00; Byte.x00; Byte.x01].

(** ** An idle connection is closed *)

Definition ex_idle : Connection := NewConnection None [] ex_ip.
Definition ex_closing : list event := [EvTop; EvClose; EvCloseSocket].
Definition ex_ends : list event :=
  [EvRead ReadStream; EvWriterStops; EvProcessorStops; EvCloseDone; EvCloseReturns (ByCall 0)].

Lemma Close_never_returns_witness :
  closeOnce (after ex_ends (after ex_closing ex_idle)) <> Done /\
  writer (after ex_ends (after ex_closing ex_idle)) = WExited.
Proof.
  split; [|by vm_compute].
  refine (proj1 (Close_never_returns None [] ex_ip ex_closing (after ex_closing ex_idle) ex_ends
    (after ex_ends (after ex_closing ex_idle)) _ _ _)).
  - apply after_run. by vm_compute.
  - right. left. split; by vm_compute.
  - apply after_run. by vm_compute.
Defined.

(** ** A request of the server *)

(** An application message with the given flags and identifier. *)
Definition ex_message (flags : Z) (h2h : Z) : bytes :=
  Byte.x01 :: be_put 3 20 ++ Zbyte flags :: be_put 3 316 ++ be_put 4 16777251 ++ be_put 4 h2h ++ be_put 4 9.

Definition ex_stream : bytes := ex_message 0 7 ++ ex_message 128 3 ++ [Byte.x01].
Definition ex_peer_conn : Connection := NewConnection None ex_stream ex_ip.

Definition ex_request : list event :=
  [EvSendRequest (ex_message 128 7); EvRequestSent 0 SendQueued; EvWrite WriteOk; EvTop; EvRead ReadStream;
   EvHand true; EvProcess; EvTop; EvRead ReadStream; EvDeliver false; EvHand true; EvProcess;
   EvRequestEnd 0 GotResponse; EvForward true].

Lemma handled_in_order_witness :
  handled (after ex_request ex_peer_conn) = [ex_message 0 7; ex_message 128 3] /\
  exists rest, ex_stream = concat (handled (after ex_request ex_peer_conn)) ++ rest.
Proof.
  split; [by vm_compute|].
  refine (proj1 (handled_in_order None ex_stream ex_ip ex_request (after ex_request ex_peer_conn) _)).
  apply after_run. by vm_compute.
Defined.

Lemma SendRequest_matched_witness :
  receiveChan (after ex_request ex_peer_conn) = [ex_message 128 3] /\
  exists info, ParseMessageHeader (ex_message 0 7) = Ok info /\ mi_HopByHopID info = 7.
Proof.
  split; [by vm_compute|].
  destruct (SendRequest_matched None ex_stream ex_ip ex_request (after ex_request ex_peer_conn) 0
    {| q_id := 7; q_pc := QReturned (Ok (ex_message 0 7)) |} (ex_message 0 7)) as (info & H1 & H2 & _).
  - apply after_run. by vm_compute.
  - by vm_compute.
  - reflexivity.
  - exists info. split; [exact H1|exact H2].
Defined.

(** ** A CER *)

Definition example_cer_bytes : bytes :=
  match (CapabilitiesExchangeRequest.Marshal example_cer).2 with Ok b => b | _ => [] end.

Definition ex_greeting : Connection :=
  after [EvTop; EvRead ReadStream; EvHand true] (NewConnection None example_cer_bytes ex_ip).

Lemma CER_opens_witness :
  processChan ex_greeting = [example_cer_bytes] /\
  exists c1 c2, step EvProcess ex_greeting = Ok c1 /\ step (EvSent SendQueued) c1 = Ok c2 /\
    state c2 = StateOpen /\ 16777251 ∈ supportedAppIDs c2.
Proof.
  split; [by vm_compute|].
  destruct (CER_opens example_cer example_cer_bytes [] ex_greeting) as (c1 & c2 & a & cea & H1 & H2 & H3 & _).
  - exact example_cer_wf.
  - by vm_compute.
  - reflexivity.
  - reflexivity.
  - by vm_compute.
  - by vm_compute.
  - by vm_compute.
  - by vm_compute.
  - by vm_compute.
  - split; by vm_compute.
  - exists c1, c2. split; [exact H1|]. split; [exact H2|].
    split; [exact (gr_state _ _ H3)|]. apply (gr_supported _ _ H3).
    left. left. right. left.
Defined.
