(* ===== verification/ProtoExamples.v ===== *)
(** * Proto files

    Instances of the properties of ProtoTheorems and ProtoReads, at a file in
    the layout of [proto/] and a directory of two files, and texts that the
    parser does not read as one would expect. *)

From S2P Require Import Prelude DataTypes GoText ProtoParser ProtoTheorems ProtoText ProtoReads.

(** ** A file *)

Definition ex_text : bytes := gostr "// Base
package diameter.base;

option go_package = 'github.com/hsdfat/diam-gw/commands/base';
const S6A_APPLICATION_ID = 16777251;  // S6a
enum DisconnectCause {
  REBOOTING = 0;                    // Node is rebooting
  BUSY = 1;
}
avp Vendor-Specific-Application-Id {
  code = 260;
  vendor_id = 0;
  type = Grouped;
  must = true;
  may_encrypt = false;
  grouped {
    // at least one
    optional Vendor-Id vendor_id = 1;   // Code 266
    required Origin-Host origin_host = 2;
  }
}
avp Origin-Host {
  code = 264;
  vendor_id = 0;
  type = DiameterIdentity;
  must = true;
  may_encrypt = false;
}
command Capabilities-Exchange-Request {
  code = 257;
  application_id = 0;
  request = true;
  proxiable = false;
  fixed required Origin-Host origin_host = 1;           // Sender
  repeated optional AVP avp = 13;
}
".

(** The quotes around the path are double in [decl_lines]. *)
Definition ex_proto : bytes := map (fun b => if is_byte b Byte.x27 then quote else b) ex_text.

Definition ex_group : list group_field :=
  [{| g_modifier := MOptional; g_avp := gostr "Vendor-Id"; g_name := gostr "vendor_id"; g_position := 1;
      g_note := gostr "   // Code 266" |};
   {| g_modifier := MRequired; g_avp := gostr "Origin-Host"; g_name := gostr "origin_host"; g_position := 2;
      g_note := [] |}].

Definition ex_fields : list command_field :=
  [{| f_fixed := true; f_repeated := false; f_required := true; f_avp := gostr "Origin-Host";
      f_name := gostr "origin_host"; f_position := 1; f_note := gostr "           // Sender" |};
   {| f_fixed := false; f_repeated := true; f_required := false; f_avp := gostr "AVP"; f_name := gostr "avp";
      f_position := 13; f_note := [] |}].

Definition ex_values : list enum_value :=
  [{| v_name := gostr "REBOOTING"; v_value := 0; v_note := gostr "                    // Node is rebooting" |};
   {| v_name := gostr "BUSY"; v_value := 1; v_note := [] |}].

Definition ex_decls : list decl :=
  [DPackage (gostr "diameter.base"); DGoPackage (gostr "github.com/hsdfat/diam-gw/commands/base");
   DConst (gostr "S6A_APPLICATION_ID") 16777251 (gostr "  // S6a");
   DEnum (gostr "DisconnectCause") ex_values;
   DAVP {| a_name := gostr "Vendor-Specific-Application-Id"; a_code := 260; a_vendor := 0; a_type := gostr "Grouped";
           a_must := true; a_may_encrypt := false; a_group := Some ex_group |};
   DAVP {| a_name := gostr "Origin-Host"; a_code := 264; a_vendor := 0; a_type := gostr "DiameterIdentity";
           a_must := true; a_may_encrypt := false; a_group := None |};
   DCommand {| c_name := gostr "Capabilities-Exchange-Request"; c_code := 257; c_application := 0; c_request := true;
               c_proxiable := false; c_fields := ex_fields |}].

Definition new_parser : ProtoParser := NewProtoParser ∅ 0.

Ltac literal := by apply word_literal.

(** A note of spaces and a comment. *)
Lemma note_split spaces text b :
  forallb is_space spaces = true -> no_brace text -> last (w_comment ++ text) = Some b -> is_space b = false ->
  note_ok (spaces ++ w_comment ++ text).
Proof.
  intros Hs Ht Hl Hb. right. exists spaces, text, b. split; [done|]. split; [|done].
  rewrite Forall_forall. rewrite forallb_forall in Hs. intros x Hx. by apply Hs, list_elem_of_In.
Qed.

Lemma ex_decls_ok : Forall decl_ok ex_decls.
Proof.
  unfold ex_decls. repeat apply Forall_cons_2; [literal| | | | | | |constructor].
  - split; [|done]. by apply (bool_decide_unpack _).
  - split; [literal|]. split; [by vm_compute|].
    apply (note_split (gostr "  ") (gostr " S6a") Byte.x61); [done| |done|done]. by apply no_brace_literal.
  - split; [literal|]. apply Forall_cons_2; [|apply Forall_singleton].
    + split; [literal|]. split; [by vm_compute|]. split; [|done].
      apply (note_split (gostr "                    ") (gostr " Node is rebooting") Byte.x67); [done| |done|done].
      by apply no_brace_literal.
    + split; [literal|]. split; [by vm_compute|]. split; [by left|done].
  - split; [literal|]. split; [by vm_compute|]. split; [by vm_compute|]. split; [literal|].
    apply Forall_cons_2; [|apply Forall_singleton]; (split; [literal|]; split; [literal|]; split; [done|]); [|by left].
    apply (note_split (gostr "   ") (gostr " Code 266") Byte.x36); [done| |done|done]. by apply no_brace_literal.
  - split; [literal|]. split; [by vm_compute|]. split; [by vm_compute|]. split; [literal|constructor].
  - split; [literal|]. split; [by vm_compute|]. split; [by vm_compute|].
    apply Forall_cons_2; [|apply Forall_singleton]; (split; [literal|]; split; [literal|]; split; [done|]; split);
      try (by left); try (by apply (bool_decide_unpack _)).
    apply (note_split (gostr "           ") (gostr " Sender") Byte.x72); [done| |done|done]. by apply no_brace_literal.
Qed.

Lemma ParseFile_reads_witness :
  ParseFile ex_proto new_parser = (foldl declare new_parser ex_decls, Ok tt) /\
  map cmd_Code (Commands (foldl declare new_parser ex_decls)) = [257].
Proof.
  split; [|by vm_compute]. apply (ParseFile_reads ex_proto ex_decls new_parser ex_decls_ok). split.
  - by apply (bool_decide_unpack _).
  - by vm_compute.
Defined.

Lemma new_parser_wf : parser_wf new_parser.
Proof. apply NewProtoParser_wf; [by intros a [x Hx]|done]. Qed.

Lemma parser_stays_wf_witness :
  parser_wf new_parser /\ parser_wf (ParseFile ex_proto new_parser).1.
Proof. split; [exact new_parser_wf|]. exact (proj1 (parser_stays_wf ex_proto [] new_parser new_parser_wf)). Defined.

(** ** References *)

Lemma covers_check order p : bool_decide (map_Forall (fun n _ => n ∈ order) (AVPs p)) = true -> covers order p.
Proof. intros H%bool_decide_eq_true n [a Ha]. by apply (H n a). Qed.

Definition ex_parsed : ProtoParser := (ParseFile ex_proto new_parser).1.
Definition ex_order : list bytes := [gostr "Origin-Host"; gostr "Vendor-Specific-Application-Id"].

(** The group names Origin-Host before the file defines it. *)
Lemma resolve_exact_witness :
  (exists d f, heap ex_parsed !! 2 = Some d /\ last (GroupedFields d) = Some f /\ AVP f = 1) /\
  AVPs ex_parsed !! gostr "Origin-Host" = Some 3 /\
  ResolveAVPReferences (rev ex_order) ex_parsed = ResolveAVPReferences ex_order ex_parsed.
Proof.
  split; [eexists _, _; split; [vm_compute; reflexivity|]; split; vm_compute; reflexivity|].
  split; [vm_compute; reflexivity|].
  refine (proj1 (resolve_exact ex_parsed ex_order (proj1 (parser_stays_wf ex_proto [] new_parser new_parser_wf)) _) _ _).
  - apply covers_check. vm_compute. reflexivity.
  - apply covers_check. vm_compute. reflexivity.
Defined.

(** ** A directory *)

Definition ex_other : bytes := gostr "package diameter.s6a;
option go_package = x/s6a;
avp User-Name {
  code = 1;
  type = UTF8String;
}
command Update-Location-Request {
  code = 316;
  required Origin-Host origin_host = 1;
  optional User-Name user_name = 2;
}
".

Definition ex_files : list bytes := [ex_proto; ex_other].
Definition ex_orders : nat -> list bytes := fun _ => gostr "User-Name" :: ex_order.

Definition ex_generated : list ProtoParser :=
  match processProtoDirectory ex_orders ex_files with Ok ps => ps | _ => [] end.

Lemma ex_generated_ok : processProtoDirectory ex_orders ex_files = Ok ex_generated.
Proof.
  assert (match processProtoDirectory ex_orders ex_files with Ok _ => true | _ => false end = true) as H
    by (vm_compute; reflexivity).
  unfold ex_generated. by destruct (processProtoDirectory ex_orders ex_files).
Qed.

Lemma ex_covers k r : collect ex_files ∅ ∅ 0 = Ok r -> covers (ex_orders k) r.
Proof.
  intros Hr. apply covers_check.
  assert (match collect ex_files ∅ ∅ 0 with
          | Ok r => bool_decide (map_Forall (fun n _ => n ∈ gostr "User-Name" :: ex_order) (AVPs r))
          | _ => true end = true) as H by (vm_compute; reflexivity).
  by rewrite Hr in H.
Qed.

Lemma directory_shares_witness :
  map (fun p => map (fun c => map AVP (cmd_Fields c)) (Commands p)) ex_generated = [[[3; 11]]; [[3; 5]]] /\
  exists registry definitions, Forall (settled_parser registry definitions) ex_generated.
Proof.
  split; [vm_compute; reflexivity|].
  destruct (directory_shares ex_orders ex_files ex_generated ex_generated_ok ex_covers) as (r & d & _ & H & _).
  exists r, d. exact H.
Defined.

(** ** What the parser does not read *)

(** Values of an enum on one line are lost, and so are the properties and
    fields of a command on one line. *)
Lemma single_line_enum_empty :
  Enums (ParseFile (gostr "enum E { A = 1; }") new_parser).1 !! gostr "E" =
    Some {| enum_Name := gostr "E"; Values := ∅ |}.
Proof. vm_compute. reflexivity. Qed.

Lemma single_line_command_empty :
  map (fun c => (cmd_Code c, cmd_Fields c))
    (Commands (ParseFile (gostr "command C { code = 257; fixed required A a = 1; }") new_parser).1) = [(0, [])].
Proof. vm_compute. reflexivity. Qed.

(** In a group on one line the first field is lost, and the group takes the
    closing brace of the AVP for its own. *)
Lemma single_line_group_lost :
  map (fun d => length (GroupedFields d)) (omap (fun a => heap (ParseFile
    (gostr "avp A { code = 1; type = Grouped; grouped { optional B b = 1; optional C c = 2; } }") new_parser).1 !! a)
    [0; 1; 2]) = [O; 1%nat].
Proof. vm_compute. reflexivity. Qed.

(** A comment after a property of an AVP is part of the value: after a code
    it is an error, after a type the type is unknown. *)
Lemma avp_comment_rejected :
  (ParseFile (gostr "avp A {
code = 1;  // one
}") new_parser).2 = Err (ErrAVPCode (gostr "A")).
Proof. vm_compute. reflexivity. Qed.
