(* ===== verification/ConfigExamples.v ===== *)
(** * Runs of the gateway command

    The default configuration boots; small changes that [Validate] accepts
    make the process panic. *)

From Stdlib Require Import Floats.SpecFloat.
From S2P Require Import Prelude DraPool ClientConn AppConfig GatewayMain.

Section Sort.

#[local] Instance less_dec a b : Decision (less b a = false) := decide_rel (=) (less b a) false.

Definition by_priority (a b : DRAServerConfig) : Prop := less b a = false.

#[local] Instance by_priority_dec : RelDecision by_priority := fun a b => less_dec a b.

Lemma by_priority_spec a b :
  by_priority a b <-> Priority a < Priority b \/ (Priority a = Priority b /\ Weight b <= Weight a).
Proof.
  unfold by_priority, less. destruct (Z.eqb_spec (Priority b) (Priority a)).
  - rewrite Z.ltb_ge. lia.
  - rewrite Z.ltb_ge. lia.
Qed.

#[local] Instance by_priority_trans : Transitive by_priority.
Proof. intros a b c. rewrite !by_priority_spec. lia. Qed.

#[local] Instance by_priority_total : Total by_priority.
Proof. intros a b. rewrite !by_priority_spec. lia. Qed.

Definition sort_agents : list DRAServerConfig -> list DRAServerConfig := merge_sort by_priority.

Lemma sort_agents_sorts l : sorts l (sort_agents l).
Proof. split; [apply merge_sort_Permutation|]. apply (StronglySorted_merge_sort by_priority). Qed.

End Sort.

Definition interfaces : option (list interface_addr) :=
  Some [IPNet (map Zbyte [127; 0; 0; 1]); OtherAddr; IPNet (map Zbyte [10; 1; 2; 3])].

(** No file, no environment. *)
Definition loaded : outcome bytes Config := Load FileNotFound FileNotFound (Ok setDefaults) interfaces (fun e => e).

Definition cfg : Config := match loaded with Ok c => c | _ => setDefaults end.

Definition boots : Config -> outcome bytes (Gateway.Proxy.Gateway (C := ClientPool.managed (P := unit))) :=
  boot tt sort_agents [] (gostr "pod") (gostr "eir") (fun r => reg_Port r =? 3868).

Example default_loaded :
  loaded = Ok cfg /\ GovernanceConfig.URL (AppConfig.Governance cfg) = gostr "http://127.0.0.1:18000" /\
  GovernanceConfig.ServiceIP (AppConfig.Governance cfg) = gostr "10.1.2.3".
Proof. by vm_compute. Qed.

Lemma default_bootable : bootable [] (gostr "pod") (gostr "eir") (fun r => reg_Port r =? 3868) cfg.
Proof.
  split; try by vm_compute.
  apply (bool_decide_unpack _). by vm_compute.
Qed.

Lemma gateway_boots_witness : Validate cfg = None /\ exists gw, boots cfg = Ok gw.
Proof.
  split; [by vm_compute|].
  apply (gateway_boots tt sort_agents [] (gostr "pod") (gostr "eir") (fun r => reg_Port r =? 3868) sort_agents_sorts cfg);
    [by vm_compute|apply default_bootable].
Defined.


(** ** Configurations that are accepted and end in a panic *)

Definition panics (c : Config) : bool :=
  match Validate c, boots c with None, Panic => true | _, _ => false end.

Example no_agents : panics (cfg <| AppConfig.DRAPool ::= fun d => d <| DRAPoolConfig.Supported := false |> |>) = true.
Proof. by vm_compute. Qed.

Example no_statistics :
  panics (cfg <| AppConfig.Gateway ::= fun g => g <| GatewayConfig.StatsInterval := 0 |> |>) = true.
Proof. by vm_compute. Qed.

Example no_health_check :
  panics (cfg <| AppConfig.DRAPool ::= fun d => d <| DRAPoolConfig.HealthCheckInterval := 0 |> |>) = true.
Proof. by vm_compute. Qed.

Example watchdog_as_long_as_interval :
  panics (cfg <| AppConfig.DRAPool ::= fun d => d <| DRAPoolConfig.DWRTimeout := DRAPoolConfig.DWRInterval d |> |>) = true.
Proof. by vm_compute. Qed.

Example two_agents_of_one_name :
  panics (cfg <| AppConfig.DRAPool ::= fun d => d <| DRAPoolConfig.DRAs ::= fun l => l ++ l |> |>) = true.
Proof. by vm_compute. Qed.

(** Reconnection disabled, its factor is not validated; the pool still asks
    for at least 1. *)
Example backoff_of_a_disabled_reconnection :
  panics (cfg <| AppConfig.Client ::= fun c => c <| ClientConfig.ReconnectBackoff := S754_zero false |> |>) = true.
Proof. by vm_compute. Qed.

(** The subscriptions of the configuration are not those that are sent. *)
Example subscriptions_ignored l :
  reg_Subscriptions (registration [] [] (gostr "eir") (cfg <| Governance ::= fun g =>
    g <| GovernanceConfig.Subscriptions := l |> |>)) = [gostr "eir"].
Proof. done. Qed.
