(* ===== verification/RequestExamples.v ===== *)
(** * A run of the client with a request-response interface

    Two calls, each of which is given the answer to the other's request. *)

From S2P Require Import Prelude Wire Message Framing ConnPool.
From S2P Require PortPool ClientConn ClientPool PoolExamples.
From S2P Require Import Client.

#[local] Instance request_ops : ConnOps PoolExamples.conn_t := PoolExamples.ops.

Definition header (request : bool) (hbh : Z) : bytes :=
  marshalHeader ((new_header 324 16777252 request true) <| Length := 20 |> <| HopByHopID := hbh |>).

Definition reply (hbh : Z) : Message := {| msg_Length := 20; msg_Header := header false hbh; msg_Body := [] |}.

Definition conf : ClientConfig :=
  DefaultClientConfig <| ServerAddress := gostr "hss" |> <| cc_OriginHost := gostr "gw" |> <| cc_OriginRealm := gostr "epc" |>.

Definition idle : Client := new_client conf PoolExamples.p_up.

Definition crossing : list (client_event (C := PoolExamples.conn_t)) :=
  [EvCall (header true 1); EvCall (header true 2); EvSend 0 (fun _ => true); EvSend 1 (fun _ => true); EvCount 0;
   EvCount 1; EvReceived (reply 1); EvReceived (reply 2); EvResponse 1; EvResponse 0; EvReturn 0; EvReturn 1].

Definition after (s : Client (C := PoolExamples.conn_t)) (e : client_event) : Client :=
  match client_step e s with Ok s' => s' | _ => s end.

Definition crossed : Client := foldl after idle crossing.

Definition steps (e : client_event) (s : Client (C := PoolExamples.conn_t)) : bool :=
  match client_step e s with Ok _ => true | _ => false end.

Lemma run_go (e : client_event) s l s' :
  enabled e s -> steps e s = true -> client_run (after s e) l s' -> client_run s (e :: l) s'.
Proof.
  intros He Hs Hr. unfold after, steps in *. destruct (client_step e s) as [s1| |] eqn:E; try done. by econstructor.
Qed.

Ltac go :=
  apply run_go;
  [lazymatch goal with
   | |- enabled (EvCall _) _ => exact I
   | |- enabled (EvReceived _) _ => vm_compute; reflexivity
   | |- enabled (EvResponse _) _ => split; [eexists; vm_compute; reflexivity|left; vm_compute; discriminate]
   | |- enabled (EvReturn _) _ => do 2 eexists; vm_compute; reflexivity
   | |- _ => eexists; vm_compute; reflexivity
   end
  |vm_compute; reflexivity|].

Lemma crossing_runs : client_run idle crossing crossed.
Proof. unfold crossed, crossing. cbn [foldl]. do 12 go. apply client_nil. Qed.

Lemma client_accounted_witness :
  TotalRequests (cl_stats crossed) = 2 /\ ActiveRequests (cl_stats crossed) = to_u64 (total active (calls crossed)) /\
  calls crossed !! 0 = Some {| c_msg := header true 1; c_pc := Gone (Ok (header false 2)) |} /\
  calls crossed !! 1 = Some {| c_msg := header true 2; c_pc := Gone (Ok (header false 1)) |} /\
  (let i := default Server.zero_interface_stats (cl_InterfaceStats (cl_stats crossed) !! 16777252) in
   Server.is_MessagesSent i = 2 /\ Server.is_BytesReceived i = 40).
Proof.
  destruct (client_accounted conf PoolExamples.p_up crossing crossed crossing_runs) as (Ha & _ & _ & _ & _ & _ & _ & Hi & _).
  split; [by vm_compute|]. split; [exact Ha|]. split; [by vm_compute|]. split; [by vm_compute|].
  destruct (Hi 16777252) as (E1 & _ & _ & E4 & _). cbv zeta in *. rewrite E1, E4. by split; vm_compute.
Defined.

Example NewClient_runs :
  exists cl, NewClient (tt : unit) (Some conf) = Ok cl /\ count (pool cl) = 5.
Proof.
  destruct (proj2 (proj1 (NewClient_exact tt conf))) as [cl Hc]; [split; split; done|].
  exists cl. split; [done|]. by destruct (NewClient_exact tt conf) as (_ & _ & H); destruct (H cl Hc).
Qed.
