(* ===== verification/GeneratorExamples.v ===== *)
(** * The generator at the S13 request

    Instances of the properties of GeneratorTheorems and GeneratedTheorems, and
    names that the generator does not keep apart. *)

From S2P Require Import Prelude DataTypes Wire Message BaseMessages SessionMessages S13 Commands.
From S2P Require Import GoText ProtoParser ProtoTheorems Generator GeneratorTheorems GeneratedCode GeneratedTheorems GeneratedS13.

(** ** Two orders of the maps *)

Definition in_order (p : ProtoParser) : Ranges :=
  {| r_Consts := (map_to_list (Consts p)).*1; r_AVPs := (map_to_list (AVPs p)).*1;
     r_vendorIDs := elements (vendor_ids (map_to_list (AVPs p)).*1 p);
     r_Enums := (map_to_list (Enums p)).*1;
     r_Values := fun n => match Enums p !! n with Some e => (map_to_list (Values e)).*1 | None => [] end |}.
Definition reversed (p : ProtoParser) : Ranges :=
  {| r_Consts := reverse (r_Consts (in_order p)); r_AVPs := reverse (r_AVPs (in_order p));
     r_vendorIDs := reverse (r_vendorIDs (in_order p)); r_Enums := reverse (r_Enums (in_order p));
     r_Values := fun n => reverse (r_Values (in_order p) n) |}.

Lemma in_order_ok p : ranges_ok p (in_order p).
Proof.
  split; unfold keys_of; [reflexivity..|]. intros n e He. cbn [r_Values in_order]. by rewrite He.
Qed.

Lemma reversed_ok p : ranges_ok p (reversed p).
Proof.
  destruct (in_order_ok p) as [H1 H2 H3 H4 H5]. split; unfold keys_of; cbn [r_Consts r_AVPs r_vendorIDs r_Enums r_Values reversed];
    rewrite ?reverse_Permutation; try reflexivity.
  - by rewrite (vendor_ids_perm _ _ p (reverse_Permutation _)).
  - intros n e He. rewrite reverse_Permutation. by apply H5.
Qed.

Lemma generator_deterministic_witness :
  Generate (r_AVPs (in_order micr_parser)) (gostr "s13") micr_parser =
  Generate (r_AVPs (reversed micr_parser)) (gostr "s13") micr_parser.
Proof.
  exact (proj1 (generator_deterministic micr_parser (in_order micr_parser) (reversed micr_parser) id (gostr "s13")
    (in_order_ok _) (reversed_ok _))).
Defined.

(** ** A directory of one file *)

Definition ex_order (k : nat) : list bytes := (map_to_list (AVPs micr_read)).*1.
Definition ex_parser : ProtoParser :=
  match processProtoDirectory ex_order [micr_proto] with Ok (p :: _) => p | _ => NewProtoParser ∅ 0 end.
Definition ex_command : CommandDefinition := List.hd (new_command []) (Commands ex_parser).
Definition ex_field : AVPField := nth 5 (cmd_Fields ex_command) (Build_AVPField 0 [] false false false 0).

Lemma ex_directory : processProtoDirectory ex_order [micr_proto] = Ok [ex_parser].
Proof.
  assert (match processProtoDirectory ex_order [micr_proto] with Ok [_] => true | _ => false end = true) as H by by vm_compute.
  unfold ex_parser. by destruct (processProtoDirectory ex_order [micr_proto]) as [[|p [|q l]]|e|].
Qed.

Lemma micr_covers k q : collect [micr_proto] ∅ ∅ 0 = Ok q -> covers (ex_order k) q.
Proof.
  intros H n Hn.
  assert (bool_decide (map_Forall (fun n _ => n ∈ ex_order k)
    (AVPs (match collect [micr_proto] ∅ ∅ 0 with Ok q => q | _ => NewProtoParser ∅ 0 end))) = true) as Hb by by vm_compute.
  rewrite H in Hb. apply bool_decide_eq_true in Hb. destruct Hn as [x Hx]. exact (Hb n x Hx).
Qed.

Lemma ex_field_printed : printed ex_parser ex_field.
Proof.
  left. exists ex_command. split; apply list_elem_of_In.
  - vm_compute. by left.
  - vm_compute. do 5 right. by left.
Qed.

Lemma ex_field_registered : registered_field ex_parser ex_field.
Proof.
  exists (default 0 (AVPs ex_parser !! gostr "Terminal-Information")), (registered ex_parser (gostr "Terminal-Information")).
  split; [by vm_compute|]. split; [by vm_compute|]. split; [by vm_compute|]. by vm_compute.
Qed.

Lemma constants_declared_witness :
  infix (W "\tAVPCodeTERMINALINFORMATION uint32 = 1401\n")
    (GenerateConstants id (in_order ex_parser) (gostr "s13") ex_parser).
Proof.
  exact (proj2 (proj2 (constants_declared ex_order [micr_proto] [ex_parser] ex_parser (in_order ex_parser) id (gostr "s13")
    ex_field ex_directory micr_covers (list_elem_of_here _ _) (in_order_ok _) ex_field_printed ex_field_registered))).
Defined.

(** ** A message *)

Lemma micr_parser_wf : parser_wf micr_parser.
Proof.
  unfold micr_parser, micr_read.
  assert (parser_wf (NewProtoParser ∅ 0)) as H0 by (apply NewProtoParser_wf; [by intros a [x Hx]|done]).
  pose proof (go_wf _ _ (ParseFile_good micr_proto _ H0)) as H1.
  rewrite resolve_resolved by done. by apply resolved_wf.
Qed.

Lemma group_fields n d vs :
  GroupedFields d <> [] -> fields_wf micr_heap (group_wf micr_heap n) (group_Marshal micr_heap n) (GroupedFields d) vs ->
  group_wf micr_heap (S n) d (Struct vs).
Proof. cbn [group_wf]. by destruct (GroupedFields d). Qed.

(** Computes that the fields of a struct are well-formed, but for its groups. *)
Ltac wf_elems :=
  repeat match goal with
  | |- Forall _ [] => constructor
  | |- Forall _ (_ :: _) => constructor
  | |- elem_ok _ _ _ (Scalar _) => split; [by vm_compute|split; [by vm_compute|split; by vm_compute]]
  end.
Ltac wf_field_ :=
  match goal with |- field_wf ?h ?G ?M ?f ?vs =>
    let b := eval vm_compute in (has_code h f) in
    let l := eval vm_compute in vs in
    change vs with l; unfold field_wf; change (has_code h f) with b; cbv iota;
    lazymatch b with
    | true => split; [wf_elems|vm_compute; try done; lia]
    | false => by vm_compute
    end
  end.
Ltac wf_each :=
  lazymatch goal with
  | |- Forall2 _ [] _ => constructor
  | |- Forall2 _ (_ :: _) _ => constructor; [wf_field_|wf_each]
  end.
Ltac wf_fields :=
  split;
  [ unfold distinct_cases; match goal with |- ?P => apply (bool_decide_unpack P); by vm_compute end
  | match goal with |- Forall2 _ ?fs ?vs =>
      let l := eval vm_compute in vs in let k := eval vm_compute in fs in change fs with k; change vs with l
    end; wf_each ].
Ltac wf_group :=
  split; [by vm_compute|]; split; [apply group_fields; [by vm_compute|wf_fields]|by vm_compute].

Lemma of_example_wf : message_wf micr_heap 1 micr (of_micr example_micr).
Proof. wf_fields. all: wf_group. Qed.

Lemma generated_roundtrip_witness :
  exists m' data,
    d_Marshal (heap micr_parser) 1 micr (of_micr example_micr) = (m', Ok data) /\
    d_Unmarshal (heap micr_parser) 1 micr data (d_zero (heap micr_parser) micr) = (m', Ok tt).
Proof.
  destruct (generated_roundtrip micr_parser 1 micr micr_parser_wf (of_micr example_micr)) as (m' & data & H1 & _ & _ & _ & H2).
  - rewrite micr_heap_eq. exact of_example_wf.
  - by vm_compute.
  - by vm_compute.
  - by vm_compute.
  - exists m', data. split; [exact H1|exact H2].
Defined.

(** ** Names that collide *)

(** Two AVPs whose names differ in dashes or capitals only are declared under
    one name, twice. *)
Lemma constants_collide c c' :
  constant_line (gostr "Item-Number") c = F "\tAVPCodeITEMNUMBER uint32 = %d\n" [show c] /\
  constant_line (gostr "ItemNumber") c' = F "\tAVPCodeITEMNUMBER uint32 = %d\n" [show c'].
Proof. split; by vm_compute. Qed.

(** A proto file may use the types IPv4 and IPv6; their fields become octet
    strings. *)
Lemma ip_types_fall_back :
  is_Some (Available !! gostr "IPv4") /\ getBaseGoType (gostr "IPv4") = gostr "models_base.OctetString" /\
  is_Some (Available !! gostr "IPv6") /\ getDecoder (gostr "IPv6") = gostr "models_base.DecodeOctetString".
Proof. split_and!; first [by vm_compute|by eexists]. Qed.

(** A required repeated field is checked only beside a required field of one
    value. *)
Lemma required_repeated_unchecked h cmd m :
  Forall (fun f => Repeated f = true) (cmd_Fields cmd) -> d_Validate h cmd m = None.
Proof.
  intros H. unfold d_Validate. destruct (existsb _ (cmd_Fields cmd)) eqn:E; [|done].
  apply existsb_exists in E as (f & Hf & Hr). rewrite List.Forall_forall in H.
  by rewrite (H f Hf), andb_false_r in Hr.
Qed.
